(** * rchitect: naming, path resolution, rename engine and barrel updater

    A shallow embedding of the scaffolding CLI's core
    (src/utils/validate.js, src/utils/templates.js, src/utils/barrel.js,
    src/commands/add.js, src/commands/rename.js, src/commands/remove.js,
    src/mcp/server.js) and the properties its specification states.

    JavaScript strings are modelled as [string] (sequences of 8-bit
    characters); every identifier the program manufactures is ASCII.
    Commands run in a small monad over a [world]: the current working
    directory, a directory tree, the console and the list of file-system
    calls made so far.  [process.exit] and thrown exceptions are outcomes
    of that monad. *)

From Stdlib Require Import String Ascii List Bool Arith Lia.
Import ListNotations.
Local Open Scope list_scope.
Local Open Scope string_scope.

Set Implicit Arguments.
Set Warnings "-register-all".

(* ------------------------------------------------------------------ *)
(** ** JavaScript string primitives *)
(* ------------------------------------------------------------------ *)

Module JS.

(** The double-quote character and the line feed. *)
Definition dq : string := String (ascii_of_nat 34) EmptyString.
Definition nl : string := String (ascii_of_nat 10) EmptyString.

(** [s.startsWith(p)] *)
Fixpoint startsWith (p s : string) : bool :=
  match p with
  | EmptyString => true
  | String a p' =>
      match s with
      | EmptyString => false
      | String b s' => if Ascii.eqb a b then startsWith p' s' else false
      end
  end.

(** [s.includes(p)] *)
Fixpoint includes (p s : string) : bool :=
  startsWith p s ||
  match s with
  | EmptyString => false
  | String _ s' => includes p s'
  end.

(** [s.split(sep)] for a non-empty separator: [skip] counts the
    characters of a separator occurrence still to be passed over. *)
Fixpoint split_from (sep : string) (skip : nat) (s : string) : list string :=
  match s with
  | EmptyString => [EmptyString]
  | String c s' =>
      match skip with
      | S k => split_from sep k s'
      | O =>
          if startsWith sep s
          then EmptyString :: split_from sep (String.length sep - 1) s'
          else match split_from sep 0 s' with
               | h :: t => String c h :: t
               | [] => [String c EmptyString]
               end
      end
  end.

Fixpoint chars (s : string) : list string :=
  match s with
  | EmptyString => []
  | String c s' => String c EmptyString :: chars s'
  end.

(** [s.split(sep)]: an empty separator cuts between every two
    characters (and yields the empty array on the empty string). *)
Definition split (sep s : string) : list string :=
  match sep with
  | EmptyString => chars s
  | _ => split_from sep 0 s
  end.

(** [parts.join(sep)] *)
Fixpoint join (sep : string) (parts : list string) : string :=
  match parts with
  | [] => EmptyString
  | [x] => x
  | x :: rest => x ++ sep ++ join sep rest
  end.

Definition is_upper (c : ascii) : bool :=
  ((65 <=? nat_of_ascii c) && (nat_of_ascii c <=? 90))%nat.
Definition is_lower (c : ascii) : bool :=
  ((97 <=? nat_of_ascii c) && (nat_of_ascii c <=? 122))%nat.
Definition is_digit (c : ascii) : bool :=
  ((48 <=? nat_of_ascii c) && (nat_of_ascii c <=? 57))%nat.

(** [c.toLowerCase()] on one character. *)
Definition lower (c : ascii) : ascii :=
  if is_upper c then ascii_of_nat (nat_of_ascii c + 32) else c.

(** White space removed by [String.prototype.trim] (ASCII part). *)
Definition is_space (c : ascii) : bool :=
  let n := nat_of_ascii c in
  ((n =? 32) || ((9 <=? n) && (n <=? 13)))%nat.

Fixpoint trimStart (s : string) : string :=
  match s with
  | EmptyString => EmptyString
  | String c s' => if is_space c then trimStart s' else s
  end.

Fixpoint trimEnd (s : string) : string :=
  match s with
  | EmptyString => EmptyString
  | String c s' =>
      match trimEnd s' with
      | EmptyString => if is_space c then EmptyString else String c EmptyString
      | t => String c t
      end
  end.

Definition trim (s : string) : string := trimEnd (trimStart s).

(** Truthiness of a string: every string but the empty one. *)
Definition truthy (s : string) : bool := negb (String.eqb s EmptyString).

End JS.

(* ------------------------------------------------------------------ *)
(** ** Regular expressions, as far as [PASCAL_CASE_REGEX] needs them *)
(* ------------------------------------------------------------------ *)

Module Regex.

Inductive regex : Type :=
| Void                                  (* matches nothing *)
| Eps                                   (* matches the empty string *)
| Range (lo hi : ascii)                 (* [lo-hi] *)
| Alt (r1 r2 : regex)                   (* character class union / | *)
| Seq (r1 r2 : regex)
| Star (r : regex).

Definition in_range (lo hi c : ascii) : bool :=
  ((nat_of_ascii lo <=? nat_of_ascii c) && (nat_of_ascii c <=? nat_of_ascii hi))%nat.

Fixpoint nullable (r : regex) : bool :=
  match r with
  | Void => false
  | Eps => true
  | Range _ _ => false
  | Alt r1 r2 => nullable r1 || nullable r2
  | Seq r1 r2 => nullable r1 && nullable r2
  | Star _ => true
  end.

Fixpoint deriv (c : ascii) (r : regex) : regex :=
  match r with
  | Void => Void
  | Eps => Void
  | Range lo hi => if in_range lo hi c then Eps else Void
  | Alt r1 r2 => Alt (deriv c r1) (deriv c r2)
  | Seq r1 r2 =>
      if nullable r1
      then Alt (Seq (deriv c r1) r2) (deriv c r2)
      else Seq (deriv c r1) r2
  | Star r1 => Seq (deriv c r1) (Star r1)
  end.

(** [/^r$/.test(s)]: without the [m] flag [^] and [$] anchor at the two
    ends of the input, so the test is a match of the whole string. *)
Fixpoint test (r : regex) (s : string) : bool :=
  match s with
  | EmptyString => nullable r
  | String c s' => test (deriv c r) s'
  end.

End Regex.

(* ------------------------------------------------------------------ *)
(** ** The world commands run in *)
(* ------------------------------------------------------------------ *)

(** A file-system entry: a file with its text, or a directory with its
    entries in [readdir] order. *)
Inductive node : Type :=
| File (data : string)
| Dir (entries : list (string * node)).

Inductive error : Type :=
| ENOENT (path : string)
| EISDIR (path : string)
| ENOTDIR (path : string)
| ENOTEMPTY (path : string)
| EINVAL (path : string)
| SyntaxError (path : string)
| TypeError (what : string)
| OutOfFuel.

(** One call into [fs] / [fs-extra]. *)
Inductive fscall : Type :=
| CpathExists (p : string)
| CreadFile (p : string)
| CreadJson (p : string)
| CwriteFile (p : string)
| CappendFile (p : string)
| Creaddir (p : string)
| Cstat (p : string)
| Crename (src dst : string)
| CensureDir (p : string)
| Cremove (p : string).

Record world : Type := World {
  cwd : string;              (* process.cwd() *)
  disk : node;               (* the tree below "/" *)
  console : list string;     (* console.log lines, oldest first *)
  calls : list fscall        (* file-system calls, oldest first *)
}.

Inductive outcome (A : Type) : Type :=
| Ret (a : A)
| Exit (code : nat)          (* process.exit(code) *)
| Throw (e : error).         (* an exception / a rejected promise *)

Arguments Ret {A} a.
Arguments Exit {A} code.
Arguments Throw {A} e.

Definition M (A : Type) : Type := world -> outcome A * world.

Definition ret {A} (a : A) : M A := fun w => (Ret a, w).

Definition bind {A B} (m : M A) (k : A -> M B) : M B :=
  fun w =>
    match m w with
    | (Ret a, w') => k a w'
    | (Exit c, w') => (Exit c, w')
    | (Throw e, w') => (Throw e, w')
    end.

Declare Scope cmd_scope.
Delimit Scope cmd_scope with cmd.
Notation "x <- m ;; k" := (bind m (fun x => k))
  (at level 61, m at next level, right associativity) : cmd_scope.
Notation "m ;; k" := (bind m (fun _ => k))
  (at level 61, right associativity) : cmd_scope.
Local Open Scope cmd_scope.

Definition exit {A} (code : nat) : M A := fun w => (Exit code, w).
Definition throw {A} (e : error) : M A := fun w => (Throw e, w).
Definition getcwd : M string := fun w => (Ret (cwd w), w).

(** [console.log(line)]; chalk's colour codes are not modelled. *)
Definition log (line : string) : M unit :=
  fun w => (Ret tt, World (cwd w) (disk w) (console w ++ [line])%list (calls w)).

(* ------------------------------------------------------------------ *)
(** ** src/utils/validate.js *)
(* ------------------------------------------------------------------ *)

Module Validate.
Import JS Regex.

(** [/^[A-Z][a-zA-Z0-9]*$/] *)
Definition PASCAL_CASE_REGEX : regex :=
  Seq (Range "A"%char "Z"%char)
      (Star (Alt (Range "a" "z") (Alt (Range "A" "Z") (Range "0" "9"))))%char.

Definition validateName (name type : string) : M bool :=
  if negb (truthy name) || (String.length (trim name) =? 0)%nat then
    log (nl ++ "  Error: " ++ type ++ " name cannot be empty." ++ nl) ;;
    exit 1
  else if negb (test PASCAL_CASE_REGEX name) then
    log (nl ++ "  Error: " ++ dq ++ name ++ dq ++ " is not a valid " ++ type ++ " name.") ;;
    log "  Names must be PascalCase (start with uppercase, alphanumeric only)." ;;
    log ("  Examples: Button, UserProfile, DataTable" ++ nl) ;;
    exit 1
  else ret true.

(** [name.charAt(0).toLowerCase() + name.slice(1)] *)
Definition toCamelCase (name : string) : string :=
  match name with
  | EmptyString => EmptyString
  | String c rest => String (lower c) rest
  end.

(** The specification's wording of a valid name: non-empty, first
    character an upper-case letter, every other one a letter or digit. *)
Definition is_alnum (c : ascii) : bool := is_lower c || is_upper c || is_digit c.

Fixpoint all_chars (p : ascii -> bool) (s : string) : bool :=
  match s with
  | EmptyString => true
  | String c s' => p c && all_chars p s'
  end.

Definition pascal_case_spec (name : string) : bool :=
  match name with
  | EmptyString => false
  | String c rest => is_upper c && all_chars is_alnum rest
  end.

End Validate.

(* ------------------------------------------------------------------ *)
(** ** Node's [path] module (POSIX flavour) *)
(* ------------------------------------------------------------------ *)

Module Path.
Import JS.

(** One step of [normalizeString]: [stack] holds the segments kept so
    far, last one first. *)
Definition norm_step (allowAbove : bool) (stack : list string) (seg : string)
  : list string :=
  if String.eqb seg "" || String.eqb seg "." then stack
  else if String.eqb seg ".." then
    match stack with
    | top :: below =>
        if String.eqb top ".."
        then (if allowAbove then seg :: stack else stack)
        else below
    | [] => if allowAbove then [seg] else []
    end
  else seg :: stack.

Definition normalizeString (allowAbove : bool) (p : string) : list string :=
  rev (fold_left (norm_step allowAbove) (split "/" p) []).

Fixpoint endsWithSlash (s : string) : bool :=
  match s with
  | EmptyString => false
  | String c EmptyString => Ascii.eqb c "/"
  | String _ s' => endsWithSlash s'
  end.

(** [path.normalize(p)] *)
Definition normalize (p : string) : string :=
  if String.eqb p "" then "."
  else
    let isAbsolute := startsWith "/" p in
    let trailing := endsWithSlash p in
    let body := join "/" (normalizeString (negb isAbsolute) p) in
    if String.eqb body "" then
      (if isAbsolute then "/" else if trailing then "./" else ".")
    else
      (if isAbsolute then "/" else "") ++ body ++ (if trailing then "/" else "").

(** [path.join(...args)]: the non-empty arguments, glued with [/] and
    normalised. *)
Definition join (args : list string) : string :=
  let joined := JS.join "/" (filter truthy args) in
  if String.eqb joined "" then "." else normalize joined.

(** The segments of a path below the root [/]. *)
Definition segments (p : string) : list string := normalizeString false p.

(** [path.basename(p)] and [path.dirname(p)], on the normalised paths
    [join] produces. *)
Definition basename (p : string) : string :=
  last (filter truthy (split "/" p)) "".

Definition dirname (p : string) : string :=
  let d := JS.join "/" (removelast (filter truthy (split "/" p))) in
  if startsWith "/" p then "/" ++ d
  else if String.eqb d "" then "." else d.

Fixpoint last_dot_suffix (s : string) : option string :=
  match s with
  | EmptyString => None
  | String c s' =>
      match last_dot_suffix s' with
      | Some e => Some e
      | None => if Ascii.eqb c "." then Some s else None
      end
  end.

(** [path.extname(name)] of a bare entry name: from the last dot on,
    unless that dot is the name's first character. *)
Definition extname (name : string) : string :=
  match name with
  | EmptyString => ""
  | String _ rest =>
      if String.eqb name ".." then ""
      else match last_dot_suffix rest with
           | Some e => e
           | None => ""
           end
  end.

Fixpoint strip_common (a b : list string) : list string * list string :=
  match a, b with
  | x :: a', y :: b' => if String.eqb x y then strip_common a' b' else (a, b)
  | _, _ => (a, b)
  end.

(** [path.relative(from, to)] for two absolute paths. *)
Definition relative (from to : string) : string :=
  let '(f, t) := strip_common (segments from) (segments to) in
  JS.join "/" (map (fun _ => "..") f ++ t)%list.

End Path.

(* ------------------------------------------------------------------ *)
(** ** The file system ([fs-extra]) *)
(* ------------------------------------------------------------------ *)

Module Fs.
Import JS.

Fixpoint assoc (k : string) (es : list (string * node)) : option node :=
  match es with
  | [] => None
  | (k', v) :: t => if String.eqb k k' then Some v else assoc k t
  end.

(** Directories keep their entries ordered by name. *)
Fixpoint put (k : string) (v : node) (es : list (string * node))
  : list (string * node) :=
  match es with
  | [] => [(k, v)]
  | (k', v') :: t =>
      match String.compare k k' with
      | Lt => (k, v) :: es
      | Eq => (k, v) :: t
      | Gt => (k', v') :: put k v t
      end
  end.

Fixpoint del (k : string) (es : list (string * node)) : list (string * node) :=
  match es with
  | [] => []
  | (k', v') :: t => if String.eqb k k' then del k t else (k', v') :: del k t
  end.

Fixpoint lookup (p : list string) (n : node) : option node :=
  match p with
  | [] => Some n
  | s :: q =>
      match n with
      | Dir es =>
          match assoc s es with
          | Some c => lookup q c
          | None => None
          end
      | File _ => None
      end
  end.

(** Set ([Some]) or delete ([None]) the entry at [p]; [None] when the
    parent of [p] is not an existing directory. *)
Fixpoint store (p : list string) (v : option node) (n : node) : option node :=
  match p, n with
  | [], _ => None
  | s :: q, Dir es =>
      match q with
      | [] => Some (Dir (match v with
                         | Some x => put s x es
                         | None => del s es
                         end))
      | _ :: _ =>
          match assoc s es with
          | Some c =>
              match store q v c with
              | Some c' => Some (Dir (put s c' es))
              | None => None
              end
          | None => None
          end
      end
  | _ :: _, File _ => None
  end.

(** [mkdir -p]: [None] when a file is in the way. *)
Fixpoint mkdirs (p : list string) (n : node) : option node :=
  match p, n with
  | [], Dir _ => Some n
  | [], File _ => None
  | s :: q, Dir es =>
      match mkdirs q (match assoc s es with Some c => c | None => Dir [] end) with
      | Some c' => Some (Dir (put s c' es))
      | None => None
      end
  | _ :: _, File _ => None
  end.

Fixpoint is_prefix (a b : list string) : bool :=
  match a, b with
  | [], _ => true
  | x :: a', y :: b' => String.eqb x y && is_prefix a' b'
  | _ :: _, [] => false
  end.

(** Nesting depth of a tree: a bound on how deep a walk can recurse. *)
Fixpoint depth (n : node) : nat :=
  match n with
  | File _ => 1
  | Dir es =>
      S ((fix deepest (l : list (string * node)) : nat :=
            match l with
            | [] => 0
            | (_, c) :: t => Nat.max (depth c) (deepest t)
            end) es)
  end.

(** The world after one more call into the file system. *)
Definition noted (c : fscall) (w : world) : world :=
  World (cwd w) (disk w) (console w) (calls w ++ [c])%list.

Definition record (c : fscall) : M unit := fun w => (Ret tt, noted c w).

Definition getdisk : M node := fun w => (Ret (disk w), w).

Definition setdisk (d : node) : M unit :=
  fun w => (Ret tt, World (cwd w) d (console w) (calls w)).

(** Where a path points: a relative one is taken from the working
    directory. *)
Definition at_path (p : string) (w : world) : list string :=
  Path.segments (if startsWith "/" p then p else cwd w ++ "/" ++ p).

Definition locate (p : string) : M (list string) :=
  fun w => (Ret (at_path p w), w).

(** What a world holds at a path: the subtree, and the text of a file. *)
Definition subtree (p : string) (w : world) : option node :=
  lookup (at_path p w) (disk w).

Definition peek (p : string) (w : world) : option string :=
  match subtree p w with
  | Some (File data) => Some data
  | _ => None
  end.

Definition pathExists (p : string) : M bool :=
  record (CpathExists p) ;;
  at_ <- locate p ;;
  d <- getdisk ;;
  ret (match lookup at_ d with Some _ => true | None => false end).

Definition readFile (p : string) : M string :=
  record (CreadFile p) ;;
  at_ <- locate p ;;
  d <- getdisk ;;
  match lookup at_ d with
  | Some (File data) => ret data
  | Some (Dir _) => throw (EISDIR p)
  | None => throw (ENOENT p)
  end.

(** The parent directory a write or a rename needs. *)
Definition parentDir (p : string) (at_ : list string) (d : node) : M unit :=
  match lookup (removelast at_) d with
  | Some (Dir _) => ret tt
  | Some (File _) => throw (ENOTDIR p)
  | None => throw (ENOENT p)
  end.

Definition put_at (p : string) (at_ : list string) (v : option node) (d : node)
  : M unit :=
  match store at_ v d with
  | Some d' => setdisk d'
  | None => throw (EINVAL p)
  end.

Definition writeFile (p data : string) : M unit :=
  record (CwriteFile p) ;;
  at_ <- locate p ;;
  d <- getdisk ;;
  match lookup at_ d with
  | Some (Dir _) => throw (EISDIR p)
  | _ => parentDir p at_ d ;; put_at p at_ (Some (File data)) d
  end.

Definition appendFile (p data : string) : M unit :=
  record (CappendFile p) ;;
  at_ <- locate p ;;
  d <- getdisk ;;
  match lookup at_ d with
  | Some (Dir _) => throw (EISDIR p)
  | Some (File old) => put_at p at_ (Some (File (old ++ data))) d
  | None => parentDir p at_ d ;; put_at p at_ (Some (File data)) d
  end.

Definition readdir (p : string) : M (list string) :=
  record (Creaddir p) ;;
  at_ <- locate p ;;
  d <- getdisk ;;
  match lookup at_ d with
  | Some (Dir es) => ret (map fst es)
  | Some (File _) => throw (ENOTDIR p)
  | None => throw (ENOENT p)
  end.

(** [(await fs.stat(p)).isDirectory()] *)
Definition statIsDirectory (p : string) : M bool :=
  record (Cstat p) ;;
  at_ <- locate p ;;
  d <- getdisk ;;
  match lookup at_ d with
  | Some (Dir _) => ret true
  | Some (File _) => ret false
  | None => throw (ENOENT p)
  end.

(** [fs.rename(src, dst)], with rename(2)'s rules for an existing
    destination. *)
Definition rename (src dst : string) : M unit :=
  record (Crename src dst) ;;
  s <- locate src ;;
  t <- locate dst ;;
  d <- getdisk ;;
  match lookup s d with
  | None => throw (ENOENT src)
  | Some n =>
      if is_prefix s t && is_prefix t s then ret tt
      else if is_prefix s t then throw (EINVAL dst)
      else
        parentDir dst t d ;;
        match lookup t d, n with
        | Some (File _), Dir _ => throw (ENOTDIR dst)
        | Some (Dir _), File _ => throw (EISDIR dst)
        | Some (Dir (_ :: _)), Dir _ => throw (ENOTEMPTY dst)
        | _, _ =>
            match store s None d with
            | Some d1 => put_at dst t (Some n) d1
            | None => throw (EINVAL src)
            end
        end
  end.

Definition ensureDir (p : string) : M unit :=
  record (CensureDir p) ;;
  at_ <- locate p ;;
  d <- getdisk ;;
  match mkdirs at_ d with
  | Some d' => setdisk d'
  | None => throw (ENOTDIR p)
  end.

(** [fs.remove(p)]: [rm -rf]; a missing target is not an error. *)
Definition remove (p : string) : M unit :=
  record (Cremove p) ;;
  at_ <- locate p ;;
  d <- getdisk ;;
  match lookup at_ d with
  | None => ret tt
  | Some _ => put_at p at_ None d
  end.

End Fs.

(* ------------------------------------------------------------------ *)
(** ** Configuration and structure tables *)
(* ------------------------------------------------------------------ *)

(** The parsed [.rchitect.json].  [withTests] and [useClient] are only
    ever tested for truthiness. *)
Record Config : Type := {
  framework : string;
  pattern : string;
  language : string;
  styling : string;
  withTests : bool;
  useClient : bool
}.

(** One entry of [src/structures/react.js] or [src/structures/nextjs.js]:
    the folders to scaffold and a directory per resource kind.
    [componentPath] receives the name and the atomic level, either of
    which a caller may leave out; [apiPath] exists for Next.js only. *)
Record Structure : Type := {
  folders : list string;
  componentPath : option string -> option string -> string;
  hookPath : string;
  pagePath : string;
  servicePath : string;
  contextPath : string;
  storePath : string;
  typePath : string;
  featurePath : string;
  apiPath : option string
}.

(** A JavaScript object with string keys, in property order: assigning
    to a key that exists replaces its value where it stands, a new key
    goes last.  (No key below is an array index: each contains a dot.) *)
Definition obj : Type := list (string * string).

Fixpoint obj_set (k v : string) (o : obj) : obj :=
  match o with
  | [] => [(k, v)]
  | (k', v') :: t => if String.eqb k k' then (k, v) :: t else (k', v') :: obj_set k v t
  end.

Definition obj_of (props : list (string * string)) : obj :=
  fold_left (fun o kv => obj_set (fst kv) (snd kv) o) props [].

(** [Object.keys(o)] *)
Definition keys (o : obj) : list string := map fst o.

(* ------------------------------------------------------------------ *)
(** ** src/utils/templates.js *)
(* ------------------------------------------------------------------ *)

Module Templates.
Import JS Validate.

(** A template literal, line by line; each line ends in a line feed. *)
Definition text (lines : list string) : string :=
  String.concat "" (map (fun l => (l ++ nl)%string) lines).

Record Extensions : Type := { compExt : string; scriptExt : string; styleExt : string }.

Definition getExtensions (config : Config) : Extensions :=
  {| compExt := if String.eqb (language config) "typescript" then "tsx" else "jsx";
     scriptExt := if String.eqb (language config) "typescript" then "ts" else "js";
     styleExt := if String.eqb (styling config) "scss" then "scss" else "css" |}.

Record TemplateResult : Type := { files : obj; resolvedName : string }.

Definition isTS (config : Config) : bool := String.eqb (language config) "typescript".

Definition clientDirective (on : bool) : string :=
  if on then "'use client';" ++ nl ++ nl else "".

Definition atomicBodyByLevel (name level : string) : string :=
  if String.eqb level "atom" then
    "  return <span className={styles.container}>" ++ name ++ "</span>;"
  else if String.eqb level "molecule" then
    "  return (" ++ nl ++ "    <div className={styles.container}>" ++ nl
    ++ "      {/* Compose atoms here */}" ++ nl ++ "      <span>" ++ name ++ "</span>" ++ nl
    ++ "    </div>" ++ nl ++ "  );"
  else if String.eqb level "organism" then
    "  return (" ++ nl ++ "    <section className={styles.container}>" ++ nl
    ++ "      {/* Compose molecules here */}" ++ nl ++ "      <h2>" ++ name ++ "</h2>" ++ nl
    ++ "    </section>" ++ nl ++ "  );"
  else if String.eqb level "template" then
    "  return (" ++ nl ++ "    <div className={styles.container}>" ++ nl
    ++ "      {/* Layout structure — plug in organisms */}" ++ nl
    ++ "      <header />" ++ nl ++ "      <main>" ++ name ++ "</main>" ++ nl
    ++ "      <footer />" ++ nl ++ "    </div>" ++ nl ++ "  );"
  else if String.eqb level "page" then
    "  return (" ++ nl ++ "    <div className={styles.container}>" ++ nl
    ++ "      {/* Page — use a template and pass data */}" ++ nl
    ++ "      <h1>" ++ name ++ "</h1>" ++ nl ++ "    </div>" ++ nl ++ "  );"
  else
    "  return <div className={styles.container}>" ++ name ++ "</div>;".

Definition componentTestTemplate (name : string) : string :=
  text [ "import React from 'react';";
         "import { render } from '@testing-library/react';";
         "import " ++ name ++ " from './" ++ name ++ "';";
         "";
         "describe('" ++ name ++ "', () => {";
         "  it('renders without crashing', () => {";
         "    render(<" ++ name ++ " />);";
         "  });";
         "});" ].

Definition componentTemplate (name : string) (config : Config) (level : option string)
  : obj :=
  let ext := getExtensions config in
  let useClient := String.eqb (framework config) "nextjs" && useClient config in
  let body :=
    match level with
    | Some l =>
        if String.eqb (pattern config) "atomic-design" && truthy l
        then atomicBodyByLevel name l
        else "  return <div className={styles.container}>" ++ name ++ "</div>;"
    | None => "  return <div className={styles.container}>" ++ name ++ "</div>;"
    end in
  let propsType := if isTS config then nl ++ "interface " ++ name ++ "Props {}" ++ nl else "" in
  let fcType := if isTS config then ": React.FC<" ++ name ++ "Props>" else "" in
  let component :=
    text [ clientDirective useClient ++ "import React from 'react';";
           "import styles from './" ++ name ++ ".module." ++ styleExt ext ++ "';";
           propsType;
           "const " ++ name ++ fcType ++ " = () => {";
           body;
           "};";
           "";
           "export default " ++ name ++ ";" ] in
  let files :=
    obj_of [ (name ++ "." ++ compExt ext, component);
             (name ++ ".module." ++ styleExt ext, ".container {}" ++ nl);
             ("index." ++ scriptExt ext, "export { default } from './" ++ name ++ "';" ++ nl) ] in
  if withTests config
  then obj_set (name ++ ".test." ++ compExt ext) (componentTestTemplate name) files
  else files.

Definition hookTemplate (name : string) (config : Config) : TemplateResult :=
  let ext := getExtensions config in
  let camel := toCamelCase name in
  let hookName := if startsWith "use" camel then camel else "use" ++ name in
  let content :=
    text [ "import { useState, useEffect } from 'react';";
           (if isTS config then nl ++ "interface " ++ name ++ "Options {}" ++ nl else "");
           "const " ++ hookName ++ " = ("
             ++ (if isTS config then "options?: " ++ name ++ "Options" else "options = {}")
             ++ ") => {";
           "  // Add hook logic here";
           "  return {};";
           "};";
           "";
           "export default " ++ hookName ++ ";" ] in
  let files :=
    obj_of [ (hookName ++ "." ++ scriptExt ext, content);
             ("index." ++ scriptExt ext, "export { default } from './" ++ hookName ++ "';" ++ nl) ] in
  {| files :=
       if withTests config
       then obj_set (hookName ++ ".test." ++ scriptExt ext)
              (text [ "import { renderHook } from '@testing-library/react';";
                      "import " ++ hookName ++ " from './" ++ hookName ++ "';";
                      "";
                      "describe('" ++ hookName ++ "', () => {";
                      "  it('returns expected value', () => {";
                      "    const { result } = renderHook(() => " ++ hookName ++ "());";
                      "    expect(result.current).toBeDefined();";
                      "  });";
                      "});" ])
              files
       else files;
     resolvedName := hookName |}.

Definition pageTemplate (name : string) (config : Config) : obj :=
  let ext := getExtensions config in
  let useClient := String.eqb (framework config) "nextjs" && useClient config in
  let propsType := if isTS config then nl ++ "interface " ++ name ++ "PageProps {}" ++ nl else "" in
  let fcType := if isTS config then ": React.FC<" ++ name ++ "PageProps>" else "" in
  let component :=
    text [ clientDirective useClient ++ "import React from 'react';";
           "import styles from './" ++ name ++ "Page.module." ++ styleExt ext ++ "';";
           propsType;
           "const " ++ name ++ "Page" ++ fcType ++ " = () => {";
           "  return (";
           "    <div className={styles.container}>";
           "      <h1>" ++ name ++ "</h1>";
           "    </div>";
           "  );";
           "};";
           "";
           "export default " ++ name ++ "Page;" ] in
  let files :=
    obj_of [ (name ++ "Page." ++ compExt ext, component);
             (name ++ "Page.module." ++ styleExt ext, ".container {}" ++ nl);
             ("index." ++ scriptExt ext, "export { default } from './" ++ name ++ "Page';" ++ nl) ] in
  if withTests config
  then obj_set (name ++ "Page.test." ++ compExt ext)
         (text [ "import React from 'react';";
                 "import { render } from '@testing-library/react';";
                 "import " ++ name ++ "Page from './" ++ name ++ "Page';";
                 "";
                 "describe('" ++ name ++ "Page', () => {";
                 "  it('renders without crashing', () => {";
                 "    render(<" ++ name ++ "Page />);";
                 "  });";
                 "});" ])
         files
  else files.

Definition serviceTemplate (name : string) (config : Config) : TemplateResult :=
  let ext := getExtensions config in
  let camel := toCamelCase name in
  let serviceName := camel ++ "Service" in
  let content :=
    if isTS config
    then "interface " ++ name ++ "Service {}" ++ nl ++ nl
         ++ "const " ++ serviceName ++ ": " ++ name ++ "Service = {" ++ nl
         ++ "  // Add service methods here" ++ nl ++ "};" ++ nl ++ nl
         ++ "export default " ++ serviceName ++ ";" ++ nl
    else "const " ++ serviceName ++ " = {" ++ nl
         ++ "  // Add service methods here" ++ nl ++ "};" ++ nl ++ nl
         ++ "export default " ++ serviceName ++ ";" ++ nl in
  let files :=
    obj_of [ (serviceName ++ "." ++ scriptExt ext, content);
             ("index." ++ scriptExt ext, "export { default } from './" ++ serviceName ++ "';" ++ nl) ] in
  {| files :=
       if withTests config
       then obj_set (serviceName ++ ".test." ++ scriptExt ext)
              (text [ "import " ++ serviceName ++ " from './" ++ serviceName ++ "';";
                      "";
                      "describe('" ++ serviceName ++ "', () => {";
                      "  it('should be defined', () => {";
                      "    expect(" ++ serviceName ++ ").toBeDefined();";
                      "  });";
                      "});" ])
              files
       else files;
     resolvedName := serviceName |}.

Definition contextTemplate (name : string) (config : Config) : TemplateResult :=
  let ext := getExtensions config in
  (* Contexts are always client components in Next.js *)
  let directive := clientDirective (String.eqb (framework config) "nextjs") in
  let hookName := "use" ++ name in
  let contextName := name ++ "Context" in
  let content :=
    if isTS config then
      text [ directive ++ "import React, { createContext, useContext, useState } from 'react';";
             "";
             "interface " ++ name ++ "ContextValue {";
             "  // Add context value shape here";
             "}";
             "";
             "const " ++ contextName ++ " = createContext<" ++ name ++ "ContextValue | undefined>(undefined);";
             "";
             "export function " ++ name ++ "Provider({ children }: { children: React.ReactNode }) {";
             "  // Add state and logic here";
             "";
             "  const value: " ++ name ++ "ContextValue = {";
             "    // Provide values here";
             "  };";
             "";
             "  return (";
             "    <" ++ contextName ++ ".Provider value={value}>";
             "      {children}";
             "    </" ++ contextName ++ ".Provider>";
             "  );";
             "}";
             "";
             "export function " ++ hookName ++ "(): " ++ name ++ "ContextValue {";
             "  const context = useContext(" ++ contextName ++ ");";
             "  if (!context) {";
             "    throw new Error('" ++ hookName ++ " must be used within a " ++ name ++ "Provider');";
             "  }";
             "  return context;";
             "}";
             "";
             "export default " ++ contextName ++ ";" ]
    else
      text [ directive ++ "import React, { createContext, useContext, useState } from 'react';";
             "";
             "const " ++ contextName ++ " = createContext(undefined);";
             "";
             "export function " ++ name ++ "Provider({ children }) {";
             "  // Add state and logic here";
             "";
             "  const value = {";
             "    // Provide values here";
             "  };";
             "";
             "  return (";
             "    <" ++ contextName ++ ".Provider value={value}>";
             "      {children}";
             "    </" ++ contextName ++ ".Provider>";
             "  );";
             "}";
             "";
             "export function " ++ hookName ++ "() {";
             "  const context = useContext(" ++ contextName ++ ");";
             "  if (!context) {";
             "    throw new Error('" ++ hookName ++ " must be used within a " ++ name ++ "Provider');";
             "  }";
             "  return context;";
             "}";
             "";
             "export default " ++ contextName ++ ";" ] in
  let files :=
    obj_of [ (contextName ++ "." ++ compExt ext, content);
             ("index." ++ scriptExt ext,
              "export { " ++ name ++ "Provider, " ++ hookName ++ " } from './" ++ contextName ++ "';" ++ nl
              ++ "export { default } from './" ++ contextName ++ "';" ++ nl) ] in
  {| files :=
       if withTests config
       then obj_set (contextName ++ ".test." ++ compExt ext)
              (text [ "import React from 'react';";
                      "import { render, renderHook } from '@testing-library/react';";
                      "import { " ++ name ++ "Provider, " ++ hookName ++ " } from './" ++ contextName ++ "';";
                      "";
                      "describe('" ++ name ++ "Provider', () => {";
                      "  it('renders without crashing', () => {";
                      "    render(<" ++ name ++ "Provider><div /></" ++ name ++ "Provider>);";
                      "  });";
                      "});";
                      "";
                      "describe('" ++ hookName ++ "', () => {";
                      "  it('throws when used outside provider', () => {";
                      "    expect(() => renderHook(() => " ++ hookName ++ "())).toThrow();";
                      "  });";
                      "});" ])
              files
       else files;
     resolvedName := contextName |}.

Definition storeTemplate (name : string) (config : Config) : TemplateResult :=
  let ext := getExtensions config in
  let storeName := "use" ++ name ++ "Store" in
  let content :=
    if isTS config then
      text [ "import { create } from 'zustand';";
             "";
             "interface " ++ name ++ "State {";
             "  // Add state fields here";
             "}";
             "";
             "interface " ++ name ++ "Actions {";
             "  // Add action signatures here";
             "}";
             "";
             "const " ++ storeName ++ " = create<" ++ name ++ "State & " ++ name ++ "Actions>()((set, get) => ({";
             "  // Add state and actions here";
             "}));";
             "";
             "export default " ++ storeName ++ ";" ]
    else
      text [ "import { create } from 'zustand';";
             "";
             "const " ++ storeName ++ " = create((set, get) => ({";
             "  // Add state and actions here";
             "}));";
             "";
             "export default " ++ storeName ++ ";" ] in
  let files :=
    obj_of [ (storeName ++ "." ++ scriptExt ext, content);
             ("index." ++ scriptExt ext, "export { default } from './" ++ storeName ++ "';" ++ nl) ] in
  {| files :=
       if withTests config
       then obj_set (storeName ++ ".test." ++ scriptExt ext)
              (text [ "import { act, renderHook } from '@testing-library/react';";
                      "import " ++ storeName ++ " from './" ++ storeName ++ "';";
                      "";
                      "describe('" ++ storeName ++ "', () => {";
                      "  it('is defined', () => {";
                      "    const { result } = renderHook(() => " ++ storeName ++ "());";
                      "    expect(result.current).toBeDefined();";
                      "  });";
                      "});" ])
              files
       else files;
     resolvedName := storeName |}.

Definition typeTemplate (name : string) (config : Config) : TemplateResult :=
  let scriptExt := scriptExt (getExtensions config) in
  (* Type files are TS-only; for JS projects generate a JSDoc file *)
  let content :=
    if String.eqb (language config) "typescript" then
      text [ "// " ++ name ++ " types";
             "";
             "export interface " ++ name ++ " {";
             "  id: string;";
             "  // Add fields here";
             "}";
             "";
             "export type " ++ name ++ "Id = " ++ name ++ "['id'];";
             "";
             "export type Partial" ++ name ++ " = Partial<" ++ name ++ ">;" ]
    else
      text [ "/**";
             " * @typedef {Object} " ++ name;
             " * @property {string} id";
             " */";
             "";
             "module.exports = {};" ] in
  let ext := if String.eqb (language config) "typescript" then scriptExt else scriptExt in
  {| files := obj_of [ (name ++ ".types." ++ ext, content) ];
     resolvedName := name ++ ".types" |}.

Definition apiTemplate (name : string) (config : Config) : TemplateResult :=
  let ext := if isTS config then "ts" else "js" in
  let camel := toCamelCase name in
  let content :=
    if isTS config then
      text [ "import { NextRequest, NextResponse } from 'next/server';";
             "";
             "export async function GET(request: NextRequest) {";
             "  try {";
             "    return NextResponse.json({ message: 'OK' });";
             "  } catch (error) {";
             "    return NextResponse.json({ error: 'Internal Server Error' }, { status: 500 });";
             "  }";
             "}";
             "";
             "export async function POST(request: NextRequest) {";
             "  try {";
             "    const body = await request.json();";
             "    return NextResponse.json({ message: 'Created', data: body }, { status: 201 });";
             "  } catch (error) {";
             "    return NextResponse.json({ error: 'Internal Server Error' }, { status: 500 });";
             "  }";
             "}" ]
    else
      text [ "/**";
             " * @param {import('next/server').NextRequest} request";
             " */";
             "export async function GET(request) {";
             "  try {";
             "    return Response.json({ message: 'OK' });";
             "  } catch (error) {";
             "    return Response.json({ error: 'Internal Server Error' }, { status: 500 });";
             "  }";
             "}";
             "";
             "/**";
             " * @param {import('next/server').NextRequest} request";
             " */";
             "export async function POST(request) {";
             "  try {";
             "    const body = await request.json();";
             "    return Response.json({ message: 'Created', data: body }, { status: 201 });";
             "  } catch (error) {";
             "    return Response.json({ error: 'Internal Server Error' }, { status: 500 });";
             "  }";
             "}" ] in
  {| files := obj_of [ ("route." ++ ext, content) ];
     resolvedName := camel |}.

Definition featureTemplate (name : string) (config : Config) : TemplateResult :=
  let ext := getExtensions config in
  let useClient := String.eqb (framework config) "nextjs" && useClient config in
  let camel := toCamelCase name in
  let hookName := "use" ++ name in
  let serviceName := camel ++ "Service" in
  let viewComp :=
    text [ clientDirective useClient ++ "import React from 'react';";
           "import styles from './" ++ name ++ "View.module." ++ styleExt ext ++ "';";
           (if isTS config then nl ++ "interface " ++ name ++ "ViewProps {}" ++ nl else "");
           "const " ++ name ++ "View"
             ++ (if isTS config then ": React.FC<" ++ name ++ "ViewProps>" else "") ++ " = () => {";
           "  return (";
           "    <div className={styles.container}>";
           "      <h1>" ++ name ++ "</h1>";
           "    </div>";
           "  );";
           "};";
           "";
           "export default " ++ name ++ "View;" ] in
  let hookContent :=
    text [ "import { useState, useEffect } from 'react';";
           (if isTS config then nl ++ "interface " ++ name ++ "State {}" ++ nl else "");
           "const " ++ hookName ++ " = () => {";
           "  // Add " ++ name ++ " logic here";
           "  return {};";
           "};";
           "";
           "export default " ++ hookName ++ ";" ] in
  let serviceContent :=
    if isTS config
    then "interface " ++ name ++ "Service {}" ++ nl ++ nl
         ++ "const " ++ serviceName ++ ": " ++ name ++ "Service = {" ++ nl
         ++ "  // Add " ++ name ++ " service methods here" ++ nl ++ "};" ++ nl ++ nl
         ++ "export default " ++ serviceName ++ ";" ++ nl
    else "const " ++ serviceName ++ " = {" ++ nl
         ++ "  // Add " ++ name ++ " service methods here" ++ nl ++ "};" ++ nl ++ nl
         ++ "export default " ++ serviceName ++ ";" ++ nl in
  let typesContent :=
    if isTS config
    then "// " ++ name ++ " types" ++ nl ++ nl ++ "export interface " ++ name ++ " {" ++ nl
         ++ "  id: string;" ++ nl ++ "  // Add fields here" ++ nl ++ "}" ++ nl
    else "/** @typedef {{ id: string }} " ++ name ++ " */" ++ nl in
  let featureIndex :=
    "export { default as " ++ name ++ "View } from './components/" ++ name ++ "View';" ++ nl
    ++ "export { default as " ++ hookName ++ " } from './hooks/" ++ hookName ++ "';" ++ nl in
  let files :=
    obj_of [ ("components/" ++ name ++ "View/" ++ name ++ "View." ++ compExt ext, viewComp);
             ("components/" ++ name ++ "View/" ++ name ++ "View.module." ++ styleExt ext,
              ".container {}" ++ nl);
             ("components/" ++ name ++ "View/index." ++ scriptExt ext,
              "export { default } from './" ++ name ++ "View';" ++ nl);
             ("hooks/" ++ hookName ++ "/" ++ hookName ++ "." ++ scriptExt ext, hookContent);
             ("hooks/" ++ hookName ++ "/index." ++ scriptExt ext,
              "export { default } from './" ++ hookName ++ "';" ++ nl);
             ("services/" ++ serviceName ++ "/" ++ serviceName ++ "." ++ scriptExt ext,
              serviceContent);
             ("services/" ++ serviceName ++ "/index." ++ scriptExt ext,
              "export { default } from './" ++ serviceName ++ "';" ++ nl);
             ("types." ++ scriptExt ext, typesContent);
             ("index." ++ scriptExt ext, featureIndex) ] in
  {| files :=
       if withTests config
       then
         obj_set ("hooks/" ++ hookName ++ "/" ++ hookName ++ ".test." ++ scriptExt ext)
           (text [ "import { renderHook } from '@testing-library/react';";
                   "import " ++ hookName ++ " from './" ++ hookName ++ "';";
                   "";
                   "describe('" ++ hookName ++ "', () => {";
                   "  it('returns expected value', () => {";
                   "    const { result } = renderHook(() => " ++ hookName ++ "());";
                   "    expect(result.current).toBeDefined();";
                   "  });";
                   "});" ])
           (obj_set ("components/" ++ name ++ "View/" ++ name ++ "View.test." ++ compExt ext)
              (text [ "import React from 'react';";
                      "import { render } from '@testing-library/react';";
                      "import " ++ name ++ "View from './" ++ name ++ "View';";
                      "";
                      "describe('" ++ name ++ "View', () => {";
                      "  it('renders without crashing', () => {";
                      "    render(<" ++ name ++ "View />);";
                      "  });";
                      "});" ])
              files)
       else files;
     resolvedName := name |}.

End Templates.

(* ------------------------------------------------------------------ *)
(** ** What the query handlers of src/mcp/server.js return *)
(* ------------------------------------------------------------------ *)

Module Reply.

(** The result of [resolve_resource_path]. *)
Record Resolution : Type := {
  type : string;
  name : string;
  directory : string;
  files : list string;
  resolvedName : string;
  note : option string
}.

(** The result of [get_architecture_guide]. *)
Record Guide : Type := {
  pattern : string;
  framework : string;
  description : string;
  folders : list string;
  resourcePlacement : obj;
  namingConventions : obj;
  resourceDescriptions : obj;
  fileExtensions : obj
}.

Inductive reply : Type :=
| Error (error : string)                          (* { error } *)
| ProjectConfig (config : Config) (explanation : obj)
| ArchitectureGuide (guide : Guide)
| ResourcePath (resolution : Resolution).

End Reply.

(* ------------------------------------------------------------------ *)
(** ** src/utils/barrel.js *)
(* ------------------------------------------------------------------ *)

Module Barrel.
Import JS.

Record BarrelUpdateResult : Type := { action : string; path : string }.

Definition updateBarrel (parentDir resourceName scriptExt cwd : string)
  : M BarrelUpdateResult :=
  let barrelPath := Path.join [parentDir; "index." ++ scriptExt] in
  let exportLine :=
    "export { default as " ++ resourceName ++ " } from './" ++ resourceName ++ "';" ++ nl in
  present <- Fs.pathExists barrelPath ;;
  if present then
    existing <- Fs.readFile barrelPath ;;
    if includes ("from './" ++ resourceName ++ "'") existing then
      ret {| action := "skipped"; path := Path.relative cwd barrelPath |}
    else
      Fs.appendFile barrelPath exportLine ;;
      ret {| action := "updated"; path := Path.relative cwd barrelPath |}
  else
    Fs.writeFile barrelPath exportLine ;;
    ret {| action := "created"; path := Path.relative cwd barrelPath |}.

End Barrel.

(* ------------------------------------------------------------------ *)
(** ** The commands and the query handlers *)
(* ------------------------------------------------------------------ *)

Section Commands.
Import JS Validate Templates.

(** [require('../structures/react')] and [require('../structures/nextjs')]:
    the two tables, looked up by pattern.  Their source files are not
    part of the sources at hand, so the tables are parameters. *)
Variable reactStructures : string -> option Structure.
Variable nextjsStructures : string -> option Structure.

(** [JSON.parse] as [fs.readJson] applies it to the configuration
    file; [None] stands for a syntax error. *)
Variable parseConfig : string -> option Config.

Definition readJson (p : string) : M Config :=
  Fs.record (CreadJson p) ;;
  data <- Fs.readFile p ;;
  match parseConfig data with
  | Some config => ret config
  | None => throw (SyntaxError p)
  end.

(** [structures[config.pattern]] with
    [structures = config.framework === 'react' ? reactStructures : nextjsStructures] *)
Definition structureOf (config : Config) : option Structure :=
  (if String.eqb (framework config) "react" then reactStructures else nextjsStructures)
    (pattern config).

Definition notFoundMessage : string :=
  ".rchitect.json not found. Run " ++ dq ++ "rchitect init" ++ dq ++ " first.".

(** [loadConfig] and [getStructure], as add.js, rename.js and remove.js
    each define them. *)
Definition loadConfig (cwd : string) : M Config :=
  let configPath := Path.join [cwd; ".rchitect.json"] in
  present <- Fs.pathExists configPath ;;
  if negb present then
    log (nl ++ "  Error: " ++ notFoundMessage ++ nl) ;;
    exit 1
  else readJson configPath.

Definition getStructure (config : Config) : M Structure :=
  match structureOf config with
  | None => log (nl ++ "  Error: Unknown pattern in config." ++ nl) ;; exit 1
  | Some structure => ret structure
  end.

Definition unknownType (type : string) (supported : list string) : M unit :=
  log (nl ++ "  Error: Unknown type " ++ dq ++ type ++ dq ++ ".") ;;
  log ("  Supported types: " ++ JS.join ", " supported ++ nl) ;;
  exit 1.

(* ---------------------------------------------------------------- *)
(** *** src/commands/add.js *)

Definition ADD_SUPPORTED_TYPES : list string :=
  ["component"; "hook"; "page"; "service"; "context"; "store"; "type"; "api"; "feature"].

Fixpoint writeFiles (files : obj) (targetDir cwd : string) : M unit :=
  match files with
  | [] => ret tt
  | (filePath, content) :: rest =>
      let fullPath := Path.join [targetDir; filePath] in
      Fs.ensureDir (Path.dirname fullPath) ;;
      Fs.writeFile fullPath content ;;
      log ("  created " ++ Path.relative cwd fullPath) ;;
      writeFiles rest targetDir cwd
  end.

Definition withBarrel (parentDir resourceName : string) (config : Config) (cwd : string)
  : M unit :=
  result <- Barrel.updateBarrel parentDir resourceName (scriptExt (getExtensions config)) cwd ;;
  let icon := if String.eqb (Barrel.action result) "skipped" then "  ~barrel " else "  barrel  " in
  log (icon ++ Barrel.path result ++ " (" ++ Barrel.action result ++ ")").

(** What an [add] function fixes before it touches the disk: the
    directory it will create, the resolved name its template returns
    ([componentTemplate] and [pageTemplate] return none) and the files
    object. *)
Record Target : Type := { dir : string; resolved : option string; body : obj }.

(** [answer] is the level chosen at the prompt, asked for under
    atomic-design only. *)
Definition componentTarget (name : string) (config : Config) (structure : Structure)
           (cwd answer : string) : Target :=
  let level := if String.eqb (pattern config) "atomic-design" then Some answer else None in
  {| dir := Path.join [cwd; componentPath structure (Some name) level; name];
     resolved := None;
     body := componentTemplate name config level |}.

Definition hookTarget (name : string) (config : Config) (structure : Structure)
           (cwd : string) : Target :=
  let r := hookTemplate name config in
  {| dir := Path.join [cwd; hookPath structure; resolvedName r];
     resolved := Some (resolvedName r);
     body := files r |}.

Definition pageTarget (name : string) (config : Config) (structure : Structure)
           (cwd : string) : Target :=
  {| dir := Path.join [cwd; pagePath structure; name];
     resolved := None;
     body := pageTemplate name config |}.

Definition serviceTarget (name : string) (config : Config) (structure : Structure)
           (cwd : string) : Target :=
  let r := serviceTemplate name config in
  {| dir := Path.join [cwd; servicePath structure; resolvedName r];
     resolved := Some (resolvedName r);
     body := files r |}.

Definition contextTarget (name : string) (config : Config) (structure : Structure)
           (cwd : string) : Target :=
  let r := contextTemplate name config in
  {| dir := Path.join [cwd; contextPath structure; resolvedName r];
     resolved := Some (resolvedName r);
     body := files r |}.

Definition storeTarget (name : string) (config : Config) (structure : Structure)
           (cwd : string) : Target :=
  let r := storeTemplate name config in
  {| dir := Path.join [cwd; storePath structure; resolvedName r];
     resolved := Some (resolvedName r);
     body := files r |}.

Definition typeTarget (name : string) (config : Config) (structure : Structure)
           (cwd : string) : Target :=
  let r := typeTemplate name config in
  {| dir := Path.join [cwd; typePath structure];
     resolved := Some (resolvedName r);
     body := files r |}.

(** [structure.apiPath()] where the table has no such function. *)
Definition callApiPath (structure : Structure) : M string :=
  match apiPath structure with
  | Some p => ret p
  | None => throw (TypeError "structure.apiPath is not a function")
  end.

Definition apiTarget (name : string) (config : Config) (apiBase cwd : string) : Target :=
  let r := apiTemplate name config in
  {| dir := Path.join [cwd; apiBase; resolvedName r];
     resolved := Some (resolvedName r);
     body := files r |}.

Definition featureTarget (name : string) (config : Config) (structure : Structure)
           (cwd : string) : Target :=
  let r := featureTemplate name config in
  {| dir := Path.join [cwd; featurePath structure; resolvedName r];
     resolved := Some (resolvedName r);
     body := files r |}.

(** The common tail of the [add] functions: refuse an existing
    directory, write the files, patch the parent barrel when the
    resource kind has one, report. *)
Definition create (t : Target) (config : Config) (cwd : string)
           (label shown : string) (barrel : option string) (done : string) : M unit :=
  present <- Fs.pathExists (dir t) ;;
  if present then
    log (nl ++ "  Error: " ++ label ++ " " ++ dq ++ shown ++ dq ++ " already exists at "
         ++ Path.relative cwd (dir t) ++ nl) ;;
    exit 1
  else
    writeFiles (body t) (dir t) cwd ;;
    match barrel with
    | Some resourceName => withBarrel (Path.dirname (dir t)) resourceName config cwd
    | None => ret tt
    end ;;
    log (nl ++ "  " ++ done ++ nl).

Definition addComponent (name : string) (config : Config) (structure : Structure)
           (cwd answer : string) : M unit :=
  validateName name "component" ;;
  create (componentTarget name config structure cwd answer) config cwd
    "Component" name (Some name)
    ("Component " ++ dq ++ name ++ dq ++ " created successfully!").

Definition addHook (name : string) (config : Config) (structure : Structure) (cwd : string)
  : M unit :=
  validateName name "hook" ;;
  let resolvedName := resolvedName (hookTemplate name config) in
  create (hookTarget name config structure cwd) config cwd
    "Hook" resolvedName (Some resolvedName)
    ("Hook " ++ dq ++ resolvedName ++ dq ++ " created successfully!").

Definition addPage (name : string) (config : Config) (structure : Structure) (cwd : string)
  : M unit :=
  validateName name "page" ;;
  create (pageTarget name config structure cwd) config cwd
    "Page" name (Some name)
    ("Page " ++ dq ++ name ++ dq ++ " created successfully!").

Definition addService (name : string) (config : Config) (structure : Structure) (cwd : string)
  : M unit :=
  validateName name "service" ;;
  let resolvedName := resolvedName (serviceTemplate name config) in
  create (serviceTarget name config structure cwd) config cwd
    "Service" resolvedName (Some resolvedName)
    ("Service " ++ dq ++ resolvedName ++ dq ++ " created successfully!").

Definition addContext (name : string) (config : Config) (structure : Structure) (cwd : string)
  : M unit :=
  validateName name "context" ;;
  let resolvedName := resolvedName (contextTemplate name config) in
  create (contextTarget name config structure cwd) config cwd
    "Context" resolvedName (Some resolvedName)
    ("Context " ++ dq ++ resolvedName ++ dq ++ " created successfully!").

Definition addStore (name : string) (config : Config) (structure : Structure) (cwd : string)
  : M unit :=
  validateName name "store" ;;
  let resolvedName := resolvedName (storeTemplate name config) in
  create (storeTarget name config structure cwd) config cwd
    "Store" resolvedName (Some resolvedName)
    ("Store " ++ dq ++ resolvedName ++ dq ++ " created successfully!").

Definition addType (name : string) (config : Config) (structure : Structure) (cwd : string)
  : M unit :=
  validateName name "type" ;;
  let t := typeTarget name config structure cwd in
  Fs.ensureDir (dir t) ;;
  writeFiles (body t) (dir t) cwd ;;
  log (nl ++ "  Type " ++ dq ++ resolvedName (typeTemplate name config) ++ dq
       ++ " created successfully!" ++ nl).

Definition addApi (name : string) (config : Config) (structure : Structure) (cwd : string)
  : M unit :=
  validateName name "api" ;;
  if negb (String.eqb (framework config) "nextjs") then
    log (nl ++ "  Error: API routes are only supported for Next.js projects." ++ nl) ;;
    exit 1
  else
    apiBase <- callApiPath structure ;;
    let resolvedName := resolvedName (apiTemplate name config) in
    create (apiTarget name config apiBase cwd) config cwd
      "API route" resolvedName None
      ("API route " ++ dq ++ "app/api/" ++ resolvedName ++ "/route" ++ dq
       ++ " created successfully!").

Definition addFeature (name : string) (config : Config) (structure : Structure) (cwd : string)
  : M unit :=
  validateName name "feature" ;;
  let resolvedName := resolvedName (featureTemplate name config) in
  create (featureTarget name config structure cwd) config cwd
    "Feature" resolvedName None
    ("Feature " ++ dq ++ resolvedName ++ dq ++ " scaffolded successfully!").

Definition addCommand (type name answer : string) : M unit :=
  if negb (existsb (String.eqb type) ADD_SUPPORTED_TYPES) then
    unknownType type ADD_SUPPORTED_TYPES
  else
    cwd <- getcwd ;;
    config <- loadConfig cwd ;;
    structure <- getStructure config ;;
    if String.eqb type "component" then addComponent name config structure cwd answer
    else if String.eqb type "hook" then addHook name config structure cwd
    else if String.eqb type "page" then addPage name config structure cwd
    else if String.eqb type "service" then addService name config structure cwd
    else if String.eqb type "context" then addContext name config structure cwd
    else if String.eqb type "store" then addStore name config structure cwd
    else if String.eqb type "type" then addType name config structure cwd
    else if String.eqb type "api" then addApi name config structure cwd
    else if String.eqb type "feature" then addFeature name config structure cwd
    else ret tt.

(** The resolution [addCommand] arrives at for a type: [None] where it
    leaves before fixing a directory (an unknown type, [api] outside
    Next.js or without an [apiPath]). *)
Definition addTarget (type name : string) (config : Config) (structure : Structure)
           (cwd answer : string) : option Target :=
  if String.eqb type "component" then Some (componentTarget name config structure cwd answer)
  else if String.eqb type "hook" then Some (hookTarget name config structure cwd)
  else if String.eqb type "page" then Some (pageTarget name config structure cwd)
  else if String.eqb type "service" then Some (serviceTarget name config structure cwd)
  else if String.eqb type "context" then Some (contextTarget name config structure cwd)
  else if String.eqb type "store" then Some (storeTarget name config structure cwd)
  else if String.eqb type "type" then Some (typeTarget name config structure cwd)
  else if String.eqb type "api" then
    if String.eqb (framework config) "nextjs"
    then option_map (fun apiBase => apiTarget name config apiBase cwd) (apiPath structure)
    else None
  else if String.eqb type "feature" then Some (featureTarget name config structure cwd)
  else None.

(* ---------------------------------------------------------------- *)
(** *** src/commands/rename.js *)

Definition RENAME_SUPPORTED_TYPES : list string :=
  ["component"; "hook"; "page"; "service"; "context"; "store"; "feature"].

Definition TEXT_EXTENSIONS : list string := [".ts"; ".tsx"; ".js"; ".jsx"; ".css"; ".scss"].

(** [null] is [None]. *)
Definition resolveDir (type name : string) (config : Config) (structure : Structure)
           (cwd : string) : option string :=
  let camel := toCamelCase name in
  if String.eqb type "component" then
    Some (Path.join [cwd; componentPath structure (Some name) None; name])
  else if String.eqb type "hook" then Some (Path.join [cwd; hookPath structure; "use" ++ name])
  else if String.eqb type "page" then Some (Path.join [cwd; pagePath structure; name])
  else if String.eqb type "service" then
    Some (Path.join [cwd; servicePath structure; camel ++ "Service"])
  else if String.eqb type "context" then
    Some (Path.join [cwd; contextPath structure; name ++ "Context"])
  else if String.eqb type "store" then
    Some (Path.join [cwd; storePath structure; "use" ++ name ++ "Store"])
  else if String.eqb type "feature" then Some (Path.join [cwd; featurePath structure; name])
  else None.

Definition buildReplacementPairs (oldName newName : string) : list (string * string) :=
  let oldCamel := toCamelCase oldName in
  let newCamel := toCamelCase newName in
  filter (fun p => negb (String.eqb (fst p) (snd p)))
    [ ("use" ++ oldName ++ "Store", "use" ++ newName ++ "Store");
      (oldName ++ "Context", newName ++ "Context");
      (oldName ++ "Provider", newName ++ "Provider");
      (oldName ++ "Page", newName ++ "Page");
      ("use" ++ oldName, "use" ++ newName);
      (oldCamel ++ "Service", newCamel ++ "Service");
      (oldCamel, newCamel);
      (oldName, newName) ].

(** [pairs.reduce((s, [from, to]) => s.split(from).join(to), str)] *)
Definition applyReplacements (str : string) (pairs : list (string * string)) : string :=
  fold_left (fun s p => JS.join (snd p) (split (fst p) s)) pairs str.

(** The walk recurses into the directories it meets on disk; [fuel]
    bounds the nesting ([renameCommand] passes the depth of the disk). *)
Fixpoint applyRenameRecursive (fuel : nat) (dir : string) (pairs : list (string * string))
  : M unit :=
  match fuel with
  | O => throw OutOfFuel
  | S fuel' =>
      entries <- Fs.readdir dir ;;
      (fix each (todo : list string) : M unit :=
         match todo with
         | [] => ret tt
         | entry :: rest =>
             let entryPath := Path.join [dir; entry] in
             isDirectory <- Fs.statIsDirectory entryPath ;;
             (if isDirectory then
                applyRenameRecursive fuel' entryPath pairs ;;
                let newEntry := applyReplacements entry pairs in
                if negb (String.eqb newEntry entry)
                then Fs.rename entryPath (Path.join [dir; newEntry])
                else ret tt
              else
                let ext := Path.extname entry in
                (if existsb (String.eqb ext) TEXT_EXTENSIONS then
                   content <- Fs.readFile entryPath ;;
                   let newContent := applyReplacements content pairs in
                   if negb (String.eqb newContent content)
                   then Fs.writeFile entryPath newContent
                   else ret tt
                 else ret tt) ;;
                let newEntry := applyReplacements entry pairs in
                if negb (String.eqb newEntry entry)
                then Fs.rename entryPath (Path.join [dir; newEntry])
                else ret tt) ;;
             each rest
         end) entries
  end.

Definition updateBarrelForRename (parentDir oldBasename newBasename : string)
           (config : Config) (cwd : string) : M unit :=
  let barrelPath := Path.join [parentDir; "index." ++ scriptExt (getExtensions config)] in
  present <- Fs.pathExists barrelPath ;;
  if negb present then ret tt
  else
    content <- Fs.readFile barrelPath ;;
    let newContent :=
      JS.join ("as " ++ newBasename ++ " }")
        (split ("as " ++ oldBasename ++ " }")
           (JS.join ("from './" ++ newBasename ++ "'")
              (split ("from './" ++ oldBasename ++ "'") content))) in
    if negb (String.eqb newContent content) then
      Fs.writeFile barrelPath newContent ;;
      log ("  barrel  " ++ Path.relative cwd barrelPath ++ " (updated)")
    else ret tt.

(** [fs.pathExists(null)] and the like: a path that is not a string. *)
Definition asPath (p : option string) : M string :=
  match p with
  | Some s => ret s
  | None => throw (TypeError "The path argument must be of type string")
  end.

Definition renameCommand (type oldName newName : string) : M unit :=
  if negb (existsb (String.eqb type) RENAME_SUPPORTED_TYPES) then
    unknownType type RENAME_SUPPORTED_TYPES
  else
    validateName oldName type ;;
    validateName newName type ;;
    cwd <- getcwd ;;
    config <- loadConfig cwd ;;
    structure <- getStructure config ;;
    oldDir <- asPath (resolveDir type oldName config structure cwd) ;;
    newDir <- asPath (resolveDir type newName config structure cwd) ;;
    oldThere <- Fs.pathExists oldDir ;;
    if negb oldThere then
      log (nl ++ "  Error: " ++ type ++ " " ++ dq ++ oldName ++ dq ++ " not found at "
           ++ Path.relative cwd oldDir ++ nl) ;;
      exit 1
    else
      newThere <- Fs.pathExists newDir ;;
      if newThere then
        log (nl ++ "  Error: " ++ type ++ " " ++ dq ++ newName ++ dq ++ " already exists at "
             ++ Path.relative cwd newDir ++ nl) ;;
        exit 1
      else
        let pairs := buildReplacementPairs oldName newName in
        d <- Fs.getdisk ;;
        applyRenameRecursive (Fs.depth d) oldDir pairs ;;
        Fs.rename oldDir newDir ;;
        log ("  renamed " ++ Path.relative cwd oldDir ++ " → " ++ Path.relative cwd newDir) ;;
        (if negb (String.eqb type "feature")
         then updateBarrelForRename (Path.dirname newDir) (Path.basename oldDir)
                (Path.basename newDir) config cwd
         else ret tt) ;;
        log (nl ++ "  " ++ type ++ " " ++ dq ++ oldName ++ dq ++ " renamed to " ++ dq ++ newName
             ++ dq ++ " successfully!" ++ nl).

(* ---------------------------------------------------------------- *)
(** *** src/commands/remove.js *)

Definition REMOVE_SUPPORTED_TYPES : list string :=
  ["component"; "hook"; "page"; "service"; "context"; "store"; "feature"].

Definition resolveTargetDir (type name : string) (config : Config) (structure : Structure)
           (cwd : string) : option string :=
  let camel := toCamelCase name in
  if String.eqb type "component" then
    Some (Path.join [cwd; componentPath structure (Some name) None; name])
  else if String.eqb type "hook" then Some (Path.join [cwd; hookPath structure; "use" ++ name])
  else if String.eqb type "page" then Some (Path.join [cwd; pagePath structure; name])
  else if String.eqb type "service" then
    Some (Path.join [cwd; servicePath structure; camel ++ "Service"])
  else if String.eqb type "context" then
    Some (Path.join [cwd; contextPath structure; name ++ "Context"])
  else if String.eqb type "store" then
    Some (Path.join [cwd; storePath structure; "use" ++ name ++ "Store"])
  else if String.eqb type "feature" then Some (Path.join [cwd; featurePath structure; name])
  else None.

(** [confirm] is the answer to the yes/no prompt. *)
Definition removeCommand (type name : string) (confirm : bool) : M unit :=
  if negb (existsb (String.eqb type) REMOVE_SUPPORTED_TYPES) then
    unknownType type REMOVE_SUPPORTED_TYPES
  else
    validateName name type ;;
    cwd <- getcwd ;;
    config <- loadConfig cwd ;;
    structure <- getStructure config ;;
    targetDir <- asPath (resolveTargetDir type name config structure cwd) ;;
    let relTarget := Path.relative cwd targetDir in
    present <- Fs.pathExists targetDir ;;
    if negb present then
      log (nl ++ "  Error: " ++ type ++ " " ++ dq ++ name ++ dq ++ " not found at "
           ++ relTarget ++ nl) ;;
      exit 1
    else if negb confirm then
      log (nl ++ "  Aborted." ++ nl)
    else
      Fs.remove targetDir ;;
      log (nl ++ "  Removed " ++ type ++ " " ++ dq ++ name ++ dq ++ " from " ++ relTarget ++ nl).

(* ---------------------------------------------------------------- *)
(** *** src/mcp/server.js *)

(** [o[k]], [undefined] being [None]. *)
Fixpoint obj_get (k : string) (o : obj) : option string :=
  match o with
  | [] => None
  | (k', v) :: t => if String.eqb k k' then Some v else obj_get k t
  end.

Definition PATTERN_DESCRIPTIONS : obj :=
  obj_of
    [ ("atomic-design",
       "Atomic Design — UI components are split into atoms (primitives), molecules (atom groups), organisms (complex sections), and templates (page-level layouts). Each level has a distinct structural role.");
      ("feature-based",
       "Feature-Based — Code is grouped by product features/modules. Shared UI lives in components/shared, feature-specific code lives under features/<Name>.");
      ("domain-driven",
       "Domain-Driven Design (DDD) — Code mirrors business domains. Each domain is self-contained under domains/<Name>; cross-cutting concerns live under shared/.");
      ("mvc-like",
       "MVC-like — Classic Model-View-Controller separation. Models define data shapes, views hold UI components and pages, controllers hold business logic, services handle data access.") ].

Definition RESOURCE_DESCRIPTIONS : obj :=
  obj_of
    [ ("component",
       "A React UI component. Lives in its own directory with a TSX/JSX file, a CSS/SCSS module, a barrel index, and optionally a test file.");
      ("hook",
       "A custom React hook. Name is PascalCase input; the " ++ dq ++ "use" ++ dq ++ " prefix is added automatically. Lives in hooks/use<Name>/.");
      ("page",
       "A page-level component. The " ++ dq ++ "Page" ++ dq ++ " suffix is added automatically. e.g. Dashboard → DashboardPage.tsx.");
      ("service",
       "A service module that handles data fetching or business logic. Name becomes camelCase + " ++ dq ++ "Service" ++ dq ++ ". e.g. User → userService.ts.");
      ("context",
       "A React Context with a typed Provider and a safe consumer hook. Name becomes <Name>Context. Contexts are always " ++ dq ++ "use client" ++ dq ++ " in Next.js.");
      ("store",
       "A Zustand state management store. Name becomes use<Name>Store. TypeScript projects get State and Actions interfaces.");
      ("type",
       "A TypeScript types file. Name becomes <Name>.types.ts. Contains an interface, a type alias, and a Partial type. Placed directly in the types directory (no subdirectory).");
      ("api",
       "A Next.js App Router API route. Creates app/api/<name>/route.ts with typed GET and POST handlers. Next.js projects only.");
      ("feature",
       "A full feature scaffold with its own components/, hooks/, services/, types.ts, and index.ts. Ideal for self-contained product features.") ].

Definition NAMING_CONVENTIONS : obj :=
  obj_of
    [ ("component",
       "PascalCase. Directory and main file share the name. e.g. UserCard → components/.../UserCard/UserCard.tsx");
      ("hook",
       "PascalCase input; " ++ dq ++ "use" ++ dq ++ " prefix added automatically. e.g. Auth → useAuth. Files: useAuth.ts, index.ts");
      ("page",
       "PascalCase. " ++ dq ++ "Page" ++ dq ++ " suffix added to file name. e.g. Dashboard → DashboardPage.tsx");
      ("service",
       "PascalCase input converted to camelCase + " ++ dq ++ "Service" ++ dq ++ ". e.g. User → userService.ts");
      ("context",
       "PascalCase. " ++ dq ++ "<Name>Context" ++ dq ++ " as file name. e.g. Auth → AuthContext.tsx");
      ("store",
       "PascalCase. " ++ dq ++ "use<Name>Store" ++ dq ++ " as file name. e.g. Cart → useCartStore.ts");
      ("type",
       "PascalCase. " ++ dq ++ "<Name>.types.ts" ++ dq ++ " as file name. e.g. User → User.types.ts");
      ("api",
       "PascalCase input converted to camelCase as directory. e.g. UserProfile → app/api/userProfile/route.ts");
      ("feature",
       "PascalCase. Directory is the name verbatim. e.g. Dashboard → features/Dashboard/") ].

Definition handleGetProjectConfig (cwd : string) : M Reply.reply :=
  let configPath := Path.join [cwd; ".rchitect.json"] in
  present <- Fs.pathExists configPath ;;
  if negb present then ret (Reply.Error notFoundMessage)
  else
    config <- readJson configPath ;;
    let explanation :=
      obj_of
        [ ("framework",
           if String.eqb (framework config) "nextjs"
           then "Next.js — App Router project. API routes (app/api/) are supported."
           else "React — standard React project. No server-side routing.");
          ("pattern",
           match obj_get (pattern config) PATTERN_DESCRIPTIONS with
           | Some d => if truthy d then d else "Unknown pattern: " ++ pattern config
           | None => "Unknown pattern: " ++ pattern config
           end);
          ("language",
           if String.eqb (language config) "typescript"
           then "TypeScript — files use .tsx / .ts extensions."
           else "JavaScript — files use .jsx / .js extensions.");
          ("styling",
           if String.eqb (styling config) "scss"
           then "SCSS — style files use .module.scss extension."
           else "CSS — style files use .module.css extension.");
          ("withTests",
           if withTests config
           then "true — a .test.tsx or .test.ts file is generated alongside every resource."
           else "false — no test files are generated.");
          ("useClient",
           if String.eqb (framework config) "nextjs"
           then (if useClient config
                 then "true — 'use client'; directive is prepended to all generated components."
                 else "false — components do not get the 'use client'; directive by default.")
           else "N/A — " ++ dq ++ "use client" ++ dq ++ " only applies to Next.js projects.") ] in
    ret (Reply.ProjectConfig config explanation).

Definition handleGetArchitectureGuide (cwd : string) : M Reply.reply :=
  let configPath := Path.join [cwd; ".rchitect.json"] in
  present <- Fs.pathExists configPath ;;
  if negb present then ret (Reply.Error notFoundMessage)
  else
    config <- readJson configPath ;;
    match structureOf config with
    | None =>
        ret (Reply.Error ("Unknown pattern " ++ dq ++ pattern config ++ dq
                          ++ " in .rchitect.json."))
    | Some structure =>
        let ext := getExtensions config in
        apiPlacement <-
          (if String.eqb (framework config) "nextjs"
           then apiBase <- callApiPath structure ;;
                ret (apiBase ++ "/<name>/route." ++ scriptExt ext ++ "  (Next.js only)")
           else ret "Not supported — API routes require Next.js.") ;;
        let resourcePlacement :=
          obj_of
            [ ("component",
               if String.eqb (pattern config) "atomic-design"
               then componentPath structure None (Some "atom")
                    ++ " | molecules | organisms | templates (chosen by atomic level). Each component lives in its own subdirectory."
               else componentPath structure None None ++ "/<Name>/");
              ("hook", hookPath structure ++ "/use<Name>/");
              ("page", pagePath structure ++ "/<Name>/");
              ("service", servicePath structure ++ "/<name>Service/");
              ("context", contextPath structure ++ "/<Name>Context/");
              ("store", storePath structure ++ "/use<Name>Store/");
              ("type", typePath structure ++ "/<Name>.types." ++ scriptExt ext
                       ++ "  (single file — no subdirectory)");
              ("api", apiPlacement);
              ("feature", featurePath structure ++ "/<Name>/  (contains components/, hooks/, services/, types."
                          ++ scriptExt ext ++ ", index." ++ scriptExt ext ++ ")") ] in
        ret (Reply.ArchitectureGuide
               {| Reply.pattern := pattern config;
                  Reply.framework := framework config;
                  Reply.description :=
                    match obj_get (pattern config) PATTERN_DESCRIPTIONS with
                    | Some d => if truthy d then d else pattern config
                    | None => pattern config
                    end;
                  Reply.folders := folders structure;
                  Reply.resourcePlacement := resourcePlacement;
                  Reply.namingConventions := NAMING_CONVENTIONS;
                  Reply.resourceDescriptions := RESOURCE_DESCRIPTIONS;
                  Reply.fileExtensions :=
                    obj_of
                      [ ("component", "." ++ compExt ext);
                        ("script", "." ++ scriptExt ext);
                        ("style", ".module." ++ styleExt ext);
                        ("test",
                         if withTests config
                         then ".test." ++ compExt ext ++ " or .test." ++ scriptExt ext
                         else "disabled (withTests: false)") ] |})
    end.

Definition SUPPORTED : list string :=
  ["component"; "hook"; "page"; "service"; "context"; "store"; "type"; "api"; "feature"].

(** Reading a property of [structure], which is [undefined] when the
    pattern names no entry of the table. *)
Definition defined (structure : option Structure) : M Structure :=
  match structure with
  | Some st => ret st
  | None => throw (TypeError "Cannot read properties of undefined")
  end.

(** A level that is given and not the empty string. *)
Definition given (level : option string) : bool :=
  match level with
  | Some l => truthy l
  | None => false
  end.

Definition reply_path (type name directory : string) (files : list string)
           (resolvedName : string) (note : option string) : M Reply.reply :=
  ret (Reply.ResourcePath
         {| Reply.type := type; Reply.name := name; Reply.directory := directory;
            Reply.files := files; Reply.resolvedName := resolvedName;
            Reply.note := match note with
                          | Some n => if truthy n then Some n else None
                          | None => None
                          end |}).

(** [if (config.withTests) files.push(...)] *)
Definition pushed (tests : bool) (files extra : list string) : list string :=
  if tests then app files extra else files.

(** The [switch (type)] of [handleResolveResourcePath]. *)
Definition resolveSwitch (type name : string) (atomicLevel : option string)
           (config : Config) (structure : option Structure) : M Reply.reply :=
  let ext := getExtensions config in
  let camel := toCamelCase name in
  let tests := withTests config in
  let atomic := String.eqb (pattern config) "atomic-design" in
  if String.eqb type "component" then
    let '(level, note) :=
      if atomic then
        (if negb (given atomicLevel)
         then (Some "atom",
               Some ("No atomicLevel provided — defaulted to " ++ dq ++ "atom" ++ dq
                     ++ ". Valid levels: atom, molecule, organism, template"
                     ++ (if String.eqb (framework config) "react" then ", page" else "")
                     ++ "."))
         else (atomicLevel, None))
      else if given atomicLevel then
        (None,
         Some ("atomicLevel " ++ dq ++ match atomicLevel with Some l => l | None => "" end
               ++ dq ++ " is ignored for pattern " ++ dq ++ pattern config ++ dq ++ "."))
      else (atomicLevel, None) in
    st <- defined structure ;;
    let basePath :=
      if atomic then componentPath st (Some name) level else componentPath st (Some name) None in
    reply_path type name (basePath ++ "/" ++ name)
      (pushed tests
         [name ++ "." ++ compExt ext; name ++ ".module." ++ styleExt ext; "index." ++ scriptExt ext]
         [name ++ ".test." ++ compExt ext])
      name note
  else if String.eqb type "hook" then
    let hookName := if startsWith "use" camel then camel else "use" ++ name in
    st <- defined structure ;;
    reply_path type name (hookPath st ++ "/" ++ hookName)
      (pushed tests
         [hookName ++ "." ++ scriptExt ext; "index." ++ scriptExt ext]
         [hookName ++ ".test." ++ scriptExt ext])
      hookName
      (if startsWith "use" camel then None
       else Some (dq ++ "use" ++ dq ++ " prefix added automatically."))
  else if String.eqb type "page" then
    let pageName := name ++ "Page" in
    st <- defined structure ;;
    reply_path type name (pagePath st ++ "/" ++ name)
      (pushed tests
         [pageName ++ "." ++ compExt ext; pageName ++ ".module." ++ styleExt ext;
        "index." ++ scriptExt ext]
         [pageName ++ ".test." ++ compExt ext])
      pageName
      (Some (dq ++ "Page" ++ dq ++ " suffix added automatically."))
  else if String.eqb type "service" then
    let serviceName := camel ++ "Service" in
    st <- defined structure ;;
    reply_path type name (servicePath st ++ "/" ++ serviceName)
      (pushed tests
         [serviceName ++ "." ++ scriptExt ext; "index." ++ scriptExt ext]
         [serviceName ++ ".test." ++ scriptExt ext])
      serviceName
      (Some ("Name normalized to camelCase: " ++ dq ++ camel ++ dq ++ " + " ++ dq ++ "Service"
             ++ dq ++ "."))
  else if String.eqb type "context" then
    let contextName := name ++ "Context" in
    st <- defined structure ;;
    reply_path type name (contextPath st ++ "/" ++ contextName)
      (pushed tests
         [contextName ++ "." ++ compExt ext; "index." ++ scriptExt ext]
         [contextName ++ ".test." ++ compExt ext])
      contextName
      (Some (if String.eqb (framework config) "nextjs"
             then dq ++ "Context" ++ dq
                  ++ " suffix added. Always gets 'use client'; in Next.js (contexts are always client components)."
             else dq ++ "Context" ++ dq ++ " suffix added."))
  else if String.eqb type "store" then
    let storeName := "use" ++ name ++ "Store" in
    st <- defined structure ;;
    reply_path type name (storePath st ++ "/" ++ storeName)
      (pushed tests
         [storeName ++ "." ++ scriptExt ext; "index." ++ scriptExt ext]
         [storeName ++ ".test." ++ scriptExt ext])
      storeName
      (Some (dq ++ "use<Name>Store" ++ dq ++ " naming pattern applied."))
  else if String.eqb type "type" then
    let typesName := name ++ ".types" in
    st <- defined structure ;;
    reply_path type name (typePath st)
      [typesName ++ "." ++ scriptExt ext]
      typesName
      (Some "Type files are placed directly in the types directory — no subdirectory created.")
  else if String.eqb type "api" then
    if negb (String.eqb (framework config) "nextjs") then
      ret (Reply.Error "API routes are only supported for Next.js projects.")
    else
      let apiName := camel in
      st <- defined structure ;;
      apiBase <- callApiPath st ;;
      reply_path type name (apiBase ++ "/" ++ apiName)
        ["route." ++ scriptExt ext]
        apiName
        (Some ("Name normalized to camelCase: " ++ dq ++ camel ++ dq ++ ". Access at /api/"
               ++ apiName ++ "."))
  else if String.eqb type "feature" then
    st <- defined structure ;;
    let serviceName := camel ++ "Service" in
    let hookName := "use" ++ name in
    reply_path type name (featurePath st ++ "/" ++ name)
      (pushed tests
         [ "components/" ++ name ++ "View/" ++ name ++ "View." ++ compExt ext;
         "components/" ++ name ++ "View/" ++ name ++ "View.module." ++ styleExt ext;
         "components/" ++ name ++ "View/index." ++ scriptExt ext;
         "hooks/" ++ hookName ++ "/" ++ hookName ++ "." ++ scriptExt ext;
         "hooks/" ++ hookName ++ "/index." ++ scriptExt ext;
         "services/" ++ serviceName ++ "/" ++ serviceName ++ "." ++ scriptExt ext;
         "services/" ++ serviceName ++ "/index." ++ scriptExt ext;
         "types." ++ scriptExt ext;
         "index." ++ scriptExt ext ]
         [ "components/" ++ name ++ "View/" ++ name ++ "View.test." ++ compExt ext;
                    "hooks/" ++ hookName ++ "/" ++ hookName ++ ".test." ++ scriptExt ext ])
      name
      (Some "Feature scaffold includes components, hooks, services, types, and a barrel index.")
  else
    throw (TypeError "unreachable: type is one of SUPPORTED").

Definition handleResolveResourcePath (type name : string) (atomicLevel : option string)
           (cwd : string) : M Reply.reply :=
  if negb (existsb (String.eqb type) SUPPORTED) then
    ret (Reply.Error ("Unknown type " ++ dq ++ type ++ dq ++ ". Supported: "
                      ++ JS.join ", " SUPPORTED ++ "."))
  else
    let configPath := Path.join [cwd; ".rchitect.json"] in
    present <- Fs.pathExists configPath ;;
    if negb present then ret (Reply.Error notFoundMessage)
    else
      config <- readJson configPath ;;
      resolveSwitch type name atomicLevel config (structureOf config).

(* ---------------------------------------------------------------- *)
(** *** Vocabulary for the properties below *)

(** The world holds a configuration file that parses to [config]. *)
Definition configured (w : world) (config : Config) : Prop :=
  exists data,
    Fs.peek (Path.join [cwd w; ".rchitect.json"]) w = Some data /\
    parseConfig data = Some config.

(** Renaming [a] to [b] and back leaves the tree below [root] as it was,
    whenever both renames go through. *)
Definition round_trip_restores (type a b root : string) (w : world) : Prop :=
  forall w1 w2,
    renameCommand type a b w = (Ret tt, w1) ->
    renameCommand type b a w1 = (Ret tt, w2) ->
    Fs.subtree root w2 = Fs.subtree root w.

End Commands.

(** Running a command [n] times in a row. *)
Fixpoint repeatedly {A} (n : nat) (m : M A) : M unit :=
  match n with
  | O => ret tt
  | S k => m ;; repeatedly k m
  end.

(* ------------------------------------------------------------------ *)
(** ** The specification's wording of the rename engine's substitution *)
(* ------------------------------------------------------------------ *)

Module RenameSpec.
Import JS Validate.

(** [Subst from to s r]: [r] is [s] with every occurrence of [from]
    replaced by [to], occurrences being found from the left and not
    overlapping. *)
Inductive Subst (from to : string) : string -> string -> Prop :=
| Subst_end : Subst from to "" ""
| Subst_hit : forall rest r,
    Subst from to rest r ->
    Subst from to (from ++ rest) (to ++ r)
| Subst_miss : forall c rest r,
    startsWith from (String c rest) = false ->
    Subst from to rest r ->
    Subst from to (String c rest) (String c r).

(** Pairs applied in listed order, each to the string as the previous
    ones left it. *)
Inductive Applied : list (string * string) -> string -> string -> Prop :=
| Applied_nil : forall s, Applied [] s s
| Applied_cons : forall from to pairs s s' r,
    Subst from to s s' ->
    Applied pairs s' r ->
    Applied ((from, to) :: pairs) s r.

(** The eight pairs of §4.3 step 4, most specific first. *)
Definition listed_pairs (Old New : string) : list (string * string) :=
  [ ("use" ++ Old ++ "Store", "use" ++ New ++ "Store");
    (Old ++ "Context", New ++ "Context");
    (Old ++ "Provider", New ++ "Provider");
    (Old ++ "Page", New ++ "Page");
    ("use" ++ Old, "use" ++ New);
    (toCamelCase Old ++ "Service", toCamelCase New ++ "Service");
    (toCamelCase Old, toCamelCase New);
    (Old, New) ].

Fixpoint drop_identical (pairs : list (string * string)) : list (string * string) :=
  match pairs with
  | [] => []
  | (a, b) :: rest =>
      if String.eqb a b then drop_identical rest else (a, b) :: drop_identical rest
  end.

End RenameSpec.

(* ------------------------------------------------------------------ *)
(** ** Vocabulary for the file tree *)
(* ------------------------------------------------------------------ *)

Module Tree.

(** A name a directory entry can bear: not empty, without a slash, and
    neither [.] nor [..]. *)
Definition plain (s : string) : bool :=
  negb (String.eqb s "")
  && Validate.all_chars (fun c => negb (Ascii.eqb "/" c)) s
  && negb (String.eqb s ".") && negb (String.eqb s "..").

(** Every entry of the tree bears such a name. *)
Fixpoint sound (n : node) : bool :=
  match n with
  | File _ => true
  | Dir es =>
      (fix all (l : list (string * node)) : bool :=
         match l with
         | [] => true
         | (k, c) :: t => plain k && sound c && all t
         end) es
  end.

(** Two places, neither of which is on the way to the other. *)
Definition apart (a b : list string) : bool :=
  negb (Fs.is_prefix a b) && negb (Fs.is_prefix b a).

End Tree.

(* ------------------------------------------------------------------ *)
(** ** Fixtures: the project the repository's tests set up *)
(* ------------------------------------------------------------------ *)

Module Fixture.
Import JS.

(** Modelled from the spec: the structure tables (src/structures/react.js
    and src/structures/nextjs.js) are not among the sources; these three
    entries carry the directories the README lists and the tests expect
    (tests/structures.test.ts, tests/mcp.test.ts, tests/rename.test.ts). *)
Definition reactFeatureBased : Structure :=
  {| folders := ["src/features"; "src/components/shared"; "src/hooks"; "src/contexts";
                 "src/stores"; "src/services"; "src/utils"; "src/types"; "src/styles";
                 "src/assets"];
     componentPath := fun _ _ => "src/components/shared";
     hookPath := "src/hooks";
     pagePath := "src/features";
     servicePath := "src/services";
     contextPath := "src/contexts";
     storePath := "src/stores";
     typePath := "src/types";
     featurePath := "src/features";
     apiPath := None |}.

Definition nextjsFeatureBased : Structure :=
  {| folders := ["features"; "components/shared"; "hooks"; "contexts"; "stores"; "services";
                 "utils"; "types"; "styles"];
     componentPath := fun _ _ => "components/shared";
     hookPath := "hooks";
     pagePath := "features";
     servicePath := "services";
     contextPath := "contexts";
     storePath := "stores";
     typePath := "types";
     featurePath := "features";
     apiPath := Some "app/api" |}.

Definition nextjsAtomicDesign : Structure :=
  {| folders := ["components/atoms"; "components/molecules"; "components/organisms";
                 "components/templates"; "hooks"; "contexts"; "stores"; "services"; "utils";
                 "types"; "styles"];
     componentPath := fun _ level =>
       match level with
       | Some l =>
           if String.eqb l "molecule" then "components/molecules"
           else if String.eqb l "organism" then "components/organisms"
           else if String.eqb l "template" then "components/templates"
           else "components/atoms"
       | None => "components/atoms"
       end;
     hookPath := "hooks";
     pagePath := "app";
     servicePath := "services";
     contextPath := "contexts";
     storePath := "stores";
     typePath := "types";
     featurePath := "features";
     apiPath := Some "app/api" |}.

Definition reactStructures (pattern : string) : option Structure :=
  if String.eqb pattern "feature-based" then Some reactFeatureBased else None.

Definition nextjsStructures (pattern : string) : option Structure :=
  if String.eqb pattern "feature-based" then Some nextjsFeatureBased
  else if String.eqb pattern "atomic-design" then Some nextjsAtomicDesign
  else None.

(** The text [fs.writeJson(path, config, { spaces: 2 })] writes, and a
    reader for exactly that layout. *)
Definition encode (config : Config) : string :=
  let str k v := "  " ++ dq ++ k ++ dq ++ ": " ++ dq ++ v ++ dq in
  let flag k (b : bool) := "  " ++ dq ++ k ++ dq ++ ": " ++ (if b then "true" else "false") in
  "{" ++ nl
  ++ str "framework" (framework config) ++ "," ++ nl
  ++ str "pattern" (pattern config) ++ "," ++ nl
  ++ str "language" (language config) ++ "," ++ nl
  ++ str "styling" (styling config) ++ "," ++ nl
  ++ flag "withTests" (withTests config) ++ "," ++ nl
  ++ flag "useClient" (useClient config) ++ nl
  ++ "}" ++ nl.

Definition field (k data : string) : option string :=
  match split (dq ++ k ++ dq ++ ": " ++ dq) data with
  | _ :: after :: _ =>
      match split dq after with
      | v :: _ => Some v
      | [] => None
      end
  | _ => None
  end.

Definition decode (data : string) : option Config :=
  match field "framework" data, field "pattern" data,
        field "language" data, field "styling" data with
  | Some f, Some p, Some l, Some s =>
      Some {| framework := f; pattern := p; language := l; styling := s;
              withTests := includes (dq ++ "withTests" ++ dq ++ ": true") data;
              useClient := includes (dq ++ "useClient" ++ dq ++ ": true") data |}
  | _, _, _, _ => None
  end.

(** BASE_CONFIG of the tests. *)
Definition baseConfig : Config :=
  {| framework := "react"; pattern := "feature-based"; language := "typescript";
     styling := "css"; withTests := false; useClient := false |}.

Definition nextConfig : Config :=
  {| framework := "nextjs"; pattern := "feature-based"; language := "typescript";
     styling := "css"; withTests := false; useClient := false |}.

(** A Next.js project laid out by atomic design. *)
Definition atomicConfig : Config :=
  {| framework := "nextjs"; pattern := "atomic-design"; language := "typescript";
     styling := "css"; withTests := false; useClient := false |}.

(** A configuration whose pattern names no structure. *)
Definition strangeConfig : Config :=
  {| framework := "react"; pattern := "hexagonal"; language := "typescript";
     styling := "css"; withTests := false; useClient := false |}.

(** A disk holding the given files, directories made as needed. *)
Definition mkfile (d : node) (entry : string * string) : node :=
  let at_ := Path.segments (fst entry) in
  match Fs.mkdirs (removelast at_) d with
  | Some d1 =>
      match Fs.store at_ (Some (File (snd entry))) d1 with
      | Some d2 => d2
      | None => d
      end
  | None => d
  end.

Definition disk_of (entries : list (string * string)) : node :=
  fold_left mkfile entries (Dir []).

Definition project (config : Config) (entries : list (string * string)) : world :=
  World "/proj" (disk_of (("/proj/.rchitect.json", encode config) :: entries)) [] [].

(** The store the rename tests create, named Button. *)
Definition storeProject : world :=
  project baseConfig
    [ ("/proj/src/stores/useButtonStore/useButtonStore.ts",
       "export const useButtonStore = () => ({});");
      ("/proj/src/stores/useButtonStore/index.ts",
       "export { default as useButtonStore } from './useButtonStore';" ++ nl);
      ("/proj/src/stores/index.ts",
       "export { default as useButtonStore } from './useButtonStore';" ++ nl) ].

(** The hook the rename tests create. *)
Definition hookProject : world :=
  project baseConfig
    [ ("/proj/src/hooks/useAuth/useAuth.ts", "export default function useAuth() {}");
      ("/proj/src/hooks/useAuth/index.ts",
       "export { default as useAuth } from './useAuth';" ++ nl);
      ("/proj/src/hooks/index.ts",
       "export { default as useAuth } from './useAuth';" ++ nl) ].

(** The world a rename leaves behind. *)
Definition renamed (type a b : string) (w : world) : world :=
  snd (renameCommand reactStructures nextjsStructures decode type a b w).

End Fixture.

(* ================================================================== *)
(** * Properties *)
(* ================================================================== *)

Unset Implicit Arguments.

(** ** Strings *)

Module StringFacts.
Import JS.

Lemma append_nil_r (s : string) : s ++ "" = s.
Proof. induction s as [|c s IH]; simpl; [reflexivity | now rewrite IH]. Qed.

Lemma append_assoc (a b c : string) : (a ++ b) ++ c = a ++ (b ++ c).
Proof. induction a as [|x a IH]; simpl; [reflexivity | now rewrite IH]. Qed.

Lemma length_append (a b : string) :
  String.length (a ++ b) = String.length a + String.length b.
Proof. induction a as [|x a IH]; simpl; [reflexivity | now rewrite IH]. Qed.

Lemma eqb_length_neq (a b : string) :
  String.length a <> String.length b -> String.eqb a b = false.
Proof.
  intros H. apply String.eqb_neq. intros ->. now apply H.
Qed.

Lemma eqb_append_cancel (p a b : string) :
  String.eqb (p ++ a) (p ++ b) = String.eqb a b.
Proof.
  induction p as [|c p IH]; simpl; [reflexivity|].
  now rewrite Ascii.eqb_refl.
Qed.

Lemma startsWith_append (p s : string) : startsWith p (p ++ s) = true.
Proof.
  induction p as [|c p IH]; simpl; [reflexivity|].
  now rewrite Ascii.eqb_refl.
Qed.

Lemma startsWith_split (p s : string) :
  startsWith p s = true -> exists rest, s = p ++ rest.
Proof.
  revert s. induction p as [|c p IH]; intros s H; simpl in *.
  - now exists s.
  - destruct s as [|d s]; [discriminate|].
    destruct (Ascii.eqb c d) eqn:E; [|discriminate].
    apply Ascii.eqb_eq in E. subst d.
    destruct (IH _ H) as [rest ->]. now exists rest.
Qed.

Lemma truthy_nonempty (s : string) : truthy s = true <-> s <> "".
Proof.
  unfold truthy. destruct s; simpl; split; intros H; try easy.
Qed.

End StringFacts.

(** ** validate.js *)

Module ValidateFacts.
Import JS Regex Validate.

Lemma test_Void (s : string) : test Void s = false.
Proof. induction s; simpl; auto. Qed.

Lemma test_Alt (s : string) : forall r1 r2, test (Alt r1 r2) s = test r1 s || test r2 s.
Proof. induction s as [|c s IH]; intros; simpl; [reflexivity | apply IH]. Qed.

Lemma test_Seq_Void (s : string) : forall r, test (Seq Void r) s = false.
Proof. induction s as [|c s IH]; intros; simpl; [reflexivity | apply IH]. Qed.

Lemma test_Seq_Eps (s : string) : forall r, test (Seq Eps r) s = test r s.
Proof.
  destruct s as [|c s]; intros; simpl; [reflexivity|].
  now rewrite test_Alt, test_Seq_Void.
Qed.

Lemma test_Seq_Alt (s : string) :
  forall a b r, test (Seq (Alt a b) r) s = test (Seq a r) s || test (Seq b r) s.
Proof.
  induction s as [|c s IH]; intros a b r; simpl.
  - destruct (nullable a), (nullable b), (nullable r); reflexivity.
  - destruct (nullable a), (nullable b); simpl;
      rewrite ?test_Alt, IH;
      destruct (test (Seq (deriv c a) r) s), (test (Seq (deriv c b) r) s),
               (test (deriv c r) s); reflexivity.
Qed.

Lemma test_Seq_class (b : bool) (r : regex) (s : string) :
  test (Seq (if b then Eps else Void) r) s = b && test r s.
Proof. destruct b; [apply test_Seq_Eps | apply test_Seq_Void]. Qed.

Local Abbreviation alnum_class :=
  (Alt (Range "a" "z") (Alt (Range "A" "Z") (Range "0" "9"))).

Lemma test_Star_alnum (s : string) : test (Star alnum_class) s = all_chars is_alnum s.
Proof.
  induction s as [|c s IH]; [reflexivity|].
  change (test (Star alnum_class) (String c s))
    with (test (Seq (Alt (if is_lower c then Eps else Void)
                         (Alt (if is_upper c then Eps else Void)
                              (if is_digit c then Eps else Void)))
                    (Star alnum_class)) s).
  rewrite !test_Seq_Alt, !test_Seq_class, IH. simpl all_chars. unfold is_alnum.
  destruct (is_lower c), (is_upper c), (is_digit c), (all_chars _ s); reflexivity.
Qed.

(** The matcher, run on [PASCAL_CASE_REGEX], decides the specification's
    wording of a valid name. *)
Lemma PASCAL_CASE_REGEX_test (name : string) :
  test PASCAL_CASE_REGEX name = pascal_case_spec name.
Proof.
  destruct name as [|c s]; [reflexivity|].
  change (test PASCAL_CASE_REGEX (String c s))
    with (test (Seq (if is_upper c then Eps else Void) (Star alnum_class)) s).
  now rewrite test_Seq_class, test_Star_alnum.
Qed.

Lemma upper_not_space (c : ascii) : is_upper c = true -> is_space c = false.
Proof.
  destruct c as [[] [] [] [] [] [] [] []]; intros H; try reflexivity; discriminate H.
Qed.

Lemma trimEnd_keeps_head (c : ascii) (s : string) :
  is_space c = false -> trimEnd (String c s) <> "".
Proof.
  intros H. simpl. destruct (trimEnd s); [rewrite H|]; discriminate.
Qed.

Lemma pascal_not_blank (name : string) :
  pascal_case_spec name = true ->
  negb (truthy name) || (String.length (trim name) =? 0)%nat = false.
Proof.
  destruct name as [|c s]; [discriminate|]. intros H.
  apply andb_true_iff in H. destruct H as [Hc _].
  apply upper_not_space in Hc.
  unfold trim. simpl trimStart. rewrite Hc.
  pose proof (trimEnd_keeps_head c s Hc) as T.
  destruct (trimEnd (String c s)); [now elim T | reflexivity].
Qed.

Lemma validateName_valid (name type : string) (w : world) :
  pascal_case_spec name = true -> validateName name type w = (Ret true, w).
Proof.
  intros H. unfold validateName.
  rewrite (pascal_not_blank name H), PASCAL_CASE_REGEX_test, H. reflexivity.
Qed.

End ValidateFacts.

Import JS Validate.

(** C8.  [validateName] accepts exactly the names of the form
    [^[A-Z][a-zA-Z0-9]*$]: on such a name it returns [true] and changes
    nothing; on every other string it ends the process with exit code 1,
    having printed an error and touched neither the disk nor the file
    system.  The strings "button", "123bad", "my-component",
    "My_Component", the empty string and the blank string are among the
    rejected ones. *)
Theorem validateName_accepts_exactly_pascal_case :
  forall (name type : string) (w : world),
    match validateName name type w with
    | (Ret ok, w') => ok = true /\ pascal_case_spec name = true /\ w' = w
    | (Exit code, w') =>
        code = 1 /\ pascal_case_spec name = false /\
        cwd w' = cwd w /\ disk w' = disk w /\ calls w' = calls w
    | (Throw _, _) => False
    end
    /\ Forall (fun bad => pascal_case_spec bad = false /\
                          fst (validateName bad type w) = Exit 1)
         ["button"; "123bad"; "my-component"; "My_Component"; ""; "   "].
Proof.
  intros name type w. split.
  - destruct (pascal_case_spec name) eqn:P.
    + rewrite (ValidateFacts.validateName_valid name type w P). auto.
    + unfold validateName.
      destruct (negb (truthy name) || (String.length (trim name) =? 0)%nat).
      * cbn. auto.
      * rewrite ValidateFacts.PASCAL_CASE_REGEX_test, P. cbn. auto.
  - repeat constructor.
Qed.

(** ** The rename engine's substitution *)

Module SubstFacts.
Import StringFacts RenameSpec.

Lemma split_from_nonempty (sep : string) (s : string) :
  forall k, split_from sep k s <> [].
Proof.
  induction s as [|c s IH]; intros k; simpl; [discriminate|].
  destruct k; [|apply IH].
  destruct (startsWith sep (String c s)); [discriminate|].
  destruct (split_from sep 0 s); discriminate.
Qed.

Lemma split_from_skip (sep x rest : string) :
  split_from sep (String.length x) (x ++ rest) = split_from sep 0 rest.
Proof. induction x as [|c x IH]; simpl; [reflexivity | exact IH]. Qed.

Lemma join_cons_nil (sep : string) (parts : list string) :
  parts <> [] -> JS.join sep ("" :: parts) = sep ++ JS.join sep parts.
Proof. destruct parts; [easy | reflexivity]. Qed.

Lemma join_cons_char (sep : string) (c : ascii) (h : string) (t : list string) :
  JS.join sep (String c h :: t) = String c (JS.join sep (h :: t)).
Proof. destruct t; reflexivity. Qed.

(** [s.split(from).join(to)] at an occurrence of [from] ... *)
Lemma replace_hit (from to rest : string) :
  from <> "" ->
  JS.join to (split from (from ++ rest)) = to ++ JS.join to (split from rest).
Proof.
  destruct from as [|a f]; [easy|]. intros _.
  unfold split. change (String a f ++ rest) with (String a (f ++ rest)).
  cbn [split_from].
  change (String a (f ++ rest)) with (String a f ++ rest).
  rewrite startsWith_append.
  cbn [String.length]. rewrite Nat.sub_1_r. cbn [Nat.pred].
  rewrite split_from_skip.
  apply join_cons_nil, split_from_nonempty.
Qed.

(** ... and at a character where no occurrence starts. *)
Lemma replace_miss (from to : string) (c : ascii) (rest : string) :
  from <> "" ->
  startsWith from (String c rest) = false ->
  JS.join to (split from (String c rest)) = String c (JS.join to (split from rest)).
Proof.
  destruct from as [|a f]; [easy|]. intros _ H.
  unfold split. cbn [split_from]. rewrite H.
  pose proof (split_from_nonempty (String a f) rest 0) as N.
  destruct (split_from (String a f) 0 rest) as [|h t]; [easy|].
  apply join_cons_char.
Qed.

Lemma replace_Subst_bounded (from to : string) :
  from <> "" ->
  forall n s, String.length s <= n -> Subst from to s (JS.join to (split from s)).
Proof.
  intros F n. induction n as [|n IH]; intros s L.
  - destruct s; [|simpl in L; lia].
    destruct from; [easy|]. constructor.
  - destruct s as [|c s].
    + destruct from; [easy|]. constructor.
    + destruct (startsWith from (String c s)) eqn:E.
      * destruct (startsWith_split _ _ E) as [rest R]. rewrite R.
        rewrite replace_hit by assumption. constructor. apply IH.
        assert (String.length (String c s) = String.length from + String.length rest)
          by (rewrite R; apply length_append).
        destruct from; [easy|]. simpl in *. lia.
      * rewrite replace_miss by assumption. constructor; [assumption|].
        apply IH. simpl in L. lia.
Qed.

(** The program's replacement is the leftmost, non-overlapping one. *)
Lemma replace_Subst (from to s : string) :
  from <> "" -> Subst from to s (JS.join to (split from s)).
Proof. intros F. now apply (replace_Subst_bounded from to F (String.length s)). Qed.

Lemma append_inj_r (p a b : string) : p ++ a = p ++ b -> a = b.
Proof. induction p; simpl; intros H; [assumption | injection H; auto]. Qed.

Lemma append_inj_l (a b x : string) : a ++ x = b ++ x -> a = b.
Proof.
  revert b. induction a as [|c a IH]; intros b H.
  - apply (f_equal String.length) in H. rewrite !length_append in H.
    destruct b; [reflexivity | simpl in H; lia].
  - destruct b as [|d b].
    + apply (f_equal String.length) in H. simpl in H. rewrite !length_append in H. lia.
    + simpl in H. injection H as -> H. f_equal. now apply IH.
Qed.

Lemma Subst_cases (from to s r : string) :
  Subst from to s r ->
  (s = "" /\ r = "") \/
  (exists rest r', s = from ++ rest /\ r = to ++ r' /\ Subst from to rest r') \/
  (exists c rest r', s = String c rest /\ startsWith from s = false /\
                     r = String c r' /\ Subst from to rest r').
Proof.
  intros H. destruct H.
  - now left.
  - right; left. now exists rest, r.
  - right; right. now exists c, rest, r.
Qed.

(** There is only one such result. *)
Lemma Subst_unique (from to : string) :
  from <> "" ->
  forall n s r1 r2, String.length s <= n ->
    Subst from to s r1 -> Subst from to s r2 -> r1 = r2.
Proof.
  intros F n. induction n as [|n IH]; intros s r1 r2 L H1 H2;
    apply Subst_cases in H1; apply Subst_cases in H2.
  - destruct s; [|simpl in L; lia].
    destruct H1 as [[_ ->]|[(rest & r' & E & _)|(c & rest & r' & E & _)]];
      [|destruct from; [easy|discriminate]|discriminate].
    destruct H2 as [[_ ->]|[(rest & r' & E & _)|(c & rest & r' & E & _)]];
      [reflexivity|destruct from; [easy|discriminate]|discriminate].
  - destruct H1 as [[E1 ->]|[(rest1 & r1' & E1 & -> & S1)|(c1 & rest1 & r1' & E1 & M1 & -> & S1)]];
    destruct H2 as [[E2 ->]|[(rest2 & r2' & E2 & -> & S2)|(c2 & rest2 & r2' & E2 & M2 & -> & S2)]].
    all: try reflexivity.
    all: try (rewrite E1 in E2; discriminate E2).
    all: try (rewrite E1 in E2; destruct from; [easy|discriminate E2]).
    + rewrite E1 in E2. apply append_inj_r in E2. subst rest2. f_equal.
      apply (IH rest1); [|assumption|assumption].
      rewrite E1, length_append in L. destruct from; [easy|]. simpl in L. lia.
    + rewrite E1, startsWith_append in M2. discriminate.
    + rewrite E2, startsWith_append in M1. discriminate.
    + rewrite E1 in E2. injection E2 as <- <-. f_equal.
      apply (IH rest1); [rewrite E1 in L; simpl in L; lia|assumption|assumption].
Qed.

Lemma applyReplacements_cons (str from to : string) (pairs : list (string * string)) :
  applyReplacements str ((from, to) :: pairs)
  = applyReplacements (JS.join to (split from str)) pairs.
Proof. reflexivity. Qed.

Lemma applyReplacements_Applied (pairs : list (string * string)) :
  Forall (fun p => fst p <> "") pairs ->
  forall s, Applied pairs s (applyReplacements s pairs).
Proof.
  induction 1 as [|[from to] pairs F _ IH]; intros s.
  - constructor.
  - rewrite applyReplacements_cons.
    econstructor; [apply replace_Subst; exact F | apply IH].
Qed.

Lemma Applied_unique (pairs : list (string * string)) :
  Forall (fun p => fst p <> "") pairs ->
  forall s r, Applied pairs s r -> r = applyReplacements s pairs.
Proof.
  induction 1 as [|[from to] pairs F _ IH]; intros s r A; inversion A; subst.
  - reflexivity.
  - rewrite applyReplacements_cons.
    assert (s' = JS.join to (split from s)) as ->.
    { apply (Subst_unique from to F (String.length s) s); auto.
      now apply replace_Subst. }
    now apply IH.
Qed.

Lemma filter_drop_identical (pairs : list (string * string)) :
  filter (fun p => negb (String.eqb (fst p) (snd p))) pairs = drop_identical pairs.
Proof.
  induction pairs as [|[a b] pairs IH]; simpl; [reflexivity|].
  rewrite IH. now destruct (String.eqb a b).
Qed.

Lemma lower_upper_inj (c d : ascii) :
  is_upper c = true -> is_upper d = true -> lower c = lower d -> c = d.
Proof.
  unfold lower. intros Hc Hd. rewrite Hc, Hd. intros E.
  unfold is_upper in Hc, Hd.
  apply andb_true_iff in Hc, Hd. destruct Hc as [_ Hc], Hd as [_ Hd].
  apply Nat.leb_le in Hc, Hd.
  apply (f_equal nat_of_ascii) in E.
  rewrite !nat_ascii_embedding in E by lia.
  rewrite <- (ascii_nat_embedding c), <- (ascii_nat_embedding d).
  f_equal. lia.
Qed.

Lemma toCamelCase_inj (a b : string) :
  pascal_case_spec a = true -> pascal_case_spec b = true ->
  toCamelCase a = toCamelCase b -> a = b.
Proof.
  destruct a as [|c a], b as [|d b]; try discriminate. simpl.
  intros Ha Hb E. apply andb_true_iff in Ha, Hb.
  injection E as E ->. f_equal. now apply lower_upper_inj.
Qed.

Lemma listed_sources_nonempty (Old New : string) :
  Old <> "" -> Forall (fun p => fst p <> "") (listed_pairs Old New).
Proof.
  intros H. destruct Old as [|c s]; [easy|].
  repeat constructor; simpl; discriminate.
Qed.

Lemma drop_identical_Forall (P : string * string -> Prop) (pairs : list (string * string)) :
  Forall P pairs -> Forall P (drop_identical pairs).
Proof.
  induction 1 as [|[a b] pairs H _ IH]; simpl; [constructor|].
  destruct (String.eqb a b); [assumption | now constructor].
Qed.

Lemma listed_pairs_distinct (Old New : string) :
  pascal_case_spec Old = true -> pascal_case_spec New = true -> Old <> New ->
  drop_identical (listed_pairs Old New) = listed_pairs Old New.
Proof.
  intros HO HN D. unfold listed_pairs. cbn [drop_identical].
  assert (C : toCamelCase Old <> toCamelCase New)
    by (intros E; apply D; now apply toCamelCase_inj).
  assert (K : forall x, String.eqb (Old ++ x) (New ++ x) = false).
  { intros x. apply String.eqb_neq. intros E. now apply append_inj_l in E. }
  assert (KC : forall x, String.eqb (toCamelCase Old ++ x) (toCamelCase New ++ x) = false).
  { intros x. apply String.eqb_neq. intros E. now apply append_inj_l in E. }
  rewrite !(eqb_append_cancel "use"), !K, !KC.
  apply String.eqb_neq in C, D. now rewrite C, D.
Qed.

End SubstFacts.

(** ** The file system *)

Module FsFacts.
Import StringFacts Fs.

Lemma assoc_put_same (k : string) (v : node) (es : list (string * node)) :
  assoc k (put k v es) = Some v.
Proof.
  induction es as [|[k' v'] es IH]; simpl.
  - now rewrite String.eqb_refl.
  - destruct (String.compare k k') eqn:C; simpl.
    + now rewrite String.eqb_refl.
    + now rewrite String.eqb_refl.
    + destruct (String.eqb k k') eqn:E; [|exact IH].
      apply String.eqb_eq in E. subst k'.
      pose proof (String.compare_antisym k k) as A. rewrite C in A. discriminate A.
Qed.

Lemma store_deeper (s s' : string) (q : list string) (v : option node)
      (es : list (string * node)) :
  store (s :: s' :: q) v (Dir es)
  = match assoc s es with
    | Some c =>
        match store (s' :: q) v c with
        | Some c' => Some (Dir (put s c' es))
        | None => None
        end
    | None => None
    end.
Proof. reflexivity. Qed.

Lemma lookup_store_same (p : list string) (v : node) :
  forall d d', store p (Some v) d = Some d' -> lookup p d' = Some v.
Proof.
  induction p as [|s q IH]; intros d d' H; [discriminate|].
  destruct d as [data|es]; [discriminate|].
  destruct q as [|s' q'].
  - simpl in H. injection H as <-. simpl. now rewrite assoc_put_same.
  - rewrite store_deeper in H. destruct (assoc s es) as [c|]; [|discriminate].
    destruct (store (s' :: q') (Some v) c) as [c'|] eqn:S; [|discriminate].
    injection H as <-. cbn [lookup]. rewrite assoc_put_same. now apply (IH c).
Qed.

Lemma includes_append_r (p a b : string) :
  includes p b = true -> includes p (a ++ b) = true.
Proof.
  intros H. induction a as [|c a IH]; [exact H|].
  simpl. rewrite IH. apply orb_true_r.
Qed.

Lemma includes_here (p rest : string) : includes p (p ++ rest) = true.
Proof.
  destruct (p ++ rest) eqn:E; simpl; rewrite <- E, startsWith_append; reflexivity.
Qed.

Lemma includes_inside (p before after : string) :
  includes p (before ++ p ++ after) = true.
Proof. apply includes_append_r, includes_here. Qed.

Lemma pathExists_run (p : string) (w : world) :
  pathExists p w
  = (Ret (match subtree p w with Some _ => true | None => false end),
     noted (CpathExists p) w).
Proof. reflexivity. Qed.

Lemma readFile_run (p : string) (w : world) :
  readFile p w
  = (match subtree p w with
     | Some (File data) => Ret data
     | Some (Dir _) => Throw (EISDIR p)
     | None => Throw (ENOENT p)
     end, noted (CreadFile p) w).
Proof.
  unfold readFile, subtree, bind, record, locate, getdisk, noted, at_path. cbn.
  destruct (lookup _ (disk w)) as [[|]|]; reflexivity.
Qed.

Ltac settle_write :=
  cbn; first [ left; eexists; split; reflexivity | right; eexists; reflexivity ].

Lemma writeFile_cases (p data : string) (w : world) :
  (exists d',
      store (at_path p w) (Some (File data)) (disk w) = Some d' /\
      writeFile p data w
      = (Ret tt, World (cwd w) d' (console w) (calls w ++ [CwriteFile p]))) \/
  (exists e, writeFile p data w = (Throw e, noted (CwriteFile p) w)).
Proof.
  unfold writeFile, bind, record, locate, getdisk, noted, parentDir, put_at, setdisk.
  cbn -[at_path store lookup].
  change (at_path p {| cwd := cwd w; disk := disk w; console := console w;
                       calls := calls w ++ [CwriteFile p] |}) with (at_path p w).
  destruct (lookup (at_path p w) (disk w)) as [[|]|];
    destruct (lookup (removelast (at_path p w)) (disk w)) as [[|]|];
    destruct (store (at_path p w) (Some (File data)) (disk w));
    settle_write.
Qed.

Lemma appendFile_cases (p data old : string) (w : world) :
  subtree p w = Some (File old) ->
  (exists d',
      store (at_path p w) (Some (File (old ++ data))) (disk w) = Some d' /\
      appendFile p data w
      = (Ret tt, World (cwd w) d' (console w) (calls w ++ [CappendFile p]))) \/
  (exists e, appendFile p data w = (Throw e, noted (CappendFile p) w)).
Proof.
  unfold subtree. intros H.
  unfold appendFile, bind, record, locate, getdisk, noted, parentDir, put_at, setdisk.
  cbn -[at_path store lookup].
  change (at_path p {| cwd := cwd w; disk := disk w; console := console w;
                       calls := calls w ++ [CappendFile p] |}) with (at_path p w).
  rewrite H.
  destruct (store (at_path p w) (Some (File (old ++ data))) (disk w)); settle_write.
Qed.

Lemma subtree_written (p : string) (v : node) (w : world) (d' : node)
      (console' : list string) (calls' : list fscall) :
  store (at_path p w) (Some v) (disk w) = Some d' ->
  subtree p (World (cwd w) d' console' calls') = Some v.
Proof. intros H. unfold subtree. now apply (lookup_store_same _ _ (disk w)). Qed.

End FsFacts.

(** ** barrel.js *)

Module BarrelFacts.
Import StringFacts Fs FsFacts Barrel.

Section Update.
Variables parentDir resourceName scriptExt dir : string.

Local Abbreviation update := (updateBarrel parentDir resourceName scriptExt dir).
Local Abbreviation barrel := (Path.join [parentDir; "index." ++ scriptExt]).
Local Abbreviation line :=
  ("export { default as " ++ resourceName ++ " } from './" ++ resourceName ++ "';" ++ nl).
Local Abbreviation mention := ("from './" ++ resourceName ++ "'").

Lemma line_mentions : includes mention line = true.
Proof.
  assert (E : line
              = ("export { default as " ++ resourceName ++ " } ") ++ mention ++ (";" ++ nl))
    by (now rewrite !append_assoc).
  rewrite E. apply includes_inside.
Qed.

(** A barrel that mentions the resource is left alone. *)
Lemma updateBarrel_skips (w : world) (existing : string) :
  subtree barrel w = Some (File existing) ->
  includes mention existing = true ->
  update w
  = (Ret {| action := "skipped"; path := Path.relative dir barrel |},
     noted (CreadFile barrel) (noted (CpathExists barrel) w)).
Proof.
  intros S I. unfold updateBarrel.
  remember (Path.join [parentDir; "index." ++ scriptExt]) as bp eqn:Ebp in *.
  unfold bind. rewrite pathExists_run, S.
  cbn -[readFile appendFile writeFile pathExists Path.relative Path.join includes subtree append].
  rewrite readFile_run.
  change (subtree bp (noted (CpathExists bp) w)) with (subtree bp w).
  rewrite S, I. reflexivity.
Qed.

Lemma subtree_same (p : string) (w w' : world) :
  cwd w' = cwd w -> disk w' = disk w -> subtree p w' = subtree p w.
Proof. unfold subtree, at_path. now intros -> ->. Qed.

(** Every way a call can end. *)
Lemma update_outcomes (w : world) :
  match update w with
  | (Ret first, w1) =>
      path first = Path.relative dir barrel /\ cwd w1 = cwd w /\
      ((action first = "skipped" /\ disk w1 = disk w /\
        exists existing,
          subtree barrel w = Some (File existing) /\ includes mention existing = true) \/
       (action first = "updated" /\
        exists old,
          subtree barrel w = Some (File old) /\ includes mention old = false /\
          subtree barrel w1 = Some (File (old ++ line))) \/
       (action first = "created" /\
        subtree barrel w = None /\ subtree barrel w1 = Some (File line)))
  | (Exit _, _) => False
  | (Throw _, w1) => disk w1 = disk w
  end.
Proof.
  unfold updateBarrel.
  remember (Path.join [parentDir; "index." ++ scriptExt]) as bp eqn:Ebp in *.
  unfold bind. rewrite pathExists_run.
  destruct (subtree bp w) as [[existing|es]|] eqn:S;
  cbn -[readFile appendFile writeFile pathExists Path.relative Path.join includes subtree append].
  - rewrite readFile_run.
    change (subtree bp (noted (CpathExists bp) w)) with (subtree bp w). rewrite S.
    destruct (includes _ existing) eqn:I.
    + repeat split. left. repeat split. now exists existing.
    + destruct (appendFile_cases bp line existing
                  (noted (CreadFile bp) (noted (CpathExists bp) w)) S)
        as [(d' & St & ->)|(e & ->)]; [|reflexivity].
      repeat split. right; left. split; [reflexivity|].
      exists existing. repeat split; [assumption|].
      now apply (subtree_written bp (File (existing ++ line))
                   (noted (CreadFile bp) (noted (CpathExists bp) w))).
  - rewrite readFile_run.
    change (subtree bp (noted (CpathExists bp) w)) with (subtree bp w). rewrite S.
    reflexivity.
  - destruct (writeFile_cases bp line (noted (CpathExists bp) w))
        as [(d' & St & ->)|(e & ->)]; [|reflexivity].
    repeat split. right; right. repeat split.
    now apply (subtree_written bp (File line) (noted (CpathExists bp) w)).
Qed.

(** After a call that returned, the barrel mentions the resource. *)
Lemma mentioned_after (w w1 : world) (first : BarrelUpdateResult) :
  update w = (Ret first, w1) ->
  exists text, subtree barrel w1 = Some (File text) /\ includes mention text = true.
Proof.
  intros H. pose proof (update_outcomes w) as O. rewrite H in O.
  destruct O as (_ & C & [(_ & D & existing & S & I)|[(_ & old & _ & _ & S)|(_ & _ & S)]]).
  - exists existing. split; [|assumption]. now rewrite (subtree_same barrel w w1).
  - exists (old ++ line). split; [assumption|].
    apply includes_append_r, line_mentions.
  - exists line. split; [assumption | apply line_mentions].
Qed.

Lemma repeated_skips (n : nat) :
  forall (w : world) (text : string),
    subtree barrel w = Some (File text) ->
    includes mention text = true ->
    exists wn, repeatedly n update w = (Ret tt, wn) /\ disk wn = disk w.
Proof.
  induction n as [|n IH]; intros w text S I.
  - now exists w.
  - cbn [repeatedly]. unfold bind at 1.
    rewrite (updateBarrel_skips w text S I).
    destruct (IH (noted (CreadFile barrel) (noted (CpathExists barrel) w)) text S I)
      as (wn & R & D).
    exists wn. split; assumption.
Qed.

End Update.
End BarrelFacts.

(** C6.  [updateBarrel] is idempotent.  Whenever a call returns, a
    second call with the same arguments returns [skipped] (for the same
    barrel path) and leaves the disk as the first call left it, and so
    does any number of further calls; the one call that returned either
    skipped, or appended the export line to a barrel that did not mention
    the resource, or created the barrel with that one line, so no export
    line is ever added twice.  A call that fails (the barrel path is a
    directory, or its parent is missing) throws and writes nothing. *)
Theorem updateBarrel_idempotent :
  forall (parentDir resourceName scriptExt dir : string) (w : world),
    let update := Barrel.updateBarrel parentDir resourceName scriptExt dir in
    let barrel := Path.join [parentDir; "index." ++ scriptExt] in
    let line :=
      "export { default as " ++ resourceName ++ " } from './" ++ resourceName ++ "';" ++ nl in
    let mention := "from './" ++ resourceName ++ "'" in
    match update w with
    | (Ret first, w1) =>
        (exists w2,
            update w1
            = (Ret {| Barrel.action := "skipped"; Barrel.path := Barrel.path first |}, w2) /\
            disk w2 = disk w1) /\
        (forall n, exists wn, repeatedly n update w1 = (Ret tt, wn) /\ disk wn = disk w1) /\
        ((Barrel.action first = "skipped" /\ disk w1 = disk w) \/
         (Barrel.action first = "updated" /\
          exists old,
            Fs.peek barrel w = Some old /\ includes mention old = false /\
            Fs.peek barrel w1 = Some (old ++ line)) \/
         (Barrel.action first = "created" /\
          Fs.subtree barrel w = None /\ Fs.peek barrel w1 = Some line))
    | (Exit _, _) => False
    | (Throw _, w1) => disk w1 = disk w
    end.
Proof.
  intros parentDir resourceName scriptExt dir w update barrel line mention.
  pose proof (BarrelFacts.update_outcomes parentDir resourceName scriptExt dir w) as O.
  fold update barrel line mention in O.
  destruct (update w) as [[first|code|e] w1] eqn:U; [|exact O|exact O].
  destruct (BarrelFacts.mentioned_after parentDir resourceName scriptExt dir w w1 first U)
    as (text & S & I).
  destruct O as (P & _ & O).
  split; [|split].
  - eexists. split.
    + subst update. rewrite (BarrelFacts.updateBarrel_skips _ _ _ _ w1 text S I).
      rewrite P. reflexivity.
    + reflexivity.
  - intros n.
    exact (BarrelFacts.repeated_skips parentDir resourceName scriptExt dir n w1 text S I).
  - destruct O as [(A & D & _)|[(A & old & So & Io & S1)|(A & Sn & S1)]].
    + left. now split.
    + right; left. split; [assumption|]. exists old. unfold Fs.peek.
      fold barrel in So, S1. now rewrite So, S1.
    + right; right. split; [assumption|]. split; [assumption|].
      unfold Fs.peek. now rewrite S1.
Qed.

(** ** Paths and objects *)

Module PathFacts.
Import StringFacts SubstFacts.

Lemma split_slash_append (x y : string) :
  split "/" (x ++ "/" ++ y) = (split "/" x ++ split "/" y)%list.
Proof.
  unfold split. induction x as [|c x IH].
  - reflexivity.
  - change (String c x ++ "/" ++ y) with (String c (x ++ "/" ++ y)).
    cbn [split_from startsWith String.length Nat.sub]. rewrite IH.
    destruct (Ascii.eqb "/" c); [reflexivity|].
    pose proof (split_from_nonempty "/" x 0) as N.
    destruct (split_from "/" 0 x); [easy | reflexivity].
Qed.

Lemma endsWithSlash_append (a leaf : string) :
  leaf <> "" -> Path.endsWithSlash (a ++ leaf) = Path.endsWithSlash leaf.
Proof.
  intros N. induction a as [|c a IH]; [reflexivity|].
  change (String c a ++ leaf) with (String c (a ++ leaf)). cbn [Path.endsWithSlash].
  destruct (a ++ leaf) eqn:E; [|exact IH].
  destruct a; [now elim N | discriminate E].
Qed.

Lemma normalize_double_slash (a y : string) :
  a <> "" -> y <> "" ->
  Path.normalize (a ++ "/" ++ "/" ++ y) = Path.normalize (a ++ "/" ++ y).
Proof.
  intros A Y.
  assert (T : Path.endsWithSlash (a ++ "/" ++ "/" ++ y) = Path.endsWithSlash (a ++ "/" ++ y)).
  { assert (E2 : a ++ "/" ++ "/" ++ y = (a ++ "//") ++ y) by (now rewrite append_assoc).
    assert (E1 : a ++ "/" ++ y = (a ++ "/") ++ y) by (now rewrite append_assoc).
    rewrite E2, E1. now rewrite !endsWithSlash_append. }
  assert (S : forall allow,
             Path.normalizeString allow (a ++ "/" ++ "/" ++ y)
             = Path.normalizeString allow (a ++ "/" ++ y)).
  { intros allow. unfold Path.normalizeString. rewrite !split_slash_append.
    change (split "/" ("/" ++ y)) with ("" :: split "/" y).
    now rewrite !fold_left_app. }
  unfold Path.normalize. rewrite T, !S.
  destruct a as [|c a]; [easy|]. reflexivity.
Qed.

(** Joining onto [base/leaf] is joining onto [base] and then [leaf]. *)
Lemma join_nested (dir base leaf : string) :
  dir <> "" -> leaf <> "" ->
  Path.join [dir; base ++ "/" ++ leaf] = Path.join [dir; base; leaf].
Proof.
  intros D L. destruct base as [|b base].
  - unfold Path.join.
    destruct dir as [|d dir]; [easy|]. destruct leaf as [|l leaf]; [easy|].
    cbn [filter truthy String.eqb negb JS.join append].
    apply (normalize_double_slash (String d dir) (String l leaf)); discriminate.
  - destruct dir as [|d dir]; [easy|]. destruct leaf as [|l leaf]; [easy|].
    reflexivity.
Qed.

End PathFacts.

Module ObjFacts.

Lemma keys_obj_set_new (k v : string) (o : obj) :
  ~ In k (keys o) -> keys (obj_set k v o) = (keys o ++ [k])%list.
Proof.
  induction o as [|[k' v'] o IH]; intros N; [reflexivity|].
  cbn [obj_set]. destruct (String.eqb k k') eqn:E.
  - apply String.eqb_eq in E. subst k'. elim N. now left.
  - cbn [keys map fst app]. f_equal. apply IH. intros I. apply N. now right.
Qed.

Lemma keys_fold (props : list (string * string)) :
  forall o, NoDup (keys o ++ map fst props) ->
            keys (fold_left (fun o kv => obj_set (fst kv) (snd kv) o) props o)
            = (keys o ++ map fst props)%list.
Proof.
  induction props as [|[k v] props IH]; intros o N; cbn [fold_left map fst snd].
  - now rewrite app_nil_r.
  - rewrite IH; rewrite keys_obj_set_new.
    + now rewrite <- app_assoc.
    + apply NoDup_remove_2 in N. intros I. apply N. apply in_or_app. now left.
    + now rewrite <- app_assoc.
    + apply NoDup_remove_2 in N. intros I. apply N. apply in_or_app. now left.
Qed.

(** An object literal with distinct keys lists them in written order. *)
Lemma keys_obj_of (props : list (string * string)) :
  NoDup (map fst props) -> keys (obj_of props) = map fst props.
Proof. intros N. unfold obj_of. now rewrite keys_fold. Qed.

Lemma keys_obj_set_of (k v : string) (props : list (string * string)) :
  NoDup (map fst props ++ [k]) ->
  keys (obj_set k v (obj_of props)) = (map fst props ++ [k])%list.
Proof.
  intros N. rewrite keys_obj_set_new.
  - rewrite keys_obj_of; [reflexivity|]. now apply NoDup_app_remove_r in N.
  - rewrite keys_obj_of by now apply NoDup_app_remove_r in N.
    apply NoDup_remove_2 in N. now rewrite app_nil_r in N.
Qed.

Lemma keys_obj_set2_of (k1 v1 k2 v2 : string) (props : list (string * string)) :
  NoDup (map fst props ++ [k1; k2]) ->
  keys (obj_set k2 v2 (obj_set k1 v1 (obj_of props))) = (map fst props ++ [k1; k2])%list.
Proof.
  intros N.
  assert (E : obj_set k1 v1 (obj_of props) = obj_of (props ++ [(k1, v1)])).
  { unfold obj_of. now rewrite fold_left_app. }
  rewrite E, keys_obj_set_of; rewrite map_app, <- app_assoc; [reflexivity | exact N].
Qed.

End ObjFacts.

Import Templates RenameSpec.

(** C5.  For valid PascalCase names the rename engine's pair list is the
    eight listed pairs in their order, use<Old>Store first and the bare
    name last, minus the pairs whose two sides are equal (all eight stay
    when the names differ); and [applyReplacements] applies them one
    after the other, each replacing every occurrence, found from the
    left, in the string as the previous pairs left it: its result is the
    only string so obtained. *)
Theorem replacement_pairs_listed_and_applied_in_order :
  forall Old New : string,
    pascal_case_spec Old = true ->
    pascal_case_spec New = true ->
    let pairs := buildReplacementPairs Old New in
    pairs = drop_identical (listed_pairs Old New) /\
    (Old <> New -> pairs = listed_pairs Old New) /\
    (forall s, Applied pairs s (applyReplacements s pairs)) /\
    (forall s r, Applied pairs s r -> r = applyReplacements s pairs).
Proof.
  intros Old New HO HN pairs.
  assert (E : pairs = drop_identical (listed_pairs Old New))
    by apply SubstFacts.filter_drop_identical.
  assert (N : Forall (fun p => fst p <> "") pairs).
  { rewrite E. apply SubstFacts.drop_identical_Forall,
      SubstFacts.listed_sources_nonempty.
    intros ->. discriminate HO. }
  repeat split.
  - exact E.
  - intros D. rewrite E. now apply SubstFacts.listed_pairs_distinct.
  - now apply SubstFacts.applyReplacements_Applied.
  - now apply SubstFacts.Applied_unique.
Qed.

(** Hook names in the template and in the switch of the query handler:
    both resolve a hook to ['use' + name] unless the camelCase of the
    name already starts with [use], in which case the camelCase name
    itself is taken; the result always starts with [use]; and "Auth" and
    "UseAuth" both resolve to "useAuth" (the switch being given a
    structure). *)
Lemma hook_switch_never_double_prefixed :
  forall (name : string) (config : Config) (atomicLevel : option string)
         (st : Structure) (w : world),
    let camel := toCamelCase name in
    let expected := if startsWith "use" camel then camel else "use" ++ name in
    resolvedName (hookTemplate name config) = expected /\
    (exists r,
        resolveSwitch "hook" name atomicLevel config (Some st) w
        = (Ret (Reply.ResourcePath r), w) /\
        Reply.resolvedName r = expected) /\
    startsWith "use" expected = true /\
    resolvedName (hookTemplate "Auth" config) = "useAuth" /\
    resolvedName (hookTemplate "UseAuth" config) = "useAuth" /\
    (exists r,
        resolveSwitch "hook" "Auth" atomicLevel config (Some st) w
        = (Ret (Reply.ResourcePath r), w) /\
        Reply.resolvedName r = "useAuth") /\
    (exists r,
        resolveSwitch "hook" "UseAuth" atomicLevel config (Some st) w
        = (Ret (Reply.ResourcePath r), w) /\
        Reply.resolvedName r = "useAuth").
Proof.
  intros name config atomicLevel st w camel expected.
  repeat split; try reflexivity.
  - eexists. split; reflexivity.
  - subst expected. destruct (startsWith "use" camel) eqn:E;
      [exact E | apply StringFacts.startsWith_append].
  - eexists. split; reflexivity.
  - eexists. split; reflexivity.
Qed.

(** ** The keys of the template objects *)

Module TemplateFacts.

Ltac not_upper :=
  subst;
  match goal with
  | U : is_upper _ = true |- _ => cbv in U; discriminate U
  end.

(** Two keys that differ: by a literal character, behind a common
    prefix, by an upper-case first letter, or by length. *)
Ltac differ :=
  match goal with
  | K : @eq string _ _ |- False =>
      simpl in K;
      first [ discriminate K
            | injection K; clear K; intros; first [ not_upper | differ ]
            | apply SubstFacts.append_inj_r in K; differ
            | apply (f_equal String.length) in K;
              rewrite ?StringFacts.length_append in K; simpl in K; lia ]
  end.

Ltac distinct_keys :=
  cbn [map fst app];
  repeat (apply NoDup_cons;
          [cbn [In]; intros K; repeat (destruct K as [K|K]; [differ|]); exact K|]);
  try apply NoDup_nil.

Ltac by_config config :=
  unfold getExtensions, pushed, isTS; cbv zeta; cbn [compExt scriptExt styleExt files];
  destruct (String.eqb (language config) "typescript"),
           (String.eqb (styling config) "scss"), (withTests config);
  (first [ rewrite ObjFacts.keys_obj_set_of; [reflexivity|]
         | rewrite ObjFacts.keys_obj_of; [reflexivity|] ]);
  distinct_keys.

Lemma component_keys (name : string) (config : Config) (level : option string) :
  pascal_case_spec name = true ->
  let ext := getExtensions config in
  keys (componentTemplate name config level)
  = pushed (withTests config)
      [name ++ "." ++ compExt ext; name ++ ".module." ++ styleExt ext; "index." ++ scriptExt ext]
      [name ++ ".test." ++ compExt ext].
Proof.
  destruct name as [|c s]; [discriminate|]. intros V. apply andb_true_iff in V.
  destruct V as [U _]. unfold componentTemplate. by_config config.
Qed.

Lemma hook_name_use (name : string) :
  exists x, (if startsWith "use" (toCamelCase name) then toCamelCase name else "use" ++ name)
            = "use" ++ x.
Proof.
  destruct (startsWith "use" (toCamelCase name)) eqn:E.
  - destruct (StringFacts.startsWith_split _ _ E) as [x ->]. now exists x.
  - now exists name.
Qed.

Lemma hook_keys (name : string) (config : Config) :
  let ext := getExtensions config in
  let h := resolvedName (hookTemplate name config) in
  keys (files (hookTemplate name config))
  = pushed (withTests config)
      [h ++ "." ++ scriptExt ext; "index." ++ scriptExt ext]
      [h ++ ".test." ++ scriptExt ext].
Proof.
  unfold hookTemplate. cbv zeta. cbn [resolvedName].
  destruct (hook_name_use name) as [x ->]. by_config config.
Qed.

Lemma page_keys (name : string) (config : Config) :
  pascal_case_spec name = true ->
  let ext := getExtensions config in
  keys (pageTemplate name config)
  = pushed (withTests config)
      [name ++ "Page." ++ compExt ext; name ++ "Page.module." ++ styleExt ext;
       "index." ++ scriptExt ext]
      [name ++ "Page.test." ++ compExt ext].
Proof.
  destruct name as [|c s]; [discriminate|]. intros V. apply andb_true_iff in V.
  destruct V as [U _]. unfold pageTemplate. by_config config.
Qed.

Lemma service_keys (name : string) (config : Config) :
  let ext := getExtensions config in
  let n := toCamelCase name ++ "Service" in
  keys (files (serviceTemplate name config))
  = pushed (withTests config)
      [n ++ "." ++ scriptExt ext; "index." ++ scriptExt ext]
      [n ++ ".test." ++ scriptExt ext].
Proof.
  unfold serviceTemplate. cbv zeta. rewrite !StringFacts.append_assoc.
  generalize (toCamelCase name). intros camel. by_config config.
Qed.

Lemma context_keys (name : string) (config : Config) :
  pascal_case_spec name = true ->
  let ext := getExtensions config in
  let n := name ++ "Context" in
  keys (files (contextTemplate name config))
  = pushed (withTests config)
      [n ++ "." ++ compExt ext; "index." ++ scriptExt ext]
      [n ++ ".test." ++ compExt ext].
Proof.
  destruct name as [|c s]; [discriminate|]. intros V. apply andb_true_iff in V.
  destruct V as [U _]. unfold contextTemplate. cbv zeta.
  rewrite !StringFacts.append_assoc. by_config config.
Qed.

Lemma store_keys (name : string) (config : Config) :
  let ext := getExtensions config in
  let n := "use" ++ name ++ "Store" in
  keys (files (storeTemplate name config))
  = pushed (withTests config)
      [n ++ "." ++ scriptExt ext; "index." ++ scriptExt ext]
      [n ++ ".test." ++ scriptExt ext].
Proof.
  unfold storeTemplate. cbv zeta. rewrite !StringFacts.append_assoc. by_config config.
Qed.

Lemma type_keys (name : string) (config : Config) :
  keys (files (typeTemplate name config))
  = [(name ++ ".types") ++ "." ++ scriptExt (getExtensions config)].
Proof.
  unfold typeTemplate, getExtensions. cbv zeta. cbn [scriptExt files].
  rewrite StringFacts.append_assoc.
  destruct (String.eqb (language config) "typescript"); reflexivity.
Qed.

Lemma api_keys (name : string) (config : Config) :
  keys (files (apiTemplate name config)) = ["route." ++ scriptExt (getExtensions config)].
Proof.
  unfold apiTemplate, getExtensions, isTS. cbv zeta. cbn [scriptExt files].
  destruct (String.eqb (language config) "typescript"); reflexivity.
Qed.

Lemma feature_keys (name : string) (config : Config) :
  pascal_case_spec name = true ->
  let ext := getExtensions config in
  let serviceName := toCamelCase name ++ "Service" in
  let hookName := "use" ++ name in
  keys (files (featureTemplate name config))
  = pushed (withTests config)
      [ "components/" ++ name ++ "View/" ++ name ++ "View." ++ compExt ext;
        "components/" ++ name ++ "View/" ++ name ++ "View.module." ++ styleExt ext;
        "components/" ++ name ++ "View/index." ++ scriptExt ext;
        "hooks/" ++ hookName ++ "/" ++ hookName ++ "." ++ scriptExt ext;
        "hooks/" ++ hookName ++ "/index." ++ scriptExt ext;
        "services/" ++ serviceName ++ "/" ++ serviceName ++ "." ++ scriptExt ext;
        "services/" ++ serviceName ++ "/index." ++ scriptExt ext;
        "types." ++ scriptExt ext;
        "index." ++ scriptExt ext ]
      [ "components/" ++ name ++ "View/" ++ name ++ "View.test." ++ compExt ext;
        "hooks/" ++ hookName ++ "/" ++ hookName ++ ".test." ++ scriptExt ext ].
Proof.
  destruct name as [|c s]; [discriminate|]. intros V. apply andb_true_iff in V.
  destruct V as [U _]. unfold featureTemplate. cbv zeta.
  rewrite !StringFacts.append_assoc.
  generalize (toCamelCase (String c s)). intros camel.
  unfold getExtensions, pushed, isTS; cbv zeta; cbn [compExt scriptExt styleExt files].
  destruct (String.eqb (language config) "typescript"),
           (String.eqb (styling config) "scss"), (withTests config).
  all: first [ rewrite ObjFacts.keys_obj_set2_of; [reflexivity|]
             | rewrite ObjFacts.keys_obj_of; [reflexivity|] ].
  all: distinct_keys.
Qed.

End TemplateFacts.


(** ** The switch of handleResolveResourcePath, case by case *)

Module ResolveFacts.

Local Abbreviation path_reply type name directory files resolvedName note :=
  (Reply.ResourcePath
    {| Reply.type := type; Reply.name := name; Reply.directory := directory;
       Reply.files := files; Reply.resolvedName := resolvedName; Reply.note := note |}).

Section Switch.
Variables (name : string) (atomicLevel : option string) (config : Config)
          (st : Structure) (w : world).

Local Abbreviation switch type := (resolveSwitch type name atomicLevel config (Some st) w).
Local Abbreviation ext := (getExtensions config).
Local Abbreviation tests := (withTests config).

Lemma switch_component :
  exists note,
    switch "component"
    = (Ret (path_reply "component" name
              (componentPath st (Some name)
                 (if String.eqb (pattern config) "atomic-design"
                  then (if given atomicLevel then atomicLevel else Some "atom")
                  else None) ++ "/" ++ name)
              (pushed tests
                 [name ++ "." ++ compExt ext; name ++ ".module." ++ styleExt ext;
                  "index." ++ scriptExt ext]
                 [name ++ ".test." ++ compExt ext])
              name note), w).
Proof.
  unfold resolveSwitch. cbv zeta.
  destruct (String.eqb (pattern config) "atomic-design"), (given atomicLevel);
    eexists; reflexivity.
Qed.

Lemma switch_hook :
  let h := resolvedName (hookTemplate name config) in
  exists note,
    switch "hook"
    = (Ret (path_reply "hook" name (hookPath st ++ "/" ++ h)
              (pushed tests [h ++ "." ++ scriptExt ext; "index." ++ scriptExt ext]
                 [h ++ ".test." ++ scriptExt ext])
              h note), w).
Proof. eexists; reflexivity. Qed.

Lemma switch_page :
  exists note,
    switch "page"
    = (Ret (path_reply "page" name (pagePath st ++ "/" ++ name)
              (pushed tests
                 [(name ++ "Page") ++ "." ++ compExt ext;
                  (name ++ "Page") ++ ".module." ++ styleExt ext;
                  "index." ++ scriptExt ext]
                 [(name ++ "Page") ++ ".test." ++ compExt ext])
              (name ++ "Page") note), w).
Proof. eexists; reflexivity. Qed.

Lemma switch_service :
  let n := toCamelCase name ++ "Service" in
  exists note,
    switch "service"
    = (Ret (path_reply "service" name (servicePath st ++ "/" ++ n)
              (pushed tests [n ++ "." ++ scriptExt ext; "index." ++ scriptExt ext]
                 [n ++ ".test." ++ scriptExt ext])
              n note), w).
Proof. eexists; reflexivity. Qed.

Lemma switch_context :
  let n := name ++ "Context" in
  exists note,
    switch "context"
    = (Ret (path_reply "context" name (contextPath st ++ "/" ++ n)
              (pushed tests [n ++ "." ++ compExt ext; "index." ++ scriptExt ext]
                 [n ++ ".test." ++ compExt ext])
              n note), w).
Proof. eexists; reflexivity. Qed.

Lemma switch_store :
  let n := "use" ++ name ++ "Store" in
  exists note,
    switch "store"
    = (Ret (path_reply "store" name (storePath st ++ "/" ++ n)
              (pushed tests [n ++ "." ++ scriptExt ext; "index." ++ scriptExt ext]
                 [n ++ ".test." ++ scriptExt ext])
              n note), w).
Proof. eexists; reflexivity. Qed.

Lemma switch_type :
  exists note,
    switch "type"
    = (Ret (path_reply "type" name (typePath st)
              [(name ++ ".types") ++ "." ++ scriptExt ext] (name ++ ".types") note), w).
Proof. eexists; reflexivity. Qed.

Lemma switch_api_elsewhere :
  String.eqb (framework config) "nextjs" = false ->
  switch "api" = (Ret (Reply.Error "API routes are only supported for Next.js projects."), w).
Proof. intros F. unfold resolveSwitch. cbv zeta. cbn [String.eqb Ascii.eqb Bool.eqb]. now rewrite F. Qed.

Lemma switch_api_nextjs (apiBase : string) :
  String.eqb (framework config) "nextjs" = true ->
  apiPath st = Some apiBase ->
  exists note,
    switch "api"
    = (Ret (path_reply "api" name (apiBase ++ "/" ++ toCamelCase name)
              ["route." ++ scriptExt ext] (toCamelCase name) note), w).
Proof.
  intros F A. unfold resolveSwitch. cbv zeta. cbn [String.eqb Ascii.eqb Bool.eqb].
  rewrite F. unfold bind, defined, callApiPath, ret. rewrite A. eexists; reflexivity.
Qed.

Lemma switch_api_missing :
  String.eqb (framework config) "nextjs" = true ->
  apiPath st = None ->
  exists e, switch "api" = (Throw e, w).
Proof.
  intros F A. unfold resolveSwitch. cbv zeta. cbn [String.eqb Ascii.eqb Bool.eqb].
  rewrite F. unfold bind, defined, callApiPath, ret. rewrite A. eexists; reflexivity.
Qed.

Lemma switch_feature :
  let serviceName := toCamelCase name ++ "Service" in
  let hookName := "use" ++ name in
  exists note,
    switch "feature"
    = (Ret (path_reply "feature" name (featurePath st ++ "/" ++ name)
              (pushed tests
                 [ "components/" ++ name ++ "View/" ++ name ++ "View." ++ compExt ext;
                   "components/" ++ name ++ "View/" ++ name ++ "View.module." ++ styleExt ext;
                   "components/" ++ name ++ "View/index." ++ scriptExt ext;
                   "hooks/" ++ hookName ++ "/" ++ hookName ++ "." ++ scriptExt ext;
                   "hooks/" ++ hookName ++ "/index." ++ scriptExt ext;
                   "services/" ++ serviceName ++ "/" ++ serviceName ++ "." ++ scriptExt ext;
                   "services/" ++ serviceName ++ "/index." ++ scriptExt ext;
                   "types." ++ scriptExt ext;
                   "index." ++ scriptExt ext ]
                 [ "components/" ++ name ++ "View/" ++ name ++ "View.test." ++ compExt ext;
                   "hooks/" ++ hookName ++ "/" ++ hookName ++ ".test." ++ scriptExt ext ])
              name note), w).
Proof. eexists; reflexivity. Qed.

End Switch.

Lemma append_nonempty_r (a b : string) : b <> "" -> a ++ b <> "".
Proof. destruct a; [trivial | discriminate]. Qed.

Lemma camel_nonempty (name : string) : name <> "" -> toCamelCase name <> "".
Proof. destruct name; [easy | discriminate]. Qed.

Lemma hook_leaf_nonempty (name : string) (config : Config) :
  resolvedName (hookTemplate name config) <> "".
Proof.
  unfold hookTemplate. cbv zeta. cbn [resolvedName].
  destruct (TemplateFacts.hook_name_use name) as [x ->]. discriminate.
Qed.

End ResolveFacts.

(** The switch of the query handler and the resolution of [add] side
    by side.  For a supported type, a valid PascalCase name, a structure
    and a non-empty working directory, and with the level chosen at
    add's prompt being the level the query uses under atomic-design (the
    one given, or "atom"): the switch of [handleResolveResourcePath] and
    the resolution of the [add] functions agree on the directory (the
    query's, joined onto the working directory, is add's), on the list
    of files in their order, and on the resolved name where add's
    template returns one (for component and page, whose templates return
    none, the resolved name is the base name of the first file); where
    one of them gives no resolution, neither does the other ([api]
    outside Next.js, or a structure without [apiPath]). *)
Lemma switch_and_target_alike :
  forall (type name : string) (atomicLevel : option string) (answer : string)
         (config : Config) (st : Structure) (root : string) (w : world),
    In type SUPPORTED ->
    pascal_case_spec name = true ->
    root <> "" ->
    (pattern config = "atomic-design" ->
     (if given atomicLevel then atomicLevel else Some "atom") = Some answer) ->
    match resolveSwitch type name atomicLevel config (Some st) w,
          addTarget type name config st root answer with
    | (Ret (Reply.ResourcePath r), w'), Some t =>
        w' = w /\
        Path.join [root; Reply.directory r] = dir t /\
        keys (body t) = Reply.files r /\
        (forall n, resolved t = Some n -> n = Reply.resolvedName r) /\
        (resolved t = None ->
         exists ext, hd "" (keys (body t)) = Reply.resolvedName r ++ "." ++ ext)
    | (Ret (Reply.Error _), _), None => type = "api" /\ framework config <> "nextjs"
    | (Throw _, _), None => type = "api" /\ apiPath st = None
    | _, _ => False
    end.
Proof.
  intros type name atomicLevel answer config st root w T V D L.
  assert (N : name <> "") by (intros ->; discriminate V).
  cbn [In SUPPORTED] in T.
  destruct T as [<-|[<-|[<-|[<-|[<-|[<-|[<-|[<-|[<-|[]]]]]]]]]].
  - (* component *)
    destruct (ResolveFacts.switch_component name atomicLevel config st w) as [note ->].
    change (addTarget "component" name config st root answer)
      with (Some (componentTarget name config st root answer)).
    unfold componentTarget. cbv zeta.
    cbn [Reply.directory Reply.files Reply.resolvedName dir body resolved].
    assert (E : (if String.eqb (pattern config) "atomic-design"
                 then (if given atomicLevel then atomicLevel else Some "atom")
                 else None)
                = (if String.eqb (pattern config) "atomic-design" then Some answer else None)).
    { destruct (String.eqb (pattern config) "atomic-design") eqn:P; [|reflexivity].
      apply String.eqb_eq in P. exact (L P). }
    rewrite E, (TemplateFacts.component_keys name config _ V).
    repeat split.
    + now apply PathFacts.join_nested.
    + discriminate.
    + intros _. unfold pushed. destruct (withTests config); eexists; reflexivity.
  - (* hook *)
    destruct (ResolveFacts.switch_hook name atomicLevel config st w) as [note ->].
    change (addTarget "hook" name config st root answer)
      with (Some (hookTarget name config st root)).
    unfold hookTarget. cbv zeta.
    cbn [Reply.directory Reply.files Reply.resolvedName dir body resolved].
    rewrite TemplateFacts.hook_keys.
    repeat split.
    + apply PathFacts.join_nested; [assumption | apply ResolveFacts.hook_leaf_nonempty].
    + intros n E. now injection E.
    + discriminate.
  - (* page *)
    destruct (ResolveFacts.switch_page name atomicLevel config st w) as [note ->].
    change (addTarget "page" name config st root answer)
      with (Some (pageTarget name config st root)).
    unfold pageTarget.
    cbn [Reply.directory Reply.files Reply.resolvedName dir body resolved].
    rewrite (TemplateFacts.page_keys name config V), !StringFacts.append_assoc.
    repeat split.
    + now apply PathFacts.join_nested.
    + discriminate.
    + intros _. exists (compExt (getExtensions config)).
      rewrite StringFacts.append_assoc.
      unfold pushed. destruct (withTests config); reflexivity.
  - (* service *)
    destruct (ResolveFacts.switch_service name atomicLevel config st w) as [note ->].
    change (addTarget "service" name config st root answer)
      with (Some (serviceTarget name config st root)).
    unfold serviceTarget. cbv zeta.
    cbn [Reply.directory Reply.files Reply.resolvedName dir body resolved].
    rewrite TemplateFacts.service_keys.
    repeat split.
    + apply PathFacts.join_nested; [assumption|].
      apply ResolveFacts.append_nonempty_r. discriminate.
    + intros n E. now injection E.
    + discriminate.
  - (* context *)
    destruct (ResolveFacts.switch_context name atomicLevel config st w) as [note ->].
    change (addTarget "context" name config st root answer)
      with (Some (contextTarget name config st root)).
    unfold contextTarget. cbv zeta.
    cbn [Reply.directory Reply.files Reply.resolvedName dir body resolved].
    rewrite (TemplateFacts.context_keys name config V).
    repeat split.
    + apply PathFacts.join_nested; [assumption|].
      apply ResolveFacts.append_nonempty_r. discriminate.
    + intros n E. now injection E.
    + discriminate.
  - (* store *)
    destruct (ResolveFacts.switch_store name atomicLevel config st w) as [note ->].
    change (addTarget "store" name config st root answer)
      with (Some (storeTarget name config st root)).
    unfold storeTarget. cbv zeta.
    cbn [Reply.directory Reply.files Reply.resolvedName dir body resolved].
    rewrite TemplateFacts.store_keys.
    repeat split.
    + apply PathFacts.join_nested; [assumption | discriminate].
    + intros n E. now injection E.
    + discriminate.
  - (* type *)
    destruct (ResolveFacts.switch_type name atomicLevel config st w) as [note ->].
    change (addTarget "type" name config st root answer)
      with (Some (typeTarget name config st root)).
    unfold typeTarget. cbv zeta.
    cbn [Reply.directory Reply.files Reply.resolvedName dir body resolved].
    rewrite TemplateFacts.type_keys.
    repeat split.
    + intros n E. now injection E.
    + discriminate.
  - (* api *)
    unfold addTarget. cbn [String.eqb Ascii.eqb Bool.eqb].
    destruct (String.eqb (framework config) "nextjs") eqn:F.
    + destruct (apiPath st) as [apiBase|] eqn:A; cbn [option_map].
      * destruct (ResolveFacts.switch_api_nextjs name atomicLevel config st w apiBase F A)
          as [note ->].
        unfold apiTarget. cbv zeta.
        cbn [Reply.directory Reply.files Reply.resolvedName dir body resolved].
        rewrite TemplateFacts.api_keys.
        repeat split.
        -- apply PathFacts.join_nested; [assumption|].
           now apply ResolveFacts.camel_nonempty.
        -- intros n E. now injection E.
        -- discriminate.
      * destruct (ResolveFacts.switch_api_missing name atomicLevel config st w F A)
          as [e ->].
        now split.
    + rewrite (ResolveFacts.switch_api_elsewhere name atomicLevel config st w F).
      split; [reflexivity|]. now apply String.eqb_neq.
  - (* feature *)
    destruct (ResolveFacts.switch_feature name atomicLevel config st w) as [note ->].
    change (addTarget "feature" name config st root answer)
      with (Some (featureTarget name config st root)).
    unfold featureTarget. cbv zeta.
    cbn [Reply.directory Reply.files Reply.resolvedName dir body resolved].
    rewrite (TemplateFacts.feature_keys name config V).
    repeat split.
    + now apply PathFacts.join_nested.
    + intros n E. now injection E.
    + discriminate.
Qed.


Section Properties.

Variable reactStructures : string -> option Structure.
Variable nextjsStructures : string -> option Structure.
Variable parseConfig : string -> option Config.

Local Abbreviation renameCmd := (renameCommand reactStructures nextjsStructures parseConfig).
Local Abbreviation removeCmd := (removeCommand reactStructures nextjsStructures parseConfig).
Local Abbreviation addCmd := (addCommand reactStructures nextjsStructures parseConfig).
Local Abbreviation resolvePath :=
  (handleResolveResourcePath reactStructures nextjsStructures parseConfig).
Local Abbreviation architectureGuide :=
  (handleGetArchitectureGuide reactStructures nextjsStructures parseConfig).
Local Abbreviation projectConfig := (handleGetProjectConfig parseConfig).
Local Abbreviation structureFor := (structureOf reactStructures nextjsStructures).
Local Abbreviation holds := (configured parseConfig).

Import Fs FsFacts.

Lemma peek_subtree (p data : string) (w : world) :
  peek p w = Some data -> subtree p w = Some (File data).
Proof.
  unfold peek. destruct (subtree p w) as [[d|es]|]; try discriminate.
  now intros [= ->].
Qed.

(** The world once the configuration file has been found and read. *)
Local Abbreviation loaded w :=
  (let configPath := Path.join [cwd w; ".rchitect.json"] in
   noted (CreadFile configPath) (noted (CreadJson configPath) (noted (CpathExists configPath) w))).

Lemma readJson_run (w : world) (config : Config) (p data : string) :
  subtree p w = Some (File data) -> parseConfig data = Some config ->
  readJson parseConfig p w = (Ret config, noted (CreadFile p) (noted (CreadJson p) w)).
Proof.
  intros S P. unfold readJson, bind, record.
  rewrite readFile_run.
  change (subtree p (noted (CreadJson p) w)) with (subtree p w).
  now rewrite S, P.
Qed.

Lemma loadConfig_run (w : world) (config : Config) :
  holds w config -> loadConfig parseConfig (cwd w) w = (Ret config, loaded w).
Proof.
  intros (data & P & J). apply peek_subtree in P.
  unfold loadConfig. cbv zeta. unfold bind at 1. rewrite pathExists_run, P.
  cbn [negb]. cbv iota.
  now rewrite (readJson_run (noted (CpathExists _) w) config _ data P J).
Qed.

Lemma resolvePath_run (type name : string) (atomicLevel : option string)
      (w : world) (config : Config) :
  In type SUPPORTED -> holds w config ->
  resolvePath type name atomicLevel (cwd w) w
  = resolveSwitch type name atomicLevel config (structureFor config) (loaded w).
Proof.
  intros T (data & P & J). apply peek_subtree in P.
  unfold handleResolveResourcePath.
  assert (E : existsb (String.eqb type) SUPPORTED = true).
  { apply existsb_exists. exists type. split; [assumption | apply String.eqb_refl]. }
  rewrite E. cbn [negb]. cbv zeta. unfold bind at 1. rewrite pathExists_run, P.
  cbn [negb]. cbv iota. unfold bind at 1.
  now rewrite (readJson_run (noted (CpathExists _) w) config _ data P J).
Qed.

Lemma getStructure_run (config : Config) (st : Structure) (w : world) :
  structureFor config = Some st ->
  getStructure reactStructures nextjsStructures config w = (Ret st, w).
Proof. intros S. unfold getStructure. now rewrite S. Qed.

Lemma addCommand_api_run (name answer : string) (w : world) (config : Config)
      (st : Structure) :
  holds w config -> structureFor config = Some st ->
  addCmd "api" name answer w = addApi name config st (cwd w) (loaded w).
Proof.
  intros H S. unfold addCommand.
  change (existsb (String.eqb "api") ADD_SUPPORTED_TYPES) with true.
  cbn [negb]. cbv iota. unfold bind at 1. unfold getcwd at 1. cbv iota beta.
  unfold bind at 1. rewrite (loadConfig_run w config H).
  unfold bind at 1. rewrite (getStructure_run config st _ S).
  reflexivity.
Qed.

(** The resolution of an API route.  With a valid PascalCase name, a
    configuration on disk and a structure for it: under framework
    [react] the query handler returns an error that mentions Next.js and
    no directory, and [add] prints such an error and exits with code 1,
    leaving the disk alone; under framework [nextjs], with the
    structure's [apiPath], the query handler returns the directory
    [apiPath()/camelCase(name)] and the one file [route.S], and [add]
    reaches its common tail with that directory (joined onto the working
    directory) and that one file. *)
Lemma api_resolution :
  forall (name answer : string) (atomicLevel : option string) (config : Config)
         (st : Structure) (w : world),
    pascal_case_spec name = true ->
    holds w config ->
    structureFor config = Some st ->
    (framework config = "react" ->
     (exists msg,
         resolvePath "api" name atomicLevel (cwd w) w = (Ret (Reply.Error msg), loaded w) /\
         includes "Next.js" msg = true) /\
     (exists line,
         addCmd "api" name answer w
         = (Exit 1, World (cwd w) (disk w) (console w ++ [line]) (calls (loaded w))) /\
         includes "Next.js" line = true) /\
     addTarget "api" name config st (cwd w) answer = None) /\
    (framework config = "nextjs" ->
     forall apiBase, apiPath st = Some apiBase ->
       let script := scriptExt (getExtensions config) in
       (exists r,
           resolvePath "api" name atomicLevel (cwd w) w
           = (Ret (Reply.ResourcePath r), loaded w) /\
           Reply.directory r = apiBase ++ "/" ++ toCamelCase name /\
           Reply.files r = ["route." ++ script] /\
           Reply.resolvedName r = toCamelCase name) /\
       (exists t,
           addTarget "api" name config st (cwd w) answer = Some t /\
           dir t = Path.join [cwd w; apiBase; toCamelCase name] /\
           keys (body t) = ["route." ++ script] /\
           addCmd "api" name answer w
           = create t config (cwd w) "API route" (toCamelCase name) None
               ("API route " ++ dq ++ "app/api/" ++ toCamelCase name ++ "/route" ++ dq
                ++ " created successfully!")
               (loaded w))).
Proof.
  intros name answer atomicLevel config st w V H S.
  assert (T : In "api" SUPPORTED) by (cbn; tauto).
  split.
  - intros F.
    assert (F' : String.eqb (framework config) "nextjs" = false) by now rewrite F.
    repeat split.
    + eexists. split.
      * rewrite (resolvePath_run "api" name atomicLevel w config T H), S.
        apply ResolveFacts.switch_api_elsewhere. exact F'.
      * reflexivity.
    + eexists. split.
      * rewrite (addCommand_api_run name answer w config st H S).
        unfold addApi. unfold bind at 1.
        rewrite (ValidateFacts.validateName_valid name "api" _ V).
        rewrite F'. cbn [negb]. cbv iota. reflexivity.
      * reflexivity.
    + unfold addTarget. cbn [String.eqb Ascii.eqb Bool.eqb]. now rewrite F'.
  - intros F apiBase A script.
    assert (F' : String.eqb (framework config) "nextjs" = true) by now rewrite F.
    split.
    + destruct (ResolveFacts.switch_api_nextjs name atomicLevel config st (loaded w)
                  apiBase F' A) as [note E].
      eexists. split.
      { rewrite (resolvePath_run "api" name atomicLevel w config T H), S. exact E. }
      repeat split; reflexivity.
    + exists (apiTarget name config apiBase (cwd w)).
      split; [|split; [reflexivity|split; [apply TemplateFacts.api_keys|]]].
      * unfold addTarget. cbn [String.eqb Ascii.eqb Bool.eqb]. now rewrite F', A.
      * rewrite (addCommand_api_run name answer w config st H S).
        unfold addApi. unfold bind at 1.
        rewrite (ValidateFacts.validateName_valid name "api" _ V).
        rewrite F'. cbn [negb]. cbv iota.
        unfold bind at 1. unfold callApiPath. rewrite A. reflexivity.
Qed.

(** The sibling handler guards against a pattern without a structure. *)
Lemma architectureGuide_unknown_pattern (w : world) (config : Config) :
  holds w config -> structureFor config = None ->
  architectureGuide (cwd w) w
  = (Ret (Reply.Error ("Unknown pattern " ++ dq ++ pattern config ++ dq
                       ++ " in .rchitect.json.")), loaded w).
Proof.
  intros (data & P & J) S. apply peek_subtree in P.
  unfold handleGetArchitectureGuide. cbv zeta. unfold bind at 1.
  rewrite pathExists_run, P. cbn [negb]. cbv iota. unfold bind at 1.
  rewrite (readJson_run (noted (CpathExists _) w) config _ data P J).
  now rewrite S.
Qed.

(** A configuration file that does not parse makes every handler throw. *)
Lemma handlers_raise_on_malformed_json (type name : string) (atomicLevel : option string)
      (w : world) (data : string) :
  In type SUPPORTED ->
  peek (Path.join [cwd w; ".rchitect.json"]) w = Some data ->
  parseConfig data = None ->
  exists e,
    projectConfig (cwd w) w = (Throw e, loaded w) /\
    architectureGuide (cwd w) w = (Throw e, loaded w) /\
    resolvePath type name atomicLevel (cwd w) w = (Throw e, loaded w).
Proof.
  intros T P J. apply peek_subtree in P.
  exists (SyntaxError (Path.join [cwd w; ".rchitect.json"])).
  assert (E : existsb (String.eqb type) SUPPORTED = true).
  { apply existsb_exists. exists type. split; [assumption | apply String.eqb_refl]. }
  unfold handleGetProjectConfig, handleGetArchitectureGuide, handleResolveResourcePath.
  rewrite E. cbn [negb]. cbv zeta iota.
  remember (Path.join [cwd w; ".rchitect.json"]) as configPath eqn:C in *.
  assert (R : readJson parseConfig configPath (noted (CpathExists configPath) w)
              = (Throw (SyntaxError configPath),
                 noted (CreadFile configPath)
                   (noted (CreadJson configPath) (noted (CpathExists configPath) w)))).
  { unfold readJson, bind, record. rewrite readFile_run.
    change (subtree configPath (noted (CreadJson configPath) (noted (CpathExists configPath) w)))
      with (subtree configPath w).
    now rewrite P, J. }
  repeat split; unfold bind at 1; rewrite pathExists_run, P; cbn [negb]; cbv iota;
    unfold bind at 1; now rewrite R.
Qed.

(** C3, as the code stands.  With a configuration on disk whose pattern
    names no structure, [handleResolveResourcePath] does not return an
    error payload for any type that has a directory: it throws a
    [TypeError] on reading a property of the undefined structure.
    [handleGetArchitectureGuide], in the same situation, returns an
    error payload. *)
Theorem resolve_handler_throws_on_unknown_pattern :
  forall (type name : string) (atomicLevel : option string) (config : Config) (w : world),
    In type ["component"; "hook"; "page"; "service"; "context"; "store"; "type"; "feature"] ->
    holds w config ->
    structureFor config = None ->
    (exists what,
        resolvePath type name atomicLevel (cwd w) w = (Throw (TypeError what), loaded w)) /\
    (exists msg, architectureGuide (cwd w) w = (Ret (Reply.Error msg), loaded w)).
Proof.
  intros type name atomicLevel config w T H S. split.
  - assert (T' : In type SUPPORTED).
    { unfold SUPPORTED. cbn [In] in T |- *. intuition. }
    rewrite (resolvePath_run type name atomicLevel w config T' H), S.
    cbn [In] in T.
    destruct T as [<-|[<-|[<-|[<-|[<-|[<-|[<-|[<-|[]]]]]]]]];
      try (eexists; reflexivity).
    unfold resolveSwitch. cbv zeta. cbn [String.eqb Ascii.eqb Bool.eqb].
    destruct (String.eqb (pattern config) "atomic-design"), (given atomicLevel);
      eexists; reflexivity.
  - eexists. exact (architectureGuide_unknown_pattern w config H S).
Qed.
(** C10.  [rename] and [remove] support the seven types component,
    hook, page, service, context, store and feature only.  Given the
    type [type] or [api], which [add] does support, each of them prints
    the unknown-type error and ends the process with exit code 1 before
    any call into the file system, whatever the names. *)
Theorem rename_and_remove_reject_type_and_api :
  forall (type oldName newName name : string) (confirm : bool) (w : world),
    In type ["type"; "api"] ->
    RENAME_SUPPORTED_TYPES
      = ["component"; "hook"; "page"; "service"; "context"; "store"; "feature"] /\
    REMOVE_SUPPORTED_TYPES = RENAME_SUPPORTED_TYPES /\
    existsb (String.eqb type) ADD_SUPPORTED_TYPES = true /\
    (exists lines,
        renameCmd type oldName newName w
        = (Exit 1, World (cwd w) (disk w) (console w ++ lines) (calls w))) /\
    (exists lines,
        removeCmd type name confirm w
        = (Exit 1, World (cwd w) (disk w) (console w ++ lines) (calls w))).
Proof.
  intros type oldName newName name confirm w [<-|[<-|[]]];
    (repeat split; [reflexivity .. | |]); eexists; cbn; rewrite <- app_assoc; reflexivity.
Qed.

End Properties.

(** ** Where rename and remove look for a resource *)

Module RenameDirFacts.
Import StringFacts SubstFacts PathFacts.

Lemma join_cons_more (sep x y : string) (rest : list string) :
  JS.join sep (x :: y :: rest) = x ++ sep ++ JS.join sep (y :: rest).
Proof. reflexivity. Qed.

Lemma join_last_inj (sep : string) (l : list string) (a b : string) :
  JS.join sep (l ++ [a]) = JS.join sep (l ++ [b]) -> a = b.
Proof.
  induction l as [|x l IH]; intros E; [exact E|].
  destruct l as [|y l].
  - cbn in E. now apply append_inj_r, append_inj_r in E.
  - cbn [app] in E, IH. rewrite !join_cons_more in E.
    apply append_inj_r, append_inj_r in E. now apply IH.
Qed.

Lemma join_last_nonempty (sep : string) (l : list string) (a : string) :
  a <> "" -> JS.join sep (l ++ [a]) <> "".
Proof.
  intros A. induction l as [|x l IH]; [exact A|].
  destruct l as [|y l].
  - cbn. destruct x; [|discriminate]. destruct sep; [exact A | discriminate].
  - cbn [app] in IH |- *. rewrite join_cons_more.
    destruct x; [|discriminate]. destruct sep; [exact IH | discriminate].
Qed.

(** Two joins that end in different plain segments differ. *)
Lemma normalize_leaf (X a : string) :
  X <> "" -> a <> "" ->
  split "/" a = [a] -> Path.endsWithSlash a = false ->
  String.eqb a "." = false -> String.eqb a ".." = false ->
  exists pre l,
    Path.normalize (X ++ "/" ++ a) = pre ++ JS.join "/" (l ++ [a])
    /\ (pre, l) = (if startsWith "/" X then "/" else "",
                   rev (fold_left (Path.norm_step (negb (startsWith "/" X))) (split "/" X) [])).
Proof.
  intros HX A S T D1 D2.
  destruct X as [|c X]; [easy|]. destruct a as [|d a]; [easy|].
  eexists. eexists. split; [|reflexivity].
  assert (NS : forall allow,
             Path.normalizeString allow (String c X ++ "/" ++ String d a)
             = (rev (fold_left (Path.norm_step allow) (split "/" (String c X)) [])
                  ++ [String d a])%list).
  { intros allow. unfold Path.normalizeString.
    rewrite split_slash_append, S, fold_left_app. cbn [fold_left].
    unfold Path.norm_step at 1.
    change (String.eqb (String d a) "") with false. rewrite D1, D2. reflexivity. }
  assert (E : Path.endsWithSlash (String c X ++ "/" ++ String d a) = false).
  { assert (Q : String c X ++ "/" ++ String d a = (String c X ++ "/") ++ String d a)
      by (now rewrite append_assoc).
    rewrite Q, endsWithSlash_append by discriminate. exact T. }
  unfold Path.normalize. rewrite E, !NS.
  change (String.eqb (String c X ++ "/" ++ String d a) "") with false. cbv iota.
  change (startsWith "/" (String c X ++ "/" ++ String d a)) with (startsWith "/" (String c X)).
  pose proof (join_last_nonempty "/"
                (rev (fold_left (Path.norm_step (negb (startsWith "/" (String c X))))
                        (split "/" (String c X)) []))
                (String d a)) as NE.
  destruct (JS.join "/" _) eqn:J; [elim NE; [discriminate | reflexivity]|].
  cbn [String.eqb]. now rewrite append_nil_r.
Qed.

Lemma joins_differ (root base a b : string) :
  root <> "" -> a <> "" -> b <> "" ->
  split "/" a = [a] -> split "/" b = [b] ->
  Path.endsWithSlash a = false -> Path.endsWithSlash b = false ->
  String.eqb a "." = false -> String.eqb a ".." = false ->
  String.eqb b "." = false -> String.eqb b ".." = false ->
  a <> b ->
  Path.join [root; base; a] <> Path.join [root; base; b].
Proof.
  intros R A B SA SB TA TB A1 A2 B1 B2 D E.
  rewrite <- !join_nested in E by assumption.
  unfold Path.join in E.
  destruct root as [|c root]; [easy|].
  assert (Fa : forall x, x <> "" -> filter truthy [String c root; base ++ "/" ++ x]
                        = [String c root; base ++ "/" ++ x]).
  { intros x Hx. unfold filter. change (truthy (String c root)) with true. cbv iota.
    assert (truthy (base ++ "/" ++ x) = true) as -> by (destruct base; reflexivity).
    reflexivity. }
  rewrite !Fa in E by assumption. clear Fa.
  cbn [JS.join] in E.
  change (String.eqb (String c root ++ "/" ++ base ++ "/" ++ a) "") with false in E.
  change (String.eqb (String c root ++ "/" ++ base ++ "/" ++ b) "") with false in E.
  cbv iota in E.
  assert (Q : forall x, String c root ++ "/" ++ base ++ "/" ++ x
                        = (String c root ++ "/" ++ base) ++ "/" ++ x).
  { intros x. now rewrite !append_assoc. }
  rewrite !Q in E.
  destruct (normalize_leaf (String c root ++ "/" ++ base) a) as (pa & la & Na & Pa);
    try assumption; [discriminate|].
  destruct (normalize_leaf (String c root ++ "/" ++ base) b) as (pb & lb & Nb & Pb);
    try assumption; [discriminate|].
  rewrite Na, Nb in E. rewrite <- Pa in Pb. injection Pb as -> ->.
  apply append_inj_r, join_last_inj in E. now apply D.
Qed.

End RenameDirFacts.

Module RenameDirAgreement.
Import PathFacts ResolveFacts.

(** For these five types the directory is the Path Resolver's. *)
Lemma resolveDir_agrees (type name : string) (atomicLevel : option string)
      (config : Config) (st : Structure) (root : string) (w : world) :
  In type ["page"; "service"; "context"; "store"; "feature"] ->
  name <> "" -> root <> "" ->
  exists r,
    resolveSwitch type name atomicLevel config (Some st) w = (Ret (Reply.ResourcePath r), w) /\
    resolveDir type name config st root = Some (Path.join [root; Reply.directory r]) /\
    resolveTargetDir type name config st root = Some (Path.join [root; Reply.directory r]).
Proof.
  intros T N R. cbn [In] in T.
  destruct T as [<-|[<-|[<-|[<-|[<-|[]]]]]].
  - destruct (switch_page name atomicLevel config st w) as [note ->].
    eexists. split; [reflexivity|]. cbn [Reply.directory].
    rewrite join_nested by assumption. split; reflexivity.
  - destruct (switch_service name atomicLevel config st w) as [note ->].
    eexists. split; [reflexivity|]. cbn [Reply.directory].
    rewrite join_nested; [split; reflexivity | assumption |].
    apply append_nonempty_r. discriminate.
  - destruct (switch_context name atomicLevel config st w) as [note ->].
    eexists. split; [reflexivity|]. cbn [Reply.directory].
    rewrite join_nested; [split; reflexivity | assumption |].
    apply append_nonempty_r. discriminate.
  - destruct (switch_store name atomicLevel config st w) as [note ->].
    eexists. split; [reflexivity|]. cbn [Reply.directory].
    rewrite join_nested; [split; reflexivity | assumption | discriminate].
  - destruct (switch_feature name atomicLevel config st w) as [note ->].
    eexists. split; [reflexivity|]. cbn [Reply.directory].
    rewrite join_nested by assumption. split; reflexivity.
Qed.

End RenameDirAgreement.

(** C2, as the code stands.  For the hook named "UseAuth" the rename
    engine (and remove) resolve the directory [hookPath()/useUseAuth],
    while the Path Resolver, and with it add, resolve
    [hookPath()/useAuth]: [resolveDir] prefixes [use] without looking at
    the name, and the two directories differ under every configuration,
    structure and working directory. *)
Theorem rename_looks_elsewhere_for_prefixed_hook :
  forall (config : Config) (st : Structure) (root : string)
         (atomicLevel : option string) (w : world),
    root <> "" ->
    exists r,
      resolveSwitch "hook" "UseAuth" atomicLevel config (Some st) w
      = (Ret (Reply.ResourcePath r), w) /\
      Reply.directory r = hookPath st ++ "/useAuth" /\
      dir (hookTarget "UseAuth" config st root) = Path.join [root; Reply.directory r] /\
      resolveDir "hook" "UseAuth" config st root
      = Some (Path.join [root; hookPath st; "useUseAuth"]) /\
      resolveTargetDir "hook" "UseAuth" config st root
      = resolveDir "hook" "UseAuth" config st root /\
      resolveDir "hook" "UseAuth" config st root <> Some (Path.join [root; Reply.directory r]).
Proof.
  intros config st root atomicLevel w R.
  eexists. split; [reflexivity|]. cbn [Reply.directory].
  split; [reflexivity|]. split.
  - symmetry. apply PathFacts.join_nested; [assumption | discriminate].
  - split; [reflexivity|]. split; [reflexivity|].
    intros E. injection E as E.
    assert (J : Path.join [root; hookPath st ++ "/" ++ "useAuth"]
                = Path.join [root; hookPath st; "useAuth"])
      by (apply PathFacts.join_nested; [assumption | discriminate]).
    apply (RenameDirFacts.joins_differ root (hookPath st) "useUseAuth" "useAuth");
      try reflexivity; try assumption; try discriminate.
    etransitivity; [exact E | exact J].
Qed.

(* ------------------------------------------------------------------ *)
(** ** The rename round trip *)
(* ------------------------------------------------------------------ *)

Import Fs FsFacts StringFacts.

Module RenameFacts.

Lemma bind_Ret {A B : Type} (m : M A) (k : A -> M B) (w w'' : world) (b : B) :
  bind m k w = (Ret b, w'') ->
  exists a w', m w = (Ret a, w') /\ k a w' = (Ret b, w'').
Proof.
  unfold bind. destruct (m w) as [[a|c|e] w']; intros H; try discriminate H.
  now exists a, w'.
Qed.

Lemma assoc_put_other (k k' : string) (v : node) (es : list (string * node)) :
  k' <> k -> assoc k' (put k v es) = assoc k' es.
Proof.
  intros N. induction es as [|[k0 v0] es IH]; cbn [put assoc].
  - apply String.eqb_neq in N. now rewrite N.
  - destruct (String.compare k k0) eqn:C; cbn [assoc].
    + apply String.compare_eq_iff in C. subst k0.
      apply String.eqb_neq in N. now rewrite N.
    + apply String.eqb_neq in N. now rewrite N.
    + destruct (String.eqb k' k0); [reflexivity | exact IH].
Qed.

(** Overwriting a file makes no existing path disappear. *)
Lemma lookup_survives_write (p : list string) (x : string) :
  forall (d d' : node) (q : list string) (n : node) (old : string),
    store p (Some (File x)) d = Some d' ->
    lookup p d = Some (File old) ->
    lookup q d = Some n ->
    exists n', lookup q d' = Some n'.
Proof.
  induction p as [|s p IH]; intros d d' q n old St Lp Lq; [discriminate St|].
  destruct d as [data|es]; [discriminate St|].
  destruct q as [|t q]; [now exists d'|].
  cbn [lookup] in Lp, Lq.
  destruct p as [|s' p'].
  - cbn [store] in St. injection St as <-. cbn [lookup].
    destruct (String.eqb t s) eqn:E.
    + apply String.eqb_eq in E. subst t. rewrite assoc_put_same.
      destruct (assoc s es) as [c|]; [|discriminate Lp].
      cbn [lookup] in Lp. injection Lp as ->.
      destruct q; [now eexists | discriminate Lq].
    + apply String.eqb_neq in E. rewrite (assoc_put_other s t _ es E).
      destruct (assoc t es) as [c|]; [now exists n | discriminate Lq].
  - rewrite store_deeper in St.
    destruct (assoc s es) as [c|] eqn:A; [|discriminate St].
    destruct (store (s' :: p') (Some (File x)) c) as [c'|] eqn:St'; [|discriminate St].
    injection St as <-. cbn [lookup].
    destruct (String.eqb t s) eqn:E.
    + apply String.eqb_eq in E. subst t. rewrite assoc_put_same.
      rewrite A in Lq. now apply (IH c c' q n old).
    + apply String.eqb_neq in E. rewrite (assoc_put_other s t _ es E).
      destruct (assoc t es) as [c0|]; [now exists n | discriminate Lq].
Qed.

Lemma is_prefix_both (a b : list string) :
  is_prefix a b = true -> is_prefix b a = true -> a = b.
Proof.
  revert b. induction a as [|x a IH]; intros [|y b] H1 H2; try reflexivity; try discriminate.
  cbn in H1, H2. apply andb_true_iff in H1, H2.
  destruct H1 as [E H1], H2 as [_ H2]. apply String.eqb_eq in E. subst y.
  f_equal. now apply IH.
Qed.

(** Overwriting a file makes no missing path appear. *)
Lemma lookup_absent_write (p : list string) (x : string) :
  forall (d d' : node) (q : list string) (old : string),
    store p (Some (File x)) d = Some d' ->
    lookup p d = Some (File old) ->
    lookup q d = None ->
    lookup q d' = None.
Proof.
  induction p as [|s p IH]; intros d d' q old St Lp Lq; [discriminate St|].
  destruct d as [data|es]; [discriminate St|].
  destruct q as [|t q]; [discriminate Lq|].
  cbn [lookup] in Lp, Lq.
  destruct p as [|s' p'].
  - cbn [store] in St. injection St as <-. cbn [lookup].
    destruct (String.eqb t s) eqn:E.
    + apply String.eqb_eq in E. subst t. rewrite assoc_put_same.
      destruct (assoc s es) as [c|]; [|discriminate Lp].
      cbn [lookup] in Lp. injection Lp as ->.
      destruct q; [discriminate Lq | reflexivity].
    + apply String.eqb_neq in E. now rewrite (assoc_put_other s t _ es E).
  - rewrite store_deeper in St.
    destruct (assoc s es) as [c|] eqn:A; [|discriminate St].
    destruct (store (s' :: p') (Some (File x)) c) as [c'|] eqn:St'; [|discriminate St].
    injection St as <-. cbn [lookup].
    destruct (String.eqb t s) eqn:E.
    + apply String.eqb_eq in E. subst t. rewrite assoc_put_same.
      rewrite A in Lq. now apply (IH c c' q old).
    + apply String.eqb_neq in E. now rewrite (assoc_put_other s t _ es E).
Qed.

Lemma assoc_del_same (k : string) (es : list (string * node)) :
  assoc k (del k es) = None.
Proof.
  induction es as [|[k0 v0] es IH]; [reflexivity|]. cbn [del].
  destruct (String.eqb k k0) eqn:E; [exact IH|]. cbn [assoc]. now rewrite E.
Qed.

(** What [store] deleted is gone. *)
Lemma lookup_store_deleted (p : list string) :
  forall (d d' : node), store p None d = Some d' -> lookup p d' = None.
Proof.
  induction p as [|s p IH]; intros d d' St; [discriminate St|].
  destruct d as [data|es]; [discriminate St|].
  destruct p as [|s' p'].
  - cbn [store] in St. injection St as <-. cbn [lookup]. now rewrite assoc_del_same.
  - rewrite store_deeper in St.
    destruct (assoc s es) as [c|] eqn:A; [|discriminate St].
    destruct (store (s' :: p') None c) as [c'|] eqn:St'; [|discriminate St].
    injection St as <-. cbn [lookup]. rewrite assoc_put_same. now apply (IH c).
Qed.

(** Storing at [t] makes nothing appear at a path [s] that neither holds
    [t] nor lies below it. *)
Lemma lookup_store_elsewhere (t : list string) (v : node) :
  forall (s : list string) (d d' : node),
    store t (Some v) d = Some d' ->
    lookup s d = None ->
    is_prefix t s = false ->
    lookup s d' = None.
Proof.
  induction t as [|k q IH]; intros s d d' St L P; [discriminate St|].
  destruct d as [data|es]; [discriminate St|].
  destruct s as [|k' s']; [discriminate L|].
  cbn [lookup] in L. cbn [is_prefix] in P.
  destruct (String.eqb k k') eqn:E.
  - apply String.eqb_eq in E. subst k'. cbn [andb] in P.
    destruct q as [|k1 q1]; [discriminate P|].
    rewrite store_deeper in St.
    destruct (assoc k es) as [c|] eqn:A; [|discriminate St].
    destruct (store (k1 :: q1) (Some v) c) as [c'|] eqn:St'; [|discriminate St].
    injection St as <-. cbn [lookup]. rewrite assoc_put_same. now apply (IH s' c).
  - assert (N : k' <> k) by (intros ->; now rewrite String.eqb_refl in E).
    destruct q as [|k1 q1].
    + cbn [store] in St. injection St as <-. cbn [lookup].
      now rewrite (assoc_put_other k k' _ es N).
    + rewrite store_deeper in St.
      destruct (assoc k es) as [c|]; [|discriminate St].
      destruct (store (k1 :: q1) (Some v) c) as [c'|]; [|discriminate St].
      injection St as <-. cbn [lookup]. now rewrite (assoc_put_other k k' _ es N).
Qed.

(** A path with something below it is a directory with an entry. *)
Lemma lookup_ancestor (t : list string) :
  forall (s : list string) (d n : node),
    lookup s d = Some n ->
    is_prefix t s = true ->
    is_prefix s t = false ->
    exists e es, lookup t d = Some (Dir (e :: es)).
Proof.
  induction t as [|k q IH]; intros s d n L P Q.
  - destruct s as [|k' s']; [discriminate Q|].
    destruct d as [data|es]; [discriminate L|]. cbn [lookup] in L.
    destruct es as [|e es]; [discriminate L|]. now exists e, es.
  - destruct s as [|k' s']; [discriminate P|].
    cbn [is_prefix] in P, Q. apply andb_true_iff in P. destruct P as [E P].
    apply String.eqb_eq in E. subst k'. rewrite String.eqb_refl in Q. cbn [andb] in Q.
    destruct d as [data|es]; [discriminate L|]. cbn [lookup] in L |- *.
    destruct (assoc k es) as [c|]; [|discriminate L].
    now apply (IH s' c n).
Qed.

(** After a rename that went through, the destination exists. *)
Lemma rename_lands (src dst : string) (w w' : world) :
  Fs.rename src dst w = (Ret tt, w') ->
  cwd w' = cwd w /\ exists n, lookup (at_path dst w) (disk w') = Some n.
Proof.
  unfold Fs.rename, bind, record, locate, getdisk, noted, parentDir, put_at, setdisk.
  cbn -[at_path store lookup is_prefix].
  change (at_path src {| cwd := cwd w; disk := disk w; console := console w;
                         calls := calls w ++ [Crename src dst] |}) with (at_path src w).
  change (at_path dst {| cwd := cwd w; disk := disk w; console := console w;
                         calls := calls w ++ [Crename src dst] |}) with (at_path dst w).
  destruct (lookup (at_path src w) (disk w)) as [n|] eqn:Ls; [|discriminate].
  destruct (is_prefix (at_path src w) (at_path dst w)) eqn:P1.
  - destruct (is_prefix (at_path dst w) (at_path src w)) eqn:P2; cbn [andb].
    + intros [= <-]. cbn -[at_path lookup]. split; [reflexivity|]. exists n.
      now rewrite <- (is_prefix_both _ _ P1 P2).
    + discriminate.
  - cbn [andb].
    destruct (lookup (removelast (at_path dst w)) (disk w)) as [[|]|]; try discriminate.
    cbn -[at_path lookup store].
    destruct (lookup (at_path dst w) (disk w)) as [[|[|]]|], n; try discriminate;
      (destruct (store (at_path src w) None (disk w)) as [d1|]; [|discriminate]);
      (destruct (store (at_path dst w) (Some _) d1) as [d2|] eqn:St; [|discriminate]);
      intros [= <-]; cbn -[at_path lookup]; (split; [reflexivity|]); eexists;
      apply (lookup_store_same _ _ _ _ St).
Qed.

(** After a rename that went through, the source is gone, unless it was
    the destination itself. *)
Lemma rename_moves (src dst : string) (w w' : world) :
  Fs.rename src dst w = (Ret tt, w') ->
  at_path src w <> at_path dst w ->
  lookup (at_path src w) (disk w') = None.
Proof.
  unfold Fs.rename, bind, record, locate, getdisk, noted, parentDir, put_at, setdisk.
  cbn -[at_path store lookup is_prefix].
  change (at_path src {| cwd := cwd w; disk := disk w; console := console w;
                         calls := calls w ++ [Crename src dst] |}) with (at_path src w).
  change (at_path dst {| cwd := cwd w; disk := disk w; console := console w;
                         calls := calls w ++ [Crename src dst] |}) with (at_path dst w).
  intros R N.
  destruct (lookup (at_path src w) (disk w)) as [n|] eqn:Ls; [|discriminate R].
  destruct (is_prefix (at_path src w) (at_path dst w)) eqn:P1.
  - destruct (is_prefix (at_path dst w) (at_path src w)) eqn:P2; cbn [andb] in R.
    + now destruct N; apply is_prefix_both.
    + discriminate R.
  - cbn [andb] in R.
    destruct (lookup (removelast (at_path dst w)) (disk w)) as [[|]|]; try discriminate R.
    cbn -[at_path lookup store] in R.
    destruct (is_prefix (at_path dst w) (at_path src w)) eqn:P2.
    + destruct (lookup_ancestor _ _ _ _ Ls P2 P1) as (e & es & Lt).
      rewrite Lt in R. destruct n; discriminate R.
    + destruct (store (at_path src w) None (disk w)) as [d1|] eqn:S1.
      * pose proof (lookup_store_deleted _ _ _ S1) as G.
        destruct (lookup (at_path dst w) (disk w)) as [[|[|]]|], n; try discriminate R;
          (destruct (store (at_path dst w) (Some _) d1) as [d2|] eqn:St; [|discriminate R]);
          injection R as <-; cbn -[at_path lookup];
          apply (lookup_store_elsewhere _ _ _ _ _ St G P2).
      * destruct (lookup (at_path dst w) (disk w)) as [[|[|]]|], n; discriminate R.
Qed.

Lemma patch_keeps (parentDir oldBasename newBasename : string) (config : Config)
      (root : string) (w w' : world) (q : list string) (n : node) :
  updateBarrelForRename parentDir oldBasename newBasename config root w = (Ret tt, w') ->
  lookup q (disk w) = Some n ->
  cwd w' = cwd w /\ exists n', lookup q (disk w') = Some n'.
Proof.
  unfold updateBarrelForRename. cbv zeta.
  remember (Path.join [parentDir; "index." ++ scriptExt (getExtensions config)]) as bp eqn:Ebp.
  unfold bind at 1. rewrite pathExists_run.
  destruct (subtree bp w) as [nd|] eqn:S; cbn [negb]; cbv iota.
  - unfold bind at 1. rewrite readFile_run.
    change (subtree bp (noted (CpathExists bp) w)) with (subtree bp w). rewrite S.
    destruct nd as [content|es]; [|discriminate].
    match goal with |- context [negb (String.eqb ?a content)] => generalize a end.
    intros newContent. destruct (String.eqb newContent content); cbn [negb]; cbv iota.
    + intros [= <-] L. split; [reflexivity|]. now exists n.
    + unfold bind at 1.
      destruct (writeFile_cases bp newContent (noted (CreadFile bp) (noted (CpathExists bp) w)))
        as [(d' & St & ->)|(e & ->)]; [|discriminate].
      unfold log. intros [= <-] L. cbn [cwd disk]. split; [reflexivity|].
      apply (lookup_survives_write _ _ _ _ q n content St); [exact S | exact L].
  - intros [= <-] L. split; [reflexivity|]. now exists n.
Qed.

Lemma patch_absent (parentDir oldBasename newBasename : string) (config : Config)
      (root : string) (w w' : world) (q : list string) :
  updateBarrelForRename parentDir oldBasename newBasename config root w = (Ret tt, w') ->
  lookup q (disk w) = None ->
  lookup q (disk w') = None.
Proof.
  unfold updateBarrelForRename. cbv zeta.
  remember (Path.join [parentDir; "index." ++ scriptExt (getExtensions config)]) as bp eqn:Ebp.
  unfold bind at 1. rewrite pathExists_run.
  destruct (subtree bp w) as [nd|] eqn:S; cbn [negb]; cbv iota.
  - unfold bind at 1. rewrite readFile_run.
    change (subtree bp (noted (CpathExists bp) w)) with (subtree bp w). rewrite S.
    destruct nd as [content|es]; [|discriminate].
    match goal with |- context [negb (String.eqb ?a content)] => generalize a end.
    intros newContent. destruct (String.eqb newContent content); cbn [negb]; cbv iota.
    + now intros [= <-] L.
    + unfold bind at 1.
      destruct (writeFile_cases bp newContent (noted (CreadFile bp) (noted (CpathExists bp) w)))
        as [(d' & St & ->)|(e & ->)]; [|discriminate].
      unfold log. intros [= <-] L. cbn [cwd disk].
      apply (lookup_absent_write _ _ _ _ q content St); [exact S | exact L].
  - now intros [= <-] L.
Qed.

(** A substitution changes nothing in a text its source does not occur in. *)
Lemma replace_absent (from to s : string) :
  includes from s = false -> JS.join to (split from s) = s.
Proof.
  destruct from as [|a f]; [now destruct s|].
  induction s as [|c s IH]; [reflexivity|].
  intros I. cbn [includes] in I. apply orb_false_iff in I. destruct I as [St I].
  rewrite (SubstFacts.replace_miss (String a f) to c s); [|discriminate|exact St].
  now rewrite IH.
Qed.

Lemma applyReplacements_absent (pairs : list (string * string)) (s : string) :
  Forall (fun p => includes (fst p) s = false) pairs ->
  applyReplacements s pairs = s.
Proof.
  induction 1 as [|[from to] pairs I _ IH]; [reflexivity|].
  rewrite SubstFacts.applyReplacements_cons. cbn [fst] in I.
  now rewrite (replace_absent from to s I).
Qed.

End RenameFacts.


(** ** Commands do not change the working directory *)

Module Steady.

Local Abbreviation steady m := (forall w o w', m w = (o, w') -> cwd w' = cwd w).

Lemma steady_bind {A B : Type} (m : M A) (k : A -> M B) :
  steady m -> (forall a, steady (k a)) -> steady (bind m k).
Proof.
  intros Hm Hk w o w'. unfold bind.
  destruct (m w) as [[a|c|e] w1] eqn:E.
  - intros K. rewrite (Hk a _ _ _ K). now apply (Hm w (Ret a)).
  - intros [= <- <-]. now apply (Hm w (Exit c)).
  - intros [= <- <-]. now apply (Hm w (Throw e)).
Qed.

Lemma steady_ret {A : Type} (a : A) : steady (ret a).
Proof. now intros w o w' [= <- <-]. Qed.

Lemma steady_log (line : string) : steady (log line).
Proof. now intros w o w' [= <- <-]. Qed.

Ltac primitive :=
  intros w o w';
  unfold pathExists, readFile, writeFile, readdir, statIsDirectory, Fs.rename,
    bind, record, locate, getdisk, noted, parentDir, put_at, setdisk, throw, ret;
  cbn -[at_path store lookup is_prefix];
  repeat (match goal with
          | |- context [lookup ?a ?b] => destruct (lookup a b) as [[?|[|? ?]]|]
          | |- context [store ?a ?b ?c] => destruct (store a b c)
          | |- context [is_prefix ?a ?b] => destruct (is_prefix a b)
          | |- context [match ?x with File _ => _ | Dir _ => _ end] => destruct x
          end; cbn -[at_path store lookup is_prefix]);
  intros [= <- <-]; reflexivity.

Lemma steady_pathExists (p : string) : steady (pathExists p).
Proof. primitive. Qed.

Lemma steady_readFile (p : string) : steady (readFile p).
Proof. primitive. Qed.

Lemma steady_writeFile (p data : string) : steady (writeFile p data).
Proof. primitive. Qed.

Lemma steady_readdir (p : string) : steady (readdir p).
Proof. primitive. Qed.

Lemma steady_stat (p : string) : steady (statIsDirectory p).
Proof. primitive. Qed.

Lemma steady_rename (src dst : string) : steady (Fs.rename src dst).
Proof. primitive. Qed.

Lemma steady_walk (pairs : list (string * string)) (fuel : nat) :
  forall dir, steady (applyRenameRecursive fuel dir pairs).
Proof.
  induction fuel as [|fuel IH]; intros dir; cbn [applyRenameRecursive].
  - now intros w o w' [= <- <-].
  - apply steady_bind; [apply steady_readdir|]. intros entries.
    induction entries as [|entry rest IHrest]; [apply steady_ret|].
    apply steady_bind; [apply steady_stat|]. intros isDirectory.
    apply steady_bind; [|intros _; exact IHrest].
    destruct isDirectory.
    + apply steady_bind; [apply IH|]. intros _.
      destruct (negb _); [apply steady_rename | apply steady_ret].
    + apply steady_bind.
      * destruct (existsb _ _); [|apply steady_ret].
        apply steady_bind; [apply steady_readFile|]. intros content.
        destruct (negb _); [apply steady_writeFile | apply steady_ret].
      * intros _. destruct (negb _); [apply steady_rename | apply steady_ret].
Qed.

End Steady.

Lemma validateName_returns (name type : string) (w w' : world) (ok : bool) :
  validateName name type w = (Ret ok, w') -> w' = w /\ pascal_case_spec name = true.
Proof.
  unfold validateName.
  destruct (negb (truthy name) || (String.length (trim name) =? 0)%nat); [discriminate|].
  rewrite ValidateFacts.PASCAL_CASE_REGEX_test.
  destruct (pascal_case_spec name); [|discriminate].
  intros [= _ <-]. now split.
Qed.

Section RoundTrip.

Variable reactStructures : string -> option Structure.
Variable nextjsStructures : string -> option Structure.
Variable parseConfig : string -> option Config.

Local Abbreviation renameCmd := (renameCommand reactStructures nextjsStructures parseConfig).
Local Abbreviation structureFor := (structureOf reactStructures nextjsStructures).
Local Abbreviation holds := (configured parseConfig).

(** A rename that goes through leaves the working directory as it was, a
    directory where the new name resolves to and none where the old one
    did. *)
Lemma renameCommand_lands (type x y : string) (w w' : world) (config : Config)
      (st : Structure) (source target : string) :
  holds w config -> structureFor config = Some st ->
  renameCmd type x y w = (Ret tt, w') ->
  resolveDir type x config st (cwd w) = Some source ->
  resolveDir type y config st (cwd w) = Some target ->
  cwd w' = cwd w /\ subtree target w' <> None /\ subtree source w' = None.
Proof.
  intros H S R Sx T. unfold renameCommand in R.
  destruct (existsb (String.eqb type) RENAME_SUPPORTED_TYPES); cbn [negb] in R; cbv iota in R;
    [|discriminate R].
  apply RenameFacts.bind_Ret in R. destruct R as (ok1 & w1 & V1 & R).
  apply validateName_returns in V1. destruct V1 as [-> _].
  apply RenameFacts.bind_Ret in R. destruct R as (ok2 & w2 & V2 & R).
  apply validateName_returns in V2. destruct V2 as [-> _].
  unfold bind at 1 in R. unfold getcwd at 1 in R. cbv iota beta in R.
  unfold bind at 1 in R. rewrite (loadConfig_run parseConfig w config H) in R.
  unfold bind at 1 in R.
  rewrite (getStructure_run reactStructures nextjsStructures config st _ S) in R.
  rewrite T, Sx in R.
  unfold asPath in R. unfold bind at 1 2 in R. unfold ret at 1 2 in R. cbv iota beta in R.
  apply RenameFacts.bind_Ret in R. destruct R as (oldThere & w3 & P1 & R).
  rewrite pathExists_run in P1. injection P1 as <- <-.
  destruct (subtree source _) as [found|] eqn:There; cbn [negb] in R; cbv iota in R;
    [|discriminate R].
  apply RenameFacts.bind_Ret in R. destruct R as (newThere & w4 & P2 & R).
  rewrite pathExists_run in P2. injection P2 as <- <-.
  destruct (subtree target _) eqn:Free; cbv iota in R; [discriminate R|].
  assert (Apart : at_path source w <> at_path target w).
  { intros E. unfold subtree in There, Free. cbn [disk noted] in There, Free.
    change (at_path source (noted _ (noted _ (noted _ w)))) with (at_path source w) in There.
    change (at_path target (noted _ (noted _ (noted _ (noted _ w)))))
      with (at_path target w) in Free.
    rewrite E in There. congruence. }
  apply RenameFacts.bind_Ret in R. destruct R as (d & w5 & G & R).
  injection G as <- <-.
  apply RenameFacts.bind_Ret in R. destruct R as ([] & wa & W & R).
  apply Steady.steady_walk in W. cbn [cwd noted] in W.
  assert (Pa : forall p, at_path p wa = at_path p w) by (intros p; unfold at_path; now rewrite W).
  apply RenameFacts.bind_Ret in R. destruct R as ([] & wb & Rn & R).
  pose proof (RenameFacts.rename_moves _ _ _ _ Rn) as Gone. rewrite !Pa in Gone.
  specialize (Gone Apart).
  apply RenameFacts.rename_lands in Rn. destruct Rn as (Cb & moved & Ln). rewrite Pa in Ln.
  apply RenameFacts.bind_Ret in R. destruct R as ([] & wb1 & L1 & R).
  unfold log in L1. injection L1 as <-.
  apply RenameFacts.bind_Ret in R. destruct R as ([] & wc & B & R).
  unfold log in R. injection R as <-.
  unfold subtree, at_path. cbn [cwd disk].
  assert (K : cwd wc = cwd wb
              /\ (exists n', lookup (at_path target w) (disk wc) = Some n')
              /\ lookup (at_path source w) (disk wc) = None).
  { destruct (negb (String.eqb type "feature")).
    - pose proof (RenameFacts.patch_absent _ _ _ _ _ _ _ (at_path source w) B Gone) as A.
      apply (RenameFacts.patch_keeps _ _ _ _ _ _ _ (at_path target w) moved) in B;
        [|exact Ln].
      destruct B as [C K]. now repeat split.
    - injection B as <-. cbn [cwd disk]. repeat split; [now exists moved | exact Gone]. }
  destruct K as (Cc & (n' & Lc) & Lg).
  assert (C : cwd wc = cwd w) by congruence.
  unfold at_path in Lc, Lg. rewrite C. rewrite Lc, Lg.
  repeat split. discriminate.
Qed.

End RoundTrip.

(** C4, as the code stands.  The round trip fails on a store named
    Button.  Renamed to PrimaryButton, the store's directory becomes
    [usePrimaryButtonStore] (the directory [resolveDir] computes), while
    the file in it and the identifier in its text become
    [usePrimaryPrimaryButtonStore]: the pair [use<Old>Store] has turned
    [useButtonStore] into [usePrimaryButtonStore], and the bare pair,
    applied to that result, rewrites the [Button] of the new name once
    more.  Renamed back, the directory is [useButtonStore] again, but
    the file in it is [usePrimaryButtonStore.ts] with the text
    [export const usePrimaryButtonStore ...]: both renames go through,
    and the tree below the store's directory is not what it was. *)
Theorem rename_round_trip_doubles_overlapping_store_name :
  let w0 := Fixture.storeProject in
  let w1 := Fixture.renamed "store" "Button" "PrimaryButton" w0 in
  let w2 := Fixture.renamed "store" "PrimaryButton" "Button" w1 in
  peek "/proj/src/stores/useButtonStore/useButtonStore.ts" w0
  = Some "export const useButtonStore = () => ({});"
  /\ renameCommand Fixture.reactStructures Fixture.nextjsStructures Fixture.decode
       "store" "Button" "PrimaryButton" w0 = (Ret tt, w1)
  /\ applyReplacements "useButtonStore" (buildReplacementPairs "Button" "PrimaryButton")
     = "usePrimaryPrimaryButtonStore"
  /\ peek "/proj/src/stores/usePrimaryButtonStore/usePrimaryPrimaryButtonStore.ts" w1
     = Some "export const usePrimaryPrimaryButtonStore = () => ({});"
  /\ peek "/proj/src/stores/usePrimaryButtonStore/usePrimaryButtonStore.ts" w1 = None
  /\ renameCommand Fixture.reactStructures Fixture.nextjsStructures Fixture.decode
       "store" "PrimaryButton" "Button" w1 = (Ret tt, w2)
  /\ peek "/proj/src/stores/useButtonStore/usePrimaryButtonStore.ts" w2
     = Some "export const usePrimaryButtonStore = () => ({});"
  /\ peek "/proj/src/stores/useButtonStore/useButtonStore.ts" w2 = None
  /\ ~ round_trip_restores Fixture.reactStructures Fixture.nextjsStructures Fixture.decode
         "store" "Button" "PrimaryButton" "/proj/src/stores/useButtonStore" w0.
Proof.
  intros w0 w1 w2.
  assert (E1 : renameCommand Fixture.reactStructures Fixture.nextjsStructures Fixture.decode
                 "store" "Button" "PrimaryButton" w0 = (Ret tt, w1))
    by (vm_compute; reflexivity).
  assert (E2 : renameCommand Fixture.reactStructures Fixture.nextjsStructures Fixture.decode
                 "store" "PrimaryButton" "Button" w1 = (Ret tt, w2))
    by (vm_compute; reflexivity).
  split; [vm_compute; reflexivity|].
  split; [exact E1|].
  split; [vm_compute; reflexivity|].
  split; [vm_compute; reflexivity|].
  split; [vm_compute; reflexivity|].
  split; [exact E2|].
  split; [vm_compute; reflexivity|].
  split; [vm_compute; reflexivity|].
  intros H. specialize (H w1 w2 E1 E2). vm_compute in H. discriminate H.
Qed.

(** With names that do not contain one another the same round trip
    brings the tree back: the hook the rename tests create, renamed from
    Auth to Payment and back. *)
Example hook_round_trip_restores :
  round_trip_restores Fixture.reactStructures Fixture.nextjsStructures Fixture.decode
    "hook" "Auth" "Payment" "/proj/src/hooks/useAuth" Fixture.hookProject.
Proof.
  intros w1 w2 E1 E2.
  assert (W1 : w1 = Fixture.renamed "hook" "Auth" "Payment" Fixture.hookProject)
    by (unfold Fixture.renamed; now rewrite E1).
  subst w1.
  assert (W2 : w2 = Fixture.renamed "hook" "Payment" "Auth"
                      (Fixture.renamed "hook" "Auth" "Payment" Fixture.hookProject))
    by (unfold Fixture.renamed at 1; now rewrite E2).
  subst w2. vm_compute. reflexivity.
Qed.

(* ------------------------------------------------------------------ *)
(** ** The properties on the sample projects *)
(* ------------------------------------------------------------------ *)

Lemma replacement_pairs_listed_and_applied_in_order_witness :
  (pascal_case_spec "Auth" = true /\ pascal_case_spec "Cart" = true)
  /\ buildReplacementPairs "Auth" "Cart" = listed_pairs "Auth" "Cart"
  /\ (forall s, Applied (buildReplacementPairs "Auth" "Cart") s
                  (applyReplacements s (buildReplacementPairs "Auth" "Cart"))).
Proof.
  split; [split; reflexivity|].
  destruct (replacement_pairs_listed_and_applied_in_order "Auth" "Cart" eq_refl eq_refl)
    as (_ & D & A & _).
  split; [apply D; discriminate | exact A].
Defined.

Lemma resolve_handler_throws_on_unknown_pattern_witness :
  (In "hook" ["component"; "hook"; "page"; "service"; "context"; "store"; "type"; "feature"]
   /\ configured Fixture.decode (Fixture.project Fixture.strangeConfig [])
        Fixture.strangeConfig
   /\ structureOf Fixture.reactStructures Fixture.nextjsStructures Fixture.strangeConfig
      = None)
  /\ (exists what w',
         handleResolveResourcePath Fixture.reactStructures Fixture.nextjsStructures
           Fixture.decode "hook" "Auth" None "/proj" (Fixture.project Fixture.strangeConfig [])
         = (Throw (TypeError what), w'))
  /\ (exists msg w',
         handleGetArchitectureGuide Fixture.reactStructures Fixture.nextjsStructures
           Fixture.decode "/proj" (Fixture.project Fixture.strangeConfig [])
         = (Ret (Reply.Error msg), w')).
Proof.
  assert (T : In "hook" ["component"; "hook"; "page"; "service"; "context"; "store"; "type";
                         "feature"]) by (right; left; reflexivity).
  assert (H : configured Fixture.decode (Fixture.project Fixture.strangeConfig [])
                Fixture.strangeConfig).
  { exists (Fixture.encode Fixture.strangeConfig). split; vm_compute; reflexivity. }
  assert (S : structureOf Fixture.reactStructures Fixture.nextjsStructures
                Fixture.strangeConfig = None) by reflexivity.
  split; [exact (conj T (conj H S))|].
  destruct (resolve_handler_throws_on_unknown_pattern
              Fixture.reactStructures Fixture.nextjsStructures Fixture.decode
              "hook" "Auth" None Fixture.strangeConfig
              (Fixture.project Fixture.strangeConfig []) T H S) as [(what & E) (msg & G)].
  split; [exists what; eexists; exact E | exists msg; eexists; exact G].
Defined.

Lemma rename_and_remove_reject_type_and_api_witness :
  In "api" ["type"; "api"]
  /\ (exists lines,
         renameCommand Fixture.reactStructures Fixture.nextjsStructures Fixture.decode
           "api" "Users" "Accounts" Fixture.hookProject
         = (Exit 1, World (cwd Fixture.hookProject) (disk Fixture.hookProject)
                      (console Fixture.hookProject ++ lines) (calls Fixture.hookProject)))
  /\ (exists lines,
         removeCommand Fixture.reactStructures Fixture.nextjsStructures Fixture.decode
           "api" "Users" true Fixture.hookProject
         = (Exit 1, World (cwd Fixture.hookProject) (disk Fixture.hookProject)
                      (console Fixture.hookProject ++ lines) (calls Fixture.hookProject))).
Proof.
  assert (T : In "api" ["type"; "api"]) by (right; left; reflexivity).
  split; [exact T|].
  destruct (rename_and_remove_reject_type_and_api
              Fixture.reactStructures Fixture.nextjsStructures Fixture.decode
              "api" "Users" "Accounts" "Users" true Fixture.hookProject T)
    as (_ & _ & _ & Rn & Rm).
  exact (conj Rn Rm).
Defined.

Lemma rename_looks_elsewhere_for_prefixed_hook_witness :
  "/proj" <> ""
  /\ dir (hookTarget "UseAuth" Fixture.baseConfig Fixture.reactFeatureBased "/proj")
     = "/proj/src/hooks/useAuth"
  /\ resolveDir "hook" "UseAuth" Fixture.baseConfig Fixture.reactFeatureBased "/proj"
     = Some "/proj/src/hooks/useUseAuth"
  /\ resolveTargetDir "hook" "UseAuth" Fixture.baseConfig Fixture.reactFeatureBased "/proj"
     = Some "/proj/src/hooks/useUseAuth".
Proof.
  assert (N : "/proj" <> "") by discriminate.
  split; [exact N|].
  destruct (rename_looks_elsewhere_for_prefixed_hook Fixture.baseConfig
              Fixture.reactFeatureBased "/proj" None Fixture.hookProject N)
    as (r & _ & D & T & R & RT & _).
  split; [|split].
  - rewrite T, D. vm_compute. reflexivity.
  - rewrite R. vm_compute. reflexivity.
  - rewrite RT, R. vm_compute. reflexivity.
Defined.

(* ------------------------------------------------------------------ *)
(** ** The primitives and the commands on concrete inputs *)
(* ------------------------------------------------------------------ *)

Example split_ex1 : JS.split "," "a,b,,c" = ["a"; "b"; ""; "c"].
Proof. reflexivity. Qed.
Example split_ex2 : JS.split "ab" "xabyabab" = ["x"; "y"; ""; ""].
Proof. reflexivity. Qed.
Example split_ex3 : JS.split "aa" "aaa" = [""; "a"].
Proof. reflexivity. Qed.
Example trim_ex : JS.trim "  a b  " = "a b".
Proof. reflexivity. Qed.
Example regex_ex1 : Regex.test Validate.PASCAL_CASE_REGEX "Button2" = true.
Proof. reflexivity. Qed.
Example regex_ex2 : Regex.test Validate.PASCAL_CASE_REGEX "my-component" = false.
Proof. reflexivity. Qed.
Example path_ex1 : Path.join ["/proj"; "src/hooks"; "useAuth"] = "/proj/src/hooks/useAuth".
Proof. reflexivity. Qed.
Example path_ex2 : Path.join ["/proj/"; ""; "../a//b/./c/"] = "/a/b/c/".
Proof. reflexivity. Qed.
Example path_ex3 : Path.dirname "/proj/src/hooks/useAuth" = "/proj/src/hooks".
Proof. reflexivity. Qed.
Example path_ex4 : Path.basename "/proj/src/hooks/useAuth" = "useAuth".
Proof. reflexivity. Qed.
Example path_ex5 : map Path.extname ["index.ts"; "Button.module.css"; ".gitignore"; "README"; "a."]
                   = [".ts"; ".css"; ""; ""; "."].
Proof. reflexivity. Qed.
Example path_ex6 : Path.relative "/proj" "/proj/src/hooks/index.ts" = "src/hooks/index.ts".
Proof. reflexivity. Qed.

(** The hook [add] creates for the name "UseAuth" is one [rename] does
    not find. *)
Example rename_misses_hook_add_created :
  let added := addCommand Fixture.reactStructures Fixture.nextjsStructures Fixture.decode
                 "hook" "UseAuth" "" (Fixture.project Fixture.baseConfig []) in
  fst added = Ret tt
  /\ subtree "/proj/src/hooks/useAuth" (snd added) <> None
  /\ fst (renameCommand Fixture.reactStructures Fixture.nextjsStructures Fixture.decode
            "hook" "UseAuth" "Session" (snd added)) = Exit 1
  /\ last (console (snd (renameCommand Fixture.reactStructures Fixture.nextjsStructures
                           Fixture.decode "hook" "UseAuth" "Session" (snd added)))) ""
     = nl ++ "  Error: hook " ++ dq ++ "UseAuth" ++ dq
       ++ " not found at src/hooks/useUseAuth" ++ nl.
Proof. vm_compute. repeat split. discriminate. Qed.

(* ================================================================== *)
(** * Further properties of the commands *)
(* ================================================================== *)

Import Tree.

(* ------------------------------------------------------------------ *)
(** ** Commands that leave the disk alone *)
(* ------------------------------------------------------------------ *)

Module Calm.

(** [calm m]: however [m] ends, the disk and the working directory are
    as before. *)
Local Abbreviation calm m :=
  (forall w o w', m w = (o, w') -> disk w' = disk w /\ cwd w' = cwd w).

Lemma calm_bind {A B : Type} (m : M A) (k : A -> M B) :
  calm m -> (forall a, calm (k a)) -> calm (bind m k).
Proof.
  intros Hm Hk w o w'. unfold bind.
  destruct (m w) as [[a|c|e] w1] eqn:E.
  - intros K. destruct (Hk a _ _ _ K) as [D C]. destruct (Hm _ _ _ E) as [D1 C1].
    split; congruence.
  - intros [= <- <-]. exact (Hm _ _ _ E).
  - intros [= <- <-]. exact (Hm _ _ _ E).
Qed.

Lemma calm_ret {A : Type} (a : A) : calm (ret a).
Proof. now intros w o w' [= <- <-]. Qed.

Lemma calm_exit {A : Type} (c : nat) : calm (@exit A c).
Proof. now intros w o w' [= <- <-]. Qed.

Lemma calm_throw {A : Type} (e : error) : calm (@throw A e).
Proof. now intros w o w' [= <- <-]. Qed.

Lemma calm_log (line : string) : calm (log line).
Proof. now intros w o w' [= <- <-]. Qed.

Lemma calm_getcwd : calm getcwd.
Proof. now intros w o w' [= <- <-]. Qed.

Lemma calm_pathExists (p : string) : calm (pathExists p).
Proof. intros w o w'. rewrite pathExists_run. now intros [= <- <-]. Qed.

Lemma calm_readFile (p : string) : calm (readFile p).
Proof. intros w o w'. rewrite readFile_run. now intros [= <- <-]. Qed.

Lemma calm_validateName (name type : string) : calm (validateName name type).
Proof.
  unfold validateName.
  destruct (negb (truthy name) || (String.length (trim name) =? 0)%nat).
  - apply calm_bind; [apply calm_log | intros _; apply calm_exit].
  - destruct (negb (Regex.test PASCAL_CASE_REGEX name)); [|apply calm_ret].
    repeat (apply calm_bind; [apply calm_log | intros _]). apply calm_exit.
Qed.

Lemma calm_unknownType (type : string) (supported : list string) :
  calm (unknownType type supported).
Proof.
  unfold unknownType.
  repeat (apply calm_bind; [apply calm_log | intros _]). apply calm_exit.
Qed.

Lemma calm_asPath (p : option string) : calm (asPath p).
Proof. destruct p; [apply calm_ret | apply calm_throw]. Qed.

Section Loading.

Variable reactStructures : string -> option Structure.
Variable nextjsStructures : string -> option Structure.
Variable parseConfig : string -> option Config.

Lemma calm_readJson (p : string) : calm (readJson parseConfig p).
Proof.
  unfold readJson. apply calm_bind.
  - now intros w o w' [= <- <-].
  - intros _. apply calm_bind; [apply calm_readFile|]. intros data.
    destruct (parseConfig data); [apply calm_ret | apply calm_throw].
Qed.

Lemma calm_loadConfig (root : string) : calm (loadConfig parseConfig root).
Proof.
  unfold loadConfig. cbv zeta. apply calm_bind; [apply calm_pathExists|].
  intros present. destruct (negb present); [|apply calm_readJson].
  apply calm_bind; [apply calm_log | intros _; apply calm_exit].
Qed.

Lemma calm_getStructure (config : Config) :
  calm (getStructure reactStructures nextjsStructures config).
Proof.
  unfold getStructure. destruct (structureOf _ _ config); [apply calm_ret|].
  apply calm_bind; [apply calm_log | intros _; apply calm_exit].
Qed.

End Loading.

(** [fs.remove] changes the disk only when it returns. *)
Lemma remove_fails_cleanly (p : string) (w w' : world) (o : outcome unit) :
  Fs.remove p w = (o, w') -> o <> Ret tt -> disk w' = disk w /\ cwd w' = cwd w.
Proof.
  unfold Fs.remove, bind, record, locate, getdisk, put_at, setdisk, throw, ret.
  cbn -[at_path store lookup].
  destruct (lookup _ _); [|now intros [= <- <-] N].
  destruct (store _ _ _); intros [= <- <-] N; [now elim N | now split].
Qed.

End Calm.

Section Refusals.

Variable reactStructures : string -> option Structure.
Variable nextjsStructures : string -> option Structure.
Variable parseConfig : string -> option Config.

Local Abbreviation renameCmd := (renameCommand reactStructures nextjsStructures parseConfig).
Local Abbreviation removeCmd := (removeCommand reactStructures nextjsStructures parseConfig).
Local Abbreviation addCmd := (addCommand reactStructures nextjsStructures parseConfig).
Local Abbreviation structureFor := (structureOf reactStructures nextjsStructures).
Local Abbreviation holds := (configured parseConfig).
Local Abbreviation calm m :=
  (forall w o w', m w = (o, w') -> disk w' = disk w /\ cwd w' = cwd w).

(** X1.  [remove] deletes nothing unless the prompt was confirmed and
    the command ran to its end: for every type, name and world, when the
    answer to the prompt is no, or the command exits or throws, the disk
    and the working directory are as they were. *)
Theorem remove_changes_disk_only_when_confirmed :
  forall (type name : string) (confirm : bool) (w w' : world) (o : outcome unit),
    removeCmd type name confirm w = (o, w') ->
    confirm = false \/ o <> Ret tt ->
    disk w' = disk w /\ cwd w' = cwd w.
Proof.
  intros type name confirm w w' o R C. revert w o w' R C.
  assert (Step : forall (A : Type) (m : M A) (k : A -> M unit),
             calm m ->
             (forall a w o w', k a w = (o, w') -> confirm = false \/ o <> Ret tt ->
                               disk w' = disk w /\ cwd w' = cwd w) ->
             forall w o w', bind m k w = (o, w') -> confirm = false \/ o <> Ret tt ->
                            disk w' = disk w /\ cwd w' = cwd w).
  { intros A m k Hm Hk w o w'. unfold bind.
    destruct (m w) as [[a|c|e] w1] eqn:E.
    - intros K C. destruct (Hk a _ _ _ K C) as [D1 C1]. destruct (Hm _ _ _ E) as [D2 C2].
      split; congruence.
    - intros [= <- <-] _. exact (Hm _ _ _ E).
    - intros [= <- <-] _. exact (Hm _ _ _ E). }
  unfold removeCommand.
  destruct (negb (existsb (String.eqb type) REMOVE_SUPPORTED_TYPES)).
  { intros w o w' R _. exact (Calm.calm_unknownType _ _ _ _ _ R). }
  apply Step; [apply Calm.calm_validateName | intros _].
  apply Step; [apply Calm.calm_getcwd | intros root].
  apply Step; [apply Calm.calm_loadConfig | intros config].
  apply Step; [apply Calm.calm_getStructure | intros st].
  apply Step; [apply Calm.calm_asPath | intros targetDir].
  apply Step; [apply Calm.calm_pathExists | intros present].
  destruct (negb present).
  { intros w o w' R _. revert w o w' R.
    apply Calm.calm_bind; [apply Calm.calm_log | intros _; apply Calm.calm_exit]. }
  destruct confirm; cbn [negb].
  - intros w o w' R [C|C]; [discriminate C|].
    unfold bind in R. destruct (Fs.remove targetDir w) as [[[]|c|e] w1] eqn:E.
    + unfold log in R. injection R as <- <-. now elim C.
    + injection R as <- <-. apply (Calm.remove_fails_cleanly _ _ _ _ E). discriminate.
    + injection R as <- <-. apply (Calm.remove_fails_cleanly _ _ _ _ E). discriminate.
  - intros w o w' R _. exact (Calm.calm_log _ _ _ _ R).
Qed.

(** What [validateName] does in a world: it returns, or prints and exits. *)
Lemma validateName_cases (name type : string) (w : world) :
  validateName name type w = (Ret true, w) \/
  exists w', validateName name type w = (Exit 1, w') /\
             disk w' = disk w /\ cwd w' = cwd w /\ calls w' = calls w.
Proof.
  unfold validateName.
  destruct (negb (truthy name) || (String.length (trim name) =? 0)%nat).
  - right. eexists. split; [reflexivity|]. now cbn.
  - destruct (negb (Regex.test PASCAL_CASE_REGEX name)); [|now left].
    right. eexists. split; [reflexivity|]. now cbn.
Qed.

(** The two checks of [rename] on what is there. *)
Lemma rename_refused (type x y : string) (w : world) (config : Config) (st : Structure)
      (source target : string) :
  holds w config ->
  structureFor config = Some st ->
  resolveDir type x config st (cwd w) = Some source ->
  resolveDir type y config st (cwd w) = Some target ->
  subtree source w = None \/ subtree target w <> None ->
  exists w', renameCmd type x y w = (Exit 1, w') /\ disk w' = disk w /\ cwd w' = cwd w.
Proof.
  intros H S Rx Ry C.
  unfold renameCommand.
  destruct (negb (existsb (String.eqb type) RENAME_SUPPORTED_TYPES)).
  { eexists. split; [reflexivity|]. now cbn. }
  unfold bind at 1.
  destruct (validateName_cases x type w) as [->|(w1 & -> & D & Cw & _)];
    [|now exists w1].
  unfold bind at 1.
  destruct (validateName_cases y type w) as [->|(w1 & -> & D & Cw & _)];
    [|now exists w1].
  unfold bind at 1. unfold getcwd at 1. cbv iota beta.
  unfold bind at 1. rewrite (loadConfig_run parseConfig w config H).
  unfold bind at 1.
  rewrite (getStructure_run reactStructures nextjsStructures config st _ S).
  rewrite Rx, Ry. unfold asPath. unfold bind at 1 2. unfold ret at 1 2. cbv iota beta.
  unfold bind at 1. rewrite pathExists_run.
  match goal with |- context [subtree source ?v] =>
    change (subtree source v) with (subtree source w) end.
  destruct (subtree source w) as [found|] eqn:Sx; cbn [negb]; cbv iota.
  - destruct C as [C|C]; [discriminate C|].
    unfold bind at 1. rewrite pathExists_run.
    match goal with |- context [subtree target ?v] =>
      change (subtree target v) with (subtree target w) end.
    destruct (subtree target w); [|now elim C].
    cbv iota. eexists. split; [reflexivity|]. now cbn.
  - eexists. split; [reflexivity|]. now cbn.
Qed.

(** X2.  [rename] never replaces a resource that is there and never
    invents one that is not: with a configuration and its structure in
    place, when nothing exists where the old name resolves to, or
    something already exists where the new name resolves to, the command
    exits with code 1 and the disk is as it was. *)
Theorem rename_refuses_missing_source_and_taken_target :
  forall (type x y : string) (w : world) (config : Config) (st : Structure)
         (source target : string),
    holds w config ->
    structureFor config = Some st ->
    resolveDir type x config st (cwd w) = Some source ->
    resolveDir type y config st (cwd w) = Some target ->
    subtree source w = None \/ subtree target w <> None ->
    exists w', renameCmd type x y w = (Exit 1, w') /\ disk w' = disk w /\ cwd w' = cwd w.
Proof.
  intros type x y w config st source target H S Rx Ry C.
  exact (rename_refused type x y w config st source target H S Rx Ry C).
Qed.

(** Every type [rename] supports has a directory. *)
Lemma resolveDir_supported (type name : string) (config : Config) (st : Structure)
      (root : string) :
  existsb (String.eqb type) RENAME_SUPPORTED_TYPES = true ->
  exists target, resolveDir type name config st root = Some target.
Proof.
  intros E. unfold resolveDir. cbv zeta.
  repeat match goal with
         | |- context [if String.eqb type ?t then _ else _] =>
             destruct (String.eqb type t) eqn:?; [now eexists|]
         end.
  cbn in E. repeat match goal with H : String.eqb type _ = false |- _ =>
                     rewrite H in E; clear H end.
  discriminate E.
Qed.

(** X3.  Renaming a resource to the name it has never goes through and
    changes nothing: whatever the type, the name and the world, the
    command does not return normally (it exits, or the configuration
    fails to load), and the disk is as it was. *)
Theorem rename_to_same_name_never_succeeds :
  forall (type name : string) (w : world),
    fst (renameCmd type name name w) <> Ret tt /\
    disk (snd (renameCmd type name name w)) = disk w /\
    cwd (snd (renameCmd type name name w)) = cwd w.
Proof.
  intros type name w.
  assert (G : forall o w', renameCmd type name name w = (o, w') ->
                           o <> Ret tt /\ disk w' = disk w /\ cwd w' = cwd w).
  { revert w.
    assert (Step : forall (A : Type) (m : M A) (k : A -> M unit),
               calm m ->
               (forall a w o w', k a w = (o, w') ->
                                 o <> Ret tt /\ disk w' = disk w /\ cwd w' = cwd w) ->
               forall w o w', bind m k w = (o, w') ->
                              o <> Ret tt /\ disk w' = disk w /\ cwd w' = cwd w).
    { intros A m k Hm Hk w o w'. unfold bind.
      destruct (m w) as [[a|c|e] w1] eqn:E.
      - intros K. destruct (Hk a _ _ _ K) as (N & D1 & C1). destruct (Hm _ _ _ E) as [D2 C2].
        repeat split; [exact N | congruence | congruence].
      - intros [= <- <-]. destruct (Hm _ _ _ E). repeat split; [discriminate | assumption ..].
      - intros [= <- <-]. destruct (Hm _ _ _ E).
        repeat split; [discriminate | assumption ..]. }
    intros w o w'. revert w o w'. unfold renameCommand.
    destruct (negb (existsb (String.eqb type) RENAME_SUPPORTED_TYPES)) eqn:T.
    { intros w o w' [= <- <-]. repeat split. discriminate. }
    apply negb_false_iff in T.
    apply Step; [apply Calm.calm_validateName | intros _].
    apply Step; [apply Calm.calm_validateName | intros _].
    apply Step; [apply Calm.calm_getcwd | intros root].
    apply Step; [apply Calm.calm_loadConfig | intros config].
    apply Step; [apply Calm.calm_getStructure | intros st].
    destruct (resolveDir_supported type name config st root T) as [target ->].
    unfold asPath. unfold bind at 1 2. unfold ret at 1 2. cbv iota beta.
    intros w o w'. unfold bind at 1. rewrite pathExists_run.
    destruct (subtree target w) as [found|] eqn:Sx; cbn [negb]; cbv iota.
    - unfold bind at 1. rewrite pathExists_run.
      change (subtree target (noted (CpathExists target) w)) with (subtree target w).
      rewrite Sx. cbv iota. intros [= <- <-]. repeat split. discriminate.
    - intros [= <- <-]. repeat split. discriminate. }
  destruct (renameCmd type name name w) as [o w'] eqn:E. exact (G o w' eq_refl).
Qed.

Lemma supported_existsb (type : string) (l : list string) :
  In type l -> existsb (String.eqb type) l = true.
Proof.
  intros I. apply existsb_exists. exists type. split; [exact I | apply String.eqb_refl].
Qed.

Lemma unsupported_existsb (type : string) (l : list string) :
  ~ In type l -> existsb (String.eqb type) l = false.
Proof.
  intros N. destruct (existsb (String.eqb type) l) eqn:E; [|reflexivity].
  apply existsb_exists in E. destruct E as (t & I & E). apply String.eqb_eq in E.
  subst t. now elim N.
Qed.

(** X4.  A type outside a command's list is turned away before any call
    into the file system: [add] (nine types), [rename] and [remove]
    (seven types) print the unknown-type error with the list of supported
    types and exit with code 1, and the query handler (nine types)
    returns an error payload that lists them, whatever the names and
    whether or not the project has a configuration. *)
Theorem unknown_type_is_rejected_before_any_file_access :
  forall (type name answer oldName newName : string) (confirm : bool)
         (atomicLevel : option string) (root : string) (w : world),
    let said l :=
      World (cwd w) (disk w)
        (console w ++ [nl ++ "  Error: Unknown type " ++ dq ++ type ++ dq ++ ".";
                       "  Supported types: " ++ JS.join ", " l ++ nl])
        (calls w) in
    (~ In type ADD_SUPPORTED_TYPES ->
     addCmd type name answer w = (Exit 1, said ADD_SUPPORTED_TYPES)) /\
    (~ In type RENAME_SUPPORTED_TYPES ->
     renameCmd type oldName newName w = (Exit 1, said RENAME_SUPPORTED_TYPES)) /\
    (~ In type REMOVE_SUPPORTED_TYPES ->
     removeCmd type name confirm w = (Exit 1, said REMOVE_SUPPORTED_TYPES)) /\
    (~ In type SUPPORTED ->
     handleResolveResourcePath reactStructures nextjsStructures parseConfig
       type name atomicLevel root w
     = (Ret (Reply.Error ("Unknown type " ++ dq ++ type ++ dq ++ ". Supported: "
                          ++ "component, hook, page, service, context, store, type, api, feature"
                          ++ ".")), w)).
Proof.
  intros type name answer oldName newName confirm atomicLevel root w said.
  repeat split; intros N.
  - unfold addCommand. rewrite (unsupported_existsb _ _ N). cbn [negb].
    unfold unknownType, bind, log, exit, said. cbn [cwd disk console calls].
    now rewrite <- app_assoc.
  - unfold renameCommand. rewrite (unsupported_existsb _ _ N). cbn [negb].
    unfold unknownType, bind, log, exit, said. cbn [cwd disk console calls].
    now rewrite <- app_assoc.
  - unfold removeCommand. rewrite (unsupported_existsb _ _ N). cbn [negb].
    unfold unknownType, bind, log, exit, said. cbn [cwd disk console calls].
    now rewrite <- app_assoc.
  - unfold handleResolveResourcePath. rewrite (unsupported_existsb _ _ N). reflexivity.
Qed.

(** The world once the configuration file has been looked for, and once
    it has been read. *)
Local Abbreviation sought w :=
  (noted (CpathExists (Path.join [cwd w; ".rchitect.json"])) w).
Local Abbreviation loaded w :=
  (let configPath := Path.join [cwd w; ".rchitect.json"] in
   noted (CreadFile configPath) (noted (CreadJson configPath) (noted (CpathExists configPath) w))).

Lemma loadConfig_missing (w : world) :
  subtree (Path.join [cwd w; ".rchitect.json"]) w = None ->
  loadConfig parseConfig (cwd w) w
  = (Exit 1, World (cwd w) (disk w)
               (console w ++ [nl ++ "  Error: " ++ notFoundMessage ++ nl])
               (calls (sought w))).
Proof.
  intros S. unfold loadConfig. cbv zeta. unfold bind at 1. rewrite pathExists_run, S.
  reflexivity.
Qed.

(** X5.  Without a configuration file nothing is created, renamed or
    removed, and no handler raises: [add], [rename] and [remove] (given
    a type they support and, for the latter two, valid names) print the
    not-found error and exit with code 1 after the one look for the
    file, and each of the three query handlers returns the not-found
    error payload; the disk is as it was. *)
Theorem missing_configuration_stops_commands_and_handlers :
  forall (type name answer oldName newName : string) (confirm : bool)
         (atomicLevel : option string) (w : world),
    subtree (Path.join [cwd w; ".rchitect.json"]) w = None ->
    let stopped :=
      World (cwd w) (disk w) (console w ++ [nl ++ "  Error: " ++ notFoundMessage ++ nl])
        (calls (sought w)) in
    (In type ADD_SUPPORTED_TYPES -> addCmd type name answer w = (Exit 1, stopped)) /\
    (In type RENAME_SUPPORTED_TYPES ->
     pascal_case_spec oldName = true -> pascal_case_spec newName = true ->
     renameCmd type oldName newName w = (Exit 1, stopped)) /\
    (In type REMOVE_SUPPORTED_TYPES -> pascal_case_spec name = true ->
     removeCmd type name confirm w = (Exit 1, stopped)) /\
    handleGetProjectConfig parseConfig (cwd w) w
    = (Ret (Reply.Error notFoundMessage), sought w) /\
    handleGetArchitectureGuide reactStructures nextjsStructures parseConfig (cwd w) w
    = (Ret (Reply.Error notFoundMessage), sought w) /\
    (In type SUPPORTED ->
     handleResolveResourcePath reactStructures nextjsStructures parseConfig
       type name atomicLevel (cwd w) w
     = (Ret (Reply.Error notFoundMessage), sought w)).
Proof.
  intros type name answer oldName newName confirm atomicLevel w S stopped.
  pose proof (loadConfig_missing w S) as L.
  split; [|split; [|split; [|split; [|split]]]].
  - intros T. unfold addCommand. rewrite (supported_existsb _ _ T). cbn [negb].
    unfold bind at 1. unfold getcwd at 1. cbv iota beta. unfold bind at 1. now rewrite L.
  - intros T Vo Vn. unfold renameCommand. rewrite (supported_existsb _ _ T). cbn [negb].
    unfold bind at 1. rewrite (ValidateFacts.validateName_valid _ _ _ Vo).
    unfold bind at 1. rewrite (ValidateFacts.validateName_valid _ _ _ Vn).
    unfold bind at 1. unfold getcwd at 1. cbv iota beta. unfold bind at 1. now rewrite L.
  - intros T V. unfold removeCommand. rewrite (supported_existsb _ _ T). cbn [negb].
    unfold bind at 1. rewrite (ValidateFacts.validateName_valid _ _ _ V).
    unfold bind at 1. unfold getcwd at 1. cbv iota beta. unfold bind at 1. now rewrite L.
  - unfold handleGetProjectConfig. cbv zeta. unfold bind at 1.
    rewrite pathExists_run, S. reflexivity.
  - unfold handleGetArchitectureGuide. cbv zeta. unfold bind at 1.
    rewrite pathExists_run, S. reflexivity.
  - intros T. unfold handleResolveResourcePath. rewrite (supported_existsb _ _ T).
    cbn [negb]. cbv zeta. unfold bind at 1. rewrite pathExists_run, S. reflexivity.
Qed.

(** X6.  A configuration that cannot be used stops every command before
    it writes.  When the pattern names no structure, [add], [rename] and
    [remove] print "Unknown pattern in config." and exit with code 1;
    when the file does not parse, they fail with the syntax error of
    [fs.readJson].  In both cases the disk is as it was. *)
Theorem unusable_configuration_stops_commands :
  forall (type name answer oldName newName : string) (confirm : bool) (w : world),
    In type RENAME_SUPPORTED_TYPES ->
    pascal_case_spec name = true ->
    pascal_case_spec oldName = true ->
    pascal_case_spec newName = true ->
    (forall config,
        holds w config -> structureFor config = None ->
        let stopped :=
          World (cwd w) (disk w)
            (console w ++ [nl ++ "  Error: Unknown pattern in config." ++ nl])
            (calls (loaded w)) in
        addCmd type name answer w = (Exit 1, stopped) /\
        renameCmd type oldName newName w = (Exit 1, stopped) /\
        removeCmd type name confirm w = (Exit 1, stopped)) /\
    (forall data,
        peek (Path.join [cwd w; ".rchitect.json"]) w = Some data ->
        parseConfig data = None ->
        let failed := Throw (SyntaxError (Path.join [cwd w; ".rchitect.json"])) in
        addCmd type name answer w = (failed, loaded w) /\
        renameCmd type oldName newName w = (failed, loaded w) /\
        removeCmd type name confirm w = (failed, loaded w)).
Proof.
  intros type name answer oldName newName confirm w T V Vo Vn.
  assert (Ta : existsb (String.eqb type) ADD_SUPPORTED_TYPES = true).
  { apply supported_existsb. cbn [RENAME_SUPPORTED_TYPES In] in T.
    unfold ADD_SUPPORTED_TYPES. cbn [In]. intuition. }
  assert (Tr : existsb (String.eqb type) RENAME_SUPPORTED_TYPES = true)
    by now apply supported_existsb.
  assert (Tm : existsb (String.eqb type) REMOVE_SUPPORTED_TYPES = true)
    by now apply supported_existsb.
  split.
  - intros config H S stopped.
    assert (G : getStructure reactStructures nextjsStructures config (loaded w)
                = (Exit 1, stopped)).
    { unfold getStructure. rewrite S. reflexivity. }
    cbv zeta in G.
    repeat split.
    + unfold addCommand. rewrite Ta. cbn [negb].
      unfold bind at 1. unfold getcwd at 1. cbv iota beta.
      unfold bind at 1. rewrite (loadConfig_run parseConfig w config H). cbv iota beta zeta.
      unfold bind at 1. now rewrite G.
    + unfold renameCommand. rewrite Tr. cbn [negb].
      unfold bind at 1. rewrite (ValidateFacts.validateName_valid _ _ _ Vo).
      unfold bind at 1. rewrite (ValidateFacts.validateName_valid _ _ _ Vn).
      unfold bind at 1. unfold getcwd at 1. cbv iota beta.
      unfold bind at 1. rewrite (loadConfig_run parseConfig w config H). cbv iota beta zeta.
      unfold bind at 1. now rewrite G.
    + unfold removeCommand. rewrite Tm. cbn [negb].
      unfold bind at 1. rewrite (ValidateFacts.validateName_valid _ _ _ V).
      unfold bind at 1. unfold getcwd at 1. cbv iota beta.
      unfold bind at 1. rewrite (loadConfig_run parseConfig w config H). cbv iota beta zeta.
      unfold bind at 1. now rewrite G.
  - intros data P J failed. apply peek_subtree in P.
    assert (L : loadConfig parseConfig (cwd w) w
                = (Throw (SyntaxError (Path.join [cwd w; ".rchitect.json"])), loaded w)).
    { unfold loadConfig. cbv zeta. unfold bind at 1. rewrite pathExists_run, P.
      cbn [negb]. cbv iota. unfold readJson, bind, record. rewrite readFile_run.
      match goal with |- context [subtree ?p (noted ?c1 (noted ?c2 w))] =>
        change (subtree p (noted c1 (noted c2 w))) with (subtree p w) end.
      now rewrite P, J. }
    repeat split.
    + unfold addCommand. rewrite Ta. cbn [negb].
      unfold bind at 1. unfold getcwd at 1. cbv iota beta. unfold bind at 1. now rewrite L.
    + unfold renameCommand. rewrite Tr. cbn [negb].
      unfold bind at 1. rewrite (ValidateFacts.validateName_valid _ _ _ Vo).
      unfold bind at 1. rewrite (ValidateFacts.validateName_valid _ _ _ Vn).
      unfold bind at 1. unfold getcwd at 1. cbv iota beta. unfold bind at 1. now rewrite L.
    + unfold removeCommand. rewrite Tm. cbn [negb].
      unfold bind at 1. rewrite (ValidateFacts.validateName_valid _ _ _ V).
      unfold bind at 1. unfold getcwd at 1. cbv iota beta. unfold bind at 1. now rewrite L.
Qed.

End Refusals.

(* ------------------------------------------------------------------ *)
(** ** The query handlers only read *)
(* ------------------------------------------------------------------ *)

Module Silent.

(** [silent m]: however [m] ends, it has written nothing and printed
    nothing. *)
Local Abbreviation silent m :=
  (forall w o w', m w = (o, w') ->
                  disk w' = disk w /\ cwd w' = cwd w /\ console w' = console w).

Lemma silent_bind {A B : Type} (m : M A) (k : A -> M B) :
  silent m -> (forall a, silent (k a)) -> silent (bind m k).
Proof.
  intros Hm Hk w o w'. unfold bind.
  destruct (m w) as [[a|c|e] w1] eqn:E.
  - intros K. destruct (Hk a _ _ _ K) as (D & C & L).
    destruct (Hm _ _ _ E) as (D1 & C1 & L1). repeat split; congruence.
  - intros [= <- <-]. exact (Hm _ _ _ E).
  - intros [= <- <-]. exact (Hm _ _ _ E).
Qed.

Lemma silent_ret {A : Type} (a : A) : silent (ret a).
Proof. now intros w o w' [= <- <-]. Qed.

Lemma silent_throw {A : Type} (e : error) : silent (@throw A e).
Proof. now intros w o w' [= <- <-]. Qed.

Lemma silent_pathExists (p : string) : silent (pathExists p).
Proof. intros w o w'. rewrite pathExists_run. now intros [= <- <-]. Qed.

Lemma silent_readFile (p : string) : silent (readFile p).
Proof. intros w o w'. rewrite readFile_run. now intros [= <- <-]. Qed.

Lemma silent_readJson (parseConfig : string -> option Config) (p : string) :
  silent (readJson parseConfig p).
Proof.
  unfold readJson. apply silent_bind.
  - now intros w o w' [= <- <-].
  - intros _. apply silent_bind; [apply silent_readFile|]. intros data.
    destruct (parseConfig data); [apply silent_ret | apply silent_throw].
Qed.

Lemma silent_defined (structure : option Structure) : silent (defined structure).
Proof. destruct structure; [apply silent_ret | apply silent_throw]. Qed.

Lemma silent_callApiPath (structure : Structure) : silent (callApiPath structure).
Proof. unfold callApiPath. destruct (apiPath structure); [apply silent_ret | apply silent_throw]. Qed.

Lemma silent_resolveSwitch (type name : string) (atomicLevel : option string)
      (config : Config) (structure : option Structure) :
  silent (resolveSwitch type name atomicLevel config structure).
Proof.
  unfold resolveSwitch. cbv zeta.
  repeat match goal with
         | |- context [if String.eqb type ?t then _ else _] =>
             destruct (String.eqb type t)
         end;
    try (apply silent_bind; [apply silent_defined | intros st]);
    try apply silent_ret; try apply silent_throw.
  - destruct (if String.eqb (pattern config) "atomic-design" then _ else _) as [level note].
    apply silent_bind; [apply silent_defined | intros st]. apply silent_ret.
  - destruct (negb (String.eqb (framework config) "nextjs")); [apply silent_ret|].
    apply silent_bind; [apply silent_defined | intros st].
    apply silent_bind; [apply silent_callApiPath | intros apiBase]. apply silent_ret.
Qed.

End Silent.

Section ReadOnly.

Variable reactStructures : string -> option Structure.
Variable nextjsStructures : string -> option Structure.
Variable parseConfig : string -> option Config.

(** X7.  The three query handlers only read.  Whatever the arguments and
    the state of the project, and whether a handler returns a payload or
    throws, the disk, the working directory and the console are as they
    were before the call. *)
Theorem query_handlers_only_read :
  forall (type name : string) (atomicLevel : option string) (root : string) (w : world),
    let untouched (w' : world) :=
      disk w' = disk w /\ cwd w' = cwd w /\ console w' = console w in
    untouched (snd (handleGetProjectConfig parseConfig root w)) /\
    untouched (snd (handleGetArchitectureGuide reactStructures nextjsStructures parseConfig
                      root w)) /\
    untouched (snd (handleResolveResourcePath reactStructures nextjsStructures parseConfig
                      type name atomicLevel root w)).
Proof.
  intros type name atomicLevel root w untouched.
  assert (Run : forall (m : M Reply.reply),
             (forall w o w', m w = (o, w') ->
                             disk w' = disk w /\ cwd w' = cwd w /\ console w' = console w) ->
             untouched (snd (m w))).
  { intros m Hm. destruct (m w) as [o w'] eqn:E. exact (Hm _ _ _ E). }
  split; [|split]; apply Run; clear Run untouched w.
  - unfold handleGetProjectConfig. cbv zeta.
    apply Silent.silent_bind; [apply Silent.silent_pathExists | intros present].
    destruct (negb present); [apply Silent.silent_ret|].
    apply Silent.silent_bind; [apply Silent.silent_readJson | intros config].
    apply Silent.silent_ret.
  - unfold handleGetArchitectureGuide. cbv zeta.
    apply Silent.silent_bind; [apply Silent.silent_pathExists | intros present].
    destruct (negb present); [apply Silent.silent_ret|].
    apply Silent.silent_bind; [apply Silent.silent_readJson | intros config].
    destruct (structureOf reactStructures nextjsStructures config) as [st|];
      [|apply Silent.silent_ret].
    apply Silent.silent_bind; [|intros apiPlacement; apply Silent.silent_ret].
    destruct (String.eqb (framework config) "nextjs"); [|apply Silent.silent_ret].
    apply Silent.silent_bind; [apply Silent.silent_callApiPath | intros apiBase].
    apply Silent.silent_ret.
  - unfold handleResolveResourcePath.
    destruct (negb (existsb (String.eqb type) SUPPORTED)); [apply Silent.silent_ret|].
    cbv zeta.
    apply Silent.silent_bind; [apply Silent.silent_pathExists | intros present].
    destruct (negb present); [apply Silent.silent_ret|].
    apply Silent.silent_bind; [apply Silent.silent_readJson | intros config].
    apply Silent.silent_resolveSwitch.
Qed.

End ReadOnly.

Section Adding.

Variable reactStructures : string -> option Structure.
Variable nextjsStructures : string -> option Structure.
Variable parseConfig : string -> option Config.

Local Abbreviation addCmd := (addCommand reactStructures nextjsStructures parseConfig).
Local Abbreviation structureFor := (structureOf reactStructures nextjsStructures).
Local Abbreviation holds := (configured parseConfig).
Local Abbreviation loaded w :=
  (let configPath := Path.join [cwd w; ".rchitect.json"] in
   noted (CreadFile configPath) (noted (CreadJson configPath) (noted (CpathExists configPath) w))).
Local Abbreviation refused m w :=
  (exists w', m w = (Exit 1, w') /\ disk w' = disk w /\ cwd w' = cwd w).

Lemma create_refuses (t : Target) (config : Config) (root label shown : string)
      (barrel : option string) (done : string) (w : world) :
  subtree (dir t) w <> None ->
  refused (create t config root label shown barrel done) w.
Proof.
  intros E. unfold create. unfold bind at 1. rewrite pathExists_run.
  destruct (subtree (dir t) w); [|now elim E].
  eexists. split; [reflexivity|]. now cbn.
Qed.

Lemma validated_refuses (name type : string) (m : M unit) (w : world) :
  refused m w -> refused (validateName name type ;; m) w.
Proof.
  intros R. unfold bind.
  destruct (validateName_cases name type w) as [->|(w1 & -> & D & C & _)].
  - exact R.
  - now exists w1.
Qed.

(** The check at the head of the common tail, seen from the command. *)
Lemma existing_directory_refused (type name answer : string) (w : world) (config : Config)
      (st : Structure) (t : Target) :
  holds w config ->
  structureFor config = Some st ->
  type <> "type" ->
  addTarget type name config st (cwd w) answer = Some t ->
  subtree (dir t) w <> None ->
  refused (addCmd type name answer) w.
Proof.
  intros H S N T E.
  assert (E' : subtree (dir t) (loaded w) <> None) by exact E.
  assert (G : refused
                (if String.eqb type "component" then addComponent name config st (cwd w) answer
                 else if String.eqb type "hook" then addHook name config st (cwd w)
                 else if String.eqb type "page" then addPage name config st (cwd w)
                 else if String.eqb type "service" then addService name config st (cwd w)
                 else if String.eqb type "context" then addContext name config st (cwd w)
                 else if String.eqb type "store" then addStore name config st (cwd w)
                 else if String.eqb type "type" then addType name config st (cwd w)
                 else if String.eqb type "api" then addApi name config st (cwd w)
                 else if String.eqb type "feature" then addFeature name config st (cwd w)
                 else ret tt) (loaded w)).
  { revert T. unfold addTarget.
    destruct (String.eqb type "component");
      [intros [= <-]; apply validated_refuses, create_refuses, E'|].
    destruct (String.eqb type "hook");
      [intros [= <-]; apply validated_refuses, create_refuses, E'|].
    destruct (String.eqb type "page");
      [intros [= <-]; apply validated_refuses, create_refuses, E'|].
    destruct (String.eqb type "service");
      [intros [= <-]; apply validated_refuses, create_refuses, E'|].
    destruct (String.eqb type "context");
      [intros [= <-]; apply validated_refuses, create_refuses, E'|].
    destruct (String.eqb type "store");
      [intros [= <-]; apply validated_refuses, create_refuses, E'|].
    destruct (String.eqb type "type") eqn:Ty;
      [apply String.eqb_eq in Ty; now elim N|].
    destruct (String.eqb type "api").
    - unfold addApi. destruct (String.eqb (framework config) "nextjs"); [|discriminate].
      cbn [negb]. unfold callApiPath.
      destruct (apiPath st) as [apiBase|]; [|discriminate].
      intros [= <-]. apply validated_refuses.
      unfold bind at 1. unfold ret at 1. apply create_refuses, E'.
    - destruct (String.eqb type "feature"); [|discriminate].
      intros [= <-]. apply validated_refuses, create_refuses, E'. }
  destruct G as (w' & G & D & C). exists w'. split; [|now split].
  unfold addCommand.
  assert (Ta : existsb (String.eqb type) ADD_SUPPORTED_TYPES = true).
  { revert T. unfold addTarget. cbn [existsb ADD_SUPPORTED_TYPES].
    repeat match goal with
           | |- context [if String.eqb type ?s then _ else _] =>
               destruct (String.eqb type s); [now rewrite ?orb_true_r|]
           end.
    discriminate. }
  rewrite Ta. cbn [negb].
  unfold bind at 1. unfold getcwd at 1. cbv iota beta.
  unfold bind at 1. rewrite (loadConfig_run parseConfig w config H). cbv iota beta zeta.
  unfold bind at 1. rewrite (getStructure_run reactStructures nextjsStructures config st _ S).
  cbv zeta in G. exact G.
Qed.

(** X8.  [add] never writes into a directory that is already there.
    For every type but [type], with a configuration and its structure in
    place, when something exists at the directory the command resolves,
    it exits with code 1 and the disk is as it was.  (For [type], which
    has no directory of its own, the command makes no such check.) *)
Theorem add_refuses_existing_directory :
  forall (type name answer : string) (w : world) (config : Config) (st : Structure)
         (t : Target),
    holds w config ->
    structureFor config = Some st ->
    type <> "type" ->
    addTarget type name config st (cwd w) answer = Some t ->
    subtree (dir t) w <> None ->
    exists w', addCmd type name answer w = (Exit 1, w') /\ disk w' = disk w /\ cwd w' = cwd w.
Proof.
  intros type name answer w config st t H S N T E.
  exact (existing_directory_refused type name answer w config st t H S N T E).
Qed.

End Adding.

(* ------------------------------------------------------------------ *)
(** ** Paths made of plain names *)
(* ------------------------------------------------------------------ *)

Module PlainFacts.
Import PathFacts RenameDirFacts.

Local Abbreviation noslash := (fun c : ascii => negb (Ascii.eqb "/" c)).

Lemma plain_parts (s : string) :
  plain s = true ->
  s <> "" /\ all_chars noslash s = true /\ String.eqb s "." = false /\ String.eqb s ".." = false.
Proof.
  unfold plain. intros H.
  apply andb_true_iff in H. destruct H as [H D2].
  apply andb_true_iff in H. destruct H as [H D1].
  apply andb_true_iff in H. destruct H as [N S].
  apply negb_true_iff in N, D1, D2.
  repeat split; try assumption. intros ->. discriminate N.
Qed.

Lemma split_noslash (s : string) : all_chars noslash s = true -> split "/" s = [s].
Proof.
  unfold split. induction s as [|c s IH]; [reflexivity|].
  cbn [all_chars]. intros H. apply andb_true_iff in H. destruct H as [C H].
  apply negb_true_iff in C. cbn [split_from startsWith]. rewrite C, (IH H). reflexivity.
Qed.

Lemma split_parts (s : string) :
  Forall (fun x => all_chars noslash x = true) (split "/" s).
Proof.
  unfold split. induction s as [|c s IH]; [now repeat constructor|].
  cbn [split_from startsWith String.length Nat.sub].
  destruct (Ascii.eqb "/" c) eqn:C.
  - constructor; [reflexivity | exact IH].
  - destruct (split_from "/" 0 s) as [|h t].
    + repeat constructor. cbn [all_chars]. now rewrite C.
    + inversion IH as [|? ? Hh Ht]; subst. constructor; [|exact Ht].
      cbn [all_chars]. now rewrite C, Hh.
Qed.

Lemma endsWithSlash_noslash (s : string) :
  all_chars noslash s = true -> Path.endsWithSlash s = false.
Proof.
  induction s as [|c s IH]; [reflexivity|].
  cbn [all_chars]. intros H. apply andb_true_iff in H. destruct H as [C H].
  apply negb_true_iff in C. cbn [Path.endsWithSlash].
  destruct s; [|exact (IH H)].
  destruct (Ascii.eqb c "/") eqn:E; [|reflexivity].
  apply Ascii.eqb_eq in E. subst c. discriminate C.
Qed.

(** What [normalizeString] keeps, when it may not climb, are plain names. *)
Lemma norm_step_plain (stack : list string) (seg : string) :
  all_chars noslash seg = true ->
  Forall (fun x => plain x = true) stack ->
  Forall (fun x => plain x = true) (Path.norm_step false stack seg).
Proof.
  intros S F. unfold Path.norm_step.
  destruct (String.eqb seg "") eqn:E0; [exact F|].
  destruct (String.eqb seg ".") eqn:E1; [exact F|]. cbn [orb].
  destruct (String.eqb seg "..") eqn:E2.
  - destruct stack as [|top below]; [constructor|].
    destruct (String.eqb top ".."); [exact F|]. now inversion F.
  - constructor; [|exact F]. unfold plain. now rewrite E0, E1, E2, S.
Qed.

Lemma segments_plain (p : string) : Forall (fun x => plain x = true) (Path.segments p).
Proof.
  unfold Path.segments, Path.normalizeString. apply Forall_rev.
  assert (G : forall parts stack,
             Forall (fun x => all_chars noslash x = true) parts ->
             Forall (fun x => plain x = true) stack ->
             Forall (fun x => plain x = true) (fold_left (Path.norm_step false) parts stack)).
  { induction parts as [|x parts IH]; intros stack P S; [exact S|].
    inversion P; subst. cbn [fold_left]. apply IH; [assumption|].
    now apply norm_step_plain. }
  apply G; [apply split_parts | constructor].
Qed.

Lemma fold_plain (l stack : list string) :
  Forall (fun x => plain x = true) l ->
  fold_left (Path.norm_step false) l stack = (rev l ++ stack)%list.
Proof.
  revert stack. induction l as [|x l IH]; intros stack F; [reflexivity|].
  inversion F as [|? ? Px Pl]; subst. cbn [fold_left rev].
  destruct (plain_parts x Px) as (N & _ & D1 & D2).
  assert (E : Path.norm_step false stack x = x :: stack).
  { unfold Path.norm_step.
    destruct (String.eqb x "") eqn:E0; [apply String.eqb_eq in E0; now elim N|].
    now rewrite D1, D2. }
  rewrite E, (IH _ Pl), <- app_assoc. reflexivity.
Qed.

Lemma split_join (l : list string) :
  Forall (fun x => plain x = true) l -> l <> [] -> split "/" (JS.join "/" l) = l.
Proof.
  induction l as [|x l IH]; intros F N; [now elim N|].
  inversion F as [|? ? Px Pl]; subst.
  destruct (plain_parts x Px) as (_ & S & _ & _).
  destruct l as [|y l]; [exact (split_noslash x S)|].
  rewrite join_cons_more, split_slash_append, (split_noslash x S), (IH Pl); [reflexivity|].
  discriminate.
Qed.

(** Segments written out with slashes read back as they were. *)
Lemma segments_joined (l : list string) :
  Forall (fun x => plain x = true) l -> Path.segments ("/" ++ JS.join "/" l) = l.
Proof.
  intros F. unfold Path.segments, Path.normalizeString.
  change ("/" ++ JS.join "/" l) with ("" ++ "/" ++ JS.join "/" l).
  rewrite split_slash_append. change (split "/" "") with [""].
  cbn [app fold_left]. change (Path.norm_step false [] "") with (@nil string).
  destruct l as [|x l]; [reflexivity|].
  rewrite (split_join _ F) by discriminate.
  rewrite (fold_plain _ _ F), app_nil_r. apply rev_involutive.
Qed.

(** Joining a plain name onto an absolute path adds one segment. *)
Lemma join_leaf (X a : string) :
  startsWith "/" X = true -> plain a = true ->
  Path.join [X; a] = "/" ++ JS.join "/" (Path.segments X ++ [a]).
Proof.
  intros A P. destruct (plain_parts a P) as (N & S & D1 & D2).
  destruct X as [|c X]; [discriminate A|]. destruct a as [|d a]; [now elim N|].
  unfold Path.join. cbn [filter truthy String.eqb negb JS.join].
  change (String.eqb (String c X ++ "/" ++ String d a) "") with false. cbv iota.
  destruct (normalize_leaf (String c X) (String d a)) as (pre & l & E & Q);
    try assumption; try discriminate.
  - now apply split_noslash.
  - now apply endsWithSlash_noslash.
  - rewrite A in Q. cbn [negb] in Q. injection Q as -> ->. exact E.
Qed.

Lemma segments_join_leaf (X a : string) :
  startsWith "/" X = true -> plain a = true ->
  Path.segments (Path.join [X; a]) = (Path.segments X ++ [a])%list /\
  startsWith "/" (Path.join [X; a]) = true.
Proof.
  intros A P. rewrite (join_leaf X a A P). split; [|reflexivity].
  apply segments_joined. apply Forall_app. split; [apply segments_plain|].
  now repeat constructor.
Qed.

(** The directory of a resource: an absolute path that ends in the
    resource's own segment. *)
Lemma join_resource (root base leaf : string) :
  startsWith "/" root = true -> plain leaf = true ->
  exists l,
    Path.join [root; base; leaf] = "/" ++ JS.join "/" (l ++ [leaf]) /\
    Path.segments (Path.join [root; base; leaf]) = (l ++ [leaf])%list.
Proof.
  intros A P. destruct (plain_parts leaf P) as (N & S & D1 & D2).
  destruct root as [|c root]; [discriminate A|].
  rewrite <- join_nested by (try discriminate; assumption).
  destruct leaf as [|d leaf]; [now elim N|].
  assert (J : Path.join [String c root; base ++ "/" ++ String d leaf]
              = Path.normalize ((String c root ++ "/" ++ base) ++ "/" ++ String d leaf)).
  { unfold Path.join. cbn [filter truthy]. 
    assert (T : truthy (base ++ "/" ++ String d leaf) = true) by (destruct base; reflexivity).
    rewrite T. cbn [JS.join].
    change (String.eqb (String c root ++ "/" ++ base ++ "/" ++ String d leaf) "") with false.
    cbv iota. now rewrite !append_assoc. }
  rewrite J.
  destruct (normalize_leaf (String c root ++ "/" ++ base) (String d leaf))
    as (pre & l & E & Q); try assumption; try discriminate.
  - now apply split_noslash.
  - now apply endsWithSlash_noslash.
  - change (startsWith "/" (String c root ++ "/" ++ base)) with (startsWith "/" (String c root))
      in Q.
    rewrite A in Q. cbn [negb] in Q. injection Q as -> ->.
    eexists. split; [exact E|]. rewrite E.
    apply segments_joined. apply Forall_app. split; [|now repeat constructor].
    exact (segments_plain (String c root ++ "/" ++ base)).
Qed.

End PlainFacts.

(* ------------------------------------------------------------------ *)
(** ** What a stored entry leaves alone *)
(* ------------------------------------------------------------------ *)

Module TreeFacts.
Import PlainFacts.

Lemma is_prefix_app (a r : list string) : is_prefix a (a ++ r) = true.
Proof.
  induction a as [|x a IH]; [reflexivity|]. cbn [app is_prefix].
  now rewrite String.eqb_refl, IH.
Qed.

Lemma is_prefix_trans (a b c : list string) :
  is_prefix a b = true -> is_prefix b c = true -> is_prefix a c = true.
Proof.
  revert b c. induction a as [|x a IH]; intros [|y b] [|z c] H1 H2;
    try reflexivity; try discriminate.
  cbn [is_prefix] in *. apply andb_true_iff in H1, H2.
  destruct H1 as [E1 H1], H2 as [E2 H2].
  apply String.eqb_eq in E1, E2. subst y z. rewrite String.eqb_refl.
  exact (IH _ _ H1 H2).
Qed.

Lemma is_prefix_comparable (a b c : list string) :
  is_prefix a c = true -> is_prefix b c = true ->
  is_prefix a b = true \/ is_prefix b a = true.
Proof.
  revert b c. induction a as [|x a IH]; intros [|y b] [|z c] H1 H2;
    try (now left); try (now right); try discriminate.
  cbn [is_prefix] in *. apply andb_true_iff in H1, H2.
  destruct H1 as [E1 H1], H2 as [E2 H2].
  apply String.eqb_eq in E1, E2. subst x y. rewrite String.eqb_refl.
  exact (IH _ _ H1 H2).
Qed.

(** What is apart from a place is apart from every place below it. *)
Lemma apart_below (D P q : list string) :
  is_prefix D P = true -> apart D q = true -> apart P q = true.
Proof.
  unfold apart. intros U A. apply andb_true_iff in A. destruct A as [A1 A2].
  apply negb_true_iff in A1, A2. apply andb_true_iff. split; apply negb_true_iff.
  - destruct (is_prefix P q) eqn:E; [|reflexivity].
    now rewrite (is_prefix_trans _ _ _ U E) in A1.
  - destruct (is_prefix q P) eqn:E; [|reflexivity].
    destruct (is_prefix_comparable _ _ _ E U) as [C|C]; congruence.
Qed.

Lemma assoc_del_other (k k' : string) (es : list (string * node)) :
  k' <> k -> assoc k' (del k es) = assoc k' es.
Proof.
  intros N. induction es as [|[k0 v0] es IH]; [reflexivity|]. cbn [del].
  destruct (String.eqb k k0) eqn:E.
  - apply String.eqb_eq in E. subst k0. cbn [assoc].
    apply String.eqb_neq in N. now rewrite N.
  - cbn [assoc]. now rewrite IH.
Qed.

(** Storing or deleting at one place changes nothing apart from it. *)
Lemma store_apart (P : list string) (v : option node) :
  forall (q : list string) (d d' : node),
    store P v d = Some d' -> apart P q = true -> lookup q d' = lookup q d.
Proof.
  induction P as [|k r IH]; intros q d d' St A; [discriminate St|].
  destruct d as [data|es]; [discriminate St|].
  destruct q as [|k' q']; [discriminate A|].
  unfold apart in A. cbn [is_prefix] in A.
  destruct (String.eqb k k') eqn:E.
  - apply String.eqb_eq in E. subst k'. rewrite String.eqb_refl in A. cbn [andb] in A.
    destruct r as [|k1 r1]; [discriminate A|].
    rewrite store_deeper in St.
    destruct (assoc k es) as [c|] eqn:As; [|discriminate St].
    destruct (store (k1 :: r1) v c) as [c'|] eqn:St'; [|discriminate St].
    injection St as <-. cbn [lookup]. rewrite assoc_put_same, As.
    now apply (IH q' c c').
  - assert (N : k' <> k) by (intros ->; now rewrite String.eqb_refl in E).
    destruct r as [|k1 r1].
    + cbn [store] in St. injection St as <-. cbn [lookup].
      destruct v; [now rewrite (RenameFacts.assoc_put_other k k' _ es N)
                  | now rewrite (assoc_del_other k k' es N)].
    + rewrite store_deeper in St.
      destruct (assoc k es) as [c|]; [|discriminate St].
      destruct (store (k1 :: r1) v c) as [c'|]; [|discriminate St].
      injection St as <-. cbn [lookup].
      now rewrite (RenameFacts.assoc_put_other k k' _ es N).
Qed.

(** Soundness, entry by entry. *)
Lemma sound_Dir (es : list (string * node)) :
  sound (Dir es) = true <->
  Forall (fun kc => plain (fst kc) = true /\ sound (snd kc) = true) es.
Proof.
  induction es as [|[k c] es IH].
  - split; [constructor | reflexivity].
  - change (sound (Dir ((k, c) :: es))) with (plain k && sound c && sound (Dir es)).
    split.
    + intros H. apply andb_true_iff in H. destruct H as [H T].
      apply andb_true_iff in H. destruct H as [Pk Sc].
      constructor; [now split | now apply IH].
    + intros H. inversion H as [|? ? [Pk Sc] T]; subst. cbn [fst snd] in *.
      rewrite Pk, Sc. now apply IH.
Qed.

Lemma sound_assoc (k : string) (es : list (string * node)) (c : node) :
  sound (Dir es) = true -> assoc k es = Some c -> sound c = true.
Proof.
  intros S. apply sound_Dir in S. induction S as [|[k0 c0] es [_ Sc] _ IH]; [discriminate|].
  cbn [assoc]. destruct (String.eqb k k0); [now intros [= <-] | exact IH].
Qed.

Lemma sound_lookup (p : list string) :
  forall (d n : node), sound d = true -> lookup p d = Some n -> sound n = true.
Proof.
  induction p as [|s p IH]; intros d n S L; [now injection L as <-|].
  destruct d as [data|es]; [discriminate L|]. cbn [lookup] in L.
  destruct (assoc s es) as [c|] eqn:A; [|discriminate L].
  exact (IH c n (sound_assoc _ _ _ S A) L).
Qed.

Lemma sound_names (es : list (string * node)) :
  sound (Dir es) = true -> Forall (fun k => plain k = true) (map fst es).
Proof.
  intros S. apply sound_Dir in S. induction S as [|[k c] es [Pk _] _ IH]; constructor;
    assumption.
Qed.

Lemma sound_put (k : string) (c : node) (es : list (string * node)) :
  plain k = true -> sound c = true -> sound (Dir es) = true -> sound (Dir (put k c es)) = true.
Proof.
  intros Pk Sc S. apply sound_Dir. apply sound_Dir in S.
  induction S as [|[k0 c0] es H T IH]; cbn [put].
  - now repeat constructor.
  - destruct (String.compare k k0).
    + constructor; [now split | exact T].
    + constructor; [now split | now constructor].
    + constructor; [exact H | exact IH].
Qed.

Lemma sound_del (k : string) (es : list (string * node)) :
  sound (Dir es) = true -> sound (Dir (del k es)) = true.
Proof.
  intros S. apply sound_Dir. apply sound_Dir in S.
  induction S as [|[k0 c0] es H T IH]; cbn [del]; [constructor|].
  destruct (String.eqb k k0); [exact IH | now constructor].
Qed.

(** Storing a sound entry under plain names keeps the tree sound. *)
Lemma store_sound (P : list string) (v : option node) :
  Forall (fun k => plain k = true) P ->
  (forall n, v = Some n -> sound n = true) ->
  forall (d d' : node), sound d = true -> store P v d = Some d' -> sound d' = true.
Proof.
  intros F V. induction F as [|k r Pk F IH]; intros d d' S St; [discriminate St|].
  destruct d as [data|es]; [discriminate St|].
  destruct r as [|k1 r1].
  - cbn [store] in St. injection St as <-.
    destruct v as [x|]; [apply sound_put; auto | now apply sound_del].
  - rewrite store_deeper in St.
    destruct (assoc k es) as [c|] eqn:A; [|discriminate St].
    destruct (store (k1 :: r1) v c) as [c'|] eqn:St'; [|discriminate St].
    injection St as <-. apply sound_put; [assumption | | assumption].
    exact (IH c c' (sound_assoc _ _ _ S A) St').
Qed.

End TreeFacts.

(* ------------------------------------------------------------------ *)
(** ** The directory of a resource *)
(* ------------------------------------------------------------------ *)

Module ResourceFacts.
Import PlainFacts TreeFacts.

Lemma all_chars_app (p : ascii -> bool) (a b : string) :
  all_chars p (a ++ b) = all_chars p a && all_chars p b.
Proof.
  induction a as [|c a IH]; [reflexivity|].
  cbn [append all_chars]. now rewrite IH, andb_assoc.
Qed.

Lemma alnum_not_slash (c : ascii) : is_alnum c = true -> Ascii.eqb "/" c = false.
Proof.
  intros H. destruct (Ascii.eqb "/" c) eqn:E; [|reflexivity].
  apply Ascii.eqb_eq in E. subst c. discriminate H.
Qed.

Lemma alnum_not_dot (c : ascii) : is_alnum c = true -> Ascii.eqb "." c = false.
Proof.
  intros H. destruct (Ascii.eqb "." c) eqn:E; [|reflexivity].
  apply Ascii.eqb_eq in E. subst c. discriminate H.
Qed.

(** A non-empty string of letters and digits is a plain name. *)
Lemma alnum_plain (s : string) :
  s <> "" -> all_chars is_alnum s = true -> plain s = true.
Proof.
  intros N A. unfold plain.
  assert (S : all_chars (fun c => negb (Ascii.eqb "/" c)) s = true).
  { clear N. induction s as [|c s IH]; [reflexivity|].
    cbn [all_chars] in A |- *. apply andb_true_iff in A. destruct A as [C A].
    now rewrite (alnum_not_slash c C), (IH A). }
  destruct s as [|c s]; [now elim N|].
  cbn [all_chars] in A. apply andb_true_iff in A. destruct A as [C _].
  pose proof (alnum_not_dot c C) as D.
  rewrite S. cbn [String.eqb negb andb]. rewrite Ascii.eqb_sym, D. reflexivity.
Qed.

Lemma pascal_alnum (name : string) :
  pascal_case_spec name = true -> name <> "" /\ all_chars is_alnum name = true.
Proof.
  destruct name as [|c s]; [discriminate|]. cbn [pascal_case_spec all_chars].
  intros H. apply andb_true_iff in H. destruct H as [U A].
  split; [discriminate|]. unfold is_alnum at 1. now rewrite U, orb_true_r, A.
Qed.

Lemma lower_alnum (c : ascii) : is_upper c = true -> is_alnum (lower c) = true.
Proof.
  intros U. unfold lower. rewrite U. unfold is_alnum, is_lower.
  unfold is_upper in U. apply andb_true_iff in U. destruct U as [L H].
  apply Nat.leb_le in L, H. rewrite nat_ascii_embedding by lia.
  assert (A : (97 <=? nat_of_ascii c + 32)%nat = true) by (apply Nat.leb_le; lia).
  assert (B : (nat_of_ascii c + 32 <=? 122)%nat = true) by (apply Nat.leb_le; lia).
  now rewrite A, B.
Qed.

Lemma camel_alnum (name : string) :
  pascal_case_spec name = true ->
  toCamelCase name <> "" /\ all_chars is_alnum (toCamelCase name) = true.
Proof.
  destruct name as [|c s]; [discriminate|]. cbn [pascal_case_spec toCamelCase all_chars].
  intros H. apply andb_true_iff in H. destruct H as [U A].
  split; [discriminate|]. now rewrite (lower_alnum c U), A.
Qed.

(** Where [rename] and [remove] look: below the working directory, in a
    directory whose last segment is the resource's own plain name. *)
Lemma resolveTargetDir_shape (type name : string) (config : Config) (st : Structure)
      (root : string) :
  In type REMOVE_SUPPORTED_TYPES -> pascal_case_spec name = true ->
  exists base leaf,
    plain leaf = true /\
    resolveTargetDir type name config st root = Some (Path.join [root; base; leaf]) /\
    resolveDir type name config st root = Some (Path.join [root; base; leaf]).
Proof.
  intros T V. destruct (pascal_alnum name V) as [N A].
  destruct (camel_alnum name V) as [Nc Ac].
  assert (Pn : plain name = true) by now apply alnum_plain.
  cbn [REMOVE_SUPPORTED_TYPES In] in T.
  destruct T as [<-|[<-|[<-|[<-|[<-|[<-|[<-|[]]]]]]]]; eexists; eexists;
    (split; [|split; reflexivity]); try exact Pn;
    (apply alnum_plain; [destruct name; [now elim N | try discriminate]
                        | rewrite ?all_chars_app, ?A, ?Ac; reflexivity]).
Qed.

Lemma resource_place (root base leaf : string) (w : world) :
  startsWith "/" root = true -> plain leaf = true ->
  exists l,
    at_path (Path.join [root; base; leaf]) w = (l ++ [leaf])%list /\
    startsWith "/" (Path.join [root; base; leaf]) = true.
Proof.
  intros A P. destruct (join_resource root base leaf A P) as (l & J & S).
  assert (St : startsWith "/" (Path.join [root; base; leaf]) = true)
    by (rewrite J; reflexivity).
  exists l. unfold at_path. rewrite St. split; [exact S | reflexivity].
Qed.

Lemma store_delete_succeeds (P : list string) :
  forall (d n : node),
    P <> [] -> lookup P d = Some n -> exists d', store P None d = Some d'.
Proof.
  induction P as [|k r IH]; intros d n N L; [now elim N|].
  destruct d as [data|es]; [discriminate L|]. cbn [lookup] in L.
  destruct r as [|k1 r1]; [eexists; reflexivity|].
  rewrite store_deeper. destruct (assoc k es) as [c|]; [|discriminate L].
  destruct (IH c n) as [c' ->]; [discriminate | exact L | now eexists].
Qed.

End ResourceFacts.

Section Removing.

Variable reactStructures : string -> option Structure.
Variable nextjsStructures : string -> option Structure.
Variable parseConfig : string -> option Config.

Local Abbreviation removeCmd := (removeCommand reactStructures nextjsStructures parseConfig).
Local Abbreviation structureFor := (structureOf reactStructures nextjsStructures).
Local Abbreviation holds := (configured parseConfig).

(** A confirmed [remove] of a resource that is there. *)
Lemma confirmed_remove (type name : string) (w : world) (config : Config) (st : Structure)
      (target : string) :
  startsWith "/" (cwd w) = true ->
  In type REMOVE_SUPPORTED_TYPES ->
  pascal_case_spec name = true ->
  holds w config ->
  structureFor config = Some st ->
  resolveTargetDir type name config st (cwd w) = Some target ->
  subtree target w <> None ->
  exists w',
    removeCmd type name true w = (Ret tt, w') /\
    subtree target w' = None /\
    cwd w' = cwd w /\
    (forall q, apart (at_path target w) q = true ->
               lookup q (disk w') = lookup q (disk w)).
Proof.
  intros A T V H S R E.
  destruct (ResourceFacts.resolveTargetDir_shape type name config st (cwd w) T V)
    as (base & leaf & Pl & Rt & _).
  rewrite Rt in R. injection R as <-.
  destruct (ResourceFacts.resource_place (cwd w) base leaf w A Pl) as (l & At & _).
  remember (Path.join [cwd w; base; leaf]) as target eqn:Et.
  unfold subtree in E. 
  destruct (lookup (at_path target w) (disk w)) as [n|] eqn:L; [|now elim E].
  destruct (ResourceFacts.store_delete_succeeds (at_path target w) (disk w) n) as [d' St];
    [rewrite At; now destruct l | exact L |].
  exists (World (cwd w) d'
            (console w ++ [nl ++ "  Removed " ++ type ++ " " ++ dq ++ name ++ dq ++ " from "
                           ++ Path.relative (cwd w) target ++ nl])
            (calls w ++ [CpathExists (Path.join [cwd w; ".rchitect.json"]);
                         CreadJson (Path.join [cwd w; ".rchitect.json"]);
                         CreadFile (Path.join [cwd w; ".rchitect.json"]);
                         CpathExists target; Cremove target])).
  split; [|split; [|split]].
  - unfold removeCommand. rewrite (supported_existsb _ _ T). cbn [negb].
    unfold bind at 1. rewrite (ValidateFacts.validateName_valid _ _ _ V).
    unfold bind at 1. unfold getcwd at 1. cbv iota beta.
    unfold bind at 1. rewrite (loadConfig_run parseConfig w config H). cbv iota beta zeta.
    unfold bind at 1. rewrite (getStructure_run reactStructures nextjsStructures config st _ S).
    rewrite Rt. unfold asPath. unfold bind at 1. unfold ret at 1. cbv iota beta.
    unfold bind at 1. rewrite pathExists_run. unfold subtree at 1.
    cbn [cwd disk noted]. 
    change (at_path target (noted _ (noted _ (noted _ w)))) with (at_path target w).
    cbn [disk noted]. rewrite L. cbn [negb]. cbv iota.
    unfold bind at 1. unfold Fs.remove, bind, record, locate, getdisk, put_at, setdisk, ret.
    cbn -[at_path store lookup Path.join Path.relative append].
    change (at_path target _) with (at_path target w).
    rewrite L, St. unfold log. cbn -[at_path store lookup Path.join Path.relative append].
    rewrite <- !app_assoc. reflexivity.
  - unfold subtree. cbn [cwd disk].
    change (at_path target _) with (at_path target w).
    exact (RenameFacts.lookup_store_deleted _ _ _ St).
  - reflexivity.
  - intros q Q. cbn [disk]. exact (TreeFacts.store_apart _ _ q _ _ St Q).
Qed.

(** X9.  A confirmed [remove] deletes the resource's directory and
    nothing else.  In a project whose working directory is absolute, for
    a type the command supports, a valid name, a configuration with its
    structure and a resource that exists, the command returns, nothing is
    left where the resource was, and every place apart from it (neither
    inside it nor on the way to it) holds what it held: in particular no
    barrel is edited, so an export of the removed resource stays
    behind. *)
Theorem remove_deletes_the_resource_and_nothing_else :
  forall (type name : string) (w : world) (config : Config) (st : Structure)
         (target : string),
    startsWith "/" (cwd w) = true ->
    In type REMOVE_SUPPORTED_TYPES ->
    pascal_case_spec name = true ->
    holds w config ->
    structureFor config = Some st ->
    resolveTargetDir type name config st (cwd w) = Some target ->
    subtree target w <> None ->
    exists w',
      removeCmd type name true w = (Ret tt, w') /\
      subtree target w' = None /\
      cwd w' = cwd w /\
      (forall q, apart (at_path target w) q = true ->
                 lookup q (disk w') = lookup q (disk w)).
Proof.
  intros type name w config st target A T V H S R E.
  exact (confirmed_remove type name w config st target A T V H S R E).
Qed.

End Removing.

(* ------------------------------------------------------------------ *)
(** ** Renamed entries keep plain names *)
(* ------------------------------------------------------------------ *)

Module RenamedNames.
Import PlainFacts TreeFacts ResourceFacts.

Local Abbreviation noslash := (fun c : ascii => negb (Ascii.eqb "/" c)).
Local Abbreviation isdot := (fun c : ascii => Ascii.eqb "." c).

(** A replacement by letters and digits of a non-empty source. *)
Local Abbreviation wordy p :=
  (fst p <> "" /\ snd p <> "" /\ all_chars is_alnum (snd p) = true).

Lemma alnum_noslash (s : string) :
  all_chars is_alnum s = true -> all_chars noslash s = true.
Proof.
  induction s as [|c s IH]; [reflexivity|]. cbn [all_chars]. intros H.
  apply andb_true_iff in H. destruct H as [C H].
  now rewrite (alnum_not_slash c C), (IH H).
Qed.

Lemma Subst_noslash (from to s r : string) :
  Subst from to s r ->
  all_chars noslash to = true -> all_chars noslash s = true -> all_chars noslash r = true.
Proof.
  intros H T. induction H as [|rest r H IH|c rest r M H IH]; intros S.
  - reflexivity.
  - rewrite all_chars_app in S |- *. apply andb_true_iff in S. destruct S as [_ S].
    now rewrite T, (IH S).
  - cbn [all_chars] in S |- *. apply andb_true_iff in S. destruct S as [C S].
    now rewrite C, (IH S).
Qed.

Lemma Subst_nonempty (from to s r : string) :
  Subst from to s r -> to <> "" -> s <> "" -> r <> "".
Proof.
  intros H T. destruct H as [|rest r H|c rest r M H]; intros S.
  - now elim S.
  - destruct to; [now elim T | discriminate].
  - discriminate.
Qed.

(** A result made of dots only has seen no replacement. *)
Lemma Subst_dots (from to s r : string) :
  Subst from to s r ->
  to <> "" -> all_chars is_alnum to = true ->
  all_chars isdot r = true -> r = s.
Proof.
  intros H N T. induction H as [|rest r H IH|c rest r M H IH]; intros D.
  - reflexivity.
  - destruct to as [|c to]; [now elim N|]. cbn [all_chars] in T.
    apply andb_true_iff in T. destruct T as [C _].
    cbn [append all_chars] in D. now rewrite (alnum_not_dot c C) in D.
  - cbn [all_chars] in D. apply andb_true_iff in D. destruct D as [_ D].
    now rewrite (IH D).
Qed.

Lemma replace_plain (from to s : string) :
  from <> "" -> to <> "" -> all_chars is_alnum to = true ->
  plain s = true -> plain (JS.join to (split from s)) = true.
Proof.
  intros F N T P. destruct (plain_parts s P) as (Ns & S & D1 & D2).
  pose proof (SubstFacts.replace_Subst from to s F) as H.
  remember (JS.join to (split from s)) as r eqn:Er. clear Er.
  pose proof (Subst_noslash _ _ _ _ H (alnum_noslash _ T) S) as Sr.
  pose proof (Subst_nonempty _ _ _ _ H N Ns) as Nr.
  unfold plain. rewrite Sr.
  destruct (String.eqb r "") eqn:E0; [apply String.eqb_eq in E0; now elim Nr|].
  destruct (String.eqb r ".") eqn:E1.
  { apply String.eqb_eq in E1. subst r.
    rewrite <- (Subst_dots _ _ _ _ H N T eq_refl) in D1. discriminate D1. }
  destruct (String.eqb r "..") eqn:E2; [|reflexivity].
  apply String.eqb_eq in E2. subst r.
  rewrite <- (Subst_dots _ _ _ _ H N T eq_refl) in D2. discriminate D2.
Qed.

Lemma applyReplacements_plain (pairs : list (string * string)) :
  Forall (fun p => wordy p) pairs ->
  forall s, plain s = true -> plain (applyReplacements s pairs) = true.
Proof.
  induction 1 as [|[from to] pairs (F & N & T) _ IH]; intros s P; [exact P|].
  rewrite SubstFacts.applyReplacements_cons. apply IH.
  now apply replace_plain.
Qed.

(** The pairs [rename] builds from two valid names are of that kind. *)
Lemma buildReplacementPairs_wordy (x y : string) :
  pascal_case_spec x = true -> pascal_case_spec y = true ->
  Forall (fun p => wordy p) (buildReplacementPairs x y).
Proof.
  intros Vx Vy. destruct (pascal_alnum x Vx) as [Nx Ax], (pascal_alnum y Vy) as [Ny Ay].
  destruct (camel_alnum x Vx) as [Cx _], (camel_alnum y Vy) as [Cy Acy].
  unfold buildReplacementPairs. cbv zeta. rewrite SubstFacts.filter_drop_identical.
  apply SubstFacts.drop_identical_Forall.
  repeat constructor; cbn [fst snd];
    try (rewrite ?all_chars_app, ?Ay, ?Acy; reflexivity);
    try (destruct x; [now elim Nx | discriminate]);
    try (destruct y; [now elim Ny | discriminate]);
    try discriminate; try assumption.
Qed.

End RenamedNames.

(* ------------------------------------------------------------------ *)
(** ** What a command leaves as it was *)
(* ------------------------------------------------------------------ *)

Module Kept.
Import PlainFacts TreeFacts ResourceFacts RenamedNames.

(** [kept F m]: run on a sound tree, [m] leaves a sound tree, the same
    working directory, and at every place that [F] holds of, what was
    there. *)
Local Abbreviation kept F m :=
  (forall w o w',
      sound (disk w) = true -> m w = (o, w') ->
      sound (disk w') = true /\ cwd w' = cwd w /\
      (forall q : list string, F q -> lookup q (disk w') = lookup q (disk w))).

Lemma kept_weaken {A : Type} (F F' : list string -> Prop) (m : M A) :
  (forall q, F' q -> F q) -> kept F m -> kept F' m.
Proof.
  intros I K w o w' S R. destruct (K w o w' S R) as (S' & C & L).
  repeat split; [assumption .. |]. intros q Q. apply L, I, Q.
Qed.

Lemma kept_still {A : Type} (F : list string -> Prop) (m : M A) :
  (forall w o w', m w = (o, w') -> disk w' = disk w /\ cwd w' = cwd w) -> kept F m.
Proof.
  intros Hm w o w' S R. destruct (Hm w o w' R) as [D C]. rewrite D.
  repeat split; assumption.
Qed.

Lemma kept_bind {A B : Type} (F : list string -> Prop) (m : M A) (k : A -> M B)
      (Q : A -> Prop) :
  kept F m ->
  (forall w a w', sound (disk w) = true -> m w = (Ret a, w') -> Q a) ->
  (forall a, Q a -> kept F (k a)) ->
  kept F (bind m k).
Proof.
  intros Hm HQ Hk w o w' S. unfold bind.
  destruct (m w) as [[a|c|e] w1] eqn:E.
  - intros K. destruct (Hm w _ w1 S E) as (S1 & C1 & L1).
    destruct (Hk a (HQ w a w1 S E) w1 o w' S1 K) as (S2 & C2 & L2).
    repeat split; [assumption | congruence |]. intros q Fq.
    now rewrite (L2 q Fq), (L1 q Fq).
  - intros [= <- <-]. exact (Hm w _ w1 S E).
  - intros [= <- <-]. exact (Hm w _ w1 S E).
Qed.

Lemma kept_then {A B : Type} (F : list string -> Prop) (m : M A) (k : A -> M B) :
  kept F m -> (forall a, kept F (k a)) -> kept F (bind m k).
Proof.
  intros Hm Hk. apply (kept_bind F m k (fun _ => True)); [assumption | trivial |].
  intros a _. apply Hk.
Qed.

Lemma at_path_absolute (p : string) (w : world) :
  startsWith "/" p = true -> at_path p w = Path.segments p.
Proof. intros A. unfold at_path. now rewrite A. Qed.

Lemma at_path_plain (p : string) (w : world) :
  Forall (fun k => plain k = true) (at_path p w).
Proof. unfold at_path. apply segments_plain. Qed.

Lemma still_readdir (p : string) (w w' : world) (o : outcome (list string)) :
  readdir p w = (o, w') -> disk w' = disk w /\ cwd w' = cwd w.
Proof.
  unfold readdir, bind, record, locate, getdisk, noted, throw, ret.
  cbn -[at_path lookup]. destruct (lookup _ _) as [[|]|]; now intros [= <- <-].
Qed.

Lemma still_stat (p : string) (w w' : world) (o : outcome bool) :
  statIsDirectory p w = (o, w') -> disk w' = disk w /\ cwd w' = cwd w.
Proof.
  unfold statIsDirectory, bind, record, locate, getdisk, noted, throw, ret.
  cbn -[at_path lookup]. destruct (lookup _ _) as [[|]|]; now intros [= <- <-].
Qed.

Lemma readdir_plain (p : string) (w w' : world) (entries : list string) :
  sound (disk w) = true -> readdir p w = (Ret entries, w') ->
  Forall (fun k => plain k = true) entries.
Proof.
  intros S. unfold readdir, bind, record, locate, getdisk, noted, throw, ret.
  cbn -[at_path lookup].
  destruct (lookup _ _) as [[|es]|] eqn:L; try discriminate.
  intros [= <- _]. apply sound_names. exact (sound_lookup _ _ _ S L).
Qed.

Lemma kept_writeFile (p data : string) :
  startsWith "/" p = true ->
  kept (fun q => apart (Path.segments p) q = true) (writeFile p data).
Proof.
  intros A w o w' S R.
  destruct (FsFacts.writeFile_cases p data w) as [(d' & St & E)|(e & E)];
    rewrite E in R; injection R as <- <-; cbn [disk cwd noted].
  - rewrite (at_path_absolute p w A) in St. repeat split.
    + apply (store_sound _ (Some (File data)) (segments_plain p)) with (d := disk w);
        try assumption.
      now intros n [= <-].
    + intros q Q. exact (store_apart _ _ q _ _ St Q).
  - now repeat split.
Qed.

(** How a rename can end. *)
Lemma rename_cases (src dst : string) (w w' : world) (o : outcome unit) :
  Fs.rename src dst w = (o, w') ->
  cwd w' = cwd w /\
  (disk w' = disk w \/
   exists n d1,
     lookup (at_path src w) (disk w) = Some n /\
     store (at_path src w) None (disk w) = Some d1 /\
     store (at_path dst w) (Some n) d1 = Some (disk w')).
Proof.
  unfold Fs.rename, bind, record, locate, getdisk, noted, parentDir, put_at, setdisk,
    throw, ret.
  cbn -[at_path store lookup is_prefix].
  change (at_path src {| cwd := cwd w; disk := disk w; console := console w;
                         calls := calls w ++ [Crename src dst] |}) with (at_path src w).
  change (at_path dst {| cwd := cwd w; disk := disk w; console := console w;
                         calls := calls w ++ [Crename src dst] |}) with (at_path dst w).
  destruct (lookup (at_path src w) (disk w)) as [n|] eqn:Ls;
    [|intros [= <- <-]; split; [reflexivity | now left]].
  destruct (is_prefix (at_path src w) (at_path dst w) && is_prefix (at_path dst w) (at_path src w));
    [intros [= <- <-]; split; [reflexivity | now left]|].
  destruct (is_prefix (at_path src w) (at_path dst w));
    [intros [= <- <-]; split; [reflexivity | now left]|].
  destruct (lookup (removelast (at_path dst w)) (disk w)) as [[|]|];
    try (intros [= <- <-]; split; [reflexivity | now left]).
  cbn -[at_path lookup store].
  destruct (store (at_path src w) None (disk w)) as [d1|] eqn:S1.
  - destruct (lookup (at_path dst w) (disk w)) as [[|[|]]|], n;
      try (intros [= <- <-]; split; [reflexivity | now left]);
      (destruct (store (at_path dst w) (Some _) d1) as [d2|] eqn:St;
       [|intros [= <- <-]; split; [reflexivity | now left]]);
      intros [= <- <-]; (split; [reflexivity|]); right; eexists; exists d1;
      (split; [reflexivity|]); (split; [reflexivity|]); exact St.
  - destruct (lookup (at_path dst w) (disk w)) as [[|[|]]|], n;
      intros [= <- <-]; split; try reflexivity; now left.
Qed.

Lemma kept_rename (src dst : string) :
  startsWith "/" src = true -> startsWith "/" dst = true ->
  kept (fun q => apart (Path.segments src) q = true /\ apart (Path.segments dst) q = true)
       (Fs.rename src dst).
Proof.
  intros As Ad w o w' S R.
  destruct (rename_cases src dst w w' o R) as [C [D|(n & d1 & L & S1 & S2)]].
  - rewrite D. now repeat split.
  - rewrite (at_path_absolute src w As) in L, S1. rewrite (at_path_absolute dst w Ad) in S2.
    assert (Sd1 : sound d1 = true).
    { apply (store_sound _ None (segments_plain src)) with (d := disk w); try assumption.
      discriminate. }
    repeat split; [| assumption |].
    + apply (store_sound _ (Some n) (segments_plain dst)) with (d := d1); try assumption.
      intros x [= <-]. exact (sound_lookup _ _ _ S L).
    + intros q [Q1 Q2].
      now rewrite (store_apart _ _ q _ _ S2 Q2), (store_apart _ _ q _ _ S1 Q1).
Qed.

End Kept.

Module WalkFacts.
Import PlainFacts TreeFacts ResourceFacts RenamedNames Kept.

Local Abbreviation kept F m :=
  (forall w o w',
      sound (disk w) = true -> m w = (o, w') ->
      sound (disk w') = true /\ cwd w' = cwd w /\
      (forall q : list string, F q -> lookup q (disk w') = lookup q (disk w))).

Section Walk.

Variable pairs : list (string * string).
Hypothesis wordy_pairs :
  Forall (fun p => fst p <> "" /\ snd p <> "" /\ all_chars is_alnum (snd p) = true) pairs.

(** Renaming an entry of [dir] stays below [dir]. *)
Lemma kept_entry_rename (dir entry : string) :
  startsWith "/" dir = true -> plain entry = true ->
  kept (fun q => apart (Path.segments dir) q = true)
       (Fs.rename (Path.join [dir; entry])
                  (Path.join [dir; applyReplacements entry pairs])).
Proof.
  intros A P.
  pose proof (applyReplacements_plain pairs wordy_pairs entry P) as P'.
  destruct (segments_join_leaf dir entry A P) as [Se Ae].
  destruct (segments_join_leaf dir _ A P') as [Sn An].
  refine (kept_weaken _ _ _ _ (kept_rename _ _ Ae An)).
  intros q Q. cbv beta. rewrite Se, Sn.
  split; apply (apart_below (Path.segments dir)); try assumption; apply is_prefix_app.
Qed.

(** The walk through a directory changes nothing apart from it. *)
Lemma kept_walk (fuel : nat) :
  forall dir,
    startsWith "/" dir = true ->
    kept (fun q => apart (Path.segments dir) q = true) (applyRenameRecursive fuel dir pairs).
Proof.
  induction fuel as [|fuel IH]; intros dir A; cbn [applyRenameRecursive].
  - apply kept_still. apply Calm.calm_throw.
  - apply (kept_bind _ _ _ (fun entries => Forall (fun k => plain k = true) entries)).
    + apply kept_still. intros w o w'. apply still_readdir.
    + intros w entries w' S R. exact (readdir_plain dir w w' entries S R).
    + intros entries Pe. induction Pe as [|entry rest P _ IHrest].
      * apply kept_still. apply Calm.calm_ret.
      * destruct (segments_join_leaf dir entry A P) as [Se Ae].
        apply kept_then; [apply kept_still; intros w o w'; apply still_stat|].
        intros isDirectory. apply kept_then; [|intros _; exact IHrest].
        destruct isDirectory.
        -- apply kept_then.
           ++ refine (kept_weaken _ _ _ _ (IH _ Ae)).
              intros q Q. cbv beta. rewrite Se.
              apply (apart_below (Path.segments dir)); [apply is_prefix_app | exact Q].
           ++ intros _. destruct (negb _);
                [now apply kept_entry_rename | apply kept_still, Calm.calm_ret].
        -- apply kept_then.
           ++ destruct (existsb _ _); [|apply kept_still, Calm.calm_ret].
              apply kept_then; [apply kept_still, Calm.calm_readFile|].
              intros content. destruct (negb _); [|apply kept_still, Calm.calm_ret].
              refine (kept_weaken _ _ _ _ (kept_writeFile _ _ Ae)).
              intros q Q. cbv beta. rewrite Se.
              apply (apart_below (Path.segments dir)); [apply is_prefix_app | exact Q].
           ++ intros _. destruct (negb _);
                [now apply kept_entry_rename | apply kept_still, Calm.calm_ret].
Qed.

End Walk.

Lemma dirname_absolute (p : string) :
  startsWith "/" p = true -> startsWith "/" (Path.dirname p) = true.
Proof. intros A. unfold Path.dirname. now rewrite A. Qed.

Lemma barrel_absolute (parentDir : string) (config : Config) :
  startsWith "/" parentDir = true ->
  startsWith "/" (Path.join [parentDir; "index." ++ scriptExt (getExtensions config)]) = true.
Proof.
  intros A. apply segments_join_leaf; [exact A|].
  unfold getExtensions. cbn [scriptExt].
  destruct (String.eqb (language config) "typescript"); reflexivity.
Qed.

(** The patch of the parent barrel writes the barrel and nothing else. *)
Lemma kept_patch (parentDir oldBasename newBasename : string) (config : Config)
      (root : string) :
  startsWith "/" parentDir = true ->
  kept (fun q =>
          apart (Path.segments
                   (Path.join [parentDir; "index." ++ scriptExt (getExtensions config)])) q
          = true)
       (updateBarrelForRename parentDir oldBasename newBasename config root).
Proof.
  intros A. pose proof (barrel_absolute parentDir config A) as Ab.
  unfold updateBarrelForRename. cbv zeta.
  remember (Path.join [parentDir; "index." ++ scriptExt (getExtensions config)]) as bp eqn:Ebp.
  apply kept_then; [apply kept_still, Calm.calm_pathExists|]. intros present.
  destruct (negb present); [apply kept_still, Calm.calm_ret|].
  apply kept_then; [apply kept_still, Calm.calm_readFile|]. intros content.
  destruct (negb _); [|apply kept_still, Calm.calm_ret].
  apply kept_then; [now apply kept_writeFile|]. intros _.
  apply kept_still, Calm.calm_log.
Qed.

End WalkFacts.

Section RenameFrame.

Variable reactStructures : string -> option Structure.
Variable nextjsStructures : string -> option Structure.
Variable parseConfig : string -> option Config.

Local Abbreviation renameCmd := (renameCommand reactStructures nextjsStructures parseConfig).
Local Abbreviation structureFor := (structureOf reactStructures nextjsStructures).
Local Abbreviation holds := (configured parseConfig).
Local Abbreviation kept F m :=
  (forall w o w',
      sound (disk w) = true -> m w = (o, w') ->
      sound (disk w') = true /\ cwd w' = cwd w /\
      (forall q : list string, F q -> lookup q (disk w') = lookup q (disk w))).

(** X10.  [rename] touches the resource and the barrel beside it, and
    nothing else.  In a project with an absolute working directory and a
    tree of plain entry names, with a configuration and its structure in
    place, however the command ends (it returns, exits or throws half
    way through), every place apart from the old directory, the new
    directory and the index file of their parent holds what it held
    before, the working directory is the same, and the entry names are
    still plain. *)
Theorem rename_touches_only_the_resource_and_its_barrel :
  forall (type x y : string) (w w' : world) (o : outcome unit) (config : Config)
         (st : Structure) (source target : string),
    startsWith "/" (cwd w) = true ->
    sound (disk w) = true ->
    holds w config ->
    structureFor config = Some st ->
    resolveDir type x config st (cwd w) = Some source ->
    resolveDir type y config st (cwd w) = Some target ->
    renameCmd type x y w = (o, w') ->
    let barrel :=
      Path.join [Path.dirname target; "index." ++ scriptExt (getExtensions config)] in
    sound (disk w') = true /\
    cwd w' = cwd w /\
    forall q,
      apart (at_path source w) q = true ->
      apart (at_path target w) q = true ->
      apart (at_path barrel w) q = true ->
      lookup q (disk w') = lookup q (disk w).
Proof.
  intros type x y w w' o config st source target A S H St Rx Ry R barrel.
  assert (Still : forall w1, disk w1 = disk w -> cwd w1 = cwd w ->
                    sound (disk w1) = true /\ cwd w1 = cwd w /\
                    forall q,
                      apart (at_path source w) q = true ->
                      apart (at_path target w) q = true ->
                      apart (at_path barrel w) q = true ->
                      lookup q (disk w1) = lookup q (disk w)).
  { intros w1 D C. rewrite D. now repeat split. }
  unfold renameCommand in R.
  destruct (existsb (String.eqb type) RENAME_SUPPORTED_TYPES) eqn:T; cbn [negb] in R.
  2:{ destruct (Calm.calm_unknownType _ _ _ _ _ R). now apply Still. }
  apply existsb_exists in T. destruct T as (t & T & Et). apply String.eqb_eq in Et. subst t.
  unfold bind at 1 in R.
  destruct (validateName_cases x type w) as [Vx|(w1 & Vx & D & C & _)]; rewrite Vx in R.
  2:{ injection R as <- <-. now apply Still. }
  apply validateName_returns in Vx. destruct Vx as [_ Vx].
  unfold bind at 1 in R.
  destruct (validateName_cases y type w) as [Vy|(w1 & Vy & D & C & _)]; rewrite Vy in R.
  2:{ injection R as <- <-. now apply Still. }
  apply validateName_returns in Vy. destruct Vy as [_ Vy].
  unfold bind at 1 in R. unfold getcwd at 1 in R. cbv iota beta in R.
  unfold bind at 1 in R. rewrite (loadConfig_run parseConfig w config H) in R.
  cbv iota beta zeta in R.
  unfold bind at 1 in R.
  rewrite (getStructure_run reactStructures nextjsStructures config st _ St) in R.
  rewrite Rx, Ry in R. unfold asPath in R. unfold bind at 1 2 in R. unfold ret at 1 2 in R.
  cbv iota beta in R.
  (* The two directories are absolute. *)
  destruct (ResourceFacts.resolveTargetDir_shape type x config st (cwd w) T Vx)
    as (bx & lx & Plx & _ & Ex).
  destruct (ResourceFacts.resolveTargetDir_shape type y config st (cwd w) T Vy)
    as (by_ & ly & Ply & _ & Ey).
  rewrite Rx in Ex. rewrite Ry in Ey. injection Ex as Ex. injection Ey as Ey.
  destruct (ResourceFacts.resource_place (cwd w) bx lx w A Plx) as (_ & _ & As).
  destruct (ResourceFacts.resource_place (cwd w) by_ ly w A Ply) as (_ & _ & At).
  rewrite <- Ex in As. rewrite <- Ey in At.
  pose proof (WalkFacts.barrel_absolute _ config (WalkFacts.dirname_absolute _ At)) as Ab.
  fold barrel in Ab.
  rewrite (Kept.at_path_absolute source w As), (Kept.at_path_absolute target w At),
    (Kept.at_path_absolute barrel w Ab).
  pose proof (RenamedNames.buildReplacementPairs_wordy x y Vx Vy) as Wp.
  match type of R with ?tail ?v = _ =>
    assert (K : kept (fun q => apart (Path.segments source) q = true /\
                               apart (Path.segments target) q = true /\
                               apart (Path.segments barrel) q = true) tail)
  end.
  { apply Kept.kept_then; [apply Kept.kept_still, Calm.calm_pathExists|]. intros oldThere.
    destruct (negb oldThere).
    { apply Kept.kept_still, Calm.calm_bind; [apply Calm.calm_log|].
      intros _. apply Calm.calm_exit. }
    apply Kept.kept_then; [apply Kept.kept_still, Calm.calm_pathExists|]. intros newThere.
    destruct newThere.
    { apply Kept.kept_still, Calm.calm_bind; [apply Calm.calm_log|].
      intros _. apply Calm.calm_exit. }
    apply Kept.kept_then.
    { apply Kept.kept_still. now intros w0 o0 w0' [= <- <-]. }
    intros d. apply Kept.kept_then.
    { refine (Kept.kept_weaken _ _ _ _ (WalkFacts.kept_walk _ Wp _ _ As)).
      now intros q (Q & _ & _). }
    intros _. apply Kept.kept_then.
    { refine (Kept.kept_weaken _ _ _ _ (Kept.kept_rename _ _ As At)).
      now intros q (Q1 & Q2 & _). }
    intros _. apply Kept.kept_then; [apply Kept.kept_still, Calm.calm_log|].
    intros _. apply Kept.kept_then; [|intros _; apply Kept.kept_still, Calm.calm_log].
    destruct (negb _); [|apply Kept.kept_still, Calm.calm_ret].
    refine (Kept.kept_weaken _ _ _ _
              (WalkFacts.kept_patch _ _ _ config _ (WalkFacts.dirname_absolute _ At))).
    now intros q (_ & _ & Q). }
  destruct ((fun s => K _ _ _ s R) S) as (S' & C' & L').
  repeat split; [exact S' | exact C' |].
  intros q Q1 Q2 Q3. exact (L' q (conj Q1 (conj Q2 Q3))).
Qed.

End RenameFrame.

(* ------------------------------------------------------------------ *)
(** ** The further properties on the sample projects *)
(* ------------------------------------------------------------------ *)

Lemma remove_changes_disk_only_when_confirmed_witness :
  (removeCommand Fixture.reactStructures Fixture.nextjsStructures Fixture.decode
     "hook" "Auth" false Fixture.hookProject
   = (Ret tt, snd (removeCommand Fixture.reactStructures Fixture.nextjsStructures
                     Fixture.decode "hook" "Auth" false Fixture.hookProject))
   /\ (false = false \/ Ret tt <> @Ret unit tt))
  /\ disk (snd (removeCommand Fixture.reactStructures Fixture.nextjsStructures
                  Fixture.decode "hook" "Auth" false Fixture.hookProject))
     = disk Fixture.hookProject
  /\ cwd (snd (removeCommand Fixture.reactStructures Fixture.nextjsStructures
                 Fixture.decode "hook" "Auth" false Fixture.hookProject))
     = cwd Fixture.hookProject.
Proof.
  assert (R : removeCommand Fixture.reactStructures Fixture.nextjsStructures Fixture.decode
                "hook" "Auth" false Fixture.hookProject
              = (Ret tt, snd (removeCommand Fixture.reactStructures Fixture.nextjsStructures
                                Fixture.decode "hook" "Auth" false Fixture.hookProject)))
    by (vm_compute; reflexivity).
  assert (C : false = false \/ Ret tt <> @Ret unit tt) by (left; reflexivity).
  split; [exact (conj R C)|].
  exact (remove_changes_disk_only_when_confirmed
           Fixture.reactStructures Fixture.nextjsStructures Fixture.decode
           "hook" "Auth" false Fixture.hookProject _ (Ret tt) R C).
Defined.

Lemma rename_refuses_missing_source_and_taken_target_witness :
  (configured Fixture.decode Fixture.hookProject Fixture.baseConfig
   /\ structureOf Fixture.reactStructures Fixture.nextjsStructures Fixture.baseConfig
      = Some Fixture.reactFeatureBased
   /\ resolveDir "hook" "Payment" Fixture.baseConfig Fixture.reactFeatureBased
        (cwd Fixture.hookProject) = Some "/proj/src/hooks/usePayment"
   /\ resolveDir "hook" "Cart" Fixture.baseConfig Fixture.reactFeatureBased
        (cwd Fixture.hookProject) = Some "/proj/src/hooks/useCart"
   /\ (subtree "/proj/src/hooks/usePayment" Fixture.hookProject = None
       \/ subtree "/proj/src/hooks/useCart" Fixture.hookProject <> None))
  /\ exists w',
       renameCommand Fixture.reactStructures Fixture.nextjsStructures Fixture.decode
         "hook" "Payment" "Cart" Fixture.hookProject = (Exit 1, w')
       /\ disk w' = disk Fixture.hookProject /\ cwd w' = cwd Fixture.hookProject.
Proof.
  assert (H : configured Fixture.decode Fixture.hookProject Fixture.baseConfig)
    by (exists (Fixture.encode Fixture.baseConfig); split; vm_compute; reflexivity).
  assert (S : structureOf Fixture.reactStructures Fixture.nextjsStructures Fixture.baseConfig
              = Some Fixture.reactFeatureBased) by reflexivity.
  assert (Rx : resolveDir "hook" "Payment" Fixture.baseConfig Fixture.reactFeatureBased
                 (cwd Fixture.hookProject) = Some "/proj/src/hooks/usePayment")
    by (vm_compute; reflexivity).
  assert (Ry : resolveDir "hook" "Cart" Fixture.baseConfig Fixture.reactFeatureBased
                 (cwd Fixture.hookProject) = Some "/proj/src/hooks/useCart")
    by (vm_compute; reflexivity).
  assert (C : subtree "/proj/src/hooks/usePayment" Fixture.hookProject = None
              \/ subtree "/proj/src/hooks/useCart" Fixture.hookProject <> None)
    by (left; vm_compute; reflexivity).
  split; [exact (conj H (conj S (conj Rx (conj Ry C))))|].
  exact (rename_refuses_missing_source_and_taken_target
           Fixture.reactStructures Fixture.nextjsStructures Fixture.decode
           "hook" "Payment" "Cart" Fixture.hookProject Fixture.baseConfig
           Fixture.reactFeatureBased _ _ H S Rx Ry C).
Defined.

Lemma missing_configuration_stops_commands_and_handlers_witness :
  subtree (Path.join [cwd (World "/proj" (Dir []) [] []); ".rchitect.json"])
    (World "/proj" (Dir []) [] []) = None
  /\ handleGetProjectConfig Fixture.decode "/proj" (World "/proj" (Dir []) [] [])
     = (Ret (Reply.Error notFoundMessage),
        World "/proj" (Dir []) [] [CpathExists "/proj/.rchitect.json"])
  /\ fst (addCommand Fixture.reactStructures Fixture.nextjsStructures Fixture.decode
            "hook" "Auth" "" (World "/proj" (Dir []) [] [])) = Exit 1.
Proof.
  assert (N : subtree (Path.join [cwd (World "/proj" (Dir []) [] []); ".rchitect.json"])
                (World "/proj" (Dir []) [] []) = None) by (vm_compute; reflexivity).
  split; [exact N|].
  destruct (missing_configuration_stops_commands_and_handlers
              Fixture.reactStructures Fixture.nextjsStructures Fixture.decode
              "hook" "Auth" "" "Auth" "Cart" true None (World "/proj" (Dir []) [] []) N)
    as (Add & _ & _ & Cfg & _ & _).
  split.
  - etransitivity; [exact Cfg | vm_compute; reflexivity].
  - rewrite Add; [reflexivity|]. right; left; reflexivity.
Defined.

Lemma unusable_configuration_stops_commands_witness :
  (In "hook" RENAME_SUPPORTED_TYPES
   /\ pascal_case_spec "Auth" = true /\ pascal_case_spec "Auth" = true
   /\ pascal_case_spec "Cart" = true)
  /\ fst (addCommand Fixture.reactStructures Fixture.nextjsStructures Fixture.decode
            "hook" "Auth" "" (Fixture.project Fixture.strangeConfig [])) = Exit 1
  /\ fst (renameCommand Fixture.reactStructures Fixture.nextjsStructures Fixture.decode
            "hook" "Auth" "Cart" (Fixture.project Fixture.strangeConfig [])) = Exit 1
  /\ fst (removeCommand Fixture.reactStructures Fixture.nextjsStructures Fixture.decode
            "hook" "Auth" true (Fixture.project Fixture.strangeConfig [])) = Exit 1.
Proof.
  assert (T : In "hook" RENAME_SUPPORTED_TYPES) by (right; left; reflexivity).
  split; [exact (conj T (conj eq_refl (conj eq_refl eq_refl)))|].
  destruct (unusable_configuration_stops_commands
              Fixture.reactStructures Fixture.nextjsStructures Fixture.decode
              "hook" "Auth" "" "Auth" "Cart" true (Fixture.project Fixture.strangeConfig [])
              T eq_refl eq_refl eq_refl) as [Unknown _].
  assert (H : configured Fixture.decode (Fixture.project Fixture.strangeConfig [])
                Fixture.strangeConfig)
    by (exists (Fixture.encode Fixture.strangeConfig); split; vm_compute; reflexivity).
  destruct (Unknown Fixture.strangeConfig H eq_refl) as (A & R & M).
  rewrite A, R, M. exact (conj eq_refl (conj eq_refl eq_refl)).
Defined.

Lemma add_refuses_existing_directory_witness :
  (configured Fixture.decode Fixture.hookProject Fixture.baseConfig
   /\ structureOf Fixture.reactStructures Fixture.nextjsStructures Fixture.baseConfig
      = Some Fixture.reactFeatureBased
   /\ "hook" <> "type"
   /\ addTarget "hook" "Auth" Fixture.baseConfig Fixture.reactFeatureBased
        (cwd Fixture.hookProject) ""
      = Some (hookTarget "Auth" Fixture.baseConfig Fixture.reactFeatureBased "/proj")
   /\ subtree (dir (hookTarget "Auth" Fixture.baseConfig Fixture.reactFeatureBased "/proj"))
        Fixture.hookProject <> None)
  /\ exists w',
       addCommand Fixture.reactStructures Fixture.nextjsStructures Fixture.decode
         "hook" "Auth" "" Fixture.hookProject = (Exit 1, w')
       /\ disk w' = disk Fixture.hookProject /\ cwd w' = cwd Fixture.hookProject.
Proof.
  assert (H : configured Fixture.decode Fixture.hookProject Fixture.baseConfig)
    by (exists (Fixture.encode Fixture.baseConfig); split; vm_compute; reflexivity).
  assert (S : structureOf Fixture.reactStructures Fixture.nextjsStructures Fixture.baseConfig
              = Some Fixture.reactFeatureBased) by reflexivity.
  assert (N : "hook" <> "type") by discriminate.
  assert (T : addTarget "hook" "Auth" Fixture.baseConfig Fixture.reactFeatureBased
                (cwd Fixture.hookProject) ""
              = Some (hookTarget "Auth" Fixture.baseConfig Fixture.reactFeatureBased "/proj"))
    by reflexivity.
  assert (E : subtree
                (dir (hookTarget "Auth" Fixture.baseConfig Fixture.reactFeatureBased "/proj"))
                Fixture.hookProject <> None)
    by (vm_compute; discriminate).
  split; [exact (conj H (conj S (conj N (conj T E))))|].
  exact (add_refuses_existing_directory
           Fixture.reactStructures Fixture.nextjsStructures Fixture.decode
           "hook" "Auth" "" Fixture.hookProject Fixture.baseConfig Fixture.reactFeatureBased
           _ H S N T E).
Defined.

Lemma remove_deletes_the_resource_and_nothing_else_witness :
  (startsWith "/" (cwd Fixture.hookProject) = true
   /\ In "hook" REMOVE_SUPPORTED_TYPES
   /\ pascal_case_spec "Auth" = true
   /\ configured Fixture.decode Fixture.hookProject Fixture.baseConfig
   /\ structureOf Fixture.reactStructures Fixture.nextjsStructures Fixture.baseConfig
      = Some Fixture.reactFeatureBased
   /\ resolveTargetDir "hook" "Auth" Fixture.baseConfig Fixture.reactFeatureBased
        (cwd Fixture.hookProject) = Some "/proj/src/hooks/useAuth"
   /\ subtree "/proj/src/hooks/useAuth" Fixture.hookProject <> None)
  /\ exists w',
       removeCommand Fixture.reactStructures Fixture.nextjsStructures Fixture.decode
         "hook" "Auth" true Fixture.hookProject = (Ret tt, w')
       /\ subtree "/proj/src/hooks/useAuth" w' = None
       /\ peek "/proj/src/hooks/index.ts" w'
          = Some ("export { default as useAuth } from './useAuth';" ++ nl).
Proof.
  assert (T : In "hook" REMOVE_SUPPORTED_TYPES) by (right; left; reflexivity).
  assert (H : configured Fixture.decode Fixture.hookProject Fixture.baseConfig)
    by (exists (Fixture.encode Fixture.baseConfig); split; vm_compute; reflexivity).
  assert (S : structureOf Fixture.reactStructures Fixture.nextjsStructures Fixture.baseConfig
              = Some Fixture.reactFeatureBased) by reflexivity.
  assert (R : resolveTargetDir "hook" "Auth" Fixture.baseConfig Fixture.reactFeatureBased
                (cwd Fixture.hookProject) = Some "/proj/src/hooks/useAuth")
    by (vm_compute; reflexivity).
  assert (E : subtree "/proj/src/hooks/useAuth" Fixture.hookProject <> None)
    by (vm_compute; discriminate).
  split; [exact (conj eq_refl (conj T (conj eq_refl (conj H (conj S (conj R E))))))|].
  destruct (remove_deletes_the_resource_and_nothing_else
              Fixture.reactStructures Fixture.nextjsStructures Fixture.decode
              "hook" "Auth" Fixture.hookProject Fixture.baseConfig Fixture.reactFeatureBased
              "/proj/src/hooks/useAuth" eq_refl T eq_refl H S R E)
    as (w' & Run & Gone & C & Rest).
  exists w'. split; [exact Run|]. split; [exact Gone|].
  unfold peek, subtree, at_path. rewrite C.
  change (Path.segments
            (if startsWith "/" "/proj/src/hooks/index.ts" then "/proj/src/hooks/index.ts"
             else cwd Fixture.hookProject ++ "/" ++ "/proj/src/hooks/index.ts"))
    with ["proj"; "src"; "hooks"; "index.ts"].
  rewrite (Rest ["proj"; "src"; "hooks"; "index.ts"]); [|vm_compute; reflexivity].
  vm_compute. reflexivity.
Defined.

Lemma rename_touches_only_the_resource_and_its_barrel_witness :
  (startsWith "/" (cwd Fixture.hookProject) = true
   /\ sound (disk Fixture.hookProject) = true
   /\ configured Fixture.decode Fixture.hookProject Fixture.baseConfig
   /\ structureOf Fixture.reactStructures Fixture.nextjsStructures Fixture.baseConfig
      = Some Fixture.reactFeatureBased
   /\ resolveDir "hook" "Auth" Fixture.baseConfig Fixture.reactFeatureBased
        (cwd Fixture.hookProject) = Some "/proj/src/hooks/useAuth"
   /\ resolveDir "hook" "Payment" Fixture.baseConfig Fixture.reactFeatureBased
        (cwd Fixture.hookProject) = Some "/proj/src/hooks/usePayment"
   /\ renameCommand Fixture.reactStructures Fixture.nextjsStructures Fixture.decode
        "hook" "Auth" "Payment" Fixture.hookProject
      = (Ret tt, Fixture.renamed "hook" "Auth" "Payment" Fixture.hookProject))
  /\ sound (disk (Fixture.renamed "hook" "Auth" "Payment" Fixture.hookProject)) = true
  /\ lookup ["proj"; ".rchitect.json"]
       (disk (Fixture.renamed "hook" "Auth" "Payment" Fixture.hookProject))
     = lookup ["proj"; ".rchitect.json"] (disk Fixture.hookProject).
Proof.
  assert (Sd : sound (disk Fixture.hookProject) = true) by (vm_compute; reflexivity).
  assert (H : configured Fixture.decode Fixture.hookProject Fixture.baseConfig)
    by (exists (Fixture.encode Fixture.baseConfig); split; vm_compute; reflexivity).
  assert (S : structureOf Fixture.reactStructures Fixture.nextjsStructures Fixture.baseConfig
              = Some Fixture.reactFeatureBased) by reflexivity.
  assert (Rx : resolveDir "hook" "Auth" Fixture.baseConfig Fixture.reactFeatureBased
                 (cwd Fixture.hookProject) = Some "/proj/src/hooks/useAuth")
    by (vm_compute; reflexivity).
  assert (Ry : resolveDir "hook" "Payment" Fixture.baseConfig Fixture.reactFeatureBased
                 (cwd Fixture.hookProject) = Some "/proj/src/hooks/usePayment")
    by (vm_compute; reflexivity).
  assert (E : renameCommand Fixture.reactStructures Fixture.nextjsStructures Fixture.decode
                "hook" "Auth" "Payment" Fixture.hookProject
              = (Ret tt, Fixture.renamed "hook" "Auth" "Payment" Fixture.hookProject))
    by (vm_compute; reflexivity).
  split; [exact (conj eq_refl (conj Sd (conj H (conj S (conj Rx (conj Ry E))))))|].
  destruct (rename_touches_only_the_resource_and_its_barrel
              Fixture.reactStructures Fixture.nextjsStructures Fixture.decode
              "hook" "Auth" "Payment" Fixture.hookProject _ (Ret tt) Fixture.baseConfig
              Fixture.reactFeatureBased _ _ eq_refl Sd H S Rx Ry E) as (S' & _ & Rest).
  split; [exact S'|].
  apply Rest; vm_compute; reflexivity.
Defined.

Module DistinctFacts.
Import PlainFacts ResourceFacts.

Lemma resources_differ (root b1 b2 l1 l2 : string) :
  startsWith "/" root = true -> plain l1 = true -> plain l2 = true -> l1 <> l2 ->
  Path.join [root; b1; l1] <> Path.join [root; b2; l2].
Proof.
  intros A P1 P2 N E.
  destruct (join_resource root b1 l1 A P1) as (s1 & _ & S1).
  destruct (join_resource root b2 l2 A P2) as (s2 & _ & S2).
  rewrite E, S2 in S1. apply app_inj_tail in S1. destruct S1 as [_ S1]. now apply N.
Qed.

End DistinctFacts.

(** X11.  Two valid names never share a directory.  For every type
    [rename] and [remove] support and an absolute working directory, two
    different valid names resolve to different directories, under every
    configuration and structure: so the "already exists" refusal of
    [rename] is never caused by the resource being renamed. *)
Theorem distinct_names_resolve_to_distinct_directories :
  forall (type x y : string) (config : Config) (st : Structure) (root : string),
    startsWith "/" root = true ->
    In type RENAME_SUPPORTED_TYPES ->
    pascal_case_spec x = true ->
    pascal_case_spec y = true ->
    x <> y ->
    resolveDir type x config st root <> resolveDir type y config st root /\
    resolveTargetDir type x config st root <> resolveTargetDir type y config st root.
Proof.
  intros type x y config st root A T Vx Vy N.
  destruct (ResourceFacts.pascal_alnum x Vx) as [Nx Ax].
  destruct (ResourceFacts.pascal_alnum y Vy) as [Ny Ay].
  destruct (ResourceFacts.camel_alnum x Vx) as [Ncx Acx].
  destruct (ResourceFacts.camel_alnum y Vy) as [Ncy Acy].
  assert (Pl : forall s, s <> "" -> all_chars is_alnum s = true -> plain s = true)
    by exact ResourceFacts.alnum_plain.
  assert (G : forall b1 b2 l1 l2,
             l1 <> "" -> l2 <> "" ->
             all_chars is_alnum l1 = true -> all_chars is_alnum l2 = true -> l1 <> l2 ->
             Some (Path.join [root; b1; l1]) <> Some (Path.join [root; b2; l2])).
  { intros b1 b2 l1 l2 N1 N2 A1 A2 D [= E].
    exact (DistinctFacts.resources_differ root b1 b2 l1 l2 A (Pl _ N1 A1) (Pl _ N2 A2) D E). }
  cbn [RENAME_SUPPORTED_TYPES In] in T.
  destruct T as [<-|[<-|[<-|[<-|[<-|[<-|[<-|[]]]]]]]];
    (split; apply G;
     try (rewrite ?ResourceFacts.all_chars_app, ?Ax, ?Ay, ?Acx, ?Acy; reflexivity);
     try assumption; try discriminate;
     try (apply ResolveFacts.append_nonempty_r; discriminate)).
  all: intros E.
  all: try (apply SubstFacts.append_inj_r in E).
  all: try (apply SubstFacts.append_inj_l in E).
  all: try (apply N; exact E).
  all: try (apply N; now apply SubstFacts.toCamelCase_inj).
Qed.

Lemma distinct_names_resolve_to_distinct_directories_witness :
  (startsWith "/" "/proj" = true
   /\ In "service" RENAME_SUPPORTED_TYPES
   /\ pascal_case_spec "User" = true /\ pascal_case_spec "Users" = true
   /\ "User" <> "Users")
  /\ resolveDir "service" "User" Fixture.baseConfig Fixture.reactFeatureBased "/proj"
     <> resolveDir "service" "Users" Fixture.baseConfig Fixture.reactFeatureBased "/proj".
Proof.
  assert (T : In "service" RENAME_SUPPORTED_TYPES)
    by (right; right; right; left; reflexivity).
  assert (N : "User" <> "Users") by discriminate.
  split; [exact (conj eq_refl (conj T (conj eq_refl (conj eq_refl N))))|].
  exact (proj1 (distinct_names_resolve_to_distinct_directories
                  "service" "User" "Users" Fixture.baseConfig Fixture.reactFeatureBased
                  "/proj" eq_refl T eq_refl eq_refl N)).
Defined.

(* ------------------------------------------------------------------ *)
(** ** Files written below a directory *)
(* ------------------------------------------------------------------ *)

Module RelativeFacts.
Import PathFacts RenameDirFacts PlainFacts TreeFacts SubstFacts.

(** [s.split('/').join('/')] is [s]. *)
Lemma join_split_slash (s : string) : JS.join "/" (split "/" s) = s.
Proof.
  unfold split. induction s as [|c s IH]; [reflexivity|].
  cbn [split_from startsWith String.length Nat.sub].
  pose proof (split_from_nonempty "/" s 0) as N.
  destruct (Ascii.eqb "/" c) eqn:C.
  - apply Ascii.eqb_eq in C. subst c. rewrite join_cons_nil by exact N. now rewrite IH.
  - destruct (split_from "/" 0 s) as [|h t]; [now elim N|].
    rewrite join_cons_char. now rewrite IH.
Qed.

Lemma split_slash_inj (a b : string) : split "/" a = split "/" b -> a = b.
Proof. intros E. rewrite <- (join_split_slash a), <- (join_split_slash b). now rewrite E. Qed.

Lemma split_one_empty (s : string) : split "/" s = [""] -> s = "".
Proof. intros E. rewrite <- (join_split_slash s), E. reflexivity. Qed.

(** A path that ends in a slash has an empty last part. *)
Lemma endsWithSlash_last (s : string) :
  Path.endsWithSlash s = true -> last (split "/" s) "x" = "".
Proof.
  induction s as [|c s IH]; [discriminate|]. intros E.
  unfold split in *. cbn [split_from startsWith String.length Nat.sub].
  pose proof (split_from_nonempty "/" s 0) as N.
  destruct s as [|c' s'].
  - cbn [Path.endsWithSlash] in E. apply Ascii.eqb_eq in E. subst c. reflexivity.
  - assert (E' : Path.endsWithSlash (String c' s') = true) by exact E.
    specialize (IH E').
    destruct (Ascii.eqb "/" c).
    + destruct (split_from "/" 0 (String c' s')) as [|h t]; [now elim N|]. exact IH.
    + destruct (split_from "/" 0 (String c' s')) as [|h t] eqn:Sp; [now elim N|].
      destruct t as [|h' t'].
      * cbn [last] in IH. subst h.
        assert (X : split "/" (String c' s') = [""]) by exact Sp.
        apply split_one_empty in X. discriminate X.
      * exact IH.
Qed.

Lemma plain_parts_no_trailing (k : string) :
  Forall (fun x => plain x = true) (split "/" k) -> Path.endsWithSlash k = false.
Proof.
  intros F. destruct (Path.endsWithSlash k) eqn:E; [|reflexivity].
  apply endsWithSlash_last in E.
  assert (I : In (last (split "/" k) "x") (split "/" k)).
  { pose proof (split_from_nonempty "/" k 0) as N.
    assert (N' : split "/" k <> []) by exact N.
    destruct (exists_last N') as (l & a & ->). rewrite last_last. apply in_or_app.
    right. now left. }
  rewrite E in I. rewrite Forall_forall in F. specialize (F "" I). discriminate F.
Qed.

Lemma plain_parts_nonempty (k : string) :
  Forall (fun x => plain x = true) (split "/" k) -> k <> "".
Proof. intros F ->. inversion F as [|? ? P _]. discriminate P. Qed.

Lemma join_plain_nonempty (l : list string) :
  Forall (fun x => plain x = true) l -> l <> [] -> JS.join "/" l <> "".
Proof.
  intros F N. destruct l as [|x l]; [now elim N|]. inversion F as [|? ? P _]; subst.
  destruct (plain_parts x P) as (Nx & _). destruct x; [now elim Nx|].
  rewrite join_cons_char. discriminate.
Qed.

(** Joining a relative path of plain segments onto an absolute path
    appends its segments. *)
Lemma join_relative (X k : string) :
  startsWith "/" X = true ->
  Forall (fun x => plain x = true) (split "/" k) ->
  Path.join [X; k] = "/" ++ JS.join "/" (Path.segments X ++ split "/" k).
Proof.
  intros A F. pose proof (plain_parts_nonempty k F) as Nk.
  destruct X as [|c X]; [discriminate A|]. destruct k as [|d k]; [now elim Nk|].
  unfold Path.join. cbn [filter truthy String.eqb negb JS.join].
  change (String.eqb (String c X ++ "/" ++ String d k) "") with false. cbv iota.
  unfold Path.normalize.
  change (String.eqb (String c X ++ "/" ++ String d k) "") with false. cbv iota.
  change (startsWith "/" (String c X ++ "/" ++ String d k)) with (startsWith "/" (String c X)).
  rewrite A. cbn [negb].
  assert (T : Path.endsWithSlash (String c X ++ "/" ++ String d k) = false).
  { assert (Q : String c X ++ "/" ++ String d k = (String c X ++ "/") ++ String d k)
      by (now rewrite append_assoc).
    rewrite Q, endsWithSlash_append by discriminate. now apply plain_parts_no_trailing. }
  rewrite T.
  assert (NS : Path.normalizeString false (String c X ++ "/" ++ String d k)
               = (Path.segments (String c X) ++ split "/" (String d k))%list).
  { unfold Path.normalizeString. rewrite split_slash_append, fold_left_app.
    rewrite (fold_plain _ _ F), rev_app_distr, rev_involutive. reflexivity. }
  rewrite NS.
  assert (NE : JS.join "/" (Path.segments (String c X) ++ split "/" (String d k)) <> "").
  { apply join_plain_nonempty.
    - apply Forall_app. split; [apply segments_plain | exact F].
    - pose proof (split_from_nonempty "/" (String d k) 0) as N.
      intros E. apply app_eq_nil in E. destruct E as [_ E]. now apply N. }
  destruct (JS.join "/" _) eqn:J; [now elim NE|].
  cbn [String.eqb]. now rewrite append_nil_r.
Qed.

Lemma segments_join_relative (X k : string) :
  startsWith "/" X = true ->
  Forall (fun x => plain x = true) (split "/" k) ->
  Path.segments (Path.join [X; k]) = (Path.segments X ++ split "/" k)%list /\
  startsWith "/" (Path.join [X; k]) = true.
Proof.
  intros A F. rewrite (join_relative X k A F). split; [|reflexivity].
  apply segments_joined. apply Forall_app. split; [apply segments_plain | exact F].
Qed.

Lemma filter_plain (l : list string) :
  Forall (fun x => plain x = true) l -> filter truthy l = l.
Proof.
  induction 1 as [|y rest P _ IH]; [reflexivity|]. cbn [filter].
  destruct (plain_parts y P) as (N & _).
  apply truthy_nonempty in N. now rewrite N, IH.
Qed.

(** The directory of a path written out from plain segments. *)
Lemma dirname_joined (l : list string) :
  Forall (fun x => plain x = true) l ->
  Path.dirname ("/" ++ JS.join "/" l) = "/" ++ JS.join "/" (removelast l).
Proof.
  intros F. unfold Path.dirname.
  change (startsWith "/" ("/" ++ JS.join "/" l)) with true. cbv iota.
  change ("/" ++ JS.join "/" l) with ("" ++ "/" ++ JS.join "/" l) at 1.
  rewrite split_slash_append. change (split "/" "") with [""].
  destruct l as [|x l]; [reflexivity|].
  rewrite (split_join _ F) by discriminate. cbn [app].
  change (filter truthy ("" :: x :: l)) with (filter truthy (x :: l)).
  now rewrite (filter_plain _ F).
Qed.

(** Its last segment is its base name. *)
Lemma basename_joined (l : list string) :
  Forall (fun x => plain x = true) l ->
  Path.basename ("/" ++ JS.join "/" l) = last l "".
Proof.
  intros F. unfold Path.basename.
  change ("/" ++ JS.join "/" l) with ("" ++ "/" ++ JS.join "/" l).
  rewrite split_slash_append. change (split "/" "") with [""].
  destruct l as [|x l]; [reflexivity|].
  rewrite (split_join _ F) by discriminate. cbn [app].
  change (filter truthy ("" :: x :: l)) with (filter truthy (x :: l)).
  now rewrite (filter_plain _ F).
Qed.

Lemma Forall_removelast {A : Type} (P : A -> Prop) (l : list A) :
  Forall P l -> Forall P (removelast l).
Proof.
  induction 1 as [|x l Px F IH]; [constructor|].
  cbn [removelast]. destruct l; [constructor | now constructor].
Qed.

Lemma segments_dirname_join (X k : string) :
  startsWith "/" X = true ->
  Forall (fun x => plain x = true) (split "/" k) ->
  Path.segments (Path.dirname (Path.join [X; k]))
  = (Path.segments X ++ removelast (split "/" k))%list /\
  startsWith "/" (Path.dirname (Path.join [X; k])) = true.
Proof.
  intros A F. rewrite (join_relative X k A F).
  assert (G : Forall (fun x => plain x = true) (Path.segments X ++ split "/" k)).
  { apply Forall_app. split; [apply segments_plain | exact F]. }
  rewrite (dirname_joined _ G). split; [|reflexivity].
  rewrite (segments_joined _ (Forall_removelast _ _ G)).
  apply removelast_app. exact (split_from_nonempty "/" k 0).
Qed.

End RelativeFacts.

Module WriteFacts.
Import PlainFacts TreeFacts.

(** Writing a file where no directory stood keeps every other file. *)
Lemma store_keeps_files (P : list string) (x : string) :
  forall (q : list string) (d d' : node) (c : string),
    store P (Some (File x)) d = Some d' ->
    (forall es, lookup P d <> Some (Dir es)) ->
    q <> P ->
    lookup q d = Some (File c) ->
    lookup q d' = Some (File c).
Proof.
  induction P as [|k r IH]; intros q d d' c St N Q L; [discriminate St|].
  destruct d as [data|es]; [discriminate St|].
  destruct q as [|k' q']; [discriminate L|].
  cbn [lookup] in L.
  destruct (String.eqb k' k) eqn:E.
  - apply String.eqb_eq in E. subst k'.
    destruct (assoc k es) as [c0|] eqn:A; [|discriminate L].
    destruct r as [|k1 r1].
    + cbn [lookup] in N. rewrite A in N. cbn [lookup] in N.
      destruct q' as [|k2 q2]; [now elim Q|].
      destruct c0 as [data0|es0]; [discriminate L | now elim (N es0)].
    + rewrite store_deeper, A in St.
      destruct (store (k1 :: r1) (Some (File x)) c0) as [c0'|] eqn:St'; [|discriminate St].
      injection St as <-. cbn [lookup]. rewrite assoc_put_same.
      apply (IH q' c0 c0' c St'); [|congruence|exact L].
      intros es0 L0. apply (N es0). cbn [lookup]. now rewrite A.
  - assert (Nk : k' <> k) by (intros ->; now rewrite String.eqb_refl in E).
    destruct r as [|k1 r1].
    + cbn [store] in St. injection St as <-. cbn [lookup].
      now rewrite (RenameFacts.assoc_put_other k k' _ es Nk).
    + rewrite store_deeper in St.
      destruct (assoc k es) as [c0|]; [|discriminate St].
      destruct (store (k1 :: r1) (Some (File x)) c0) as [c0'|]; [|discriminate St].
      injection St as <-. cbn [lookup].
      now rewrite (RenameFacts.assoc_put_other k k' _ es Nk).
Qed.

(** What a write that returned has done. *)
Lemma writeFile_returned (p data : string) (w w' : world) :
  writeFile p data w = (Ret tt, w') ->
  exists d',
    store (at_path p w) (Some (File data)) (disk w) = Some d' /\
    w' = World (cwd w) d' (console w) (calls w ++ [CwriteFile p]) /\
    forall es, lookup (at_path p w) (disk w) <> Some (Dir es).
Proof.
  unfold writeFile, bind, record, locate, getdisk, noted, parentDir, put_at, setdisk,
    throw, ret.
  cbn -[at_path store lookup].
  change (at_path p {| cwd := cwd w; disk := disk w; console := console w;
                       calls := calls w ++ [CwriteFile p] |}) with (at_path p w).
  destruct (lookup (at_path p w) (disk w)) as [[old|es]|] eqn:L; try discriminate;
    (destruct (lookup (removelast (at_path p w)) (disk w)) as [[|]|]; try discriminate);
    cbn -[at_path store lookup];
    (destruct (store (at_path p w) (Some (File data)) (disk w)) as [d'|]; [|discriminate]);
    intros [= <-]; exists d'; repeat split; discriminate.
Qed.

Lemma appendFile_returned (p data : string) (w w' : world) :
  appendFile p data w = (Ret tt, w') ->
  exists d' text,
    store (at_path p w) (Some (File text)) (disk w) = Some d' /\
    w' = World (cwd w) d' (console w) (calls w ++ [CappendFile p]) /\
    forall es, lookup (at_path p w) (disk w) <> Some (Dir es).
Proof.
  unfold appendFile, bind, record, locate, getdisk, noted, parentDir, put_at, setdisk,
    throw, ret.
  cbn -[at_path store lookup append].
  change (at_path p {| cwd := cwd w; disk := disk w; console := console w;
                       calls := calls w ++ [CappendFile p] |}) with (at_path p w).
  destruct (lookup (at_path p w) (disk w)) as [[old|es]|] eqn:L; try discriminate.
  - destruct (store (at_path p w) (Some (File (old ++ data))) (disk w)) as [d'|] eqn:St;
      [|discriminate].
    intros [= <-]. exists d', (old ++ data). repeat split; [exact St | discriminate].
  - destruct (lookup (removelast (at_path p w)) (disk w)) as [[|]|]; try discriminate.
    cbn -[at_path store lookup append].
    destruct (store (at_path p w) (Some (File data)) (disk w)) as [d'|] eqn:St;
      [|discriminate].
    intros [= <-]. exists d', data. repeat split; [exact St | discriminate].
Qed.

(** [mkdir -p]: files stay, what is apart stays, names stay plain. *)
Lemma mkdirs_keeps_files (P : list string) :
  forall (q : list string) (d d' : node) (c : string),
    mkdirs P d = Some d' -> lookup q d = Some (File c) -> lookup q d' = Some (File c).
Proof.
  induction P as [|s r IH]; intros q d d' c M L.
  - destruct d; [discriminate M | now injection M as <-].
  - destruct d as [data|es]; [discriminate M|]. cbn [mkdirs] in M.
    destruct q as [|k q']; [discriminate L|]. cbn [lookup] in L.
    destruct (mkdirs r _) as [c'|] eqn:M'; [|discriminate M]. injection M as <-.
    cbn [lookup]. destruct (String.eqb k s) eqn:E.
    + apply String.eqb_eq in E. subst k. rewrite assoc_put_same.
      destruct (assoc s es) as [c0|]; [|discriminate L].
      exact (IH q' c0 c' c M' L).
    + assert (Nk : k <> s) by (intros ->; now rewrite String.eqb_refl in E).
      now rewrite (RenameFacts.assoc_put_other s k _ es Nk).
Qed.

Lemma mkdirs_apart (P : list string) :
  forall (q : list string) (d d' : node),
    mkdirs P d = Some d' -> apart P q = true -> lookup q d' = lookup q d.
Proof.
  induction P as [|s r IH]; intros q d d' M A; [discriminate A|].
  destruct d as [data|es]; [discriminate M|]. cbn [mkdirs] in M.
  destruct q as [|k q']; [discriminate A|].
  destruct (mkdirs r _) as [c'|] eqn:M'; [|discriminate M]. injection M as <-.
  unfold apart in A. cbn [is_prefix] in A. cbn [lookup].
  destruct (String.eqb s k) eqn:E.
  - apply String.eqb_eq in E. subst k. rewrite String.eqb_refl in A. cbn [andb] in A.
    rewrite assoc_put_same. rewrite (IH q' _ c' M' A).
    destruct (assoc s es) as [c0|]; [reflexivity|].
    destruct q' as [|k2 q2]; [|reflexivity].
    unfold apart in A. cbn [is_prefix] in A. destruct r; discriminate A.
  - assert (Nk : k <> s) by (intros ->; now rewrite String.eqb_refl in E).
    now rewrite (RenameFacts.assoc_put_other s k _ es Nk).
Qed.

Lemma mkdirs_sound (P : list string) :
  Forall (fun k => plain k = true) P ->
  forall (d d' : node), sound d = true -> mkdirs P d = Some d' -> sound d' = true.
Proof.
  induction 1 as [|s r Ps F IH]; intros d d' S M.
  - destruct d; [discriminate M | now injection M as <-].
  - destruct d as [data|es]; [discriminate M|]. cbn [mkdirs] in M.
    destruct (mkdirs r _) as [c'|] eqn:M'; [|discriminate M]. injection M as <-.
    apply sound_put; [assumption | | assumption].
    apply (IH _ c' ) in M'; [exact M'|].
    destruct (assoc s es) as [c0|] eqn:A; [exact (sound_assoc _ _ _ S A) | reflexivity].
Qed.

Lemma ensureDir_cases (p : string) (w w' : world) (o : outcome unit) :
  ensureDir p w = (o, w') ->
  cwd w' = cwd w /\
  (disk w' = disk w \/ mkdirs (at_path p w) (disk w) = Some (disk w')).
Proof.
  unfold ensureDir, bind, record, locate, getdisk, noted, setdisk, throw, ret.
  cbn -[at_path mkdirs].
  change (at_path p {| cwd := cwd w; disk := disk w; console := console w;
                       calls := calls w ++ [CensureDir p] |}) with (at_path p w).
  destruct (mkdirs (at_path p w) (disk w)) as [d'|] eqn:M; intros [= <- <-].
  - split; [reflexivity | now right].
  - split; [reflexivity | now left].
Qed.

End WriteFacts.

(* ------------------------------------------------------------------ *)
(** ** The files of a template, as paths below the resource *)
(* ------------------------------------------------------------------ *)

Module KeyFacts.
Import PathFacts PlainFacts TreeFacts ResourceFacts RenamedNames RelativeFacts.

Local Abbreviation noslash := (fun c : ascii => negb (Ascii.eqb "/" c)).
Local Abbreviation relative k := (Forall (fun x => plain x = true) (split "/" k)).
Local Abbreviation lettered x :=
  (match x with String c _ => is_alnum c | EmptyString => false end).
Local Abbreviation placed k := (relative k /\ lettered (last (split "/" k) "") = true).
(** A file of a template: a name with an extension, or such a name two
    directories down, the first of them a plain word. *)
Local Abbreviation shaped k :=
  ((plain k = true /\ lettered k%string = true /\ all_chars is_alnum k = false) \/
   exists a b c,
     k%string = a ++ "/" ++ b ++ "/" ++ c /\
     plain a = true /\ all_chars is_alnum a = true /\
     plain b = true /\ plain c = true /\ lettered c = true).

Lemma obj_set_NoDup (k v : string) (o : obj) : NoDup (keys o) -> NoDup (keys (obj_set k v o)).
Proof.
  intros N. destruct (in_dec string_dec k (keys o)) as [I|I].
  - assert (E : keys (obj_set k v o) = keys o).
    { clear N. induction o as [|[k' v'] o IH]; [now elim I|]. cbn [obj_set].
      destruct (String.eqb k k') eqn:Q.
      - apply String.eqb_eq in Q. now subst k'.
      - cbn [keys map fst] in *. f_equal. apply IH. destruct I as [I|I]; [|exact I].
        subst k'. now rewrite String.eqb_refl in Q. }
    now rewrite E.
  - rewrite (ObjFacts.keys_obj_set_new k v o I). apply NoDup_app; [exact N | | ].
    + repeat constructor. intros [].
    + intros x Hx [<-|[]]. now apply I.
Qed.

Lemma obj_of_NoDup (props : list (string * string)) : NoDup (keys (obj_of props)).
Proof.
  unfold obj_of.
  assert (G : forall o, NoDup (keys o) ->
                        NoDup (keys (fold_left (fun o kv => obj_set (fst kv) (snd kv) o)
                                       props o))).
  { induction props as [|[k v] props IH]; intros o N; [exact N|].
    cbn [fold_left fst snd]. apply IH. now apply obj_set_NoDup. }
  apply G. constructor.
Qed.

Lemma obj_set_nonempty (k v : string) (o : obj) : obj_set k v o <> [].
Proof. destruct o as [|[k' v'] o]; cbn [obj_set]; [|destruct (String.eqb k k')]; discriminate. Qed.

Lemma obj_of_nonempty (props : list (string * string)) : props <> [] -> obj_of props <> [].
Proof.
  intros N. unfold obj_of.
  assert (G : forall (l : list (string * string)) (o : obj),
             o <> [] -> fold_left (fun o kv => obj_set (fst kv) (snd kv) o) l o <> []).
  { induction l as [|[k v] l IH]; intros o No; [exact No|].
    cbn [fold_left]. apply IH, obj_set_nonempty. }
  destruct props as [|[k v] props]; [now elim N|]. cbn [fold_left].
  apply G, obj_set_nonempty.
Qed.

Lemma one_segment (k : string) :
  plain k = true -> lettered k = true -> all_chars is_alnum k = false -> shaped k.
Proof. intros P L D. left. now repeat split. Qed.

Lemma three_segments (a b c : string) :
  plain a = true -> all_chars is_alnum a = true ->
  plain b = true -> plain c = true -> lettered c = true ->
  shaped (a ++ "/" ++ b ++ "/" ++ c).
Proof. intros Pa Aa Pb Pc L. right. exists a, b, c. now repeat split. Qed.

Lemma shaped_split (k : string) :
  shaped k ->
  (split "/" k = [k] /\ plain k = true /\ lettered k = true /\
   all_chars is_alnum k = false) \/
  exists a b c,
    split "/" k = [a; b; c] /\
    plain a = true /\ all_chars is_alnum a = true /\
    plain b = true /\ plain c = true /\ lettered c = true.
Proof.
  intros [(P & L & D)|(a & b & c & -> & Pa & Aa & Pb & Pc & L)].
  - left. destruct (plain_parts k P) as (_ & S & _).
    now rewrite (split_noslash k S).
  - right. exists a, b, c.
    destruct (plain_parts a Pa) as (_ & Sa & _), (plain_parts b Pb) as (_ & Sb & _),
      (plain_parts c Pc) as (_ & Sc & _).
    rewrite !split_slash_append, (split_noslash a Sa), (split_noslash b Sb),
      (split_noslash c Sc).
    now repeat split.
Qed.

Lemma shaped_placed (k : string) : shaped k -> placed k.
Proof.
  intros H.
  destruct (shaped_split k H) as [(-> & P & L & _)|(a & b & c & -> & Pa & _ & Pb & Pc & L)].
  - split; [now repeat constructor | exact L].
  - split; [now repeat constructor | exact L].
Qed.

(** No file of a template stands on the way to another. *)
Lemma shaped_prefix_free (k k' : string) :
  shaped k -> shaped k' -> is_prefix (split "/" k) (split "/" k') = true -> k = k'.
Proof.
  intros H H'.
  destruct (shaped_split k H) as [(E & _ & _ & D)|(a & b & c & E & _ & Aa & _)];
    destruct (shaped_split k' H') as [(E' & _ & _ & D')|(a' & b' & c' & E' & _ & Aa' & _)];
    intros Q; pose proof Q as Q0; rewrite E, E' in Q; cbn [is_prefix] in Q.
  - rewrite andb_true_r in Q. now apply String.eqb_eq in Q.
  - rewrite andb_true_r in Q. apply String.eqb_eq in Q. subst a'. congruence.
  - rewrite andb_false_r in Q. discriminate Q.
  - apply andb_true_iff in Q. destruct Q as [Qa Q].
    apply andb_true_iff in Q. destruct Q as [Qb Q].
    rewrite andb_true_r in Q. apply String.eqb_eq in Qa, Qb, Q. subst a' b' c'.
    apply RelativeFacts.split_slash_inj. congruence.
Qed.

Lemma dotted_word (a b : string) :
  all_chars is_alnum b = false -> all_chars is_alnum (a ++ b) = false.
Proof. intros D. rewrite all_chars_app, D. apply andb_false_r. Qed.

Lemma lettered_word (a b : string) :
  a <> "" -> all_chars is_alnum a = true -> lettered (a ++ b) = true.
Proof.
  intros N A. destruct a as [|c a]; [now elim N|].
  cbn [all_chars] in A. apply andb_true_iff in A. now destruct A.
Qed.

(** A word followed by an extension is a plain name. *)
Lemma plain_word (a b : string) :
  a <> "" -> all_chars is_alnum a = true -> all_chars noslash b = true ->
  plain (a ++ b) = true.
Proof.
  intros N A B. destruct a as [|c a]; [now elim N|].
  cbn [all_chars] in A. apply andb_true_iff in A. destruct A as [C A].
  unfold plain.
  assert (S : all_chars noslash (String c a ++ b) = true).
  { rewrite all_chars_app, B. cbn [all_chars].
    now rewrite (alnum_not_slash c C), (alnum_noslash a A). }
  rewrite S. cbn [append String.eqb negb andb].
  rewrite Ascii.eqb_sym, (alnum_not_dot c C). reflexivity.
Qed.

Lemma join_absolute (root : string) (rest : list string) :
  startsWith "/" root = true -> startsWith "/" (Path.join (root :: rest)) = true.
Proof.
  intros A. destruct root as [|c root]; [discriminate A|].
  unfold Path.join. cbn [filter truthy String.eqb negb].
  assert (J : exists tail, JS.join "/" (String c root :: filter truthy rest)
                           = String c tail).
  { destruct (filter truthy rest); eexists; reflexivity. }
  destruct J as [tail ->]. cbn [String.eqb]. unfold Path.normalize. cbn [String.eqb].
  cbn [startsWith] in A |- *. destruct (Ascii.eqb "/" c); [|discriminate A].
  cbn [negb]. destruct (String.eqb _ ""); [reflexivity|].
  reflexivity.
Qed.

Ltac walk_keys :=
  cbn [app];
  repeat match goal with
         | |- Forall _ (_ :: _) => apply Forall_cons
         | |- Forall _ [] => apply Forall_nil
         end.

Ltac ext_cases config :=
  unfold getExtensions, pushed; cbn [compExt scriptExt styleExt];
  destruct (String.eqb (language config) "typescript"),
           (String.eqb (styling config) "scss"), (withTests config).

Lemma hook_word (name : string) (config : Config) :
  pascal_case_spec name = true ->
  resolvedName (hookTemplate name config) <> "" /\
  all_chars is_alnum (resolvedName (hookTemplate name config)) = true.
Proof.
  intros V. destruct (pascal_alnum name V) as [N A], (camel_alnum name V) as [Nc Ac].
  unfold hookTemplate. cbv zeta. cbn [resolvedName].
  destruct (startsWith "use" (toCamelCase name)); [now split|].
  split; [discriminate|]. now rewrite all_chars_app, A.
Qed.

Lemma component_shaped (name : string) (config : Config) (level : option string) :
  pascal_case_spec name = true ->
  Forall (fun k => shaped k) (keys (componentTemplate name config level)).
Proof.
  intros V. destruct (pascal_alnum name V) as [N A].
  rewrite (TemplateFacts.component_keys name config level V). cbv zeta.
  ext_cases config; walk_keys;
    (apply one_segment;
     first [reflexivity | apply plain_word; [assumption|assumption|reflexivity]
           | now apply lettered_word | apply dotted_word; reflexivity]).
Qed.

Lemma page_shaped (name : string) (config : Config) :
  pascal_case_spec name = true ->
  Forall (fun k => shaped k) (keys (pageTemplate name config)).
Proof.
  intros V. destruct (pascal_alnum name V) as [N A].
  rewrite (TemplateFacts.page_keys name config V). cbv zeta.
  ext_cases config; walk_keys;
    (apply one_segment;
     first [reflexivity | apply plain_word; [assumption|assumption|reflexivity]
           | now apply lettered_word | apply dotted_word; reflexivity]).
Qed.

Lemma hook_shaped (name : string) (config : Config) :
  pascal_case_spec name = true ->
  Forall (fun k => shaped k) (keys (files (hookTemplate name config))).
Proof.
  intros V. destruct (hook_word name config V) as [N A].
  rewrite (TemplateFacts.hook_keys name config). cbv zeta.
  remember (resolvedName (hookTemplate name config)) as h eqn:Eh. clear Eh.
  ext_cases config; walk_keys;
    (apply one_segment;
     first [reflexivity | apply plain_word; [assumption|assumption|reflexivity]
           | now apply lettered_word | apply dotted_word; reflexivity]).
Qed.

Lemma service_shaped (name : string) (config : Config) :
  pascal_case_spec name = true ->
  Forall (fun k => shaped k) (keys (files (serviceTemplate name config))).
Proof.
  intros V. destruct (camel_alnum name V) as [N A].
  rewrite (TemplateFacts.service_keys name config). cbv zeta.
  assert (Nn : toCamelCase name ++ "Service" <> "")
    by (apply ResolveFacts.append_nonempty_r; discriminate).
  assert (An : all_chars is_alnum (toCamelCase name ++ "Service") = true)
    by (now rewrite all_chars_app, A).
  remember (toCamelCase name ++ "Service") as n eqn:En. clear En.
  ext_cases config; walk_keys;
    (apply one_segment;
     first [reflexivity | apply plain_word; [assumption|assumption|reflexivity]
           | now apply lettered_word | apply dotted_word; reflexivity]).
Qed.

Lemma context_shaped (name : string) (config : Config) :
  pascal_case_spec name = true ->
  Forall (fun k => shaped k) (keys (files (contextTemplate name config))).
Proof.
  intros V. destruct (pascal_alnum name V) as [N A].
  rewrite (TemplateFacts.context_keys name config V). cbv zeta.
  assert (Nn : name ++ "Context" <> "")
    by (apply ResolveFacts.append_nonempty_r; discriminate).
  assert (An : all_chars is_alnum (name ++ "Context") = true)
    by (now rewrite all_chars_app, A).
  remember (name ++ "Context") as n eqn:En. clear En.
  ext_cases config; walk_keys;
    (apply one_segment;
     first [reflexivity | apply plain_word; [assumption|assumption|reflexivity]
           | now apply lettered_word | apply dotted_word; reflexivity]).
Qed.

Lemma store_shaped (name : string) (config : Config) :
  pascal_case_spec name = true ->
  Forall (fun k => shaped k) (keys (files (storeTemplate name config))).
Proof.
  intros V. destruct (pascal_alnum name V) as [N A].
  rewrite (TemplateFacts.store_keys name config). cbv zeta.
  assert (Nn : "use" ++ name ++ "Store" <> "") by discriminate.
  assert (An : all_chars is_alnum ("use" ++ name ++ "Store") = true)
    by (now rewrite !all_chars_app, A).
  remember ("use" ++ name ++ "Store") as n eqn:En. clear En.
  ext_cases config; walk_keys;
    (apply one_segment;
     first [reflexivity | apply plain_word; [assumption|assumption|reflexivity]
           | now apply lettered_word | apply dotted_word; reflexivity]).
Qed.

Lemma type_shaped (name : string) (config : Config) :
  pascal_case_spec name = true ->
  Forall (fun k => shaped k) (keys (files (typeTemplate name config))).
Proof.
  intros V. destruct (pascal_alnum name V) as [N A].
  rewrite (TemplateFacts.type_keys name config).
  assert (E : forall e, (name ++ ".types") ++ "." ++ e = name ++ ".types." ++ e)
    by (intros e; now rewrite append_assoc).
  rewrite E. unfold getExtensions. cbn [scriptExt].
  destruct (String.eqb (language config) "typescript"); walk_keys;
    (apply one_segment; [apply plain_word; [assumption|assumption|reflexivity]
                        | now apply lettered_word | apply dotted_word; reflexivity]).
Qed.

Lemma api_shaped (name : string) (config : Config) :
  Forall (fun k => shaped k) (keys (files (apiTemplate name config))).
Proof.
  rewrite (TemplateFacts.api_keys name config). unfold getExtensions. cbn [scriptExt].
  destruct (String.eqb (language config) "typescript"); walk_keys;
    apply one_segment; reflexivity.
Qed.

Lemma view_file (name f : string) :
  name <> "" -> all_chars is_alnum name = true -> plain f = true -> lettered f = true ->
  shaped ("components/" ++ name ++ "View/" ++ f).
Proof.
  intros N A F L.
  assert (E : "components/" ++ name ++ "View/" ++ f
              = "components" ++ "/" ++ (name ++ "View") ++ "/" ++ f)
    by (rewrite append_assoc; reflexivity).
  rewrite E. apply three_segments; [reflexivity | reflexivity | | exact F | exact L].
  apply alnum_plain; [apply ResolveFacts.append_nonempty_r; discriminate|].
  now rewrite all_chars_app, A.
Qed.

Lemma hooks_file (n f : string) :
  plain n = true -> plain f = true -> lettered f = true ->
  shaped ("hooks/" ++ n ++ "/" ++ f).
Proof.
  intros N F L. change ("hooks/" ++ n ++ "/" ++ f) with ("hooks" ++ "/" ++ n ++ "/" ++ f).
  now apply three_segments.
Qed.

Lemma services_file (n f : string) :
  plain n = true -> plain f = true -> lettered f = true ->
  shaped ("services/" ++ n ++ "/" ++ f).
Proof.
  intros N F L.
  change ("services/" ++ n ++ "/" ++ f) with ("services" ++ "/" ++ n ++ "/" ++ f).
  now apply three_segments.
Qed.

Lemma feature_shaped (name : string) (config : Config) :
  pascal_case_spec name = true ->
  Forall (fun k => shaped k) (keys (files (featureTemplate name config))).
Proof.
  intros V. destruct (pascal_alnum name V) as [N A], (camel_alnum name V) as [Nc Ac].
  rewrite (TemplateFacts.feature_keys name config V). cbv zeta.
  assert (Nh : "use" ++ name <> "") by discriminate.
  assert (Ah : all_chars is_alnum ("use" ++ name) = true) by (now rewrite all_chars_app, A).
  assert (Ns : toCamelCase name ++ "Service" <> "")
    by (apply ResolveFacts.append_nonempty_r; discriminate).
  assert (As : all_chars is_alnum (toCamelCase name ++ "Service") = true)
    by (now rewrite all_chars_app, Ac).
  pose proof (alnum_plain _ Nh Ah) as Ph. pose proof (alnum_plain _ Ns As) as Ps.
  assert (Nv : name ++ "View" <> "") by (apply ResolveFacts.append_nonempty_r; discriminate).
  assert (Av : all_chars is_alnum (name ++ "View") = true) by (now rewrite all_chars_app, A).
  remember ("use" ++ name) as h eqn:Eh. remember (toCamelCase name ++ "Service") as sv eqn:Es.
  clear Eh Es.
  ext_cases config; cbn [app];
    repeat match goal with
           | |- Forall _ (_ :: _) => apply Forall_cons
           | |- Forall _ [] => apply Forall_nil
           end;
    first [ apply one_segment; reflexivity
          | apply hooks_file; [assumption| |];
            first [reflexivity | apply plain_word; [assumption|assumption|reflexivity]
                  | now apply lettered_word]
          | apply services_file; [assumption| |];
            first [reflexivity | apply plain_word; [assumption|assumption|reflexivity]
                  | now apply lettered_word]
          | apply view_file; [assumption|assumption| |];
            first [reflexivity | apply plain_word; [assumption|assumption|reflexivity]
                  | now apply lettered_word] ].
Qed.

(** The files of a resource are paths of plain segments below its
    directory, each file's own name starting with a letter or a digit,
    no two of them the same, and there is at least one; the directory
    is absolute when the working directory is. *)
Lemma target_files (type name : string) (config : Config) (st : Structure)
      (root answer : string) (t : Target) :
  pascal_case_spec name = true ->
  addTarget type name config st root answer = Some t ->
  Forall (fun k => placed k) (keys (body t)) /\
  NoDup (keys (body t)) /\
  (startsWith "/" root = true -> startsWith "/" (dir t) = true) /\
  body t <> [].
Proof.
  intros V. unfold addTarget.
  repeat match goal with
         | |- context [if String.eqb type ?s then _ else _] =>
             destruct (String.eqb type s)
         end;
    try discriminate;
    try (destruct (String.eqb (framework config) "nextjs"); [|discriminate];
         destruct (apiPath st) as [apiBase|]; [|discriminate]; cbn [option_map]);
    intros [= <-];
    (split; [|split; [|split; [apply join_absolute|]]]).
  all: cbn [body dir componentTarget hookTarget pageTarget serviceTarget contextTarget
              storeTarget typeTarget apiTarget featureTarget].
  all: try (unfold componentTemplate, hookTemplate, pageTemplate, serviceTemplate,
              contextTemplate, storeTemplate, typeTemplate, apiTemplate, featureTemplate;
            cbv zeta; cbn [files];
            match goal with |- _ <> [] => idtac end;
            destruct (withTests config);
            first [ apply obj_set_nonempty | apply obj_of_nonempty; discriminate ]).
  all: try (match goal with |- Forall _ _ => idtac end;
            refine (Forall_impl _ shaped_placed _);
            first [ now apply component_shaped | now apply hook_shaped
                  | now apply page_shaped | now apply service_shaped
                  | now apply context_shaped | now apply store_shaped
                  | now apply type_shaped | apply api_shaped
                  | now apply feature_shaped ]).
  - unfold componentTemplate. cbv zeta.
    destruct (withTests config); [apply obj_set_NoDup|]; apply obj_of_NoDup.
  - unfold hookTemplate. cbv zeta. cbn [files].
    destruct (withTests config); [apply obj_set_NoDup|]; apply obj_of_NoDup.
  - unfold pageTemplate. cbv zeta.
    destruct (withTests config); [apply obj_set_NoDup|]; apply obj_of_NoDup.
  - unfold serviceTemplate. cbv zeta. cbn [files].
    destruct (withTests config); [apply obj_set_NoDup|]; apply obj_of_NoDup.
  - unfold contextTemplate. cbv zeta. cbn [files].
    destruct (withTests config); [apply obj_set_NoDup|]; apply obj_of_NoDup.
  - unfold storeTemplate. cbv zeta. cbn [files].
    destruct (withTests config); [apply obj_set_NoDup|]; apply obj_of_NoDup.
  - unfold typeTemplate. cbv zeta. cbn [files]. apply obj_of_NoDup.
  - unfold apiTemplate. cbv zeta. cbn [files]. apply obj_of_NoDup.
  - unfold featureTemplate. cbv zeta. cbn [files].
    destruct (withTests config); [apply obj_set_NoDup, obj_set_NoDup|]; apply obj_of_NoDup.
Qed.

(** No file of a resource stands on the way to another of its files. *)
Lemma target_prefix_free (type name : string) (config : Config) (st : Structure)
      (root answer : string) (t : Target) :
  pascal_case_spec name = true ->
  addTarget type name config st root answer = Some t ->
  forall k k', In k (keys (body t)) -> In k' (keys (body t)) ->
               is_prefix (split "/" k) (split "/" k') = true -> k = k'.
Proof.
  intros V T.
  assert (F : Forall (fun k => shaped k) (keys (body t))).
  { revert T. unfold addTarget.
    repeat match goal with
           | |- context [if String.eqb type ?s then _ else _] =>
               destruct (String.eqb type s)
           end;
      try discriminate;
      try (destruct (String.eqb (framework config) "nextjs"); [|discriminate];
           destruct (apiPath st) as [apiBase|]; [|discriminate]; cbn [option_map]);
      intros [= <-];
      cbn [body componentTarget hookTarget pageTarget serviceTarget contextTarget
             storeTarget typeTarget apiTarget featureTarget];
      first [ now apply component_shaped | now apply hook_shaped
            | now apply page_shaped | now apply service_shaped
            | now apply context_shaped | now apply store_shaped
            | now apply type_shaped | apply api_shaped
            | now apply feature_shaped ]. }
  intros k k' I I'. rewrite Forall_forall in F.
  exact (shaped_prefix_free k k' (F k I) (F k' I')).
Qed.

End KeyFacts.

(* ------------------------------------------------------------------ *)
(** ** What [add] leaves on the disk *)
(* ------------------------------------------------------------------ *)

Module AddFacts.
Import PlainFacts TreeFacts ResourceFacts RelativeFacts WriteFacts KeyFacts.

Local Abbreviation relative k := (Forall (fun x => plain x = true) (split "/" k)).

Lemma lookup_prefix_exists (P r : list string) :
  forall (d n : node), lookup (P ++ r) d = Some n -> exists m, lookup P d = Some m.
Proof.
  induction P as [|s P IH]; intros d n L; [now exists d|].
  destruct d as [data|es]; [discriminate L|]. cbn [app lookup] in L |- *.
  destruct (assoc s es) as [c|]; [|discriminate L]. exact (IH c n L).
Qed.

(** After [writeFiles] has returned: each file is there with its text,
    and every other file has the text it had. *)
Lemma writeFiles_returned (T root : string) :
  startsWith "/" T = true ->
  forall files : obj,
    Forall (fun k => relative k) (keys files) ->
    NoDup (keys files) ->
    forall w w',
      writeFiles files T root w = (Ret tt, w') ->
      cwd w' = cwd w /\
      (forall k v, In (k, v) files ->
                   lookup (Path.segments T ++ split "/" k) (disk w') = Some (File v)) /\
      (forall q c,
          (forall k, In k (keys files) -> q <> (Path.segments T ++ split "/" k)%list) ->
          lookup q (disk w) = Some (File c) -> lookup q (disk w') = Some (File c)).
Proof.
  intros A files. induction files as [|[k v] rest IH]; intros F N w w' R.
  - injection R as <-. repeat split; [intros k v [] | intros q c _ L; exact L].
  - cbn [keys map fst] in F, N. inversion F as [|? ? Fk Fr]; subst.
    inversion N as [|? ? Nk Nr]; subst.
    destruct (segments_join_relative T k A Fk) as [Sf Af].
    cbn [writeFiles] in R. cbv zeta in R.
    remember (Path.join [T; k]) as full eqn:Ef.
    apply RenameFacts.bind_Ret in R. destruct R as ([] & w1 & E1 & R).
    apply RenameFacts.bind_Ret in R. destruct R as ([] & w2 & E2 & R).
    apply RenameFacts.bind_Ret in R. destruct R as ([] & w3 & E3 & R).
    unfold log in E3. injection E3 as <-.
    destruct (ensureDir_cases _ _ _ _ E1) as [C1 D1].
    destruct (writeFile_returned _ _ _ _ E2) as (d2 & St & -> & ND).
    rewrite (Kept.at_path_absolute full w1 Af), Sf in St, ND.
    destruct (IH Fr Nr _ _ R) as (C3 & Made & Other). cbn [cwd disk] in C3, Other.
    assert (Keep1 : forall q c, lookup q (disk w) = Some (File c) ->
                                lookup q (disk w1) = Some (File c)).
    { intros q c L. destruct D1 as [D1|D1]; [now rewrite D1|].
      exact (mkdirs_keeps_files _ q _ _ c D1 L). }
    repeat split.
    + congruence.
    + intros k' v' [[= <- <-]|I].
      * apply Other.
        -- intros k' I' E. apply app_inv_head in E. apply split_slash_inj in E.
           subst k'. now apply Nk.
        -- exact (lookup_store_same _ _ _ _ St).
      * now apply Made.
    + intros q c Q L. apply Other.
      * intros k' I'. apply Q. now right.
      * apply (store_keeps_files _ v q (disk w1) d2 c St ND); [|now apply Keep1].
        apply Q. now left.
Qed.

Section Barrel.
Import Barrel.

(** An update of the barrel that returned has kept every other file. *)
Lemma updateBarrel_keeps_files (parentDir resourceName ext root : string)
      (w w' : world) (r : BarrelUpdateResult) :
  updateBarrel parentDir resourceName ext root w = (Ret r, w') ->
  cwd w' = cwd w /\
  forall q c,
    q <> at_path (Path.join [parentDir; "index." ++ ext]) w ->
    lookup q (disk w) = Some (File c) -> lookup q (disk w') = Some (File c).
Proof.
  unfold updateBarrel.
  remember (Path.join [parentDir; "index." ++ ext]) as bp eqn:Ebp.
  intros R. apply RenameFacts.bind_Ret in R. destruct R as (present & w1 & E1 & R).
  rewrite pathExists_run in E1. injection E1 as <- <-.
  destruct (subtree bp w) as [nd|] eqn:S; cbv iota in R.
  - apply RenameFacts.bind_Ret in R. destruct R as (existing & w2 & E2 & R).
    rewrite readFile_run in E2.
    destruct (subtree bp (noted (CpathExists bp) w)) as [[data|]|]; try discriminate E2.
    injection E2 as <- <-.
    destruct (includes _ data).
    + injection R as _ <-. split; [reflexivity|]. now intros q c _ L.
    + apply RenameFacts.bind_Ret in R. destruct R as ([] & w3 & E3 & R).
      injection R as _ <-.
      destruct (appendFile_returned _ _ _ _ E3) as (d' & text & St & -> & ND).
      split; [reflexivity|]. intros q c Q L. cbn [disk].
      exact (store_keeps_files _ text q _ d' c St ND Q L).
  - apply RenameFacts.bind_Ret in R. destruct R as ([] & w3 & E3 & R).
    injection R as _ <-.
    destruct (writeFile_returned _ _ _ _ E3) as (d' & St & -> & ND).
    split; [reflexivity|]. intros q c Q L. cbn [disk].
    exact (store_keeps_files _ _ q _ d' c St ND Q L).
Qed.

End Barrel.

End AddFacts.

Module CreateFacts.
Import PathFacts PlainFacts TreeFacts ResourceFacts RelativeFacts WriteFacts KeyFacts AddFacts.
Import SubstFacts.

Local Abbreviation relative k := (Forall (fun x => plain x = true) (split "/" k)).
Local Abbreviation lettered x :=
  (match x with String c _ => is_alnum c | EmptyString => false end).
Local Abbreviation placed k := (relative k /\ lettered (last (split "/" k) "") = true).
Local Abbreviation index config := ("index." ++ scriptExt (getExtensions config)).
Local Abbreviation barrelOf t config := (Path.join [Path.dirname (dir t); index config]).

(** What a successful [add] leaves: the working directory, each file
    of the template with its text, and the text of every file that is
    neither one of them nor the barrel beside the resource. *)
Local Abbreviation made t config w w' :=
  (cwd w' = cwd w /\
   (forall k v, In (k, v) (body t) -> peek (Path.join [dir t; k]) w' = Some v) /\
   (forall q c,
      (forall k, In k (keys (body t)) -> q <> at_path (Path.join [dir t; k]) w) ->
      q <> at_path (barrelOf t config) w ->
      lookup q (disk w) = Some (File c) -> lookup q (disk w') = Some (File c))).

Lemma index_plain (config : Config) : plain (index config) = true.
Proof.
  unfold getExtensions. cbn [scriptExt].
  destruct (String.eqb (language config) "typescript"); reflexivity.
Qed.

Lemma file_place (T k : string) (w : world) :
  startsWith "/" T = true -> relative k ->
  at_path (Path.join [T; k]) w = (Path.segments T ++ split "/" k)%list.
Proof.
  intros A F. destruct (segments_join_relative T k A F) as [S Af].
  now rewrite (Kept.at_path_absolute _ w Af).
Qed.

Lemma barrel_place (X : string) (config : Config) (w : world) :
  startsWith "/" X = true ->
  at_path (Path.join [Path.dirname X; index config]) w
  = (Path.segments (Path.dirname X) ++ [index config])%list.
Proof.
  intros A.
  destruct (segments_join_leaf (Path.dirname X) _ (WalkFacts.dirname_absolute X A)
              (index_plain config)) as [S Ab].
  now rewrite (Kept.at_path_absolute _ w Ab).
Qed.

(** The barrel of the parent directory is none of the resource's files. *)
Lemma barrel_beside (root base leaf idx k : string) :
  startsWith "/" root = true -> plain leaf = true -> plain idx = true ->
  Path.segments (Path.join [Path.dirname (Path.join [root; base; leaf]); idx])
  <> (Path.segments (Path.join [root; base; leaf]) ++ split "/" k)%list.
Proof.
  intros A Pl Pi. destruct (join_resource root base leaf A Pl) as (l & J & S).
  assert (F : Forall (fun x => plain x = true) (l ++ [leaf]))
    by (rewrite <- S; apply segments_plain).
  rewrite S, J, (dirname_joined _ F), removelast_last.
  apply Forall_app in F. destruct F as [Fl _].
  destruct (segments_join_leaf ("/" ++ JS.join "/" l) idx eq_refl Pi) as [Sb _].
  rewrite Sb, (segments_joined l Fl).
  intros E. apply (f_equal (@length string)) in E. rewrite !length_app in E.
  cbn [length] in E.
  pose proof (split_from_nonempty "/" k 0) as N. unfold split in E.
  destruct (split_from "/" 0 k); [now elim N|]. cbn [length] in E. lia.
Qed.

Lemma siblings_apart (l : list string) (a b : string) :
  a <> b -> apart (l ++ [a]) (l ++ [b]) = true.
Proof.
  intros N. unfold apart. induction l as [|x l IH]; cbn [app is_prefix].
  - apply String.eqb_neq in N. rewrite N, String.eqb_sym, N. reflexivity.
  - now rewrite String.eqb_refl.
Qed.

(** The resource's directory and the barrel beside it lie apart. *)
Lemma barrel_apart (root base leaf idx : string) :
  startsWith "/" root = true -> plain leaf = true -> plain idx = true -> leaf <> idx ->
  apart (Path.segments (Path.join [root; base; leaf]))
        (Path.segments (Path.join [Path.dirname (Path.join [root; base; leaf]); idx])) = true.
Proof.
  intros A Pl Pi N. destruct (join_resource root base leaf A Pl) as (l & J & S).
  assert (F : Forall (fun x => plain x = true) (l ++ [leaf]))
    by (rewrite <- S; apply segments_plain).
  rewrite S, J, (dirname_joined _ F), removelast_last.
  apply Forall_app in F. destruct F as [Fl _].
  destruct (segments_join_leaf ("/" ++ JS.join "/" l) idx eq_refl Pi) as [Sb _].
  rewrite Sb, (segments_joined l Fl). now apply siblings_apart.
Qed.

Lemma last_below (A B : list string) (d : string) : B <> [] -> last (A ++ B) d = last B d.
Proof.
  intros N. induction A as [|a A IH]; [reflexivity|].
  cbn [app last]. destruct (A ++ B)%list eqn:E; [|exact IH].
  apply app_eq_nil in E. now destruct E.
Qed.

(** Each of the six kinds that have a barrel writes an index file of
    its own. *)
Lemma index_among (type name answer : string) (config : Config) (st : Structure)
      (root : string) (t : Target) :
  pascal_case_spec name = true ->
  In type ["component"; "hook"; "page"; "service"; "context"; "store"] ->
  addTarget type name config st root answer = Some t ->
  In (index config) (keys (body t)).
Proof.
  intros V I. cbn [In] in I.
  destruct I as [<-|[<-|[<-|[<-|[<-|[<-|[]]]]]]]; unfold addTarget;
    simpl (String.eqb _ _); cbv iota; intros [= <-];
    cbn [body componentTarget hookTarget pageTarget serviceTarget contextTarget storeTarget].
  - rewrite (TemplateFacts.component_keys name config _ V). cbv zeta. unfold pushed.
    destruct (withTests config); cbn [app In]; auto 8.
  - rewrite (TemplateFacts.hook_keys name config). cbv zeta. unfold pushed.
    destruct (withTests config); cbn [app In]; auto 8.
  - rewrite (TemplateFacts.page_keys name config V). cbv zeta. unfold pushed.
    destruct (withTests config); cbn [app In]; auto 8.
  - rewrite (TemplateFacts.service_keys name config). cbv zeta. unfold pushed.
    destruct (withTests config); cbn [app In]; auto 8.
  - rewrite (TemplateFacts.context_keys name config V). cbv zeta. unfold pushed.
    destruct (withTests config); cbn [app In]; auto 8.
  - rewrite (TemplateFacts.store_keys name config). cbv zeta. unfold pushed.
    destruct (withTests config); cbn [app In]; auto 8.
Qed.

Section Created.

Variable reactStructures : string -> option Structure.
Variable nextjsStructures : string -> option Structure.
Variable parseConfig : string -> option Config.

Local Abbreviation addCmd := (addCommand reactStructures nextjsStructures parseConfig).
Local Abbreviation structureFor := (structureOf reactStructures nextjsStructures).
Local Abbreviation holds := (configured parseConfig).
Local Abbreviation loaded w :=
  (let configPath := Path.join [cwd w; ".rchitect.json"] in
   noted (CreadFile configPath) (noted (CreadJson configPath) (noted (CpathExists configPath) w))).

(** The common tail of the [add] functions, when it returns. *)
Lemma create_made (t : Target) (config : Config) (root label shown : string)
      (barrel : option string) (done : string) (w w' : world) :
  startsWith "/" (dir t) = true ->
  Forall (fun k => relative k) (keys (body t)) ->
  NoDup (keys (body t)) ->
  (barrel <> None ->
   forall k, Path.segments (barrelOf t config)
             <> (Path.segments (dir t) ++ split "/" k)%list) ->
  create t config root label shown barrel done w = (Ret tt, w') ->
  subtree (dir t) w = None /\
  made t config w w' /\
  (forall r, barrel = Some r ->
             exists text,
               peek (barrelOf t config) w' = Some text /\
               includes ("from './" ++ r ++ "'") text = true /\
               forall old, peek (barrelOf t config) w = Some old ->
                           exists rest, text = old ++ rest).
Proof.
  intros A F N B R. unfold create in R.
  apply RenameFacts.bind_Ret in R. destruct R as (present & w0 & E0 & R).
  rewrite pathExists_run in E0. injection E0 as <- <-.
  destruct (subtree (dir t) w) as [found|] eqn:S; cbv iota in R.
  { unfold bind, log, exit in R. discriminate R. }
  split; [reflexivity|].
  apply RenameFacts.bind_Ret in R. destruct R as ([] & w1 & E1 & R).
  apply RenameFacts.bind_Ret in R. destruct R as ([] & w2 & E2 & R).
  unfold log in R. injection R as <-.
  destruct (writeFiles_returned (dir t) root A (body t) F N _ _ E1) as (C1 & Made & Other).
  cbn [cwd disk noted] in C1, Other.
  pose proof (WalkFacts.barrel_absolute _ config (WalkFacts.dirname_absolute _ A)) as Ab.
  assert (Place : forall k v u, In (k, v) (body t) ->
                                at_path (Path.join [dir t; k]) u
                                = (Path.segments (dir t) ++ split "/" k)%list).
  { intros k v u I. apply file_place; [exact A|].
    rewrite Forall_forall in F. apply F. apply in_map_iff. now exists (k, v). }
  destruct barrel as [r|].
  - unfold withBarrel in E2.
    apply RenameFacts.bind_Ret in E2. destruct E2 as (res & w3 & E3 & E4).
    unfold log in E4. injection E4 as <-.
    destruct (updateBarrel_keeps_files _ _ _ _ _ _ _ E3) as (C3 & K3).
    rewrite (Kept.at_path_absolute _ w1 Ab) in K3.
    split; [split; [|split]|].
    + cbn [cwd]. congruence.
    + intros k v I. unfold peek, subtree. rewrite (Place k v _ I). cbn [disk].
      rewrite (K3 _ v); [reflexivity | | now apply Made].
      intros E. apply (B ltac:(discriminate) k). now symmetry.
    + intros q c Q Qb L. cbn [disk].
      rewrite (Kept.at_path_absolute _ w Ab) in Qb.
      apply K3; [exact Qb|]. apply Other; [|exact L].
      intros k I. apply in_map_iff in I. destruct I as ([k' v] & Ek & I). cbn [fst] in Ek. subst k'.
      rewrite <- (Place k v w I). apply Q. apply in_map_iff. now exists (k, v).
    + intros r' [= <-].
      destruct (BarrelFacts.mentioned_after _ _ _ _ _ _ _ E3) as (text & St & I).
      exists text. split; [|split; [exact I|]].
      * unfold peek. unfold subtree, at_path in St |- *. cbn [cwd disk]. now rewrite St.
      * intros old P. unfold peek, subtree in P.
        rewrite (Kept.at_path_absolute _ w Ab) in P.
        destruct (lookup (Path.segments (barrelOf t config)) (disk w)) as [[x|es]|] eqn:L;
          try discriminate P.
        injection P as ->.
        assert (L1 : subtree (barrelOf t config) w1 = Some (File old)).
        { unfold subtree. rewrite (Kept.at_path_absolute _ w1 Ab).
          apply Other; [|exact L]. intros k _. apply B. discriminate. }
        pose proof (BarrelFacts.update_outcomes (Path.dirname (dir t)) r
                      (scriptExt (getExtensions config)) root w1) as O.
        rewrite E3 in O.
        destruct O as (_ & _ & [(_ & D & existing & S1 & _)
                               |[(_ & old' & S1 & _ & S3)|(_ & S1 & _)]]).
        -- exists "". rewrite append_nil_r.
           rewrite (BarrelFacts.subtree_same _ w1 w3 C3 D), L1 in St. now injection St.
        -- rewrite L1 in S1. injection S1 as <-. rewrite S3 in St. injection St as <-.
           now eexists.
        -- rewrite L1 in S1. discriminate S1.
  - injection E2 as <-.
    split; [split; [|split]|].
    + cbn [cwd]. exact C1.
    + intros k v I. unfold peek, subtree. rewrite (Place k v _ I). cbn [disk].
      now rewrite (Made k v I).
    + intros q c Q _ L. cbn [disk]. apply Other; [|exact L].
      intros k I. apply in_map_iff in I. destruct I as ([k' v] & Ek & I). cbn [fst] in Ek. subst k'.
      rewrite <- (Place k v w I). apply Q. apply in_map_iff. now exists (k, v).
    + discriminate.
Qed.

(** [addType], which makes no check and has no barrel, when it returns. *)
Lemma type_made (t : Target) (config : Config) (root msg : string) (w w' : world) :
  startsWith "/" (dir t) = true ->
  Forall (fun k => relative k) (keys (body t)) ->
  NoDup (keys (body t)) ->
  (Fs.ensureDir (dir t) ;; writeFiles (body t) (dir t) root ;; log msg) w = (Ret tt, w') ->
  made t config w w'.
Proof.
  intros A F N R.
  apply RenameFacts.bind_Ret in R. destruct R as ([] & w0 & E0 & R).
  apply RenameFacts.bind_Ret in R. destruct R as ([] & w1 & E1 & R).
  unfold log in R. injection R as <-.
  destruct (ensureDir_cases _ _ _ _ E0) as [C0 D0].
  destruct (writeFiles_returned (dir t) root A (body t) F N _ _ E1) as (C1 & Made & Other).
  assert (Place : forall k v u, In (k, v) (body t) ->
                                at_path (Path.join [dir t; k]) u
                                = (Path.segments (dir t) ++ split "/" k)%list).
  { intros k v u I. apply file_place; [exact A|].
    rewrite Forall_forall in F. apply F. apply in_map_iff. now exists (k, v). }
  split; [|split].
  - cbn [cwd]. congruence.
  - intros k v I. unfold peek, subtree. rewrite (Place k v _ I). cbn [disk].
    now rewrite (Made k v I).
  - intros q c Q _ L. cbn [disk]. apply Other.
    + intros k I. apply in_map_iff in I. destruct I as ([k' v] & Ek & I).
      cbn [fst] in Ek. subst k'.
      rewrite <- (Place k v w I). apply Q. apply in_map_iff. now exists (k, v).
    + destruct D0 as [D0|D0]; [now rewrite D0|].
      exact (mkdirs_keeps_files _ q _ _ c D0 L).
Qed.

Local Abbreviation dispatch type name answer config st root :=
  (if String.eqb type "component" then addComponent name config st root answer
   else if String.eqb type "hook" then addHook name config st root
   else if String.eqb type "page" then addPage name config st root
   else if String.eqb type "service" then addService name config st root
   else if String.eqb type "context" then addContext name config st root
   else if String.eqb type "store" then addStore name config st root
   else if String.eqb type "type" then addType name config st root
   else if String.eqb type "api" then addApi name config st root
   else if String.eqb type "feature" then addFeature name config st root
   else ret tt).

Lemma addCommand_run (type name answer : string) (w : world) (config : Config)
      (st : Structure) (t : Target) :
  holds w config -> structureFor config = Some st ->
  addTarget type name config st (cwd w) answer = Some t ->
  addCmd type name answer w = dispatch type name answer config st (cwd w) (loaded w).
Proof.
  intros H S T. unfold addCommand.
  assert (Ta : existsb (String.eqb type) ADD_SUPPORTED_TYPES = true).
  { revert T. unfold addTarget. cbn [existsb ADD_SUPPORTED_TYPES].
    repeat match goal with
           | |- context [if String.eqb type ?s then _ else _] =>
               destruct (String.eqb type s); [now rewrite ?orb_true_r|]
           end.
    discriminate. }
  rewrite Ta. cbn [negb].
  unfold bind at 1. unfold getcwd at 1. cbv iota beta.
  unfold bind at 1. rewrite (loadConfig_run parseConfig w config H). cbv iota beta zeta.
  unfold bind at 1. rewrite (getStructure_run reactStructures nextjsStructures config st _ S).
  reflexivity.
Qed.

Local Abbreviation barrelled :=
  ["component"; "hook"; "page"; "service"; "context"; "store"].

Ltac validated R V :=
  let ok := fresh "ok" in
  let w1 := fresh "w1" in
  let Ev := fresh "Ev" in
  apply RenameFacts.bind_Ret in R; destruct R as (ok & w1 & Ev & R);
  apply validateName_returns in Ev; destruct Ev as [-> V].

(** How a call that returned went: through [addType], or through the
    common tail with the barrel of the six kinds that have one. *)
Lemma added_cases (type name answer : string) (config : Config) (st : Structure)
      (root : string) (t : Target) (w w' : world) :
  addTarget type name config st root answer = Some t ->
  dispatch type name answer config st root w = (Ret tt, w') ->
  pascal_case_spec name = true /\
  ((type = "type" /\
    exists msg, (Fs.ensureDir (dir t) ;; writeFiles (body t) (dir t) root ;; log msg) w
                = (Ret tt, w')) \/
   (type <> "type" /\
    exists label shown barrel done,
      create t config root label shown barrel done w = (Ret tt, w') /\
      (In type barrelled -> barrel <> None) /\
      (forall r, barrel = Some r ->
                 exists base, (r <> "" /\ all_chars is_alnum r = true) /\
                              dir t = Path.join [root; base; r]))).
Proof.
  unfold addTarget.
  destruct (String.eqb type "component") eqn:Q1.
  { apply String.eqb_eq in Q1. subst type. intros [= <-] R. unfold addComponent in R.
    validated R V. split; [exact V|]. right. split; [discriminate|].
    do 4 eexists. split; [exact R|]. split; [discriminate|].
    intros r [= <-]. eexists. split; [|reflexivity].
    destruct (pascal_alnum name V) as [N A]. now split. }
  destruct (String.eqb type "hook") eqn:Q2.
  { apply String.eqb_eq in Q2. subst type. intros [= <-] R. unfold addHook in R.
    validated R V. split; [exact V|]. right. split; [discriminate|].
    do 4 eexists. split; [exact R|]. split; [discriminate|].
    intros r [= <-]. eexists. split; [|reflexivity].
    destruct (hook_word name config V) as [N A]. now split. }
  destruct (String.eqb type "page") eqn:Q3.
  { apply String.eqb_eq in Q3. subst type. intros [= <-] R. unfold addPage in R.
    validated R V. split; [exact V|]. right. split; [discriminate|].
    do 4 eexists. split; [exact R|]. split; [discriminate|].
    intros r [= <-]. eexists. split; [|reflexivity].
    destruct (pascal_alnum name V) as [N A]. now split. }
  destruct (String.eqb type "service") eqn:Q4.
  { apply String.eqb_eq in Q4. subst type. intros [= <-] R. unfold addService in R.
    validated R V. split; [exact V|]. right. split; [discriminate|].
    do 4 eexists. split; [exact R|]. split; [discriminate|].
    intros r [= <-]. eexists. split; [|reflexivity].
    destruct (camel_alnum name V) as [N A].
    unfold serviceTemplate. cbv zeta. cbn [resolvedName].
    split; [apply ResolveFacts.append_nonempty_r; discriminate|].
    now rewrite all_chars_app, A. }
  destruct (String.eqb type "context") eqn:Q5.
  { apply String.eqb_eq in Q5. subst type. intros [= <-] R. unfold addContext in R.
    validated R V. split; [exact V|]. right. split; [discriminate|].
    do 4 eexists. split; [exact R|]. split; [discriminate|].
    intros r [= <-]. eexists. split; [|reflexivity].
    destruct (pascal_alnum name V) as [N A].
    unfold contextTemplate. cbv zeta. cbn [resolvedName].
    split; [apply ResolveFacts.append_nonempty_r; discriminate|].
    now rewrite all_chars_app, A. }
  destruct (String.eqb type "store") eqn:Q6.
  { apply String.eqb_eq in Q6. subst type. intros [= <-] R. unfold addStore in R.
    validated R V. split; [exact V|]. right. split; [discriminate|].
    do 4 eexists. split; [exact R|]. split; [discriminate|].
    intros r [= <-]. eexists. split; [|reflexivity].
    destruct (pascal_alnum name V) as [N A].
    unfold storeTemplate. cbv zeta. cbn [resolvedName].
    split; [discriminate|].
    cbn [all_chars]. now rewrite all_chars_app, A. }
  assert (NB : ~ In type barrelled).
  { intros I. cbn [In] in I.
    destruct I as [<-|[<-|[<-|[<-|[<-|[<-|[]]]]]]]; discriminate. }
  destruct (String.eqb type "type") eqn:Q7.
  { apply String.eqb_eq in Q7. subst type. intros [= <-] R. unfold addType in R.
    validated R V. split; [exact V|]. left. split; [reflexivity|].
    cbv zeta in R. eexists. exact R. }
  assert (NT : type <> "type") by (intros ->; discriminate Q7).
  destruct (String.eqb type "api") eqn:Q8.
  { destruct (String.eqb (framework config) "nextjs") eqn:Fw; [|discriminate].
    destruct (apiPath st) as [apiBase|] eqn:Ap; [|discriminate].
    cbn [option_map]. intros [= <-] R. unfold addApi in R.
    validated R V. rewrite Fw in R. cbn [negb] in R. cbv iota in R.
    unfold callApiPath in R. rewrite Ap in R. unfold bind at 1 in R. unfold ret at 1 in R.
    cbv iota beta zeta in R.
    split; [exact V|]. right. split; [exact NT|].
    do 4 eexists. split; [exact R|]. split; [intros I; now elim NB | discriminate]. }
  destruct (String.eqb type "feature") eqn:Q9; [|discriminate].
  intros [= <-] R. unfold addFeature in R.
  validated R V. split; [exact V|]. right. split; [exact NT|].
  do 4 eexists. split; [exact R|]. split; [intros I; now elim NB | discriminate].
Qed.

(** Everything a successful [add] leaves behind. *)
Lemma add_made (type name answer : string) (w w' : world) (config : Config)
      (st : Structure) (t : Target) :
  holds w config -> structureFor config = Some st ->
  startsWith "/" (cwd w) = true ->
  addTarget type name config st (cwd w) answer = Some t ->
  addCmd type name answer w = (Ret tt, w') ->
  pascal_case_spec name = true /\
  made t config w w' /\
  (type <> "type" -> subtree (dir t) w = None) /\
  (In type barrelled ->
   apart (Path.segments (dir t)) (Path.segments (barrelOf t config)) = true /\
   exists text,
     peek (barrelOf t config) w' = Some text /\
     includes ("from './" ++ Path.basename (dir t) ++ "'") text = true /\
     forall old, peek (barrelOf t config) w = Some old -> exists rest, text = old ++ rest).
Proof.
  intros H S A T R. rewrite (addCommand_run _ _ _ _ _ _ _ H S T) in R.
  destruct (added_cases _ _ _ _ _ _ _ _ _ T R) as (V & Cases). split; [exact V|].
  destruct (target_files _ _ _ _ _ _ _ V T) as (Fp & N & Ad & _).
  specialize (Ad A).
  assert (F : Forall (fun k => relative k) (keys (body t))).
  { apply (Forall_impl _ (P := fun k => placed k)); [|exact Fp]. now intros k [Fk _]. }
  destruct Cases as [(-> & msg & Rt)|(NT & label & shown & barrel & done & Rc & Six & Leaf)].
  - split; [exact (type_made _ config _ _ _ _ Ad F N Rt)|].
    split; [now intros E|]. cbn [In].
    intros [E|[E|[E|[E|[E|[E|[]]]]]]]; discriminate E.
  - assert (B : barrel <> None ->
                forall k, Path.segments (barrelOf t config)
                          <> (Path.segments (dir t) ++ split "/" k)%list).
    { intros NB k. destruct barrel as [r|]; [|now elim NB].
      destruct (Leaf r eq_refl) as (base & [Nr Ar] & ->).
      apply barrel_beside; [exact A | now apply alnum_plain | apply index_plain]. }
    destruct (create_made _ _ _ _ _ _ _ _ _ Ad F N B Rc) as (Free & Made & Mention).
    split; [exact Made|]. split; [intros _; exact Free|].
    intros I. destruct barrel as [r|]; [|now elim (Six I)].
    destruct (Leaf r eq_refl) as (base & [Nr Ar] & Dt).
    pose proof (alnum_plain r Nr Ar) as Pr.
    split.
    + rewrite Dt. apply barrel_apart; [exact A | exact Pr | apply index_plain|].
      intros E. rewrite E in Ar. revert Ar. unfold getExtensions. cbn [scriptExt].
      destruct (String.eqb (language config) "typescript"); discriminate.
    + destruct (Mention r eq_refl) as (text & P & Inc & Pre). exists text.
      split; [exact P|]. split; [|exact Pre]. rewrite Dt.
      destruct (join_resource (cwd w) base r A Pr) as (l & J & Sg).
      rewrite J, basename_joined, last_last; [exact Inc|].
      rewrite <- Sg. apply segments_plain.
Qed.

(** The configuration file is none of the files [add] writes: the
    template's files have names that start with a letter or a digit,
    the barrel is an index file. *)
Lemma config_kept (t : Target) (config : Config) (w w' : world) :
  holds w config ->
  startsWith "/" (cwd w) = true ->
  startsWith "/" (dir t) = true ->
  Forall (fun k => placed k) (keys (body t)) ->
  made t config w w' ->
  holds w' config.
Proof.
  intros (data & P & J) A Ad F (C & _ & Other). exists data. split; [|exact J].
  assert (Pc : plain ".rchitect.json" = true) by reflexivity.
  destruct (segments_join_leaf (cwd w) ".rchitect.json" A Pc) as [Sc Ac].
  unfold peek, subtree in P |- *. rewrite C.
  assert (Same : at_path (Path.join [cwd w; ".rchitect.json"]) w'
                 = at_path (Path.join [cwd w; ".rchitect.json"]) w)
    by (unfold at_path; now rewrite C).
  rewrite Same. rewrite (Kept.at_path_absolute _ w Ac), Sc in P |- *.
  destruct (lookup (Path.segments (cwd w) ++ [".rchitect.json"]) (disk w))
    as [[text|es]|] eqn:L; try discriminate P.
  rewrite (Other _ text); [exact P| | |exact L].
  - intros k I E. rewrite Forall_forall in F. destruct (F k I) as [Fk Lk].
    rewrite (file_place _ k w Ad Fk) in E.
    apply (f_equal (fun l => last l "")) in E.
    rewrite last_last, (last_below _ _ _ (split_from_nonempty "/" k 0)) in E.
    unfold split in Lk. rewrite <- E in Lk. discriminate Lk.
  - intros E. rewrite (barrel_place _ config w Ad) in E.
    apply (f_equal (fun l => last l "")) in E. rewrite !last_last in E.
    revert E. unfold getExtensions. cbn [scriptExt].
    destruct (String.eqb (language config) "typescript"); discriminate.
Qed.

(** Something stands at the directory once the files are in it. *)
Lemma made_present (t : Target) (config : Config) (w w' : world) :
  startsWith "/" (dir t) = true ->
  Forall (fun k => relative k) (keys (body t)) ->
  body t <> [] ->
  made t config w w' ->
  subtree (dir t) w' <> None.
Proof.
  intros Ad F N (_ & Made & _).
  destruct (body t) as [|[k v] rest] eqn:B; [now elim N|].
  specialize (Made k v (or_introl eq_refl)).
  cbn [keys map fst] in F. inversion F as [|? ? Fk _]; subst.
  unfold peek, subtree in Made. rewrite (file_place _ k w' Ad Fk) in Made.
  destruct (lookup (Path.segments (dir t) ++ split "/" k) (disk w')) as [n|] eqn:L;
    [|discriminate Made].
  destruct (lookup_prefix_exists _ _ _ _ L) as (m & Lm).
  unfold subtree. rewrite (Kept.at_path_absolute _ w' Ad), Lm. discriminate.
Qed.

End Created.

End CreateFacts.

Section AddResults.

Variable reactStructures : string -> option Structure.
Variable nextjsStructures : string -> option Structure.
Variable parseConfig : string -> option Config.

Local Abbreviation addCmd := (addCommand reactStructures nextjsStructures parseConfig).
Local Abbreviation removeCmd := (removeCommand reactStructures nextjsStructures parseConfig).
Local Abbreviation structureFor := (structureOf reactStructures nextjsStructures).
Local Abbreviation holds := (configured parseConfig).
Local Abbreviation barrelOf t config :=
  (Path.join [Path.dirname (dir t); "index." ++ scriptExt (getExtensions config)]).

(** X12.  What a successful [add] leaves on the disk.  With an absolute
    working directory, a configuration and its structure in place, when
    the command returns for a type it resolves: the working directory is
    the same; every file of the template is there, below the resolved
    directory, with the template's text; and every file that is neither
    one of these nor the index file beside the resolved directory has
    the text it had. *)
Theorem add_creates_the_template_files :
  forall (type name answer : string) (w w' : world) (config : Config) (st : Structure)
         (t : Target),
    startsWith "/" (cwd w) = true ->
    holds w config ->
    structureFor config = Some st ->
    addTarget type name config st (cwd w) answer = Some t ->
    addCmd type name answer w = (Ret tt, w') ->
    cwd w' = cwd w /\
    (forall k v, In (k, v) (body t) -> peek (Path.join [dir t; k]) w' = Some v) /\
    (forall q c,
        (forall k, In k (keys (body t)) -> q <> at_path (Path.join [dir t; k]) w) ->
        q <> at_path (barrelOf t config) w ->
        lookup q (disk w) = Some (File c) -> lookup q (disk w') = Some (File c)).
Proof.
  intros type name answer w w' config st t A H S T R.
  destruct (CreateFacts.add_made reactStructures nextjsStructures parseConfig
              type name answer w w' config st t H S A T R) as (_ & Made & _).
  exact Made.
Qed.

(** X13.  A new resource is exported from the barrel of its parent
    directory, the export points at an index file, and nothing is taken
    out of the barrel.  For the six types that have a barrel (component,
    hook, page, service, context, store), after an [add] that returned:
    the index file beside the resolved directory is a file whose text
    mentions [from './<directory name>']; the text it had before, if it
    was there, is the beginning of the text it has now; and the resolved
    directory holds an index file of its own. *)
Theorem add_exports_the_resource_from_the_parent_barrel :
  forall (type name answer : string) (w w' : world) (config : Config) (st : Structure)
         (t : Target),
    startsWith "/" (cwd w) = true ->
    holds w config ->
    structureFor config = Some st ->
    In type ["component"; "hook"; "page"; "service"; "context"; "store"] ->
    addTarget type name config st (cwd w) answer = Some t ->
    addCmd type name answer w = (Ret tt, w') ->
    (exists text,
        peek (barrelOf t config) w' = Some text /\
        includes ("from './" ++ Path.basename (dir t) ++ "'") text = true /\
        forall old, peek (barrelOf t config) w = Some old -> exists rest, text = old ++ rest) /\
    peek (Path.join [dir t; "index." ++ scriptExt (getExtensions config)]) w' <> None.
Proof.
  intros type name answer w w' config st t A H S I T R.
  destruct (CreateFacts.add_made reactStructures nextjsStructures parseConfig
              type name answer w w' config st t H S A T R)
    as (V & (_ & Files & _) & _ & Mention).
  split; [exact (proj2 (Mention I))|].
  pose proof (CreateFacts.index_among type name answer config st (cwd w) t V I T) as K.
  apply in_map_iff in K. destruct K as ([k v] & Ek & K). cbn [fst] in Ek. subst k.
  rewrite (Files _ v K). discriminate.
Qed.

(** X14.  [add] is not repeatable, and leaves the configuration alone.
    For every type but [type], after an [add] that returned the
    configuration file still holds the same configuration, and the same
    command run again exits with code 1 and leaves the disk as the first
    run left it. *)
Theorem add_twice_is_refused :
  forall (type name answer : string) (w w1 : world) (config : Config) (st : Structure)
         (t : Target),
    startsWith "/" (cwd w) = true ->
    holds w config ->
    structureFor config = Some st ->
    type <> "type" ->
    addTarget type name config st (cwd w) answer = Some t ->
    addCmd type name answer w = (Ret tt, w1) ->
    holds w1 config /\
    exists w2, addCmd type name answer w1 = (Exit 1, w2) /\ disk w2 = disk w1.
Proof.
  intros type name answer w w1 config st t A H S N T R.
  destruct (CreateFacts.add_made reactStructures nextjsStructures parseConfig
              type name answer w w1 config st t H S A T R) as (V & Made & _).
  destruct (KeyFacts.target_files _ _ _ _ _ _ _ V T) as (Fp & _ & Ad & Nb).
  specialize (Ad A).
  assert (F : Forall (fun k => Forall (fun x => plain x = true) (split "/" k))
                (keys (body t))).
  { refine (Forall_impl _ _ Fp). now intros k [Fk _]. }
  pose proof (CreateFacts.config_kept parseConfig t config w w1 H A Ad Fp Made) as H1.
  split; [exact H1|].
  pose proof (CreateFacts.made_present t config w w1 Ad F Nb Made) as E.
  destruct Made as (C & _).
  rewrite <- C in T.
  destruct (existing_directory_refused reactStructures nextjsStructures parseConfig
              type name answer w1 config st t H1 S N T E) as (w2 & R2 & D2 & _).
  now exists w2.
Qed.

(** X15.  [remove] takes back the directory [add] made, not the export.
    For the six types that have a barrel, when [remove] resolves the
    name to the directory [add] resolved it to: after an [add] that
    returned, a confirmed [remove] of the same name returns and leaves
    nothing at the directory, while the index file beside it still
    mentions [from './<directory name>']. *)
Theorem remove_after_add_leaves_the_export :
  forall (type name answer : string) (w w1 : world) (config : Config) (st : Structure)
         (t : Target),
    startsWith "/" (cwd w) = true ->
    holds w config ->
    structureFor config = Some st ->
    In type ["component"; "hook"; "page"; "service"; "context"; "store"] ->
    addTarget type name config st (cwd w) answer = Some t ->
    resolveTargetDir type name config st (cwd w) = Some (dir t) ->
    addCmd type name answer w = (Ret tt, w1) ->
    exists w2 text,
      removeCmd type name true w1 = (Ret tt, w2) /\
      subtree (dir t) w2 = None /\
      peek (barrelOf t config) w2 = Some text /\
      includes ("from './" ++ Path.basename (dir t) ++ "'") text = true.
Proof.
  intros type name answer w w1 config st t A H S I T Rm R.
  destruct (CreateFacts.add_made reactStructures nextjsStructures parseConfig
              type name answer w w1 config st t H S A T R) as (V & Made & _ & Six).
  destruct (Six I) as (Ap & text & P & Inc & _).
  destruct (KeyFacts.target_files _ _ _ _ _ _ _ V T) as (Fp & _ & Ad & Nb).
  specialize (Ad A).
  assert (F : Forall (fun k => Forall (fun x => plain x = true) (split "/" k))
                (keys (body t))).
  { refine (Forall_impl _ _ Fp). now intros k [Fk _]. }
  pose proof (CreateFacts.config_kept parseConfig t config w w1 H A Ad Fp Made) as H1.
  pose proof (CreateFacts.made_present t config w w1 Ad F Nb Made) as E.
  destruct Made as (C & _). rewrite <- C in A, Rm.
  assert (Tr : In type REMOVE_SUPPORTED_TYPES).
  { cbn [In] in I. cbn [REMOVE_SUPPORTED_TYPES In]. tauto. }
  destruct (confirmed_remove reactStructures nextjsStructures parseConfig
              type name w1 config st (dir t) A Tr V H1 S Rm E)
    as (w2 & Run & Gone & C2 & Rest).
  exists w2, text. split; [exact Run|]. split; [exact Gone|]. split; [|exact Inc].
  pose proof (WalkFacts.barrel_absolute _ config (WalkFacts.dirname_absolute _ Ad)) as Ab.
  unfold peek, subtree in P |- *.
  rewrite (Kept.at_path_absolute _ w1 Ab) in P. rewrite (Kept.at_path_absolute _ w2 Ab).
  rewrite Rest; [exact P|]. now rewrite (Kept.at_path_absolute _ w1 Ad).
Qed.

End AddResults.

Lemma add_creates_the_template_files_witness :
  (startsWith "/" (cwd Fixture.hookProject) = true
   /\ configured Fixture.decode Fixture.hookProject Fixture.baseConfig
   /\ structureOf Fixture.reactStructures Fixture.nextjsStructures Fixture.baseConfig
      = Some Fixture.reactFeatureBased
   /\ addTarget "hook" "Cart" Fixture.baseConfig Fixture.reactFeatureBased
        (cwd Fixture.hookProject) ""
      = Some (hookTarget "Cart" Fixture.baseConfig Fixture.reactFeatureBased "/proj")
   /\ addCommand Fixture.reactStructures Fixture.nextjsStructures Fixture.decode
        "hook" "Cart" "" Fixture.hookProject
      = (Ret tt, snd (addCommand Fixture.reactStructures Fixture.nextjsStructures
                        Fixture.decode "hook" "Cart" "" Fixture.hookProject)))
  /\ peek "/proj/src/hooks/useCart/index.ts"
       (snd (addCommand Fixture.reactStructures Fixture.nextjsStructures
               Fixture.decode "hook" "Cart" "" Fixture.hookProject))
     = Some ("export { default } from './useCart';" ++ nl)
  /\ lookup ["proj"; "src"; "hooks"; "useAuth"; "useAuth.ts"]
       (disk (snd (addCommand Fixture.reactStructures Fixture.nextjsStructures
                     Fixture.decode "hook" "Cart" "" Fixture.hookProject)))
     = Some (File "export default function useAuth() {}").
Proof.
  assert (H : configured Fixture.decode Fixture.hookProject Fixture.baseConfig)
    by (exists (Fixture.encode Fixture.baseConfig); split; vm_compute; reflexivity).
  assert (S : structureOf Fixture.reactStructures Fixture.nextjsStructures Fixture.baseConfig
              = Some Fixture.reactFeatureBased) by reflexivity.
  assert (T : addTarget "hook" "Cart" Fixture.baseConfig Fixture.reactFeatureBased
                (cwd Fixture.hookProject) ""
              = Some (hookTarget "Cart" Fixture.baseConfig Fixture.reactFeatureBased "/proj"))
    by reflexivity.
  assert (R : addCommand Fixture.reactStructures Fixture.nextjsStructures Fixture.decode
                "hook" "Cart" "" Fixture.hookProject
              = (Ret tt, snd (addCommand Fixture.reactStructures Fixture.nextjsStructures
                                Fixture.decode "hook" "Cart" "" Fixture.hookProject)))
    by (vm_compute; reflexivity).
  split; [exact (conj eq_refl (conj H (conj S (conj T R))))|].
  destruct (add_creates_the_template_files
              Fixture.reactStructures Fixture.nextjsStructures Fixture.decode
              "hook" "Cart" "" Fixture.hookProject _ Fixture.baseConfig
              Fixture.reactFeatureBased _ eq_refl H S T R) as (_ & Files & Rest).
  split.
  - etransitivity; [|apply (Files "index.ts"); vm_compute; right; left; reflexivity].
    vm_compute. reflexivity.
  - apply Rest.
    + intros k I. vm_compute in I.
      destruct I as [<-|[<-|[]]]; vm_compute; discriminate.
    + vm_compute. discriminate.
    + vm_compute. reflexivity.
Defined.

Lemma add_exports_the_resource_from_the_parent_barrel_witness :
  (startsWith "/" (cwd Fixture.hookProject) = true
   /\ configured Fixture.decode Fixture.hookProject Fixture.baseConfig
   /\ structureOf Fixture.reactStructures Fixture.nextjsStructures Fixture.baseConfig
      = Some Fixture.reactFeatureBased
   /\ In "hook" ["component"; "hook"; "page"; "service"; "context"; "store"]
   /\ addTarget "hook" "Cart" Fixture.baseConfig Fixture.reactFeatureBased
        (cwd Fixture.hookProject) ""
      = Some (hookTarget "Cart" Fixture.baseConfig Fixture.reactFeatureBased "/proj")
   /\ addCommand Fixture.reactStructures Fixture.nextjsStructures Fixture.decode
        "hook" "Cart" "" Fixture.hookProject
      = (Ret tt, snd (addCommand Fixture.reactStructures Fixture.nextjsStructures
                        Fixture.decode "hook" "Cart" "" Fixture.hookProject)))
  /\ (exists text,
        peek "/proj/src/hooks/index.ts"
          (snd (addCommand Fixture.reactStructures Fixture.nextjsStructures
                  Fixture.decode "hook" "Cart" "" Fixture.hookProject)) = Some text
        /\ includes "from './useCart'" text = true)
  /\ peek "/proj/src/hooks/useCart/index.ts"
       (snd (addCommand Fixture.reactStructures Fixture.nextjsStructures
               Fixture.decode "hook" "Cart" "" Fixture.hookProject)) <> None.
Proof.
  assert (H : configured Fixture.decode Fixture.hookProject Fixture.baseConfig)
    by (exists (Fixture.encode Fixture.baseConfig); split; vm_compute; reflexivity).
  assert (S : structureOf Fixture.reactStructures Fixture.nextjsStructures Fixture.baseConfig
              = Some Fixture.reactFeatureBased) by reflexivity.
  assert (I : In "hook" ["component"; "hook"; "page"; "service"; "context"; "store"])
    by (right; left; reflexivity).
  assert (T : addTarget "hook" "Cart" Fixture.baseConfig Fixture.reactFeatureBased
                (cwd Fixture.hookProject) ""
              = Some (hookTarget "Cart" Fixture.baseConfig Fixture.reactFeatureBased "/proj"))
    by reflexivity.
  assert (R : addCommand Fixture.reactStructures Fixture.nextjsStructures Fixture.decode
                "hook" "Cart" "" Fixture.hookProject
              = (Ret tt, snd (addCommand Fixture.reactStructures Fixture.nextjsStructures
                                Fixture.decode "hook" "Cart" "" Fixture.hookProject)))
    by (vm_compute; reflexivity).
  split; [exact (conj eq_refl (conj H (conj S (conj I (conj T R)))))|].
  destruct (add_exports_the_resource_from_the_parent_barrel
              Fixture.reactStructures Fixture.nextjsStructures Fixture.decode
              "hook" "Cart" "" Fixture.hookProject _ Fixture.baseConfig
              Fixture.reactFeatureBased _ eq_refl H S I T R)
    as ((text & P & Inc & _) & Index).
  split.
  - exists text. split.
    + etransitivity; [|exact P]. vm_compute. reflexivity.
    + etransitivity; [|exact Inc]. vm_compute. reflexivity.
  - intros E. apply Index. etransitivity; [|exact E]. vm_compute. reflexivity.
Defined.

Lemma add_twice_is_refused_witness :
  (startsWith "/" (cwd Fixture.hookProject) = true
   /\ configured Fixture.decode Fixture.hookProject Fixture.baseConfig
   /\ structureOf Fixture.reactStructures Fixture.nextjsStructures Fixture.baseConfig
      = Some Fixture.reactFeatureBased
   /\ "hook" <> "type"
   /\ addTarget "hook" "Cart" Fixture.baseConfig Fixture.reactFeatureBased
        (cwd Fixture.hookProject) ""
      = Some (hookTarget "Cart" Fixture.baseConfig Fixture.reactFeatureBased "/proj")
   /\ addCommand Fixture.reactStructures Fixture.nextjsStructures Fixture.decode
        "hook" "Cart" "" Fixture.hookProject
      = (Ret tt, snd (addCommand Fixture.reactStructures Fixture.nextjsStructures
                        Fixture.decode "hook" "Cart" "" Fixture.hookProject)))
  /\ fst (addCommand Fixture.reactStructures Fixture.nextjsStructures Fixture.decode
            "hook" "Cart" ""
            (snd (addCommand Fixture.reactStructures Fixture.nextjsStructures
                    Fixture.decode "hook" "Cart" "" Fixture.hookProject)))
     = Exit 1.
Proof.
  assert (H : configured Fixture.decode Fixture.hookProject Fixture.baseConfig)
    by (exists (Fixture.encode Fixture.baseConfig); split; vm_compute; reflexivity).
  assert (S : structureOf Fixture.reactStructures Fixture.nextjsStructures Fixture.baseConfig
              = Some Fixture.reactFeatureBased) by reflexivity.
  assert (N : "hook" <> "type") by discriminate.
  assert (T : addTarget "hook" "Cart" Fixture.baseConfig Fixture.reactFeatureBased
                (cwd Fixture.hookProject) ""
              = Some (hookTarget "Cart" Fixture.baseConfig Fixture.reactFeatureBased "/proj"))
    by reflexivity.
  assert (R : addCommand Fixture.reactStructures Fixture.nextjsStructures Fixture.decode
                "hook" "Cart" "" Fixture.hookProject
              = (Ret tt, snd (addCommand Fixture.reactStructures Fixture.nextjsStructures
                                Fixture.decode "hook" "Cart" "" Fixture.hookProject)))
    by (vm_compute; reflexivity).
  split; [exact (conj eq_refl (conj H (conj S (conj N (conj T R)))))|].
  destruct (add_twice_is_refused
              Fixture.reactStructures Fixture.nextjsStructures Fixture.decode
              "hook" "Cart" "" Fixture.hookProject _ Fixture.baseConfig
              Fixture.reactFeatureBased _ eq_refl H S N T R) as (_ & w2 & R2 & _).
  now rewrite R2.
Defined.

Lemma remove_after_add_leaves_the_export_witness :
  (startsWith "/" (cwd Fixture.hookProject) = true
   /\ configured Fixture.decode Fixture.hookProject Fixture.baseConfig
   /\ structureOf Fixture.reactStructures Fixture.nextjsStructures Fixture.baseConfig
      = Some Fixture.reactFeatureBased
   /\ In "hook" ["component"; "hook"; "page"; "service"; "context"; "store"]
   /\ addTarget "hook" "Cart" Fixture.baseConfig Fixture.reactFeatureBased
        (cwd Fixture.hookProject) ""
      = Some (hookTarget "Cart" Fixture.baseConfig Fixture.reactFeatureBased "/proj")
   /\ resolveTargetDir "hook" "Cart" Fixture.baseConfig Fixture.reactFeatureBased
        (cwd Fixture.hookProject)
      = Some (dir (hookTarget "Cart" Fixture.baseConfig Fixture.reactFeatureBased "/proj"))
   /\ addCommand Fixture.reactStructures Fixture.nextjsStructures Fixture.decode
        "hook" "Cart" "" Fixture.hookProject
      = (Ret tt, snd (addCommand Fixture.reactStructures Fixture.nextjsStructures
                        Fixture.decode "hook" "Cart" "" Fixture.hookProject)))
  /\ exists w2 text,
       removeCommand Fixture.reactStructures Fixture.nextjsStructures Fixture.decode
         "hook" "Cart" true
         (snd (addCommand Fixture.reactStructures Fixture.nextjsStructures
                 Fixture.decode "hook" "Cart" "" Fixture.hookProject)) = (Ret tt, w2)
       /\ subtree "/proj/src/hooks/useCart" w2 = None
       /\ peek "/proj/src/hooks/index.ts" w2 = Some text
       /\ includes "from './useCart'" text = true.
Proof.
  assert (H : configured Fixture.decode Fixture.hookProject Fixture.baseConfig)
    by (exists (Fixture.encode Fixture.baseConfig); split; vm_compute; reflexivity).
  assert (S : structureOf Fixture.reactStructures Fixture.nextjsStructures Fixture.baseConfig
              = Some Fixture.reactFeatureBased) by reflexivity.
  assert (I : In "hook" ["component"; "hook"; "page"; "service"; "context"; "store"])
    by (right; left; reflexivity).
  assert (T : addTarget "hook" "Cart" Fixture.baseConfig Fixture.reactFeatureBased
                (cwd Fixture.hookProject) ""
              = Some (hookTarget "Cart" Fixture.baseConfig Fixture.reactFeatureBased "/proj"))
    by reflexivity.
  assert (Rm : resolveTargetDir "hook" "Cart" Fixture.baseConfig Fixture.reactFeatureBased
                 (cwd Fixture.hookProject)
               = Some (dir (hookTarget "Cart" Fixture.baseConfig Fixture.reactFeatureBased
                              "/proj")))
    by (vm_compute; reflexivity).
  assert (R : addCommand Fixture.reactStructures Fixture.nextjsStructures Fixture.decode
                "hook" "Cart" "" Fixture.hookProject
              = (Ret tt, snd (addCommand Fixture.reactStructures Fixture.nextjsStructures
                                Fixture.decode "hook" "Cart" "" Fixture.hookProject)))
    by (vm_compute; reflexivity).
  split; [exact (conj eq_refl (conj H (conj S (conj I (conj T (conj Rm R))))))|].
  destruct (remove_after_add_leaves_the_export
              Fixture.reactStructures Fixture.nextjsStructures Fixture.decode
              "hook" "Cart" "" Fixture.hookProject _ Fixture.baseConfig
              Fixture.reactFeatureBased _ eq_refl H S I T Rm R)
    as (w2 & text & Run & Gone & P & Inc).
  exists w2, text. split; [exact Run|]. split; [|split].
  - etransitivity; [|exact Gone]. unfold subtree, at_path. reflexivity.
  - etransitivity; [|exact P]. unfold peek, subtree, at_path. reflexivity.
  - etransitivity; [|exact Inc]. vm_compute. reflexivity.
Defined.

Section RenameResults.

Variable reactStructures : string -> option Structure.
Variable nextjsStructures : string -> option Structure.
Variable parseConfig : string -> option Config.

Local Abbreviation renameCmd := (renameCommand reactStructures nextjsStructures parseConfig).
Local Abbreviation structureFor := (structureOf reactStructures nextjsStructures).
Local Abbreviation holds := (configured parseConfig).

(** X16.  A [rename] that returns has moved the resource.  With a
    configuration and its structure in place, when the command returns:
    before the call something stood where the old name resolves to and
    nothing where the new name does; after it nothing stands at the old
    place and something at the new one; and the working directory is the
    same. *)
Theorem rename_moves_the_resource :
  forall (type x y : string) (w w' : world) (config : Config) (st : Structure)
         (source target : string),
    holds w config ->
    structureFor config = Some st ->
    resolveDir type x config st (cwd w) = Some source ->
    resolveDir type y config st (cwd w) = Some target ->
    renameCmd type x y w = (Ret tt, w') ->
    (subtree source w <> None /\ subtree target w = None) /\
    (subtree source w' = None /\ subtree target w' <> None) /\
    cwd w' = cwd w.
Proof.
  intros type x y w w' config st source target H S Rx Ry R.
  destruct (renameCommand_lands reactStructures nextjsStructures parseConfig
              type x y w w' config st source target H S R Rx Ry) as (C & There & Gone).
  split; [|split; [split|]]; try assumption.
  assert (Bad : subtree source w = None \/ subtree target w <> None -> False).
  { intros B.
    destruct (rename_refused reactStructures nextjsStructures parseConfig
                type x y w config st source target H S Rx Ry B) as (w1 & E & _).
    rewrite E in R. discriminate R. }
  split.
  - intros E. apply Bad. now left.
  - destruct (subtree target w) eqn:E; [|reflexivity].
    exfalso. apply Bad. right. discriminate.
Qed.

End RenameResults.

Lemma rename_moves_the_resource_witness :
  (configured Fixture.decode Fixture.hookProject Fixture.baseConfig
   /\ structureOf Fixture.reactStructures Fixture.nextjsStructures Fixture.baseConfig
      = Some Fixture.reactFeatureBased
   /\ resolveDir "hook" "Auth" Fixture.baseConfig Fixture.reactFeatureBased
        (cwd Fixture.hookProject) = Some "/proj/src/hooks/useAuth"
   /\ resolveDir "hook" "Payment" Fixture.baseConfig Fixture.reactFeatureBased
        (cwd Fixture.hookProject) = Some "/proj/src/hooks/usePayment"
   /\ renameCommand Fixture.reactStructures Fixture.nextjsStructures Fixture.decode
        "hook" "Auth" "Payment" Fixture.hookProject
      = (Ret tt, Fixture.renamed "hook" "Auth" "Payment" Fixture.hookProject))
  /\ subtree "/proj/src/hooks/useAuth"
       (Fixture.renamed "hook" "Auth" "Payment" Fixture.hookProject) = None
  /\ subtree "/proj/src/hooks/usePayment"
       (Fixture.renamed "hook" "Auth" "Payment" Fixture.hookProject) <> None.
Proof.
  assert (H : configured Fixture.decode Fixture.hookProject Fixture.baseConfig)
    by (exists (Fixture.encode Fixture.baseConfig); split; vm_compute; reflexivity).
  assert (S : structureOf Fixture.reactStructures Fixture.nextjsStructures Fixture.baseConfig
              = Some Fixture.reactFeatureBased) by reflexivity.
  assert (Rx : resolveDir "hook" "Auth" Fixture.baseConfig Fixture.reactFeatureBased
                 (cwd Fixture.hookProject) = Some "/proj/src/hooks/useAuth")
    by (vm_compute; reflexivity).
  assert (Ry : resolveDir "hook" "Payment" Fixture.baseConfig Fixture.reactFeatureBased
                 (cwd Fixture.hookProject) = Some "/proj/src/hooks/usePayment")
    by (vm_compute; reflexivity).
  assert (E : renameCommand Fixture.reactStructures Fixture.nextjsStructures Fixture.decode
                "hook" "Auth" "Payment" Fixture.hookProject
              = (Ret tt, Fixture.renamed "hook" "Auth" "Payment" Fixture.hookProject))
    by (vm_compute; reflexivity).
  split; [exact (conj H (conj S (conj Rx (conj Ry E))))|].
  destruct (rename_moves_the_resource
              Fixture.reactStructures Fixture.nextjsStructures Fixture.decode
              "hook" "Auth" "Payment" Fixture.hookProject _ Fixture.baseConfig
              Fixture.reactFeatureBased _ _ H S Rx Ry E) as (_ & (Gone & There) & _).
  exact (conj Gone There).
Defined.

(* ------------------------------------------------------------------ *)
(** ** When [add] goes through *)
(* ------------------------------------------------------------------ *)

Module RunFacts.
Import SubstFacts PlainFacts TreeFacts RelativeFacts WriteFacts AddFacts.

Local Abbreviation isDir q d := (exists es, lookup q d = Some (Dir es)).
(** No file stands on the way to [P], [P] included. *)
Local Abbreviation clear P d :=
  (forall p c, is_prefix p P = true -> lookup p d <> Some (File c)).

Lemma lookup_empty (q : list string) (n : node) :
  lookup q (Dir []) = Some n -> q = [] /\ n = Dir [].
Proof. destruct q; [now intros [= <-] | discriminate]. Qed.

Lemma lookup_in_file (q : list string) (c : string) (n : node) :
  lookup q (File c) = Some n -> q = [] /\ n = File c.
Proof. destruct q; [now intros [= <-] | discriminate]. Qed.

Lemma is_prefix_nil (p : list string) : is_prefix p [] = true -> p = [].
Proof. destruct p; [reflexivity | discriminate]. Qed.

Lemma is_prefix_length (a b : list string) :
  is_prefix a b = true -> length a <= length b.
Proof.
  revert b. induction a as [|x a IH]; intros [|y b] H; cbn [length]; try lia;
    [discriminate H|].
  cbn [is_prefix] in H. apply andb_true_iff in H. destruct H as [_ H].
  specialize (IH b H). lia.
Qed.

Lemma is_prefix_app_same (T a b : list string) :
  is_prefix (T ++ a) (T ++ b) = is_prefix a b.
Proof.
  induction T as [|x T IH]; [reflexivity|]. cbn [app is_prefix].
  now rewrite String.eqb_refl, IH.
Qed.

Lemma is_prefix_removelast (a b : list string) :
  is_prefix a (removelast b) = true -> is_prefix a b = true.
Proof.
  revert a. induction b as [|y b IH]; intros a H; [exact H|].
  destruct b as [|z b].
  - cbn [removelast] in H. now rewrite (is_prefix_nil a H).
  - change (removelast (y :: z :: b)) with (y :: removelast (z :: b)) in H.
    destruct a as [|x a]; [reflexivity|]. cbn [is_prefix] in H |- *.
    apply andb_true_iff in H. destruct H as [E H]. rewrite E. cbn [andb].
    now apply IH.
Qed.

Lemma removelast_shorter (a : list string) :
  a <> [] -> length (removelast a) < length a.
Proof.
  intros N. destruct (exists_last N) as (r & x & ->).
  rewrite removelast_last, length_app. cbn [length]. lia.
Qed.

(** [mkdir -p] goes through when no file is in the way. *)
Lemma mkdirs_runs (P : list string) :
  forall d, clear P d -> exists d', mkdirs P d = Some d'.
Proof.
  induction P as [|s r IH]; intros d C.
  - destruct d as [c|es]; [now elim (C [] c eq_refl) | now eexists].
  - destruct d as [c|es]; [now elim (C [] c eq_refl)|]. cbn [mkdirs].
    destruct (IH (match assoc s es with Some ch => ch | None => Dir [] end)) as [c' ->];
      [|now eexists].
    intros p c Q L. destruct (assoc s es) as [ch|] eqn:A.
    + apply (C (s :: p) c); cbn [is_prefix lookup]; [now rewrite String.eqb_refl | now rewrite A].
    + apply lookup_empty in L. now destruct L.
Qed.

(** It makes a directory of every place on the way. *)
Lemma mkdirs_made (P : list string) :
  forall d d' p, mkdirs P d = Some d' -> is_prefix p P = true -> isDir p d'.
Proof.
  induction P as [|s r IH]; intros d d' p M Q.
  - rewrite (is_prefix_nil p Q). destruct d as [c|es]; [discriminate M|].
    injection M as <-. now eexists.
  - destruct d as [c|es]; [discriminate M|]. cbn [mkdirs] in M.
    destruct (mkdirs r _) as [c'|] eqn:Mr; [|discriminate M]. injection M as <-.
    destruct p as [|t p]; [now eexists|]. cbn [is_prefix] in Q.
    apply andb_true_iff in Q. destruct Q as [E Q]. apply String.eqb_eq in E. subst t.
    cbn [lookup]. rewrite assoc_put_same. exact (IH _ _ _ Mr Q).
Qed.

(** It makes no file. *)
Lemma mkdirs_files_back (P : list string) :
  forall d d' q c,
    mkdirs P d = Some d' -> lookup q d' = Some (File c) -> lookup q d = Some (File c).
Proof.
  induction P as [|s r IH]; intros d d' q c M L.
  - destruct d as [x|es]; [discriminate M|]. now injection M as <-.
  - destruct d as [x|es]; [discriminate M|]. cbn [mkdirs] in M.
    destruct (mkdirs r _) as [c'|] eqn:Mr; [|discriminate M]. injection M as <-.
    destruct q as [|t q]; [discriminate L|]. cbn [lookup] in L |- *.
    destruct (String.eqb t s) eqn:E.
    + apply String.eqb_eq in E. subst t. rewrite assoc_put_same in L.
      pose proof (IH _ _ _ _ Mr L) as L0.
      destruct (assoc s es) as [ch|]; [exact L0|].
      apply lookup_empty in L0. now destruct L0.
    + apply String.eqb_neq in E. now rewrite (RenameFacts.assoc_put_other s t c' es E) in L.
Qed.

(** The directories it makes are on the way. *)
Lemma mkdirs_dirs_back (P : list string) :
  forall d d' q,
    mkdirs P d = Some d' -> isDir q d' -> isDir q d \/ is_prefix q P = true.
Proof.
  induction P as [|s r IH]; intros d d' q M L.
  - destruct d as [x|es]; [discriminate M|]. injection M as <-. now left.
  - destruct d as [x|es]; [discriminate M|]. cbn [mkdirs] in M.
    destruct (mkdirs r _) as [c'|] eqn:Mr; [|discriminate M]. injection M as <-.
    destruct q as [|t q]; [now right|]. cbn [lookup is_prefix] in L |- *.
    destruct (String.eqb t s) eqn:E.
    + apply String.eqb_eq in E. subst t. rewrite assoc_put_same in L. cbn [andb].
      destruct (IH _ _ _ Mr L) as [[es0 L0]|Q]; [|now right].
      destruct (assoc s es) as [ch|]; [left; now exists es0|].
      apply lookup_empty in L0. destruct L0 as [-> _]. now right.
    + left. apply String.eqb_neq in E.
      now rewrite (RenameFacts.assoc_put_other s t c' es E) in L.
Qed.

(** It keeps every directory. *)
Lemma mkdirs_dirs_forward (P : list string) :
  forall d d' q, mkdirs P d = Some d' -> isDir q d -> isDir q d'.
Proof.
  induction P as [|s r IH]; intros d d' q M L.
  - destruct d as [x|es]; [discriminate M|]. now injection M as <-.
  - destruct d as [x|es]; [discriminate M|]. cbn [mkdirs] in M.
    destruct (mkdirs r _) as [c'|] eqn:Mr; [|discriminate M]. injection M as <-.
    destruct q as [|t q]; [now eexists|]. cbn [lookup] in L |- *.
    destruct (String.eqb t s) eqn:E.
    + apply String.eqb_eq in E. subst t. rewrite assoc_put_same.
      destruct (assoc s es) as [ch|]; [|now destruct L].
      exact (IH _ _ _ Mr L).
    + apply String.eqb_neq in E. now rewrite (RenameFacts.assoc_put_other s t c' es E).
Qed.

(** A file can be written into a directory that is there. *)
Lemma store_runs (F : list string) (x : option node) :
  forall d, F <> [] -> isDir (removelast F) d -> exists d', store F x d = Some d'.
Proof.
  induction F as [|s r IH]; intros d N [es L]; [now elim N|].
  destruct r as [|s' r'].
  - cbn [removelast lookup] in L. injection L as ->. now eexists.
  - change (removelast (s :: s' :: r')) with (s :: removelast (s' :: r')) in L.
    destruct d as [c|es0]; [discriminate L|]. cbn [lookup] in L.
    rewrite store_deeper. destruct (assoc s es0) as [ch|]; [|discriminate L].
    destruct (IH ch) as [c' ->]; [discriminate | now exists es | now eexists].
Qed.

Lemma store_Dir (F : list string) (x : option node) (d d' : node) :
  store F x d = Some d' -> exists es, d' = Dir es.
Proof.
  destruct F as [|s r]; [discriminate|]. destruct d as [c|es]; [discriminate|].
  destruct r as [|s' r'].
  - cbn [store]. intros [= <-]. now eexists.
  - rewrite store_deeper. destruct (assoc s es); [|discriminate].
    destruct (store _ _ _); [|discriminate]. intros [= <-]. now eexists.
Qed.

(** Writing a file makes one file, the one written. *)
Lemma store_files_back (F : list string) (v : string) :
  forall d d' q c,
    store F (Some (File v)) d = Some d' ->
    lookup q d' = Some (File c) -> q = F \/ lookup q d = Some (File c).
Proof.
  induction F as [|s r IH]; intros d d' q c St L; [discriminate St|].
  destruct d as [x|es]; [discriminate St|].
  destruct q as [|t q].
  { destruct (store_Dir _ _ _ _ St) as [es' ->]. discriminate L. }
  destruct r as [|s' r'].
  - cbn [store] in St. injection St as <-. cbn [lookup] in L |- *.
    destruct (String.eqb t s) eqn:E.
    + apply String.eqb_eq in E. subst t. rewrite assoc_put_same in L.
      apply lookup_in_file in L. destruct L as [-> _]. now left.
    + right. apply String.eqb_neq in E.
      now rewrite (RenameFacts.assoc_put_other s t (File v) es E) in L.
  - rewrite store_deeper in St. destruct (assoc s es) as [ch|] eqn:A; [|discriminate St].
    destruct (store (s' :: r') _ ch) as [c'|] eqn:Sr; [|discriminate St].
    injection St as <-. cbn [lookup] in L |- *.
    destruct (String.eqb t s) eqn:E.
    + apply String.eqb_eq in E. subst t. rewrite assoc_put_same in L. rewrite A.
      destruct (IH _ _ _ _ Sr L) as [->|L0]; [now left | now right].
    + right. apply String.eqb_neq in E.
      now rewrite (RenameFacts.assoc_put_other s t c' es E) in L.
Qed.

(** It makes no directory. *)
Lemma store_dirs_back (F : list string) (v : string) :
  forall d d' q,
    store F (Some (File v)) d = Some d' -> isDir q d' -> isDir q d.
Proof.
  induction F as [|s r IH]; intros d d' q St L; [discriminate St|].
  destruct d as [x|es]; [discriminate St|].
  destruct q as [|t q]; [now eexists|].
  destruct r as [|s' r'].
  - cbn [store] in St. injection St as <-. cbn [lookup] in L |- *.
    destruct (String.eqb t s) eqn:E.
    + apply String.eqb_eq in E. subst t. rewrite assoc_put_same in L.
      destruct L as [es0 L]. apply lookup_in_file in L. now destruct L.
    + apply String.eqb_neq in E.
      now rewrite (RenameFacts.assoc_put_other s t (File v) es E) in L.
  - rewrite store_deeper in St. destruct (assoc s es) as [ch|] eqn:A; [|discriminate St].
    destruct (store (s' :: r') _ ch) as [c'|] eqn:Sr; [|discriminate St].
    injection St as <-. cbn [lookup] in L |- *.
    destruct (String.eqb t s) eqn:E.
    + apply String.eqb_eq in E. subst t. rewrite assoc_put_same in L. rewrite A.
      exact (IH _ _ _ Sr L).
    + apply String.eqb_neq in E.
      now rewrite (RenameFacts.assoc_put_other s t c' es E) in L.
Qed.

(** Written where no directory stood, it keeps every directory. *)
Lemma store_dirs_forward (F : list string) (v : string) :
  forall d d' q,
    store F (Some (File v)) d = Some d' ->
    (forall es, lookup F d <> Some (Dir es)) ->
    isDir q d -> isDir q d'.
Proof.
  induction F as [|s r IH]; intros d d' q St ND L; [discriminate St|].
  destruct d as [x|es]; [discriminate St|].
  destruct q as [|t q].
  { destruct (store_Dir _ _ _ _ St) as [es' ->]. now eexists. }
  destruct r as [|s' r'].
  - cbn [store] in St. injection St as <-. cbn [lookup] in L, ND |- *.
    destruct (String.eqb t s) eqn:E.
    + apply String.eqb_eq in E. subst t. exfalso.
      destruct (assoc s es) as [[c|es1]|]; [| now elim (ND es1) | now destruct L].
      destruct L as [es0 L]. apply lookup_in_file in L. now destruct L.
    + apply String.eqb_neq in E.
      now rewrite (RenameFacts.assoc_put_other s t (File v) es E).
  - rewrite store_deeper in St. destruct (assoc s es) as [ch|] eqn:A; [|discriminate St].
    destruct (store (s' :: r') _ ch) as [c'|] eqn:Sr; [|discriminate St].
    injection St as <-. cbn [lookup] in L |- *.
    destruct (String.eqb t s) eqn:E.
    + apply String.eqb_eq in E. subst t. rewrite assoc_put_same. rewrite A in L.
      apply (IH _ _ _ Sr); [|exact L].
      intros es1 L1. apply (ND es1). cbn [lookup]. now rewrite A.
    + apply String.eqb_neq in E.
      now rewrite (RenameFacts.assoc_put_other s t c' es E).
Qed.

(** The parent of a place that is there is a directory. *)
Lemma parent_isDir (l : list string) (x : string) :
  forall d n, lookup (l ++ [x]) d = Some n -> isDir l d.
Proof.
  induction l as [|s l IH]; intros d n L.
  - destruct d as [c|es]; [discriminate L | now eexists].
  - destruct d as [c|es]; [discriminate L|]. cbn [app lookup] in L |- *.
    destruct (assoc s es) as [ch|]; [|discriminate L]. exact (IH _ _ L).
Qed.

Lemma is_prefix_refl (a : list string) : is_prefix a a = true.
Proof. rewrite <- (app_nil_r a) at 2. apply is_prefix_app. Qed.

(** A place on the way to something below [T] is on the way to [T], or
    below it. *)
Lemma is_prefix_below (p T r : list string) :
  is_prefix p (T ++ r) = true -> is_prefix p T = true \/ exists r', p = (T ++ r')%list.
Proof.
  revert p. induction T as [|x T IH]; intros p Q.
  - right. now exists p.
  - destruct p as [|y p]; [now left|]. cbn [app is_prefix] in Q |- *.
    apply andb_true_iff in Q. destruct Q as [E Q]. rewrite E. cbn [andb].
    apply String.eqb_eq in E. subst y.
    destruct (IH p Q) as [H|[r' ->]]; [now left | right; now exists r'].
Qed.

Lemma ensureDir_runs (p : string) (w : world) :
  clear (at_path p w) (disk w) ->
  exists d',
    mkdirs (at_path p w) (disk w) = Some d' /\
    ensureDir p w = (Ret tt, World (cwd w) d' (console w) (calls w ++ [CensureDir p])).
Proof.
  intros C. destruct (mkdirs_runs _ _ C) as [d' M]. exists d'. split; [exact M|].
  unfold ensureDir, bind, record, locate, getdisk, noted, setdisk, throw, ret.
  cbn -[at_path mkdirs].
  change (at_path p {| cwd := cwd w; disk := disk w; console := console w;
                       calls := calls w ++ [CensureDir p] |}) with (at_path p w).
  now rewrite M.
Qed.

Lemma writeFile_runs (p data : string) (w : world) :
  (forall es, lookup (at_path p w) (disk w) <> Some (Dir es)) ->
  at_path p w <> [] ->
  isDir (removelast (at_path p w)) (disk w) ->
  exists d',
    store (at_path p w) (Some (File data)) (disk w) = Some d' /\
    writeFile p data w = (Ret tt, World (cwd w) d' (console w) (calls w ++ [CwriteFile p])).
Proof.
  intros ND N [es L].
  destruct (store_runs _ (Some (File data)) (disk w) N (ex_intro _ es L)) as [d' St].
  exists d'. split; [exact St|].
  unfold writeFile, bind, record, locate, getdisk, noted, parentDir, put_at, setdisk,
    throw, ret.
  cbn -[at_path store lookup].
  change (at_path p {| cwd := cwd w; disk := disk w; console := console w;
                       calls := calls w ++ [CwriteFile p] |}) with (at_path p w).
  destruct (lookup (at_path p w) (disk w)) as [[old|es1]|] eqn:Lp;
    [| now elim (ND es1) |]; rewrite L; cbn -[at_path store lookup]; now rewrite St.
Qed.

Lemma appendFile_runs (p data : string) (w : world) :
  (forall es, lookup (at_path p w) (disk w) <> Some (Dir es)) ->
  at_path p w <> [] ->
  isDir (removelast (at_path p w)) (disk w) ->
  exists w', appendFile p data w = (Ret tt, w').
Proof.
  intros ND N [es L].
  unfold appendFile, bind, record, locate, getdisk, noted, parentDir, put_at, setdisk,
    throw, ret.
  cbn -[at_path store lookup].
  change (at_path p {| cwd := cwd w; disk := disk w; console := console w;
                       calls := calls w ++ [CappendFile p] |}) with (at_path p w).
  destruct (lookup (at_path p w) (disk w)) as [[old|es1]|] eqn:Lp; [| now elim (ND es1) |].
  - destruct (store_runs _ (Some (File (old ++ data))) (disk w) N (ex_intro _ es L))
      as [d' ->]. now eexists.
  - rewrite L. cbn -[at_path store lookup].
    destruct (store_runs _ (Some (File data)) (disk w) N (ex_intro _ es L)) as [d' ->].
    now eexists.
Qed.

Section Barrel.
Import Barrel.

(** The barrel can be brought up to date when it is no directory and
    its parent is one. *)
Lemma updateBarrel_runs (parentDir resourceName ext root : string) (w : world) :
  (forall es, lookup (at_path (Path.join [parentDir; "index." ++ ext]) w) (disk w)
              <> Some (Dir es)) ->
  at_path (Path.join [parentDir; "index." ++ ext]) w <> [] ->
  isDir (removelast (at_path (Path.join [parentDir; "index." ++ ext]) w)) (disk w) ->
  exists res w', updateBarrel parentDir resourceName ext root w = (Ret res, w').
Proof.
  unfold updateBarrel.
  remember (Path.join [parentDir; "index." ++ ext]) as bp eqn:Ebp.
  intros ND N Par. unfold bind at 1. rewrite pathExists_run.
  unfold subtree at 1.
  destruct (lookup (at_path bp w) (disk w)) as [[existing|es]|] eqn:S; cbv iota.
  - unfold bind at 1. rewrite readFile_run.
    change (subtree bp (noted (CpathExists bp) w)) with (lookup (at_path bp w) (disk w)).
    rewrite S. destruct (includes _ existing); [now do 2 eexists|].
    destruct (appendFile_runs bp
                ("export { default as " ++ resourceName ++ " } from './" ++ resourceName
                 ++ "';" ++ nl)
                (noted (CreadFile bp) (noted (CpathExists bp) w))) as [w' E].
    + intros es. change (lookup (at_path bp w) (disk w) <> Some (Dir es)).
      rewrite S. discriminate.
    + exact N.
    + exact Par.
    + unfold bind at 1. rewrite E. now do 2 eexists.
  - now elim (ND es).
  - destruct (writeFile_runs bp
                ("export { default as " ++ resourceName ++ " } from './" ++ resourceName
                 ++ "';" ++ nl)
                (noted (CpathExists bp) w)) as (d' & _ & E).
    + intros es. change (lookup (at_path bp w) (disk w) <> Some (Dir es)).
      rewrite S. discriminate.
    + exact N.
    + exact Par.
    + unfold bind at 1. rewrite E. now do 2 eexists.
Qed.

End Barrel.

Local Abbreviation relative k := (Forall (fun x => plain x = true) (split "/" k)).

(** [writeFiles] goes through when no file stands on the way to a file
    it writes, no directory stands where it writes one, and no file it
    writes is on the way to another. *)
Lemma writeFiles_runs (T root : string) :
  startsWith "/" T = true ->
  forall files : obj,
    Forall (fun k => relative k) (keys files) ->
    NoDup (keys files) ->
    (forall k k', In k (keys files) -> In k' (keys files) ->
                  is_prefix (split "/" k) (split "/" k') = true -> k = k') ->
    forall w,
      (forall k, In k (keys files) ->
                 clear (Path.segments T ++ removelast (split "/" k))%list (disk w)) ->
      (forall k, In k (keys files) ->
                 ~ isDir (Path.segments T ++ split "/" k)%list (disk w)) ->
      exists w',
        writeFiles files T root w = (Ret tt, w') /\
        cwd w' = cwd w /\
        (forall q, isDir q (disk w) -> isDir q (disk w')) /\
        (forall q, isDir q (disk w') ->
                   isDir q (disk w) \/
                   exists k, In k (keys files) /\
                             is_prefix q (Path.segments T ++ removelast (split "/" k))%list
                             = true) /\
        (files <> [] -> isDir (Path.segments T) (disk w')).
Proof.
  intros A files. induction files as [|[k v] rest IH]; intros F N PF w I1 I2.
  - exists w. split; [reflexivity|]. split; [reflexivity|].
    split; [now intros q L|]. split; [intros q L; now left | now intros E].
  - cbn [keys map fst] in F, N, PF, I1, I2.
    inversion F as [|? ? Fk Fr]; subst. inversion N as [|? ? Nk Nr]; subst.
    destruct (segments_join_relative T k A Fk) as [Sf Af].
    destruct (segments_dirname_join T k A Fk) as [Sd Ad].
    pose proof (split_from_nonempty "/" k 0) as Ne. fold (split "/" k) in Ne.
    assert (Short : forall k', is_prefix (split "/" k') (removelast (split "/" k')) = false).
    { intros k'. destruct (is_prefix _ _) eqn:Q; [|reflexivity].
      apply is_prefix_length in Q.
      pose proof (removelast_shorter (split "/" k') (split_from_nonempty "/" k' 0)). lia. }
    assert (Off : forall k1 k2, In k1 (k :: keys rest) -> In k2 (k :: keys rest) ->
                    is_prefix (Path.segments T ++ split "/" k1)
                              (Path.segments T ++ removelast (split "/" k2)) = false).
    { intros k1 k2 In1 In2. rewrite is_prefix_app_same.
      destruct (is_prefix _ _) eqn:Q; [|reflexivity].
      pose proof (PF k1 k2 In1 In2 (is_prefix_removelast _ _ Q)) as E. subst k2.
      now rewrite Short in Q. }
    cbn [writeFiles]. cbv zeta.
    remember (Path.join [T; k]) as full eqn:Ef.
    (* the directory of the file *)
    destruct (ensureDir_runs (Path.dirname full) w) as (d1 & M & E1).
    { rewrite (Kept.at_path_absolute _ w Ad), Sd. apply I1. now left. }
    rewrite (Kept.at_path_absolute _ w Ad), Sd in M.
    unfold bind at 1. rewrite E1.
    assert (ND1 : forall es, lookup (Path.segments T ++ split "/" k) d1 <> Some (Dir es)).
    { intros es L.
      destruct (mkdirs_dirs_back _ _ _ _ M (ex_intro _ es L)) as [L0|Q].
      - now apply (I2 k (or_introl eq_refl)).
      - now rewrite (Off k k (or_introl eq_refl) (or_introl eq_refl)) in Q. }
    (* the file *)
    destruct (writeFile_runs full v
                (World (cwd w) d1 (console w) (calls w ++ [CensureDir (Path.dirname full)])))
      as (d2 & St & E2).
    { rewrite (Kept.at_path_absolute _ _ Af), Sf. exact ND1. }
    { rewrite (Kept.at_path_absolute _ _ Af), Sf. intros E.
      apply app_eq_nil in E. now destruct E. }
    { rewrite (Kept.at_path_absolute _ _ Af), Sf, (removelast_app _ Ne). cbn [disk].
      exact (mkdirs_made _ _ _ _ M (is_prefix_refl _)). }
    rewrite (Kept.at_path_absolute _ _ Af), Sf in St. cbn [disk] in St.
    unfold bind at 1. rewrite E2. unfold bind at 1. unfold log at 1. cbv iota beta.
    (* the rest *)
    match goal with |- exists w', writeFiles rest T root ?u = _ /\ _ =>
      destruct (IH Fr Nr (fun a b Ia Ib => PF a b (or_intror Ia) (or_intror Ib)) u)
        as (w' & R & C & Fw & Bk & _)
    end.
    { intros k' I' p c Q L. cbn [disk] in L.
      destruct (store_files_back _ _ _ _ _ _ St L) as [->|L1].
      - rewrite (Off k k' (or_introl eq_refl) (or_intror I')) in Q. discriminate Q.
      - apply (I1 k' (or_intror I') p c Q). exact (mkdirs_files_back _ _ _ _ _ M L1). }
    { intros k' I' L. cbn [disk] in L.
      pose proof (store_dirs_back _ _ _ _ _ St L) as L1.
      destruct (mkdirs_dirs_back _ _ _ _ M L1) as [L0|Q].
      - now apply (I2 k' (or_intror I')).
      - rewrite (Off k' k (or_intror I') (or_introl eq_refl)) in Q. discriminate Q. }
    cbn [cwd disk] in C, Fw, Bk.
    exists w'. split; [exact R|]. split; [exact C|].
    assert (Step : forall q, isDir q (disk w) -> isDir q d2).
    { intros q L. apply (store_dirs_forward _ _ _ _ _ St ND1).
      exact (mkdirs_dirs_forward _ _ _ _ M L). }
    split; [intros q L; apply Fw, Step, L|]. split.
    + intros q L. destruct (Bk q L) as [L2|(k' & I' & Q)].
      * pose proof (store_dirs_back _ _ _ _ _ St L2) as L1.
        destruct (mkdirs_dirs_back _ _ _ _ M L1) as [L0|Q]; [now left|].
        right. exists k. split; [now left | exact Q].
      * right. exists k'. split; [now right | exact Q].
    + intros _. apply Fw. apply (store_dirs_forward _ _ _ _ _ St ND1).
      apply (mkdirs_made _ _ _ _ M). apply is_prefix_app.
Qed.

End RunFacts.

Module GoesThrough.
Import SubstFacts PathFacts PlainFacts TreeFacts ResourceFacts RelativeFacts WriteFacts.
Import KeyFacts AddFacts CreateFacts RunFacts.

Local Abbreviation isDir q d := (exists es, lookup q d = Some (Dir es)).
Local Abbreviation clear P d :=
  (forall p c, is_prefix p P = true -> lookup p d <> Some (File c)).
Local Abbreviation relative k := (Forall (fun x => plain x = true) (split "/" k)).
Local Abbreviation index config := ("index." ++ scriptExt (getExtensions config)).
Local Abbreviation barrelOf t config := (Path.join [Path.dirname (dir t); index config]).
Local Abbreviation barrelled :=
  ["component"; "hook"; "page"; "service"; "context"; "store"].

(** The directory of a resource and the barrel beside it, as places. *)
Lemma barrel_segments (root base leaf idx : string) :
  startsWith "/" root = true -> plain leaf = true -> plain idx = true ->
  exists l,
    Path.segments (Path.join [root; base; leaf]) = (l ++ [leaf])%list /\
    Path.segments (Path.join [Path.dirname (Path.join [root; base; leaf]); idx])
    = (l ++ [idx])%list.
Proof.
  intros A Pl Pi. destruct (join_resource root base leaf A Pl) as (l & J & S).
  assert (F : Forall (fun x => plain x = true) (l ++ [leaf]))
    by (rewrite <- S; apply segments_plain).
  exists l. split; [exact S|].
  rewrite J, (dirname_joined _ F), removelast_last.
  apply Forall_app in F. destruct F as [Fl _].
  destruct (segments_join_leaf ("/" ++ JS.join "/" l) idx eq_refl Pi) as [Sb _].
  now rewrite Sb, (segments_joined l Fl).
Qed.

(** The common tail of the [add] functions goes through when nothing
    stands at the directory, no file stands on the way to it, and the
    barrel beside it, where one is kept, is no directory. *)
Lemma create_runs (t : Target) (config : Config) (root label shown : string)
      (barrel : option string) (done : string) (w : world) :
  startsWith "/" (dir t) = true ->
  Forall (fun k => relative k) (keys (body t)) ->
  NoDup (keys (body t)) ->
  (forall k k', In k (keys (body t)) -> In k' (keys (body t)) ->
                is_prefix (split "/" k) (split "/" k') = true -> k = k') ->
  body t <> [] ->
  subtree (dir t) w = None ->
  clear (Path.segments (dir t)) (disk w) ->
  (forall r, barrel = Some r ->
             exists l leaf,
               Path.segments (dir t) = (l ++ [leaf])%list /\
               Path.segments (barrelOf t config) = (l ++ [index config])%list /\
               leaf <> index config /\
               forall es, lookup (l ++ [index config]) (disk w) <> Some (Dir es)) ->
  exists w', create t config root label shown barrel done w = (Ret tt, w').
Proof.
  intros A F N PF Nb S Cl Hb. unfold create.
  unfold bind at 1. rewrite pathExists_run, S. cbv iota.
  assert (Free : forall r n, lookup (Path.segments (dir t) ++ r) (disk w) <> Some n).
  { intros r n L. destruct (lookup_prefix_exists _ _ _ _ L) as (m & Lm).
    unfold subtree in S. rewrite (Kept.at_path_absolute _ w A) in S. congruence. }
  destruct (writeFiles_runs (dir t) root A (body t) F N PF (noted (CpathExists (dir t)) w))
    as (w1 & R & C & Fw & Bk & Td).
  { intros k I p c Q L. cbn [disk noted] in L.
    destruct (is_prefix_below _ _ _ Q) as [Q'|[r' ->]];
      [exact (Cl p c Q' L) | exact (Free _ _ L)]. }
  { intros k I [es L]. exact (Free _ _ L). }
  cbn [cwd disk noted] in C, Fw, Bk.
  unfold bind at 1. rewrite R.
  destruct barrel as [r|].
  - destruct (Hb r eq_refl) as (l & leaf & St & Sb & Ne & NDb).
    pose proof (WalkFacts.barrel_absolute _ config (WalkFacts.dirname_absolute _ A)) as Ab.
    destruct (updateBarrel_runs (Path.dirname (dir t)) r (scriptExt (getExtensions config))
                root w1) as (res & w2 & E).
    + rewrite (Kept.at_path_absolute _ w1 Ab), Sb. intros es L.
      destruct (Bk _ (ex_intro _ es L)) as [[es0 L0]|(k & I & Q)]; [exact (NDb es0 L0)|].
      rewrite St, <- app_assoc, is_prefix_app_same in Q. cbn [app is_prefix] in Q.
      apply andb_true_iff in Q. destruct Q as [Q _]. apply String.eqb_eq in Q.
      now apply Ne.
    + rewrite (Kept.at_path_absolute _ w1 Ab), Sb. now destruct l.
    + rewrite (Kept.at_path_absolute _ w1 Ab), Sb, removelast_last.
      destruct (Td Nb) as [es L]. rewrite St in L. exact (parent_isDir _ _ _ _ L).
    + unfold bind at 1. unfold withBarrel. unfold bind at 1. rewrite E.
      unfold log. now eexists.
  - unfold bind at 1. unfold ret at 1. unfold log. now eexists.
Qed.

Local Abbreviation dispatch type name answer config st root :=
  (if String.eqb type "component" then addComponent name config st root answer
   else if String.eqb type "hook" then addHook name config st root
   else if String.eqb type "page" then addPage name config st root
   else if String.eqb type "service" then addService name config st root
   else if String.eqb type "context" then addContext name config st root
   else if String.eqb type "store" then addStore name config st root
   else if String.eqb type "type" then addType name config st root
   else if String.eqb type "api" then addApi name config st root
   else if String.eqb type "feature" then addFeature name config st root
   else ret tt).

Ltac listed Q := intros _; apply String.eqb_eq in Q; rewrite Q; cbn; tauto.

Ltac through V :=
  unfold bind at 1; rewrite (ValidateFacts.validateName_valid _ _ _ V); cbv iota beta zeta.

(** With a valid name, every [add] function but [addType] is its
    common tail. *)
Lemma dispatch_create (type name answer : string) (config : Config) (st : Structure)
      (root : string) (t : Target) (w : world) :
  pascal_case_spec name = true ->
  type <> "type" ->
  addTarget type name config st root answer = Some t ->
  exists label shown barrel done,
    dispatch type name answer config st root w
    = create t config root label shown barrel done w /\
    (forall r, barrel = Some r ->
               exists base, (r <> "" /\ all_chars is_alnum r = true) /\
                            dir t = Path.join [root; base; r]) /\
    (barrel <> None -> In type barrelled).
Proof.
  intros V NT. unfold addTarget.
  destruct (String.eqb type "component") eqn:Q1.
  { intros [= <-]. unfold addComponent. through V.
    do 4 eexists. split; [reflexivity|]. split; [|listed Q1].
    intros r [= <-]. eexists. split; [|reflexivity].
    destruct (pascal_alnum name V) as [N A]. now split. }
  destruct (String.eqb type "hook") eqn:Q2.
  { intros [= <-]. unfold addHook. through V.
    do 4 eexists. split; [reflexivity|]. split; [|listed Q2].
    intros r [= <-]. eexists. split; [|reflexivity].
    destruct (hook_word name config V) as [N A]. now split. }
  destruct (String.eqb type "page") eqn:Q3.
  { intros [= <-]. unfold addPage. through V.
    do 4 eexists. split; [reflexivity|]. split; [|listed Q3].
    intros r [= <-]. eexists. split; [|reflexivity].
    destruct (pascal_alnum name V) as [N A]. now split. }
  destruct (String.eqb type "service") eqn:Q4.
  { intros [= <-]. unfold addService. through V.
    do 4 eexists. split; [reflexivity|]. split; [|listed Q4].
    intros r [= <-]. eexists. split; [|reflexivity].
    destruct (camel_alnum name V) as [N A].
    unfold serviceTemplate. cbv zeta. cbn [resolvedName].
    split; [apply ResolveFacts.append_nonempty_r; discriminate|].
    now rewrite all_chars_app, A. }
  destruct (String.eqb type "context") eqn:Q5.
  { intros [= <-]. unfold addContext. through V.
    do 4 eexists. split; [reflexivity|]. split; [|listed Q5].
    intros r [= <-]. eexists. split; [|reflexivity].
    destruct (pascal_alnum name V) as [N A].
    unfold contextTemplate. cbv zeta. cbn [resolvedName].
    split; [apply ResolveFacts.append_nonempty_r; discriminate|].
    now rewrite all_chars_app, A. }
  destruct (String.eqb type "store") eqn:Q6.
  { intros [= <-]. unfold addStore. through V.
    do 4 eexists. split; [reflexivity|]. split; [|listed Q6].
    intros r [= <-]. eexists. split; [|reflexivity].
    destruct (pascal_alnum name V) as [N A].
    unfold storeTemplate. cbv zeta. cbn [resolvedName].
    split; [discriminate|].
    cbn [all_chars]. now rewrite all_chars_app, A. }
  destruct (String.eqb type "type") eqn:Q7.
  { apply String.eqb_eq in Q7. now elim NT. }
  destruct (String.eqb type "api") eqn:Q8.
  { destruct (String.eqb (framework config) "nextjs") eqn:Fw; [|discriminate].
    destruct (apiPath st) as [apiBase|] eqn:Ap; [|discriminate].
    cbn [option_map]. intros [= <-]. unfold addApi. through V.
    rewrite Fw. cbn [negb]. cbv iota.
    unfold callApiPath. rewrite Ap. unfold bind at 1. unfold ret at 1. cbv iota beta zeta.
    do 4 eexists. split; [reflexivity|]. split; [discriminate | intros X; now elim X]. }
  destruct (String.eqb type "feature") eqn:Q9; [|discriminate].
  intros [= <-]. unfold addFeature. through V.
  do 4 eexists. split; [reflexivity|]. split; [discriminate | intros X; now elim X].
Qed.

End GoesThrough.

Section AddRuns.

Variable reactStructures : string -> option Structure.
Variable nextjsStructures : string -> option Structure.
Variable parseConfig : string -> option Config.

Local Abbreviation addCmd := (addCommand reactStructures nextjsStructures parseConfig).
Local Abbreviation structureFor := (structureOf reactStructures nextjsStructures).
Local Abbreviation holds := (configured parseConfig).
Local Abbreviation barrelOf t config :=
  (Path.join [Path.dirname (dir t); "index." ++ scriptExt (getExtensions config)]).

(** X17.  [add] goes through when nothing is in its way.  With an
    absolute working directory, a configuration and its structure, a
    valid name and a type other than [type] that the command resolves:
    when nothing stands at the resolved directory, no file stands at a
    place on the way to it, and the index file beside it is not a
    directory, the command returns. *)
Theorem add_returns_when_nothing_is_in_the_way :
  forall (type name answer : string) (w : world) (config : Config) (st : Structure)
         (t : Target),
    startsWith "/" (cwd w) = true ->
    holds w config ->
    structureFor config = Some st ->
    pascal_case_spec name = true ->
    type <> "type" ->
    addTarget type name config st (cwd w) answer = Some t ->
    subtree (dir t) w = None ->
    (forall p c, is_prefix p (Path.segments (dir t)) = true ->
                 lookup p (disk w) <> Some (File c)) ->
    (forall es, subtree (barrelOf t config) w <> Some (Dir es)) ->
    exists w', addCmd type name answer w = (Ret tt, w').
Proof.
  intros type name answer w config st t A H S V NT T Free Cl NDb.
  rewrite (CreateFacts.addCommand_run reactStructures nextjsStructures parseConfig
             _ _ _ _ _ _ _ H S T).
  destruct (KeyFacts.target_files _ _ _ _ _ _ _ V T) as (Fp & N & Ad & Nb).
  specialize (Ad A).
  assert (F : Forall (fun k => Forall (fun x => plain x = true) (split "/" k))
                (keys (body t))).
  { refine (Forall_impl _ _ Fp). now intros k [Fk _]. }
  pose proof (KeyFacts.target_prefix_free _ _ _ _ _ _ _ V T) as PF.
  match goal with |- exists w', _ ?u = _ =>
    destruct (GoesThrough.dispatch_create type name answer config st (cwd w) t u V NT T)
      as (label & shown & barrel & done & -> & Leaf & _);
    apply (GoesThrough.create_runs t config (cwd w) label shown barrel done u Ad F N PF Nb)
  end.
  - exact Free.
  - exact Cl.
  - intros r B. destruct (Leaf r B) as (base & [Nr Ar] & Dt).
    pose proof (ResourceFacts.alnum_plain r Nr Ar) as Pr.
    destruct (GoesThrough.barrel_segments (cwd w) base r _ A Pr
                (CreateFacts.index_plain config)) as (l & Sd & Sb).
    rewrite <- Dt in Sd, Sb. exists l, r. split; [exact Sd|]. split; [exact Sb|]. split.
    + intros E. rewrite E in Ar. revert Ar. unfold getExtensions. cbn [scriptExt].
      destruct (String.eqb (language config) "typescript"); discriminate.
    + intros es L. apply (NDb es). unfold subtree.
      pose proof (WalkFacts.barrel_absolute _ config (WalkFacts.dirname_absolute _ Ad)) as Ab.
      now rewrite (Kept.at_path_absolute _ w Ab), Sb.
Qed.

End AddRuns.

Lemma add_returns_when_nothing_is_in_the_way_witness :
  (startsWith "/" (cwd Fixture.hookProject) = true
   /\ configured Fixture.decode Fixture.hookProject Fixture.baseConfig
   /\ structureOf Fixture.reactStructures Fixture.nextjsStructures Fixture.baseConfig
      = Some Fixture.reactFeatureBased
   /\ pascal_case_spec "Cart" = true
   /\ "hook" <> "type"
   /\ addTarget "hook" "Cart" Fixture.baseConfig Fixture.reactFeatureBased
        (cwd Fixture.hookProject) ""
      = Some (hookTarget "Cart" Fixture.baseConfig Fixture.reactFeatureBased "/proj")
   /\ subtree (dir (hookTarget "Cart" Fixture.baseConfig Fixture.reactFeatureBased "/proj"))
        Fixture.hookProject = None
   /\ (forall p c,
          is_prefix p ["proj"; "src"; "hooks"; "useCart"] = true ->
          lookup p (disk Fixture.hookProject) <> Some (File c))
   /\ (forall es, subtree "/proj/src/hooks/index.ts" Fixture.hookProject <> Some (Dir es)))
  /\ fst (addCommand Fixture.reactStructures Fixture.nextjsStructures Fixture.decode
            "hook" "Cart" "" Fixture.hookProject) = Ret tt.
Proof.
  assert (H : configured Fixture.decode Fixture.hookProject Fixture.baseConfig)
    by (exists (Fixture.encode Fixture.baseConfig); split; vm_compute; reflexivity).
  assert (S : structureOf Fixture.reactStructures Fixture.nextjsStructures Fixture.baseConfig
              = Some Fixture.reactFeatureBased) by reflexivity.
  assert (N : "hook" <> "type") by discriminate.
  assert (T : addTarget "hook" "Cart" Fixture.baseConfig Fixture.reactFeatureBased
                (cwd Fixture.hookProject) ""
              = Some (hookTarget "Cart" Fixture.baseConfig Fixture.reactFeatureBased "/proj"))
    by reflexivity.
  assert (Free : subtree
                   (dir (hookTarget "Cart" Fixture.baseConfig Fixture.reactFeatureBased
                           "/proj")) Fixture.hookProject = None)
    by (vm_compute; reflexivity).
  assert (Cl : forall p c,
             is_prefix p ["proj"; "src"; "hooks"; "useCart"] = true ->
             lookup p (disk Fixture.hookProject) <> Some (File c)).
  { intros p c Q L.
    destruct p as [|a p]; [vm_compute in L; discriminate L|].
    cbn [is_prefix] in Q. apply andb_true_iff in Q. destruct Q as [E Q].
    apply String.eqb_eq in E. subst a.
    destruct p as [|a p]; [vm_compute in L; discriminate L|].
    cbn [is_prefix] in Q. apply andb_true_iff in Q. destruct Q as [E Q].
    apply String.eqb_eq in E. subst a.
    destruct p as [|a p]; [vm_compute in L; discriminate L|].
    cbn [is_prefix] in Q. apply andb_true_iff in Q. destruct Q as [E Q].
    apply String.eqb_eq in E. subst a.
    destruct p as [|a p]; [vm_compute in L; discriminate L|].
    cbn [is_prefix] in Q. apply andb_true_iff in Q. destruct Q as [E Q].
    apply String.eqb_eq in E. subst a.
    destruct p as [|a p]; [vm_compute in L; discriminate L | discriminate Q]. }
  assert (B : forall es,
             subtree "/proj/src/hooks/index.ts" Fixture.hookProject <> Some (Dir es))
    by (intros es; vm_compute; discriminate).
  split; [exact (conj eq_refl (conj H (conj S (conj eq_refl (conj N (conj T
                  (conj Free (conj Cl B))))))))|].
  destruct (add_returns_when_nothing_is_in_the_way
              Fixture.reactStructures Fixture.nextjsStructures Fixture.decode
              "hook" "Cart" "" Fixture.hookProject Fixture.baseConfig
              Fixture.reactFeatureBased _ eq_refl H S eq_refl N T Free Cl B) as (w' & R).
  now rewrite R.
Defined.

(* ------------------------------------------------------------------ *)
(** ** The client directive in the generated files *)
(* ------------------------------------------------------------------ *)

Module DirectiveFacts.

Local Abbreviation directed v := (startsWith "'use client';" v).

Lemma obj_set_entries (k v k' v' : string) (o : obj) :
  In (k, v) (obj_set k' v' o) -> (k, v) = (k', v') \/ In (k, v) o.
Proof.
  induction o as [|[k0 v0] o IH]; cbn [obj_set In].
  - intros [E|[]]. now left.
  - destruct (String.eqb k' k0); cbn [In].
    + intros [E|I]; [now left | right; now right].
    + intros [E|I]; [right; now left|].
      destruct (IH I) as [E|I']; [now left | right; now right].
Qed.

(** Every entry of an object literal is one of the properties written. *)
Lemma obj_of_entries (props : list (string * string)) (k v : string) :
  In (k, v) (obj_of props) -> In (k, v) props.
Proof.
  unfold obj_of.
  assert (G : forall o, In (k, v) (fold_left (fun o kv => obj_set (fst kv) (snd kv) o) props o)
                        -> In (k, v) o \/ In (k, v) props).
  { induction props as [|[k0 v0] props IH]; intros o I; [now left|].
    cbn [fold_left fst snd] in I.
    destruct (IH _ I) as [I0|I0]; [|right; now right].
    destruct (obj_set_entries _ _ _ _ _ I0) as [E|I1]; [right; left; now symmetry | now left]. }
  intros I. destruct (G [] I) as [[]|I0]. exact I0.
Qed.

Lemma obj_set_keeps (k v k' v' : string) (o : obj) :
  In (k, v) o -> k <> k' -> In (k, v) (obj_set k' v' o).
Proof.
  intros I0 N. revert I0. induction o as [|[k0 v0] o IH]; [intros []|].
  cbn [obj_set In]. destruct (String.eqb k' k0) eqn:E; cbn [In].
  - apply String.eqb_eq in E. subst k0.
    intros [[= <- <-]|I]; [now elim N | now right].
  - intros [E0|I]; [now left | right; now apply IH].
Qed.

(** The first property written stays, when no later one has its key. *)
Lemma obj_of_first (k v : string) (rest : list (string * string)) :
  ~ In k (map fst rest) -> In (k, v) (obj_of ((k, v) :: rest)).
Proof.
  unfold obj_of. cbn [fold_left fst snd obj_set].
  assert (G : forall o, In (k, v) o -> ~ In k (map fst rest) ->
                        In (k, v) (fold_left (fun o kv => obj_set (fst kv) (snd kv) o) rest o)).
  { induction rest as [|[k0 v0] rest IH]; intros o I N; [exact I|].
    cbn [fold_left fst snd]. apply IH.
    - apply obj_set_keeps; [exact I|]. intros E. apply N. left. now symmetry.
    - intros I0. apply N. now right. }
  intros N. apply G; [now left | exact N].
Qed.

(** Take an entry of a template's object to the property it was
    written as. *)
Ltac entry I :=
  repeat (apply obj_set_entries in I; destruct I as [I|I]; [injection I as -> ->|]);
  try (apply obj_of_entries in I; cbn [In] in I;
       repeat (destruct I as [I|I]; [injection I as <- <-|]));
  try (simpl in I; now destruct I).

(** Read the head of a generated text, the configuration being fixed. *)
Ltac head H := try (vm_compute in H; discriminate H).

Ltac fix_config config :=
  unfold isTS, getExtensions in *; cbn [compExt scriptExt styleExt] in *;
  destruct (String.eqb (framework config) "nextjs") eqn:?Fw,
           (useClient config) eqn:?Uc,
           (String.eqb (language config) "typescript"),
           (String.eqb (styling config) "scss").

Lemma component_directive (name : string) (config : Config) (level : option string)
      (k v : string) :
  In (k, v) (componentTemplate name config level) -> directed v = true ->
  framework config = "nextjs" /\ useClient config = true.
Proof.
  unfold componentTemplate. cbv zeta. intros I H.
  destruct (withTests config); entry I; fix_config config; head H;
    (split; [now apply String.eqb_eq | reflexivity]).
Qed.

Lemma page_directive (name : string) (config : Config) (k v : string) :
  In (k, v) (pageTemplate name config) -> directed v = true ->
  framework config = "nextjs" /\ useClient config = true.
Proof.
  unfold pageTemplate. cbv zeta. intros I H.
  destruct (withTests config); entry I; fix_config config; head H;
    (split; [now apply String.eqb_eq | reflexivity]).
Qed.

Lemma context_directive (name : string) (config : Config) (k v : string) :
  In (k, v) (files (contextTemplate name config)) -> directed v = true ->
  framework config = "nextjs".
Proof.
  unfold contextTemplate. cbv zeta. cbn [files]. intros I H.
  destruct (withTests config); entry I; fix_config config; head H;
    now apply String.eqb_eq.
Qed.

Lemma feature_directive (name : string) (config : Config) (k v : string) :
  In (k, v) (files (featureTemplate name config)) -> directed v = true ->
  framework config = "nextjs" /\ useClient config = true.
Proof.
  unfold featureTemplate. cbv zeta. cbn [files]. intros I H.
  destruct (withTests config); entry I; fix_config config; head H;
    (split; [now apply String.eqb_eq | reflexivity]).
Qed.

Lemma hook_directive (name : string) (config : Config) (k v : string) :
  In (k, v) (files (hookTemplate name config)) -> directed v = false.
Proof.
  unfold hookTemplate. cbv zeta. cbn [files]. intros I.
  destruct (directed v) eqn:H; [|reflexivity].
  destruct (withTests config); entry I; fix_config config; head H.
Qed.

Lemma service_directive (name : string) (config : Config) (k v : string) :
  In (k, v) (files (serviceTemplate name config)) -> directed v = false.
Proof.
  unfold serviceTemplate. cbv zeta. cbn [files]. intros I.
  destruct (directed v) eqn:H; [|reflexivity].
  destruct (withTests config); entry I; fix_config config; head H.
Qed.

Lemma store_directive (name : string) (config : Config) (k v : string) :
  In (k, v) (files (storeTemplate name config)) -> directed v = false.
Proof.
  unfold storeTemplate. cbv zeta. cbn [files]. intros I.
  destruct (directed v) eqn:H; [|reflexivity].
  destruct (withTests config); entry I; fix_config config; head H.
Qed.

Lemma type_directive (name : string) (config : Config) (k v : string) :
  In (k, v) (files (typeTemplate name config)) -> directed v = false.
Proof.
  unfold typeTemplate. cbv zeta. cbn [files]. intros I.
  destruct (directed v) eqn:H; [|reflexivity].
  entry I; fix_config config; head H.
Qed.

Lemma api_directive (name : string) (config : Config) (k v : string) :
  In (k, v) (files (apiTemplate name config)) -> directed v = false.
Proof.
  unfold apiTemplate. cbv zeta. cbn [files]. intros I.
  destruct (directed v) eqn:H; [|reflexivity].
  entry I; fix_config config; head H.
Qed.

Ltac on_nextjs Fw :=
  match goal with
  | |- context [String.eqb (framework ?c) "nextjs"] =>
      replace (String.eqb (framework c) "nextjs") with true
        by (symmetry; now apply String.eqb_eq)
  end.

Ltac fix_extensions config :=
  unfold isTS, getExtensions; cbn [compExt scriptExt styleExt];
  destruct (String.eqb (language config) "typescript"),
           (String.eqb (styling config) "scss").

Ltac other_key := let K := fresh "K" in intros K; TemplateFacts.differ.

Ltac first_key :=
  apply obj_of_first; cbn [map fst In];
  let K := fresh "K" in
  intros K; repeat (destruct K as [K|K]; [TemplateFacts.differ|]); exact K.

Lemma component_directed (name : string) (config : Config) (level : option string) :
  pascal_case_spec name = true ->
  framework config = "nextjs" -> useClient config = true ->
  exists k v, In (k, v) (componentTemplate name config level) /\ directed v = true.
Proof.
  destruct name as [|c s]; [discriminate|]. intros V Fw U.
  apply andb_true_iff in V. destruct V as [Up _].
  unfold componentTemplate. cbv zeta. on_nextjs Fw. rewrite U. cbn [andb clientDirective].
  fix_extensions config; do 2 eexists;
    (split; [destruct (withTests config);
             [apply obj_set_keeps; [first_key | other_key] | first_key]
            | vm_compute; reflexivity]).
Qed.

Lemma page_directed (name : string) (config : Config) :
  pascal_case_spec name = true ->
  framework config = "nextjs" -> useClient config = true ->
  exists k v, In (k, v) (pageTemplate name config) /\ directed v = true.
Proof.
  destruct name as [|c s]; [discriminate|]. intros V Fw U.
  apply andb_true_iff in V. destruct V as [Up _].
  unfold pageTemplate. cbv zeta. on_nextjs Fw. rewrite U. cbn [andb clientDirective].
  fix_extensions config; do 2 eexists;
    (split; [destruct (withTests config);
             [apply obj_set_keeps; [first_key | other_key] | first_key]
            | vm_compute; reflexivity]).
Qed.

Lemma context_directed (name : string) (config : Config) :
  pascal_case_spec name = true ->
  framework config = "nextjs" ->
  exists k v, In (k, v) (files (contextTemplate name config)) /\ directed v = true.
Proof.
  destruct name as [|c s]; [discriminate|]. intros V Fw.
  apply andb_true_iff in V. destruct V as [Up _].
  unfold contextTemplate. cbv zeta. cbn [files]. on_nextjs Fw. cbn [clientDirective].
  fix_extensions config; do 2 eexists;
    (split; [destruct (withTests config);
             [apply obj_set_keeps; [first_key | other_key] | first_key]
            | vm_compute; reflexivity]).
Qed.

Lemma feature_directed (name : string) (config : Config) :
  pascal_case_spec name = true ->
  framework config = "nextjs" -> useClient config = true ->
  exists k v, In (k, v) (files (featureTemplate name config)) /\ directed v = true.
Proof.
  destruct name as [|c s]; [discriminate|]. intros V Fw U.
  apply andb_true_iff in V. destruct V as [Up _].
  unfold featureTemplate. cbv zeta. cbn [files]. on_nextjs Fw. rewrite U.
  cbn [andb clientDirective].
  fix_extensions config; do 2 eexists;
    (split; [destruct (withTests config);
             [apply obj_set_keeps; [apply obj_set_keeps; [first_key | other_key] | other_key]
             | first_key]
            | vm_compute; reflexivity]).
Qed.

End DirectiveFacts.

(** X18.  Which generated files open with the client directive.  For a
    valid name and a type [add] resolves: a file of the template begins
    with ['use client';] only for the types component, page, context and
    feature, only in a Next.js project, and, except for context, only
    when the configuration sets [useClient]; and under exactly these
    conditions one of the template's files does begin with it.  (A
    context file carries the directive in every Next.js project,
    whatever [useClient] says.) *)
Theorem client_directive_follows_the_configuration :
  forall (type name answer : string) (config : Config) (st : Structure) (root : string)
         (t : Target),
    pascal_case_spec name = true ->
    addTarget type name config st root answer = Some t ->
    (forall k v,
        In (k, v) (body t) -> startsWith "'use client';" v = true ->
        In type ["component"; "page"; "context"; "feature"] /\
        framework config = "nextjs" /\
        (type = "context" \/ useClient config = true)) /\
    (In type ["component"; "page"; "context"; "feature"] ->
     framework config = "nextjs" ->
     type = "context" \/ useClient config = true ->
     exists k v, In (k, v) (body t) /\ startsWith "'use client';" v = true).
Proof.
  intros type name answer config st root t V. unfold addTarget.
  destruct (String.eqb type "component") eqn:Q1.
  { apply String.eqb_eq in Q1. subst type. intros [= <-].
    cbn [body componentTarget]. split.
    - intros k v I H. destruct (DirectiveFacts.component_directive _ _ _ _ _ I H) as [Fw U].
      split; [now left|]. split; [exact Fw | now right].
    - intros _ Fw [E|U]; [discriminate E|].
      now apply DirectiveFacts.component_directed. }
  destruct (String.eqb type "hook") eqn:Q2.
  { apply String.eqb_eq in Q2. subst type. intros [= <-]. cbn [body hookTarget]. split.
    - intros k v I H. now rewrite (DirectiveFacts.hook_directive _ _ _ _ I) in H.
    - intros [E|[E|[E|[E|[]]]]]; discriminate E. }
  destruct (String.eqb type "page") eqn:Q3.
  { apply String.eqb_eq in Q3. subst type. intros [= <-]. cbn [body pageTarget]. split.
    - intros k v I H. destruct (DirectiveFacts.page_directive _ _ _ _ I H) as [Fw U].
      split; [right; now left|]. split; [exact Fw | now right].
    - intros _ Fw [E|U]; [discriminate E|].
      now apply DirectiveFacts.page_directed. }
  destruct (String.eqb type "service") eqn:Q4.
  { apply String.eqb_eq in Q4. subst type. intros [= <-]. cbn [body serviceTarget]. split.
    - intros k v I H. now rewrite (DirectiveFacts.service_directive _ _ _ _ I) in H.
    - intros [E|[E|[E|[E|[]]]]]; discriminate E. }
  destruct (String.eqb type "context") eqn:Q5.
  { apply String.eqb_eq in Q5. subst type. intros [= <-]. cbn [body contextTarget]. split.
    - intros k v I H. pose proof (DirectiveFacts.context_directive _ _ _ _ I H) as Fw.
      split; [right; right; now left|]. split; [exact Fw | now left].
    - intros _ Fw _. now apply DirectiveFacts.context_directed. }
  destruct (String.eqb type "store") eqn:Q6.
  { apply String.eqb_eq in Q6. subst type. intros [= <-]. cbn [body storeTarget]. split.
    - intros k v I H. now rewrite (DirectiveFacts.store_directive _ _ _ _ I) in H.
    - intros [E|[E|[E|[E|[]]]]]; discriminate E. }
  destruct (String.eqb type "type") eqn:Q7.
  { apply String.eqb_eq in Q7. subst type. intros [= <-]. cbn [body typeTarget]. split.
    - intros k v I H. now rewrite (DirectiveFacts.type_directive _ _ _ _ I) in H.
    - intros [E|[E|[E|[E|[]]]]]; discriminate E. }
  destruct (String.eqb type "api") eqn:Q8.
  { apply String.eqb_eq in Q8. subst type.
    destruct (String.eqb (framework config) "nextjs"); [|discriminate].
    destruct (apiPath st) as [apiBase|]; [|discriminate]. cbn [option_map].
    intros [= <-]. cbn [body apiTarget]. split.
    - intros k v I H. now rewrite (DirectiveFacts.api_directive _ _ _ _ I) in H.
    - intros [E|[E|[E|[E|[]]]]]; discriminate E. }
  destruct (String.eqb type "feature") eqn:Q9; [|discriminate].
  apply String.eqb_eq in Q9. subst type. intros [= <-]. cbn [body featureTarget]. split.
  - intros k v I H. destruct (DirectiveFacts.feature_directive _ _ _ _ I H) as [Fw U].
    split; [right; right; right; now left|]. split; [exact Fw | now right].
  - intros _ Fw [E|U]; [discriminate E|].
    now apply DirectiveFacts.feature_directed.
Qed.

Lemma client_directive_follows_the_configuration_witness :
  (pascal_case_spec "Theme" = true
   /\ addTarget "context" "Theme" Fixture.nextConfig Fixture.nextjsFeatureBased "/proj" ""
      = Some (contextTarget "Theme" Fixture.nextConfig Fixture.nextjsFeatureBased "/proj"))
  /\ exists k v,
       In (k, v) (body (contextTarget "Theme" Fixture.nextConfig Fixture.nextjsFeatureBased
                          "/proj"))
       /\ startsWith "'use client';" v = true.
Proof.
  assert (T : addTarget "context" "Theme" Fixture.nextConfig Fixture.nextjsFeatureBased
                "/proj" ""
              = Some (contextTarget "Theme" Fixture.nextConfig Fixture.nextjsFeatureBased
                        "/proj")) by reflexivity.
  split; [exact (conj eq_refl T)|].
  destruct (client_directive_follows_the_configuration
              "context" "Theme" "" Fixture.nextConfig Fixture.nextjsFeatureBased "/proj" _
              eq_refl T) as [_ There].
  apply There; [right; right; left; reflexivity | reflexivity | left; reflexivity].
Defined.

(* ------------------------------------------------------------------ *)
(** ** Where the files on the disk after [add] come from *)
(* ------------------------------------------------------------------ *)

Module FilesBack.
Import SubstFacts PathFacts PlainFacts TreeFacts ResourceFacts RelativeFacts WriteFacts.
Import KeyFacts AddFacts CreateFacts RunFacts.

Local Abbreviation relative k := (Forall (fun x => plain x = true) (split "/" k)).
Local Abbreviation index config := ("index." ++ scriptExt (getExtensions config)).
Local Abbreviation barrelOf t config := (Path.join [Path.dirname (dir t); index config]).

Lemma ensureDir_files_back (p : string) (w w' : world) (o : outcome unit) :
  ensureDir p w = (o, w') ->
  forall q c, lookup q (disk w') = Some (File c) -> lookup q (disk w) = Some (File c).
Proof.
  intros R q c L. destruct (ensureDir_cases _ _ _ _ R) as [_ [D|D]]; [now rewrite <- D|].
  exact (mkdirs_files_back _ _ _ _ _ D L).
Qed.

(** A file on the disk after [writeFiles] was there before with the
    same text, or is one of the files written. *)
Lemma writeFiles_files_back (T root : string) :
  startsWith "/" T = true ->
  forall files : obj,
    Forall (fun k => relative k) (keys files) ->
    forall w w',
      writeFiles files T root w = (Ret tt, w') ->
      forall q c,
        lookup q (disk w') = Some (File c) ->
        lookup q (disk w) = Some (File c) \/
        exists k, In k (keys files) /\ q = (Path.segments T ++ split "/" k)%list.
Proof.
  intros A files. induction files as [|[k v] rest IH]; intros F w w' R q c L.
  - injection R as <-. now left.
  - cbn [keys map fst] in F. inversion F as [|? ? Fk Fr]; subst.
    destruct (segments_join_relative T k A Fk) as [Sf Af].
    cbn [writeFiles] in R. cbv zeta in R.
    remember (Path.join [T; k]) as full eqn:Ef.
    apply RenameFacts.bind_Ret in R. destruct R as ([] & w1 & E1 & R).
    apply RenameFacts.bind_Ret in R. destruct R as ([] & w2 & E2 & R).
    apply RenameFacts.bind_Ret in R. destruct R as ([] & w3 & E3 & R).
    unfold log in E3. injection E3 as <-.
    destruct (writeFile_returned _ _ _ _ E2) as (d2 & St & -> & ND).
    rewrite (Kept.at_path_absolute full w1 Af), Sf in St.
    destruct (IH Fr _ _ R q c L) as [L3|(k' & I & E)].
    + cbn [disk] in L3.
      destruct (store_files_back _ _ _ _ _ _ St L3) as [E|L1].
      * right. exists k. split; [now left | exact E].
      * left. exact (ensureDir_files_back _ _ _ _ E1 _ _ L1).
    + right. exists k'. split; [now right | exact E].
Qed.

Section Barrel.
Import Barrel.

(** A file on the disk after [updateBarrel] was there before with the
    same text, or is the barrel. *)
Lemma updateBarrel_files_back (parentDir resourceName ext root : string)
      (w w' : world) (r : BarrelUpdateResult) :
  updateBarrel parentDir resourceName ext root w = (Ret r, w') ->
  forall q c,
    lookup q (disk w') = Some (File c) ->
    lookup q (disk w) = Some (File c) \/
    q = at_path (Path.join [parentDir; "index." ++ ext]) w.
Proof.
  unfold updateBarrel.
  remember (Path.join [parentDir; "index." ++ ext]) as bp eqn:Ebp.
  intros R. apply RenameFacts.bind_Ret in R. destruct R as (present & w1 & E1 & R).
  rewrite pathExists_run in E1. injection E1 as <- <-.
  destruct (subtree bp w) as [nd|] eqn:S; cbv iota in R.
  - apply RenameFacts.bind_Ret in R. destruct R as (existing & w2 & E2 & R).
    rewrite readFile_run in E2.
    destruct (subtree bp (noted (CpathExists bp) w)) as [[data|]|]; try discriminate E2.
    injection E2 as <- <-.
    destruct (includes _ data).
    + injection R as _ <-. intros q c L. now left.
    + apply RenameFacts.bind_Ret in R. destruct R as ([] & w3 & E3 & R).
      injection R as _ <-.
      destruct (appendFile_returned _ _ _ _ E3) as (d' & text & St & -> & ND).
      intros q c L. cbn [disk] in L.
      destruct (store_files_back _ _ _ _ _ _ St L) as [E|L1]; [now right | now left].
  - apply RenameFacts.bind_Ret in R. destruct R as ([] & w3 & E3 & R).
    injection R as _ <-.
    destruct (writeFile_returned _ _ _ _ E3) as (d' & St & -> & ND).
    intros q c L. cbn [disk] in L.
    destruct (store_files_back _ _ _ _ _ _ St L) as [E|L1]; [now right | now left].
Qed.

End Barrel.

(** The common tail of the [add] functions, when it returns: a file on
    the disk was there before with the same text, or is one of the
    files of the template, or is the barrel where one is kept; and a
    file that was there is there still, the barrel apart. *)
Lemma create_exact (t : Target) (config : Config) (root label shown : string)
      (barrel : option string) (done : string) (w w' : world) :
  startsWith "/" (dir t) = true ->
  Forall (fun k => relative k) (keys (body t)) ->
  NoDup (keys (body t)) ->
  create t config root label shown barrel done w = (Ret tt, w') ->
  (forall q c,
      lookup q (disk w') = Some (File c) ->
      lookup q (disk w) = Some (File c) \/
      (exists k, In k (keys (body t)) /\ q = at_path (Path.join [dir t; k]) w) \/
      (barrel <> None /\ q = at_path (barrelOf t config) w)) /\
  (forall q c,
      lookup q (disk w) = Some (File c) ->
      barrel = None \/ q <> at_path (barrelOf t config) w ->
      lookup q (disk w') = Some (File c)).
Proof.
  intros A F N R. unfold create in R.
  apply RenameFacts.bind_Ret in R. destruct R as (present & w0 & E0 & R).
  rewrite pathExists_run in E0. injection E0 as <- <-.
  destruct (subtree (dir t) w) as [found|] eqn:S; cbv iota in R.
  { unfold bind, log, exit in R. discriminate R. }
  apply RenameFacts.bind_Ret in R. destruct R as ([] & w1 & E1 & R).
  apply RenameFacts.bind_Ret in R. destruct R as ([] & w2 & E2 & R).
  unfold log in R. injection R as <-.
  pose proof (writeFiles_files_back (dir t) root A (body t) F _ _ E1) as Back.
  destruct (writeFiles_returned (dir t) root A (body t) F N _ _ E1) as (C1 & _ & Other).
  cbn [cwd disk noted] in Back, C1, Other.
  pose proof (WalkFacts.barrel_absolute _ config (WalkFacts.dirname_absolute _ A)) as Ab.
  assert (Place : forall k u, In k (keys (body t)) ->
                              at_path (Path.join [dir t; k]) u
                              = (Path.segments (dir t) ++ split "/" k)%list).
  { intros k u I. apply file_place; [exact A|].
    rewrite Forall_forall in F. now apply F. }
  assert (Free : forall k q c, lookup q (disk w) = Some (File c) ->
                               q <> (Path.segments (dir t) ++ split "/" k)%list).
  { intros k q c L ->. destruct (lookup_prefix_exists _ _ _ _ L) as (m & Lm).
    unfold subtree in S. rewrite (Kept.at_path_absolute _ w A) in S. congruence. }
  assert (Back1 : forall q c,
             lookup q (disk w1) = Some (File c) ->
             lookup q (disk w) = Some (File c) \/
             exists k, In k (keys (body t)) /\ q = at_path (Path.join [dir t; k]) w).
  { intros q c L. destruct (Back q c L) as [L0|(k & I & ->)]; [now left|].
    right. exists k. split; [exact I | symmetry; now apply Place]. }
  assert (Keep1 : forall q c, lookup q (disk w) = Some (File c) ->
                              lookup q (disk w1) = Some (File c)).
  { intros q c L. apply Other; [|exact L]. intros k _. exact (Free k q c L). }
  destruct barrel as [r|].
  - unfold withBarrel in E2.
    apply RenameFacts.bind_Ret in E2. destruct E2 as (res & w3 & E3 & E4).
    unfold log in E4. injection E4 as <-.
    pose proof (updateBarrel_files_back _ _ _ _ _ _ _ E3) as Back3.
    destruct (updateBarrel_keeps_files _ _ _ _ _ _ _ E3) as (C3 & K3).
    rewrite (Kept.at_path_absolute _ w1 Ab) in Back3, K3.
    split.
    + intros q c L. cbn [disk] in L.
      destruct (Back3 q c L) as [L1|Eq]; [|subst q].
      * destruct (Back1 q c L1) as [L0|X]; [now left | right; now left].
      * right. right. split; [discriminate|].
        now rewrite (Kept.at_path_absolute _ w Ab).
    + intros q c L [X|Q]; [discriminate X|]. cbn [disk].
      rewrite (Kept.at_path_absolute _ w Ab) in Q.
      apply K3; [exact Q | now apply Keep1].
  - injection E2 as <-. split.
    + intros q c L. cbn [disk] in L.
      destruct (Back1 q c L) as [L0|X]; [now left | right; now left].
    + intros q c L _. cbn [disk]. now apply Keep1.
Qed.

(** [addType], past the check of the name, when it returns. *)
Lemma type_exact (t : Target) (root msg : string) (w w' : world) :
  startsWith "/" (dir t) = true ->
  Forall (fun k => relative k) (keys (body t)) ->
  NoDup (keys (body t)) ->
  (Fs.ensureDir (dir t) ;; writeFiles (body t) (dir t) root ;; log msg) w = (Ret tt, w') ->
  (forall q c,
      lookup q (disk w') = Some (File c) ->
      lookup q (disk w) = Some (File c) \/
      exists k, In k (keys (body t)) /\ q = at_path (Path.join [dir t; k]) w) /\
  (forall q c,
      lookup q (disk w) = Some (File c) ->
      (forall k, In k (keys (body t)) -> q <> at_path (Path.join [dir t; k]) w) ->
      lookup q (disk w') = Some (File c)).
Proof.
  intros A F N R.
  apply RenameFacts.bind_Ret in R. destruct R as ([] & w0 & E0 & R).
  apply RenameFacts.bind_Ret in R. destruct R as ([] & w1 & E1 & R).
  unfold log in R. injection R as <-.
  assert (Place : forall k, In k (keys (body t)) ->
                            at_path (Path.join [dir t; k]) w
                            = (Path.segments (dir t) ++ split "/" k)%list).
  { intros k I. apply file_place; [exact A|]. rewrite Forall_forall in F. now apply F. }
  split.
  - intros q c L. cbn [disk] in L.
    destruct (writeFiles_files_back (dir t) root A (body t) F _ _ E1 q c L)
      as [L0|(k & I & ->)].
    + left. exact (ensureDir_files_back _ _ _ _ E0 _ _ L0).
    + right. exists k. split; [exact I | symmetry; now apply Place].
  - intros q c L Q. cbn [disk].
    destruct (writeFiles_returned (dir t) root A (body t) F N _ _ E1) as (_ & _ & Other).
    apply Other.
    + intros k I. rewrite <- (Place k I). now apply Q.
    + destruct (ensureDir_cases _ _ _ _ E0) as [_ [D0|D0]]; [now rewrite D0|].
      exact (mkdirs_keeps_files _ q _ _ c D0 L).
Qed.

End FilesBack.

(* ------------------------------------------------------------------ *)
(** ** When [add] returns *)
(* ------------------------------------------------------------------ *)

Module Returns.
Import SubstFacts PathFacts PlainFacts TreeFacts ResourceFacts RelativeFacts WriteFacts.
Import KeyFacts AddFacts CreateFacts RunFacts GoesThrough FilesBack.

Local Abbreviation isDir q d := (exists es, lookup q d = Some (Dir es)).
Local Abbreviation clear P d :=
  (forall p c, is_prefix p P = true -> lookup p d <> Some (File c)).
Local Abbreviation relative k := (Forall (fun x => plain x = true) (split "/" k)).
Local Abbreviation index config := ("index." ++ scriptExt (getExtensions config)).
Local Abbreviation barrelOf t config := (Path.join [Path.dirname (dir t); index config]).
Local Abbreviation barrelled :=
  ["component"; "hook"; "page"; "service"; "context"; "store"].

(** The one file of a type resource lies in the types directory itself. *)
Lemma type_key_plain (name : string) (config : Config) (k : string) :
  pascal_case_spec name = true ->
  In k (keys (files (typeTemplate name config))) -> plain k = true.
Proof.
  intros V I. destruct (pascal_alnum name V) as [N A].
  rewrite (TemplateFacts.type_keys name config) in I.
  destruct I as [<-|[]]. rewrite append_assoc.
  unfold getExtensions. cbn [scriptExt].
  destruct (String.eqb (language config) "typescript");
    (apply plain_word; [assumption | assumption | reflexivity]).
Qed.

(** [addType], past the check of the name, goes through when no file
    stands on the way to the directory and none of the places it writes
    to is a directory. *)
Lemma type_runs (t : Target) (root msg : string) (w : world) :
  startsWith "/" (dir t) = true ->
  (forall k, In k (keys (body t)) -> plain k = true) ->
  NoDup (keys (body t)) ->
  clear (Path.segments (dir t)) (disk w) ->
  (forall k es, In k (keys (body t)) ->
                lookup (Path.segments (dir t) ++ [k]) (disk w) <> Some (Dir es)) ->
  exists w', (Fs.ensureDir (dir t) ;; writeFiles (body t) (dir t) root ;; log msg) w
             = (Ret tt, w').
Proof.
  intros A P N Cl ND.
  assert (Sp : forall k, In k (keys (body t)) -> split "/" k = [k]).
  { intros k I. destruct (plain_parts k (P k I)) as (_ & S & _). exact (split_noslash k S). }
  assert (F : Forall (fun k => relative k) (keys (body t))).
  { apply Forall_forall. intros k I. rewrite (Sp k I). constructor; [now apply P | constructor]. }
  destruct (ensureDir_runs (dir t) w) as (d' & Mk & E).
  { now rewrite (Kept.at_path_absolute _ w A). }
  rewrite (Kept.at_path_absolute _ w A) in Mk.
  unfold bind at 1. rewrite E.
  destruct (writeFiles_runs (dir t) root A (body t) F N) with
    (w := World (cwd w) d' (console w) (calls w ++ [CensureDir (dir t)]))
    as (w1 & R & _).
  - intros k k' I I' Q. rewrite (Sp k I), (Sp k' I') in Q. cbn [is_prefix] in Q.
    apply andb_true_iff in Q. destruct Q as [Q _]. now apply String.eqb_eq in Q.
  - intros k I p c Q L. cbn [disk] in L. rewrite (Sp k I) in Q. cbn [removelast] in Q.
    rewrite app_nil_r in Q.
    exact (Cl p c Q (mkdirs_files_back _ _ _ _ _ Mk L)).
  - intros k I D. cbn [disk] in D. rewrite (Sp k I) in D.
    destruct (mkdirs_dirs_back _ _ _ _ Mk D) as [[es L]|Q]; [exact (ND k es I L)|].
    apply is_prefix_length in Q. rewrite length_app in Q. cbn [length] in Q. lia.
  - unfold bind at 1. rewrite R. unfold log. now eexists.
Qed.

Section Commands.

Variable reactStructures : string -> option Structure.
Variable nextjsStructures : string -> option Structure.
Variable parseConfig : string -> option Config.

Local Abbreviation addCmd := (addCommand reactStructures nextjsStructures parseConfig).
Local Abbreviation structureFor := (structureOf reactStructures nextjsStructures).
Local Abbreviation holds := (configured parseConfig).
Local Abbreviation loaded w :=
  (let configPath := Path.join [cwd w; ".rchitect.json"] in
   noted (CreadFile configPath) (noted (CreadJson configPath) (noted (CpathExists configPath) w))).

(** [add] returns when nothing is in its way: nothing at the directory
    of the resource (for a type resource, which is written into a
    directory it shares: no directory at the place of its file), no
    file on the way to the directory and, where a barrel is kept, no
    directory at the place of the barrel. *)
Lemma add_runs (type name answer : string) (w : world) (config : Config) (st : Structure)
      (t : Target) :
  startsWith "/" (cwd w) = true ->
  holds w config ->
  structureFor config = Some st ->
  pascal_case_spec name = true ->
  addTarget type name config st (cwd w) answer = Some t ->
  (type <> "type" -> subtree (dir t) w = None) ->
  (type = "type" ->
   forall k es, In k (keys (body t)) -> subtree (Path.join [dir t; k]) w <> Some (Dir es)) ->
  clear (Path.segments (dir t)) (disk w) ->
  (In type barrelled -> forall es, subtree (barrelOf t config) w <> Some (Dir es)) ->
  exists w', addCmd type name answer w = (Ret tt, w').
Proof.
  intros A H S V T Free NDf Cl NDb.
  rewrite (addCommand_run reactStructures nextjsStructures parseConfig _ _ _ _ _ _ _ H S T).
  destruct (target_files _ _ _ _ _ _ _ V T) as (Fp & N & Ad & Nb).
  specialize (Ad A).
  assert (F : Forall (fun k => relative k) (keys (body t))).
  { refine (Forall_impl _ _ Fp). now intros k [Fk _]. }
  destruct (string_dec type "type") as [->|NT].
  - change (addTarget "type" name config st (cwd w) answer)
      with (Some (typeTarget name config st (cwd w))) in T.
    injection T as <-.
    cbn [String.eqb Ascii.eqb Bool.eqb]. unfold addType. through V.
    apply type_runs; [exact Ad | | exact N | exact Cl |].
    + intros k I. exact (type_key_plain name config k V I).
    + intros k es I L. apply (NDf eq_refl k es I). unfold subtree.
      rewrite (file_place _ _ w Ad).
      * destruct (plain_parts k (type_key_plain name config k V I)) as (_ & Sk & _).
        now rewrite (split_noslash k Sk).
      * rewrite Forall_forall in F. now apply F.
  - pose proof (target_prefix_free _ _ _ _ _ _ _ V T) as PF.
    match goal with |- exists w', _ ?u = _ =>
      destruct (dispatch_create type name answer config st (cwd w) t u V NT T)
        as (label & shown & barrel & done & -> & Leaf & Listed);
      apply (create_runs t config (cwd w) label shown barrel done u Ad F N PF Nb)
    end.
    + exact (Free NT).
    + exact Cl.
    + intros r B. destruct (Leaf r B) as (base & [Nr Ar] & Dt).
      pose proof (alnum_plain r Nr Ar) as Pr.
      destruct (barrel_segments (cwd w) base r _ A Pr (index_plain config)) as (l & Sd & Sb).
      rewrite <- Dt in Sd, Sb. exists l, r. split; [exact Sd|]. split; [exact Sb|]. split.
      * intros E. rewrite E in Ar. revert Ar. unfold getExtensions. cbn [scriptExt].
        destruct (String.eqb (language config) "typescript"); discriminate.
      * intros es L.
        assert (I : In type barrelled) by (apply Listed; rewrite B; discriminate).
        apply (NDb I es). unfold subtree.
        pose proof (WalkFacts.barrel_absolute _ config (WalkFacts.dirname_absolute _ Ad)) as Ab.
        now rewrite (Kept.at_path_absolute _ w Ab), Sb.
Qed.

(** What [add] has written when it returns: a file on the disk was
    there before with the same text, or is one of the files of the
    template, or is the barrel of a resource that has one; and a file
    that was there is there still with its text, unless it stood at one
    of those places. *)
Lemma add_exact (type name answer : string) (w w' : world) (config : Config)
      (st : Structure) (t : Target) :
  startsWith "/" (cwd w) = true ->
  holds w config ->
  structureFor config = Some st ->
  addTarget type name config st (cwd w) answer = Some t ->
  addCmd type name answer w = (Ret tt, w') ->
  (forall q c,
      lookup q (disk w') = Some (File c) ->
      lookup q (disk w) = Some (File c) \/
      (exists k, In k (keys (body t)) /\ q = at_path (Path.join [dir t; k]) w) \/
      (In type barrelled /\ q = at_path (barrelOf t config) w)) /\
  (forall q c,
      lookup q (disk w) = Some (File c) ->
      (forall k, In k (keys (body t)) -> q <> at_path (Path.join [dir t; k]) w) ->
      (In type barrelled -> q <> at_path (barrelOf t config) w) ->
      lookup q (disk w') = Some (File c)).
Proof.
  intros A H S T R.
  destruct (add_made reactStructures nextjsStructures parseConfig
              _ _ _ _ _ _ _ _ H S A T R) as (V & Made & _).
  rewrite (addCommand_run reactStructures nextjsStructures parseConfig _ _ _ _ _ _ _ H S T) in R.
  destruct (target_files _ _ _ _ _ _ _ V T) as (Fp & N & Ad & Nb).
  specialize (Ad A).
  assert (F : Forall (fun k => relative k) (keys (body t))).
  { refine (Forall_impl _ _ Fp). now intros k [Fk _]. }
  destruct (string_dec type "type") as [->|NT].
  - destruct (added_cases _ _ _ _ _ _ _ _ _ T R) as (_ & [(_ & msg & Rt)|(NT & _)]);
      [|now elim NT].
    destruct (type_exact t (cwd w) msg _ _ Ad F N Rt) as (Back & Keep).
    cbn [disk noted] in Back, Keep. split.
    + intros q c L. destruct (Back q c L) as [L0|X]; [now left | right; now left].
    + intros q c L Qf _. now apply Keep.
  - match type of R with _ ?u = _ =>
      destruct (dispatch_create type name answer config st (cwd w) t u V NT T)
        as (label & shown & barrel & done & E & _ & Listed)
    end.
    rewrite E in R.
    destruct (create_exact _ _ _ _ _ _ _ _ _ Ad F N R) as (Back & Keep).
    cbn [disk noted] in Back, Keep. split.
    + intros q c L. destruct (Back q c L) as [L0|[X|[B ->]]]; [now left | right; now left|].
      right. right. split; [now apply Listed | reflexivity].
    + intros q c L _ Qb. apply Keep; [exact L|].
      destruct barrel as [r|]; [right | now left].
      apply Qb. apply Listed. discriminate.
Qed.

End Commands.

End Returns.

(* ------------------------------------------------------------------ *)
(** ** The query handler and [add], from a configuration on disk *)
(* ------------------------------------------------------------------ *)

Section Resolution.

Variable reactStructures : string -> option Structure.
Variable nextjsStructures : string -> option Structure.
Variable parseConfig : string -> option Config.

Local Abbreviation resolvePath :=
  (handleResolveResourcePath reactStructures nextjsStructures parseConfig).
Local Abbreviation addCmd := (addCommand reactStructures nextjsStructures parseConfig).
Local Abbreviation structureFor := (structureOf reactStructures nextjsStructures).
Local Abbreviation holds := (configured parseConfig).
Local Abbreviation loaded w :=
  (let configPath := Path.join [cwd w; ".rchitect.json"] in
   noted (CreadFile configPath) (noted (CreadJson configPath) (noted (CpathExists configPath) w))).
Local Abbreviation index config := ("index." ++ scriptExt (getExtensions config)).
Local Abbreviation barrelled :=
  ["component"; "hook"; "page"; "service"; "context"; "store"].

(** [add api] outside Next.js: the error line, exit code 1, the disk as
    it was. *)
Lemma addCommand_api_gate (name answer : string) (w : world) (config : Config)
      (st : Structure) :
  pascal_case_spec name = true ->
  holds w config -> structureFor config = Some st ->
  String.eqb (framework config) "nextjs" = false ->
  exists line,
    addCmd "api" name answer w
    = (Exit 1, World (cwd w) (disk w) (console w ++ [line]) (calls (loaded w))) /\
    includes "Next.js" line = true.
Proof.
  intros V H S F. eexists. split.
  - rewrite (addCommand_api_run reactStructures nextjsStructures parseConfig
               name answer w config st H S).
    unfold addApi. unfold bind at 1.
    rewrite (ValidateFacts.validateName_valid name "api" _ V).
    rewrite F. cbn [negb]. cbv iota. reflexivity.
  - reflexivity.
Qed.

(** [add api] under Next.js with a structure that has no [apiPath]: the
    call of the missing function throws, the disk as it was. *)
Lemma addCommand_api_missing (name answer : string) (w : world) (config : Config)
      (st : Structure) :
  pascal_case_spec name = true ->
  holds w config -> structureFor config = Some st ->
  String.eqb (framework config) "nextjs" = true ->
  apiPath st = None ->
  exists e w', addCmd "api" name answer w = (Throw e, w') /\ disk w' = disk w.
Proof.
  intros V H S F A.
  rewrite (addCommand_api_run reactStructures nextjsStructures parseConfig
             name answer w config st H S).
  unfold addApi. unfold bind at 1.
  rewrite (ValidateFacts.validateName_valid name "api" _ V).
  rewrite F. cbn [negb]. cbv iota.
  unfold bind at 1. unfold callApiPath. rewrite A.
  do 2 eexists. split; reflexivity.
Qed.

(** C1.  The query layer and the add command resolve alike.  Take a
    supported type, a valid PascalCase name, an absolute working
    directory holding a configuration whose pattern names a structure,
    and let the level chosen at add's prompt be the level the query
    uses under atomic-design (the one given, or "atom").  Then either

    - [handleResolveResourcePath] returns a resolution, the [add]
      function of the type resolves too, and the two agree: the
      query's directory, joined onto the working directory, is the
      directory of [add]; the lists of files are the same, in the same
      order; the resolved name of add's template is the query's (for
      component and page, whose templates return none, the query's
      resolved name is the base name of the first file).  And the
      resolution of [add] is what [addCommand] acts on: when it
      returns, every file the query lists is in the query's directory
      with the text of the template, every file on the disk was there
      before with the same text or is one of the listed files or the
      barrel beside the directory, and every other file has kept its
      text; and it does return when nothing is in its way; or

    - the type is [api] and the framework is not Next.js: the query
      returns an error payload and [addCommand] exits with code 1, the
      disk as it was; or

    - the type is [api] under Next.js and the structure has no
      [apiPath]: both throw, the disk as it was. *)
Theorem query_and_add_resolve_alike :
  forall (type name : string) (atomicLevel : option string) (answer : string)
         (config : Config) (st : Structure) (w : world),
    In type SUPPORTED ->
    pascal_case_spec name = true ->
    startsWith "/" (cwd w) = true ->
    holds w config ->
    structureFor config = Some st ->
    (pattern config = "atomic-design" ->
     (if given atomicLevel then atomicLevel else Some "atom") = Some answer) ->
    (exists r t,
        resolvePath type name atomicLevel (cwd w) w
        = (Ret (Reply.ResourcePath r), loaded w) /\
        addTarget type name config st (cwd w) answer = Some t /\
        dir t = Path.join [cwd w; Reply.directory r] /\
        keys (body t) = Reply.files r /\
        (forall n, resolved t = Some n -> n = Reply.resolvedName r) /\
        (resolved t = None ->
         exists ext, hd "" (Reply.files r) = Reply.resolvedName r ++ "." ++ ext) /\
        let target := Path.join [cwd w; Reply.directory r] in
        let barrel := Path.join [Path.dirname target; index config] in
        (forall w',
            addCmd type name answer w = (Ret tt, w') ->
            cwd w' = cwd w /\
            (forall f, In f (Reply.files r) ->
                       exists text, In (f, text) (body t) /\
                                    peek (Path.join [target; f]) w' = Some text) /\
            (forall q c,
                lookup q (disk w') = Some (File c) ->
                lookup q (disk w) = Some (File c) \/
                (exists f, In f (Reply.files r) /\ q = at_path (Path.join [target; f]) w) \/
                (In type barrelled /\ q = at_path barrel w)) /\
            (forall q c,
                lookup q (disk w) = Some (File c) ->
                (forall f, In f (Reply.files r) -> q <> at_path (Path.join [target; f]) w) ->
                (In type barrelled -> q <> at_path barrel w) ->
                lookup q (disk w') = Some (File c))) /\
        ((type <> "type" -> subtree target w = None) ->
         (type = "type" ->
          forall f es, In f (Reply.files r) ->
                       subtree (Path.join [target; f]) w <> Some (Dir es)) ->
         (forall p c, is_prefix p (Path.segments target) = true ->
                      lookup p (disk w) <> Some (File c)) ->
         (In type barrelled -> forall es, subtree barrel w <> Some (Dir es)) ->
         exists w', addCmd type name answer w = (Ret tt, w')))
    \/ (type = "api" /\ framework config <> "nextjs" /\
        (exists msg,
            resolvePath type name atomicLevel (cwd w) w = (Ret (Reply.Error msg), loaded w) /\
            addTarget type name config st (cwd w) answer = None) /\
        exists w', addCmd type name answer w = (Exit 1, w') /\ disk w' = disk w)
    \/ (type = "api" /\ framework config = "nextjs" /\ apiPath st = None /\
        (exists e,
            resolvePath type name atomicLevel (cwd w) w = (Throw e, loaded w) /\
            addTarget type name config st (cwd w) answer = None) /\
        exists e w', addCmd type name answer w = (Throw e, w') /\ disk w' = disk w).
Proof.
  intros type name atomicLevel answer config st w T V A H S L.
  assert (D : cwd w <> "") by (intros E; rewrite E in A; discriminate A).
  pose proof (switch_and_target_alike type name atomicLevel answer config st (cwd w)
                (loaded w) T V D L) as M.
  rewrite (resolvePath_run reactStructures nextjsStructures parseConfig
             type name atomicLevel w config T H), S.
  destruct (resolveSwitch type name atomicLevel config (Some st) (loaded w))
    as [[[msg| | |r]|code|e] w0] eqn:Sw;
    destruct (addTarget type name config st (cwd w) answer) as [t|] eqn:Tg;
    cbv beta iota in M; try contradiction.
  - (* the error payload *)
    right. left. destruct M as [-> F]. split; [reflexivity|]. split; [exact F|].
    apply String.eqb_neq in F.
    rewrite (ResolveFacts.switch_api_elsewhere name atomicLevel config st (loaded w) F) in Sw.
    injection Sw as <- <-. split.
    + eexists. split; reflexivity.
    + destruct (addCommand_api_gate name answer w config st V H S F) as (line & E & _).
      eexists. split; [exact E | reflexivity].
  - (* a resolution *)
    left. destruct M as (-> & Dt & Ks & Rn & Rf). exists r, t.
    split; [reflexivity|]. split; [reflexivity|]. split; [now symmetry|].
    split; [exact Ks|]. split; [exact Rn|].
    split; [intros N; rewrite <- Ks; exact (Rf N)|].
    rewrite Dt. rewrite <- Ks. cbv zeta. split.
    + intros w' R.
      destruct (CreateFacts.add_made reactStructures nextjsStructures parseConfig
                  _ _ _ _ _ _ _ _ H S A Tg R) as (_ & (C & Made & _) & _).
      destruct (Returns.add_exact reactStructures nextjsStructures parseConfig
                  _ _ _ _ _ _ _ _ A H S Tg R) as (Back & Keep).
      split; [exact C|]. split; [|split; [exact Back | exact Keep]].
      intros f I. apply in_map_iff in I. destruct I as ([k text] & Ek & I).
      cbn [fst] in Ek. subst k. exists text. split; [exact I | now apply Made].
    + intros Free NDf Cl NDb.
      exact (Returns.add_runs reactStructures nextjsStructures parseConfig
               _ _ _ _ _ _ _ A H S V Tg Free NDf Cl NDb).
  - (* the missing function *)
    right. right. destruct M as [-> Ap]. split; [reflexivity|].
    destruct (String.eqb (framework config) "nextjs") eqn:F.
    + destruct (ResolveFacts.switch_api_missing name atomicLevel config st (loaded w) F Ap)
        as [e' Sw'].
      rewrite Sw' in Sw. injection Sw as <- <-.
      split; [now apply String.eqb_eq|]. split; [exact Ap|]. split.
      * exists e'. split; reflexivity.
      * exact (addCommand_api_missing name answer w config st V H S F Ap).
    + rewrite (ResolveFacts.switch_api_elsewhere name atomicLevel config st (loaded w) F) in Sw.
      discriminate Sw.
Qed.


(** C9.  API routes need Next.js.  With a valid PascalCase name and a
    configuration on disk whose pattern names a structure:

    - under framework [react], [handleResolveResourcePath] returns an
      error payload that mentions Next.js, and no directory; [add]
      prints an error line that mentions Next.js and exits with code 1,
      the disk as it was;

    - under framework [nextjs], with the structure's [apiPath], the
      query returns the directory [apiPath()/camelCase(name)] and the
      one file [route.S]; and [add], from an absolute working directory
      with nothing at that directory and no file on the way to it,
      returns, having made the directory and, in it, the file [route.S]
      with the text of the template, every other file of the disk as it
      was and no further file added. *)
Theorem api_needs_nextjs :
  forall (name answer : string) (atomicLevel : option string) (config : Config)
         (st : Structure) (w : world),
    pascal_case_spec name = true ->
    holds w config ->
    structureFor config = Some st ->
    (framework config = "react" ->
     (exists msg,
         resolvePath "api" name atomicLevel (cwd w) w = (Ret (Reply.Error msg), loaded w) /\
         includes "Next.js" msg = true) /\
     (exists line,
         addCmd "api" name answer w
         = (Exit 1, World (cwd w) (disk w) (console w ++ [line]) (calls (loaded w))) /\
         includes "Next.js" line = true)) /\
    (framework config = "nextjs" ->
     forall apiBase, apiPath st = Some apiBase ->
       let route := "route." ++ scriptExt (getExtensions config) in
       let target := Path.join [cwd w; apiBase; toCamelCase name] in
       (exists r,
           resolvePath "api" name atomicLevel (cwd w) w
           = (Ret (Reply.ResourcePath r), loaded w) /\
           Reply.directory r = apiBase ++ "/" ++ toCamelCase name /\
           Reply.files r = [route] /\
           Reply.resolvedName r = toCamelCase name) /\
       (startsWith "/" (cwd w) = true ->
        subtree target w = None ->
        (forall p c, is_prefix p (Path.segments target) = true ->
                     lookup p (disk w) <> Some (File c)) ->
        exists w' text,
          addCmd "api" name answer w = (Ret tt, w') /\
          cwd w' = cwd w /\
          files (apiTemplate name config) = [(route, text)] /\
          subtree target w' <> None /\
          peek (Path.join [target; route]) w' = Some text /\
          (forall q c,
              lookup q (disk w') = Some (File c) ->
              lookup q (disk w) = Some (File c) \/ q = at_path (Path.join [target; route]) w) /\
          (forall q c,
              lookup q (disk w) = Some (File c) -> lookup q (disk w') = Some (File c)))).
Proof.
  intros name answer atomicLevel config st w V H S.
  destruct (api_resolution reactStructures nextjsStructures parseConfig
              name answer atomicLevel config st w V H S) as [React Next].
  split.
  - intros F. destruct (React F) as (Q & Ad & _). split; [exact Q | exact Ad].
  - intros F apiBase Ap route target.
    destruct (Next F apiBase Ap) as [Q (t & Tg & Dt & Ks & _)].
    split; [exact Q|].
    intros A Free Cl. fold target in Dt. fold route in Ks.
    assert (NT : "api" <> "type") by discriminate.
    assert (NB : ~ In "api" barrelled).
    { cbn [In]. intros [E|[E|[E|[E|[E|[E|[]]]]]]]; discriminate E. }
    destruct (Returns.add_runs reactStructures nextjsStructures parseConfig
                "api" name answer w config st t A H S V Tg) as (w' & R).
    { intros _. now rewrite Dt. }
    { intros E. discriminate E. }
    { now rewrite Dt. }
    { intros I. now elim NB. }
    destruct (CreateFacts.add_made reactStructures nextjsStructures parseConfig
                _ _ _ _ _ _ _ _ H S A Tg R) as (_ & Made & _).
    destruct (Returns.add_exact reactStructures nextjsStructures parseConfig
                _ _ _ _ _ _ _ _ A H S Tg R) as (Back & Keep).
    destruct (KeyFacts.target_files _ _ _ _ _ _ _ V Tg) as (Fp & N & Ad & Nb).
    specialize (Ad A).
    assert (Fr : Forall (fun k => Forall (fun x => plain x = true) (split "/" k))
                   (keys (body t))).
    { refine (Forall_impl _ _ Fp). now intros k [Fk _]. }
    pose proof (CreateFacts.made_present t config w w' Ad Fr Nb Made) as Present.
    assert (B : body t = files (apiTemplate name config)).
    { revert Tg. unfold addTarget. cbn [String.eqb Ascii.eqb Bool.eqb].
      destruct (String.eqb (framework config) "nextjs"); [|discriminate].
      rewrite Ap. cbn [option_map]. now intros [= <-]. }
    rewrite B in Ks.
    destruct (files (apiTemplate name config)) as [|[k text] [|more]] eqn:Fl;
      try discriminate Ks.
    cbn [keys map fst] in Ks. injection Ks as ->.
    destruct Made as (C & Written & _).
    rewrite B in Written, Back, Keep. rewrite Dt in Written, Back, Keep, Present.
    exists w', text.
    split; [exact R|]. split; [exact C|]. split; [reflexivity|]. split; [exact Present|].
    split; [apply Written; now left|]. split.
    + intros q c L. destruct (Back q c L) as [L0|[(k & [<-|[]] & E)|[I _]]];
        [now left | now right | now elim NB].
    + intros q c L. apply (Keep q c L); [|intros I; now elim NB].
      intros k [<-|[]] E. cbn [fst] in E.
      rewrite (CreateFacts.file_place target route w) in E.
      * rewrite E in L. destruct (AddFacts.lookup_prefix_exists _ _ _ _ L) as (m & Lm).
        unfold subtree in Free. rewrite <- Dt in Free, Lm.
        rewrite (Kept.at_path_absolute _ w Ad) in Free. congruence.
      * now rewrite <- Dt.
      * rewrite Forall_forall in Fr. apply Fr. rewrite B. now left.
Qed.

End Resolution.

(** No file stands on the way to a place when none stands at any of
    its prefixes. *)
Lemma is_prefix_firstn (p P : list string) :
  is_prefix p P = true -> p = firstn (length p) P.
Proof.
  revert P. induction p as [|x p IH]; intros [|y P] Q; cbn [length firstn];
    try reflexivity; [discriminate Q|].
  cbn [is_prefix] in Q. apply andb_true_iff in Q. destruct Q as [E Q].
  apply String.eqb_eq in E. subst y. now rewrite <- (IH P Q).
Qed.

Lemma clear_checked (P : list string) (d : node) :
  forallb (fun n => match lookup (firstn n P) d with
                    | Some (File _) => false
                    | _ => true
                    end) (seq 0 (S (length P))) = true ->
  forall p c, is_prefix p P = true -> lookup p d <> Some (File c).
Proof.
  intros Ch p c Q L. rewrite forallb_forall in Ch.
  pose proof (RunFacts.is_prefix_length p P Q) as Le.
  specialize (Ch (length p)). rewrite <- (is_prefix_firstn p P Q), L in Ch.
  assert (I : In (length p) (seq 0 (S (length P)))) by (apply in_seq; lia).
  specialize (Ch I). discriminate Ch.
Qed.

Lemma query_and_add_resolve_alike_witness :
  (In "component" SUPPORTED
   /\ pascal_case_spec "Button" = true
   /\ startsWith "/" (cwd (Fixture.project Fixture.atomicConfig [])) = true
   /\ configured Fixture.decode (Fixture.project Fixture.atomicConfig []) Fixture.atomicConfig
   /\ structureOf Fixture.reactStructures Fixture.nextjsStructures Fixture.atomicConfig
      = Some Fixture.nextjsAtomicDesign
   /\ (pattern Fixture.atomicConfig = "atomic-design" ->
       (if given (Some "molecule") then Some "molecule" else Some "atom") = Some "molecule"))
  /\ exists r t w',
       handleResolveResourcePath Fixture.reactStructures Fixture.nextjsStructures
         Fixture.decode "component" "Button" (Some "molecule") "/proj"
         (Fixture.project Fixture.atomicConfig [])
       = (Ret (Reply.ResourcePath r), w')
       /\ addTarget "component" "Button" Fixture.atomicConfig Fixture.nextjsAtomicDesign
            "/proj" "molecule" = Some t
       /\ dir t = Path.join ["/proj"; Reply.directory r]
       /\ keys (body t) = Reply.files r
       /\ fst (addCommand Fixture.reactStructures Fixture.nextjsStructures Fixture.decode
                 "component" "Button" "molecule" (Fixture.project Fixture.atomicConfig []))
          = Ret tt
       /\ forall f, In f (Reply.files r) ->
                    peek (Path.join [Path.join ["/proj"; Reply.directory r]; f])
                      (snd (addCommand Fixture.reactStructures Fixture.nextjsStructures
                              Fixture.decode "component" "Button" "molecule"
                              (Fixture.project Fixture.atomicConfig [])))
                    <> None.
Proof.
  assert (T : In "component" SUPPORTED) by (left; reflexivity).
  assert (H : configured Fixture.decode (Fixture.project Fixture.atomicConfig [])
                Fixture.atomicConfig).
  { exists (Fixture.encode Fixture.atomicConfig). split; vm_compute; reflexivity. }
  assert (S : structureOf Fixture.reactStructures Fixture.nextjsStructures
                Fixture.atomicConfig = Some Fixture.nextjsAtomicDesign) by reflexivity.
  assert (L : pattern Fixture.atomicConfig = "atomic-design" ->
              (if given (Some "molecule") then Some "molecule" else Some "atom")
              = Some "molecule") by reflexivity.
  assert (R : addCommand Fixture.reactStructures Fixture.nextjsStructures Fixture.decode
                "component" "Button" "molecule" (Fixture.project Fixture.atomicConfig [])
              = (Ret tt,
                 snd (addCommand Fixture.reactStructures Fixture.nextjsStructures
                        Fixture.decode "component" "Button" "molecule"
                        (Fixture.project Fixture.atomicConfig []))))
    by (vm_compute; reflexivity).
  split; [exact (conj T (conj eq_refl (conj eq_refl (conj H (conj S L)))))|].
  pose proof (query_and_add_resolve_alike
                Fixture.reactStructures Fixture.nextjsStructures Fixture.decode
                "component" "Button" (Some "molecule") "molecule"
                Fixture.atomicConfig Fixture.nextjsAtomicDesign
                (Fixture.project Fixture.atomicConfig []) T eq_refl eq_refl H S L) as X.
  cbv zeta in X.
  destruct X as [(r & t & E & Tg & Dt & Ks & _ & _ & Written & _)|[(X & _)|(X & _)]];
    [|discriminate X|discriminate X].
  exists r, t. eexists. split; [exact E|]. split; [exact Tg|]. split; [exact Dt|].
  split; [exact Ks|]. split; [now rewrite R|].
  intros f I. destruct (Written _ R) as (_ & W & _).
  destruct (W f I) as (text & _ & P).
  intros N. change (cwd (Fixture.project Fixture.atomicConfig [])) with "/proj" in P.
  rewrite P in N. discriminate N.
Defined.



Lemma api_needs_nextjs_witness :
  (pascal_case_spec "Users" = true
   /\ configured Fixture.decode (Fixture.project Fixture.nextConfig []) Fixture.nextConfig
   /\ structureOf Fixture.reactStructures Fixture.nextjsStructures Fixture.nextConfig
      = Some Fixture.nextjsFeatureBased)
  /\ (exists r w',
         handleResolveResourcePath Fixture.reactStructures Fixture.nextjsStructures
           Fixture.decode "api" "Users" None "/proj" (Fixture.project Fixture.nextConfig [])
         = (Ret (Reply.ResourcePath r), w')
         /\ Reply.directory r = "app/api/users"
         /\ Reply.files r = ["route.ts"])
  /\ (exists w' text,
         addCommand Fixture.reactStructures Fixture.nextjsStructures Fixture.decode
           "api" "Users" "" (Fixture.project Fixture.nextConfig []) = (Ret tt, w')
         /\ subtree "/proj/app/api/users" w' <> None
         /\ peek "/proj/app/api/users/route.ts" w' = Some text).
Proof.
  assert (H : configured Fixture.decode (Fixture.project Fixture.nextConfig [])
                Fixture.nextConfig).
  { exists (Fixture.encode Fixture.nextConfig). split; vm_compute; reflexivity. }
  assert (S : structureOf Fixture.reactStructures Fixture.nextjsStructures Fixture.nextConfig
              = Some Fixture.nextjsFeatureBased) by reflexivity.
  split; [exact (conj eq_refl (conj H S))|].
  destruct (api_needs_nextjs Fixture.reactStructures Fixture.nextjsStructures Fixture.decode
              "Users" "" None Fixture.nextConfig Fixture.nextjsFeatureBased
              (Fixture.project Fixture.nextConfig []) eq_refl H S) as [_ Next].
  specialize (Next eq_refl "app/api" eq_refl). cbv zeta in Next.
  destruct Next as [(r & E & D & F & _) Add].
  split.
  - exists r. eexists. split; [exact E|]. split; [exact D | exact F].
  - destruct (Add eq_refl) as (w' & text & R & _ & _ & Present & P & _).
    + vm_compute. reflexivity.
    + apply clear_checked. vm_compute. reflexivity.
    + exists w', text. split; [exact R|]. split; [exact Present | exact P].
Defined.
